(* ===== verification/_CoqProject ===== *)
-Q . S2P
Prelude.v
Float64.v
Encoding.v
Json.v
JsonFacts.v
Decimal.v
World.v
Store.v
StoreFacts.v
StoreSpec.v
Gcm.v
Crypto.v
Netutil.v
Snmp.v
TrapReceiver.v
ConfigApi.v
ConfigApiFacts.v
ConfigSettings.v
ConfigTraps.v
Watcher.v
WatcherFacts.v
Telegraf.v
TelegrafFacts.v
RateLimit.v
Text.v
ChatSql.v
ChatSqlFacts.v
Clock.v
ChatClients.v
ChatTools.v
ChatToolsFacts.v
ChatToolDefs.v
Gemini.v
GeminiFacts.v
ChatHandler.v
ChatHandlerFacts.v
Mux.v
Services.v
ServicesFacts.v
Interleaving.v
System.v
SystemInvariant.v
SystemFacts.v
Provenance.v
Contract.v
Races.v
