(* ===== verification/Prelude.v ===== *)
(** * beacon-v2: a verified model of its four services

    beacon-v2 monitors a small network.  Four Go programs share two SQLite databases and one
    configuration file:

    - trap-receiver stores SNMP traps in the traps database;
    - config-api is the HTTP API over devices, settings and traps, the only one a browser
      talks to; it encrypts credentials before they are stored and probes devices with SNMP;
    - config-watcher discovers devices (the gateway at start, the routing tables of active
      devices later), health-checks them, and keeps telegraf.conf equal to what the devices
      and settings ask for, reloading Telegraf when it changes;
    - chat-api answers questions with a language model that may call four tools, which read
      config-api and InfluxDB.

    This development models the Go code of all four and of the packages under internal/, and
    proves what makes it correct.  Every definition is executable; names are the source's
    where Rocq allows it.

    ** How programs are modelled

    [World.v] has the state the services share ([world]: the devices, settings and traps
    tables, telegraf.conf, the trace of what was sent, and a tick that numbers every
    interaction with code outside the repository) and the monad [IO] the effectful code is
    written in: a program is done, or makes one atomic step on the world (one SQL statement, one
    thing sent or asked) and goes on with what it gave.  [run], a coercion, executes a program
    from start to end; [Interleaving.v] executes any number of them step by step.
    [try* x := c catch e => h in k] is the source's [x, err := c; if err != nil { h }].  Errors are values ([error] below), compared as the source compares them.  Code
    outside the repository is a class whose methods are asked by tick: [DbEnv] (driver faults,
    clock, SQLite's conversions), [SnmpEnv] (gosnmp), [RandEnv] (the random source), [HostEnv]
    (gateway, ICMP socket, files, docker), [HttpEnv], [ClockEnv], [CaseTables] (Unicode
    letters), [TypeNames] (gosnmp's names of PDU types).  What a theorem needs of them is a
    named hypothesis or a class of its own, such as [FullReads] and [SteadySnmp].  [io_steps R m]
    says that every step of [m] is in the relation [R], whatever other programs did before it,
    and [returns Q m] what [m] can return then; the frame, trace and invariant lemmas of one
    operation are instances of one lemma over such an [R].

    ** Files

    Shared: [Prelude] (errors, results, strings, strconv), [Float64] (IEEE doubles as
    encoding/json and fmt print them), [Encoding] (hex, base64, UTF-8), [Json], [JsonFacts]
    (encoding/json both ways, and the round trip), [Decimal] (integers through a float64 and
    back), [World].

    - internal/store: [Store] (devices.go, settings.go, traps.go, schema.go, one SQL statement
      per definition and step, those of a schema one by one, with SQLite's affinity and
      constraints), [StoreFacts] (the table's
      invariant), [StoreSpec] (an abstract store, finite maps by id, that it refines: C1 to C3).
    - internal/crypto: [Gcm] (AES-256-GCM itself), [Crypto] (C5, C6).
    - internal/netutil: [Netutil] (net.ParseIP, the RFC 1918 blocks and loopback: C7).
    - internal/snmp: [Snmp] (probe.go, routes.go, trapnames.go: C8, C9).
    - trap-receiver: [TrapReceiver] (handler.go: C11, C12).
    - config-api: [ConfigApi], [ConfigApiFacts] (handlers/devices.go: C13 to C16),
      [ConfigSettings] (settings.go: C18), [ConfigTraps] (C20, C21).
    - config-watcher: [Watcher], [WatcherFacts] (discovery.go, discovery_sweep.go,
      healthcheck.go: C22 to C24), [Telegraf], [TelegrafFacts] (telegraf_gen.go, reload.go, the
      reconcile of main.go, and the shipped template: C25 to C27).
    - chat-api: [RateLimit] (C28), [Text], [Clock], [ChatSql], [ChatSqlFacts] (schema.go and
      the query builder of tools.go: C29, C30), [ChatClients] (devices.go, influx.go: C31),
      [ChatTools], [ChatToolsFacts], [ChatToolDefs] (tools.go: C32, C33), [Gemini],
      [GeminiFacts] (gemini.go: C35), [ChatHandler], [ChatHandlerFacts] (handler.go: C36).
    - the main functions: [Mux] (net/http's ServeMux as they use it, withCORS, envOrDefault),
      [Services] (start-up, routes and jobs, a Module per service), [ServicesFacts] (C37, C38).
    - the deployment: [Interleaving] (pools of programs that run at the same time, or are killed
      half way), [System] (the actions of the services, the states they reach from blank volumes
      one after the other and interleaved, and what a relation must permit to hold of all they
      do), [SystemInvariant] (three such relations: the invariant, what an id means, the types
      of the columns), [SystemFacts] (C4, C10, C39, C40), [Provenance] (where
      telegraf.conf comes from: C19), [Contract] (chat-api as a client of
      config-api, over the JSON between them: C17), [Races] (C34).

    ** What the theorems show

    - The store: refinement of a finite map, order independence of partial updates, what is
      created is read back, deletion is final.
    - Secrets: encryption round trip, refusal of another tag, exactly which keys and stored
      values are accepted; what the two GETs of devices answer does not depend on a stored
      credential; in every state of the deployment, however its requests and jobs interleave
      and wherever a process dies, every stored device credential is a ciphertext under its
      key, which the watcher can decrypt (C39).
    - Devices: the default credentials are tried in order; what a POST and a PATCH do to the
      table, branch by branch, with the status decided by the probe, and two ways a PATCH goes
      wrong; short of the first of these, the table keeps its types and can always be
      listed (C4); an id names one device for ever, whatever the jobs under way still write
      (C10); a sweep adds at most ten devices, private ones, and sends credentials only
      where it may; a health check gives each device the status its credentials earn.
    - Telegraf: what is rendered, when it is written and reloaded, that it converges; a device
      posted to config-api that answers SNMP is polled after the next reconcile (C40); whatever
      runs at the same time, the file is the rendering of what was stored at some moment (C19).
    - Traps: identity, storage order and payload of a trap, or that it leaves no trace; the
      interface shown, with the number of an interface in decimal below a million only, and the
      device shown.
    - Chat: the limiter equals one that remembers everything and bounds any window; queries
      cannot be injected into; throughput is right across counter wrap-around; tools only
      read; a chat makes at most eight requests to the model, and clients have a budget.
    - Between services: what chat-api reads is what config-api has stored, and it asks InfluxDB
      about nothing else (C17); a health check decides by the devices it listed, and so
      overwrites the result of a PATCH that came while it ran (C34).
    - Requests: what each route can change (C37); the watcher's periods and their overflow
      (C38).

    ** Bounds and fuel

    The JSON scanner runs on fuel that is twice the length of its input plus two, which is
    proved to be enough ([JsonFacts]); the sorting loops of rank_devices run on the length of the list, as the
    Go loops do; the chat loop runs on maxToolIterations, which is the source's own bound.
    Integers are kept in their width where they are computed with: int64 in strconv, in the
    AUTOINCREMENT ids and in time.Duration, the 32-bit counters of the rate query.  Floats are
    SpecFloat binary64.

    ** Not modelled

    Sockets, signals and graceful shutdown (a killed process is a program removed from its pool;
    a deadline of a client that passes is an error its environment answers); log lines; the
    memory of one process shared by its goroutines, of which there is only the limiter of
    chat-api, whose mutex makes [allow] one step; rows that
    other programs write into the databases; JSON object keys repeated with slice values;
    template actions the shipped template does not use; the status code of the mux's redirect
    to a cleaned path; the Grafana dashboards, the chat panel's page and the shell scripts. *)

From Stdlib Require Export ZArith Lia Ascii.
From stdpp Require Export base option list strings gmap pretty.

(** * Go errors and fallible results

    An error message is kept as its list of formatted pieces: literal text and
    [%s]/[%v] arguments ([FStr]), [%q] arguments ([FQuote]), [%d] arguments ([FInt]).
    The package-level sentinel errors are constructors of their own, since the code
    compares them by identity. *)
Inductive frag :=
| FStr (s : string)
| FQuote (s : string)
| FInt (z : Z).

Inductive error :=
| ErrNotFound                 (* store.ErrNotFound *)
| ErrEmptyKey                 (* crypto.ErrEmptyKey *)
| ErrProbeFailed              (* snmp.ErrProbeFailed *)
| ErrNoRows                   (* sql.ErrNoRows *)
| ENew (msg : list frag)      (* errors.New, or fmt.Errorf without the w verb *)
| EWrap (pre : list frag) (cause : error) (post : list frag). (* fmt.Errorf with the w verb *)

#[export] Instance frag_eq_dec : EqDecision frag.
Proof. solve_decision. Defined.
#[export] Instance error_eq_dec : EqDecision error.
Proof. solve_decision. Defined.

Inductive result (A : Type) :=
| Ok (a : A)
| Err (e : error).
Arguments Ok {A} _.
Arguments Err {A} _.

#[export] Instance result_eq_dec {A} `{EqDecision A} : EqDecision (result A).
Proof. solve_decision. Defined.

(** [errors.Is err sentinel]: the error itself or something it wraps. *)
Fixpoint errors_is (target e : error) : bool :=
  bool_decide (e = target) ||
  match e with
  | EWrap _ c _ => errors_is target c
  | _ => false
  end.

Definition is_ok {A} (r : result A) : bool :=
  match r with Ok _ => true | Err _ => false end.

Definition result_bind {A B} (r : result A) (k : A -> result B) : result B :=
  match r with Ok a => k a | Err e => Err e end.

(** [fmt.Errorf] with a prefix around the error of a failed call. *)
Definition wrap {A} (pre : list frag) (r : result A) : result A :=
  match r with Ok a => Ok a | Err e => Err (EWrap pre e []) end.

Definition of_option {A} (o : option A) (e : error) : result A :=
  match o with Some a => Ok a | None => Err e end.

Declare Scope go_scope.
Delimit Scope go_scope with go.

Notation "x <-? c ;; k" := (result_bind c (fun x => k))
  (at level 100, c at next level, right associativity) : go_scope.
Open Scope go_scope.

Fixpoint result_map {A B} (f : A -> result B) (l : list A) : result (list B) :=
  match l with
  | [] => Ok []
  | x :: l' => y <-? f x;; ys <-? result_map f l';; Ok (y :: ys)
  end.

Lemma result_map_Ok {A B} (f : A -> result B) l ys :
  result_map f l = Ok ys <-> Forall2 (fun x y => f x = Ok y) l ys.
Proof.
  revert ys. induction l as [|x l IH]; intros ys; cbn.
  - split; intros H; [injection H as <-; constructor | by inversion H].
  - destruct (f x) as [y|e] eqn:Hx; cbn.
    + destruct (result_map f l) as [zs|e] eqn:Hl; cbn.
      * split.
        -- intros [= <-]. constructor; [done|]. by apply IH.
        -- inversion 1 as [|? ? ? ? Hy Hr]; subst.
           rewrite Hx in Hy. injection Hy as ->. f_equal. f_equal.
           apply IH in Hr. by injection Hr.
      * split; [done|]. inversion 1 as [|? ? ? ? Hy Hr]; subst.
        apply IH in Hr. done.
    + split; [done|]. inversion 1; subst. congruence.
Qed.

(** Where the error of a sequence comes from. *)
Lemma result_bind_Err {A B} (P : error -> Prop) (r : result A) (k : A -> result B) e :
  (forall e', r = Err e' -> P e') -> (forall a e', k a = Err e' -> P e') ->
  result_bind r k = Err e -> P e.
Proof. intros Hr Hk. destruct r as [a|e']; cbn; [apply Hk|]. intros [= <-]. by apply Hr. Qed.

Lemma length_result_map {A B} (f : A -> result B) l ys :
  result_map f l = Ok ys -> length ys = length l.
Proof. intros H%result_map_Ok. symmetry. by eapply Forall2_length. Qed.

(** A permuted list maps to a permuted result, or fails as well. *)
Lemma result_map_Permutation {A B} (f : A -> result B) l1 l2 :
  Permutation l1 l2 ->
  match result_map f l1, result_map f l2 with
  | Ok y1, Ok y2 => Permutation y1 y2
  | Err _, Err _ => True
  | _, _ => False
  end.
Proof.
  induction 1 as [|x l1 l2 _ IH|x y l|l1 l2 l3 _ IH1 _ IH2]; cbn; [done|..].
  - destruct (f x); cbn; [|done].
    destruct (result_map f l1), (result_map f l2); cbn; try done. by apply Permutation_skip.
  - destruct (f x), (f y); cbn; try done; destruct (result_map f l); cbn; try done.
    apply perm_swap.
  - destruct (result_map f l1), (result_map f l2), (result_map f l3); try done.
    by etransitivity.
Qed.

Lemma filter_all {A} (l : list A) : List.filter (fun _ => true) l = l.
Proof. induction l as [|x l IH]; cbn; congruence. Qed.

(** * Go strings are byte sequences *)

Abbreviation bytes := string (only parsing).

Definition nl : string := String "010" "".
Definition dq : string := String "034" "".
Definition sq : string := "'".

Definition byte_val (c : ascii) : Z := Z.of_N (N_of_ascii c).
Definition byte_of (z : Z) : ascii := ascii_of_N (Z.to_N z).

Lemma byte_val_range c : (0 <= byte_val c < 256)%Z.
Proof. unfold byte_val. pose proof (N_ascii_bounded c). lia. Qed.

Lemma byte_of_val c : byte_of (byte_val c) = c.
Proof. unfold byte_of, byte_val. rewrite N2Z.id. apply ascii_N_embedding. Qed.

Fixpoint str_rev_app (s acc : string) : string :=
  match s with
  | "" => acc
  | String c s' => str_rev_app s' (String c acc)
  end.

Definition str_rev (s : string) : string := str_rev_app s "".

(** [strings.HasPrefix], [strings.TrimSuffix], [strings.Contains]. *)
Definition HasPrefix (s p : string) : bool := String.prefix p s.

Fixpoint strip_prefix (p s : string) : option string :=
  match p, s with
  | "", _ => Some s
  | String a p', String b s' => if Ascii.eqb a b then strip_prefix p' s' else None
  | _, _ => None
  end.

Definition TrimSuffix (s suf : string) : string :=
  match strip_prefix (str_rev suf) (str_rev s) with
  | Some r => str_rev r
  | None => s
  end.

Fixpoint Contains (s sub : string) : bool :=
  HasPrefix s sub ||
  match s with
  | "" => false
  | String _ s' => Contains s' sub
  end.

Fixpoint str_forallb (f : ascii -> bool) (s : string) : bool :=
  match s with
  | "" => true
  | String c s' => f c && str_forallb f s'
  end.

Fixpoint concat_str (l : list string) : string :=
  match l with
  | [] => ""
  | s :: l' => s +:+ concat_str l'
  end.

Fixpoint join (sep : string) (l : list string) : string :=
  match l with
  | [] => ""
  | [s] => s
  | s :: l' => s +:+ sep +:+ join sep l'
  end.

(** Long texts are written with a backquote for each double quote, and as lists of lines. *)
Fixpoint unquote (s : string) : string :=
  match s with
  | "" => ""
  | String "`" s' => dq +:+ unquote s'
  | String c s' => String c (unquote s')
  end.

Definition text (lines : list string) : string := unquote (join nl lines).

(** * Decimal numbers: [strconv] *)

(** [strconv.Itoa] and the [%d] verb. *)
Definition Itoa (z : Z) : string := pretty z.

Definition digit_val (c : ascii) : option Z :=
  let v := (byte_val c - 48)%Z in
  if ((0 <=? v) && (v <=? 9))%Z then Some v else None.

Definition max_uint64 : Z := (2 ^ 64 - 1)%Z.
Definition max_int64 : Z := (2 ^ 63 - 1)%Z.
Definition min_int64 : Z := (- 2 ^ 63)%Z.

Inductive num_error := ErrSyntax | ErrRange.

(** The digit loop of [strconv.ParseUint] at base 10 and 64 bits. *)
Fixpoint parse_uint_loop (n : Z) (s : string) : Z + num_error :=
  match s with
  | "" => inl n
  | String c s' =>
      match digit_val c with
      | None => inr ErrSyntax
      | Some d =>
          if (max_uint64 / 10 + 1 <=? n)%Z then inr ErrRange
          else if (max_uint64 <? 10 * n + d)%Z then inr ErrRange
          else parse_uint_loop (10 * n + d) s'
      end
  end.

Definition parse_uint (s : string) : Z + num_error :=
  match s with "" => inr ErrSyntax | _ => parse_uint_loop 0 s end.

(** [strconv.ParseInt(s, 10, 64)]. *)
Definition parse_int (s : string) : Z + num_error :=
  let '(neg, digits) :=
    match s with
    | String "-" s' => (true, s')
    | String "+" s' => (false, s')
    | _ => (false, s)
    end in
  match s with
  | "" => inr ErrSyntax
  | _ =>
      match parse_uint digits with
      | inr e => inr e
      | inl n =>
          if neg then if (n <=? 2 ^ 63)%Z then inl (- n)%Z else inr ErrRange
          else if (n <? 2 ^ 63)%Z then inl n else inr ErrRange
      end
  end.

Definition num_error_text (e : num_error) : string :=
  match e with
  | ErrSyntax => ": invalid syntax"
  | ErrRange => ": value out of range"
  end.

(** [strconv.Atoi] on a 64-bit platform. *)
Definition Atoi (s : string) : result Z :=
  match parse_int s with
  | inl z => Ok z
  | inr e => Err (ENew [FStr "strconv.Atoi: parsing "; FQuote s; FStr (num_error_text e)])
  end.

Definition ParseInt (s : string) : result Z :=
  match parse_int s with
  | inl z => Ok z
  | inr e => Err (ENew [FStr "strconv.ParseInt: parsing "; FQuote s; FStr (num_error_text e)])
  end.

Lemma digit_val_pretty x :
  (x < 10)%N -> digit_val (pretty_N_char x) = Some (Z.of_N x).
Proof.
  intros Hx.
  assert (x = 0 \/ x = 1 \/ x = 2 \/ x = 3 \/ x = 4 \/ x = 5 \/ x = 6 \/ x = 7
    \/ x = 8 \/ x = 9)%N as Hc by lia.
  destruct_or! Hc; subst; reflexivity.
Qed.

(** Reading back what [pretty_N_go] prints: the digits it pushes are the digits the
    loop consumes, as long as the number stays within 64 bits. *)
Lemma parse_uint_pretty_go x s :
  (Z.of_N x <= max_uint64)%Z ->
  parse_uint_loop 0 (pretty_N_go x s) = parse_uint_loop (Z.of_N x) s.
Proof.
  revert s. induction x as [x IH] using (well_founded_induction N.lt_wf_0).
  intros s Hx. destruct (decide (x = 0)%N) as [->|Hpos]; [done|].
  rewrite pretty_N_go_step by lia. rewrite IH; cycle 1.
  - apply N.div_lt; lia.
  - rewrite N2Z.inj_div. change (Z.of_N 10) with 10%Z.
    etransitivity; [|exact Hx]. apply Z.div_le_upper_bound; lia.
  - cbn -[Z.of_N max_uint64 Z.mul Z.add Z.div].
    rewrite digit_val_pretty by (apply N.mod_lt; lia).
    rewrite N2Z.inj_div, N2Z.inj_mod.
    pose proof (Z.div_mod (Z.of_N x) 10 ltac:(lia)) as Hdm.
    change (Z.of_N 10) with 10%Z.
    rewrite <- Hdm.
    assert (Z.of_N x `div` 10 <= max_uint64 `div` 10)%Z by (apply Z.div_le_mono; lia).
    rewrite (proj2 (Z.leb_gt _ _)) by lia.
    rewrite (proj2 (Z.ltb_ge _ _)) by lia. done.
Qed.

Lemma pretty_N_go_nonempty x s : (0 < x)%N -> pretty_N_go x s <> ""%string.
Proof.
  revert s. induction x as [x IH] using (well_founded_induction N.lt_wf_0).
  intros s Hx. rewrite pretty_N_go_step by lia.
  destruct (decide (x `div` 10 = 0)%N) as [->|Hn]; [done|].
  apply IH; [apply N.div_lt; lia|by apply N.neq_0_lt_0].
Qed.

Lemma parse_uint_pretty x :
  (Z.of_N x <= max_uint64)%Z -> parse_uint (pretty x) = inl (Z.of_N x).
Proof.
  intros Hx. unfold pretty, pretty_N. case_decide as Hz; [by subst|].
  pose proof (pretty_N_go_nonempty x "" ltac:(lia)) as Hne.
  pose proof (parse_uint_pretty_go x "" Hx) as Hp.
  unfold parse_uint. by destruct (pretty_N_go x "").
Qed.

Lemma pretty_N_go_head x s : (0 < x)%N ->
  exists d t, (d < 10)%N /\ pretty_N_go x s = String (pretty_N_char d) t.
Proof.
  revert s. induction x as [x IH] using (well_founded_induction N.lt_wf_0).
  intros s Hx. rewrite pretty_N_go_step by lia.
  destruct (decide (x `div` 10 = 0)%N) as [->|Hn].
  - exists (x mod 10)%N, s. split; [apply N.mod_lt; lia|done].
  - apply IH; [apply N.div_lt; lia|by apply N.neq_0_lt_0].
Qed.

(** [strconv.Atoi] reads back [strconv.Itoa] on every int64. *)
Lemma parse_int_Itoa z :
  (min_int64 <= z <= max_int64)%Z -> parse_int (Itoa z) = inl z.
Proof.
  unfold min_int64, max_int64. intros Hz.
  assert (Hu : forall x, (Z.of_N x <= 2 ^ 63)%Z -> parse_uint (pretty x) = inl (Z.of_N x)).
  { intros x Hx. apply parse_uint_pretty. unfold max_uint64. lia. }
  destruct z as [|p|p]; [reflexivity| |].
  - unfold Itoa. change (pretty (Z.pos p)) with (pretty (N.pos p)).
    pose proof (Hu (N.pos p) ltac:(lia)) as Hp. change (Z.of_N (N.pos p)) with (Z.pos p) in Hp.
    revert Hp. unfold pretty at 1 2, pretty_N. rewrite decide_False by done.
    destruct (pretty_N_go_head (N.pos p) "" ltac:(lia)) as (d & t & Hd & ->).
    intros Hp. unfold parse_int.
    assert (d = 0 \/ d = 1 \/ d = 2 \/ d = 3 \/ d = 4 \/ d = 5 \/ d = 6 \/ d = 7
      \/ d = 8 \/ d = 9)%N as Hc by lia.
    destruct_or! Hc; subst d; cbn -[parse_uint Z.pow] in *; rewrite Hp;
      by rewrite (proj2 (Z.ltb_lt _ _)) by lia.
  - unfold Itoa. change (pretty (Z.neg p)) with (String "-" (pretty (N.pos p))).
    pose proof (Hu (N.pos p) ltac:(lia)) as Hp. revert Hp.
    generalize (pretty (N.pos p)). intros t Hp.
    unfold parse_int. cbn -[parse_uint Z.pow].
    rewrite Hp. by rewrite (proj2 (Z.leb_le _ _)) by lia.
Qed.

Lemma Atoi_Itoa z : (min_int64 <= z <= max_int64)%Z -> Atoi (Itoa z) = Ok z.
Proof. intros Hz. unfold Atoi. by rewrite parse_int_Itoa. Qed.

Lemma Itoa_inj z1 z2 : Itoa z1 = Itoa z2 -> z1 = z2.
Proof. apply (inj pretty). Qed.

(** What [parse_int] accepts is within int64. *)
Lemma parse_uint_loop_nonneg s n z :
  (0 <= n)%Z -> parse_uint_loop n s = inl z -> (0 <= z)%Z.
Proof.
  revert n. induction s as [|c s IH]; intros n Hn; cbn -[Z.mul Z.add Z.div max_uint64].
  - congruence.
  - destruct (digit_val c) as [d|] eqn:Hd; [|done].
    assert (0 <= d)%Z by (unfold digit_val in Hd; case_match; simplify_eq; lia).
    repeat case_match; try done. apply IH. lia.
Qed.

Lemma parse_int_range s z : parse_int s = inl z -> (min_int64 <= z <= max_int64)%Z.
Proof.
  unfold parse_int, min_int64, max_int64. intros H.
  assert (Hg : forall t n, parse_uint t = inl n -> (0 <= n)%Z).
  { intros [|c t] n; [done|]. apply parse_uint_loop_nonneg. lia. }
  repeat case_match; simplify_eq;
    match goal with Hp : parse_uint _ = inl _ |- _ => apply Hg in Hp end; lia.
Qed.

(** * String lemmas shared by the components *)

Lemma str_cons_app c s t : String c s +:+ t = String c (s +:+ t).
Proof. done. Qed.

Lemma str_nil_app t : "" +:+ t = t.
Proof. done. Qed.

Lemma str_app_nil s : s +:+ "" = s.
Proof. induction s as [|c s IH]; [done|]. by rewrite str_cons_app, IH. Qed.

Lemma str_app_assoc s t u : (s +:+ t) +:+ u = s +:+ t +:+ u.
Proof. induction s as [|c s IH]; [done|]. rewrite !str_cons_app. by f_equal. Qed.

Lemma str_length_app s t : String.length (s +:+ t) = (String.length s + String.length t)%nat.
Proof. induction s as [|c s IH]; [done|]. rewrite str_cons_app. cbn. by rewrite IH. Qed.

Lemma concat_str_app l1 l2 : concat_str (l1 ++ l2) = concat_str l1 +:+ concat_str l2.
Proof. induction l1 as [|s l IH]; [done|]. cbn. by rewrite IH, str_app_assoc. Qed.

Lemma strip_prefix_app p s : strip_prefix p (p +:+ s) = Some s.
Proof.
  induction p as [|c p IH]; [done|]. rewrite str_cons_app. cbn. by rewrite Ascii.eqb_refl.
Qed.

Lemma strip_prefix_Some p s r : strip_prefix p s = Some r <-> s = p +:+ r.
Proof.
  split; [|intros ->; apply strip_prefix_app].
  revert s. induction p as [|a p IH]; intros s; cbn; [by intros [= ->]|].
  destruct s as [|b s]; [done|]. destruct (Ascii.eqb_spec a b) as [->|]; [|done].
  intros H%IH. by subst.
Qed.

Lemma str_rev_app_spec s acc : str_rev_app s acc = str_rev s +:+ acc.
Proof.
  unfold str_rev. revert acc. induction s as [|c s IH]; intros acc; [done|]. cbn.
  rewrite IH, (IH (String c "")), str_app_assoc. done.
Qed.

Lemma str_rev_cons c s : str_rev (String c s) = str_rev s +:+ String c "".
Proof. unfold str_rev at 1. cbn. apply str_rev_app_spec. Qed.

Lemma str_rev_append s t : str_rev (s +:+ t) = str_rev t +:+ str_rev s.
Proof.
  induction s as [|c s IH]; [by rewrite str_nil_app, str_app_nil|].
  by rewrite str_cons_app, !str_rev_cons, IH, str_app_assoc.
Qed.

Lemma str_rev_involutive s : str_rev (str_rev s) = s.
Proof.
  induction s as [|c s IH]; [done|]. by rewrite str_rev_cons, str_rev_append, IH.
Qed.

(** [strings.TrimSuffix] removes exactly one occurrence of the suffix, if there is one. *)
Lemma TrimSuffix_app s suf : TrimSuffix (s +:+ suf) suf = s.
Proof.
  unfold TrimSuffix. by rewrite str_rev_append, strip_prefix_app, str_rev_involutive.
Qed.

Lemma TrimSuffix_no s suf : (forall t, s <> t +:+ suf) -> TrimSuffix s suf = s.
Proof.
  intros H. unfold TrimSuffix. destruct (strip_prefix _ _) as [r|] eqn:E; [|done].
  apply strip_prefix_Some in E. destruct (H (str_rev r)).
  by rewrite <- (str_rev_involutive s), E, str_rev_append, str_rev_involutive.
Qed.

Lemma HasPrefix_spec s p : HasPrefix s p = true <-> exists t, s = p +:+ t.
Proof.
  unfold HasPrefix. revert s. induction p as [|a p IH]; intros s; cbn.
  - destruct s; (split; [intros _; by eexists|done]).
  - destruct s as [|b s]; [split; [done|intros [t Ht]]; rewrite str_cons_app in Ht; done|].
    cbn. destruct (ascii_dec a b) as [->|Hne].
    + rewrite IH. split; intros [t Ht]; exists t.
      * by rewrite str_cons_app, Ht.
      * rewrite str_cons_app in Ht. by injection Ht.
    + split; [done|]. intros [t Ht]. rewrite str_cons_app in Ht. by injection Ht as ->.
Qed.

Create Rewrite HintDb go_str.
#[export] Hint Rewrite str_app_assoc str_length_app str_app_nil str_cons_app str_nil_app : go_str.
