(* ===== verification/Float64.v ===== *)
(** IEEE binary64 as Go's [float64]: the Standard Library's executable [SpecFloat]
    numbers at precision 53, with the conversions the source relies on: decimal
    literal to float (correctly rounded, [strconv.ParseFloat]), float to shortest
    decimal ([%g], [fmt.Sprint] and the [encoding/json] encoder), and comparison. *)

From Stdlib Require Import Floats.SpecFloat.
From Stdlib Require Export Floats.SpecFloat.
From S2P Require Import Prelude.
Open Scope Z_scope.

Definition float64 : Type := spec_float.

Definition prec64 : Z := 53.
Definition emax64 : Z := 1024.

Definition F_of_Z (z : Z) : float64 := binary_normalize prec64 emax64 z 0 false.
Definition F0 : float64 := S754_zero false.

Definition Fltb (a b : float64) : bool := SFltb a b.
Definition Fleb (a b : float64) : bool := SFleb a b.
Definition Fmul : float64 -> float64 -> float64 := SFmul prec64 emax64.
Definition Fdiv : float64 -> float64 -> float64 := SFdiv prec64 emax64.

Definition is_nan (f : float64) : bool :=
  match f with S754_nan => true | _ => false end.

#[export] Instance float64_eq_dec : EqDecision float64.
Proof. unfold float64. solve_decision. Defined.

(** ** Decimal to binary *)

(** The float nearest to [(-1)^neg * m * 10^e], for [m] with [nd] decimal digits.
    Exponents far outside the range of binary64 are settled before any power of ten
    is computed. *)
Definition F_of_dec (neg : bool) (m nd e : Z) : float64 :=
  match m with
  | Zpos p =>
      if 400 <? nd + e then S754_infinity neg
      else if nd + e <? -400 then S754_zero neg
      else if 0 <=? e then
        binary_normalize prec64 emax64 (cond_Zopp neg (m * 10 ^ e)) 0 neg
      else
        let '(mz, ez, lz) := SFdiv_core_binary prec64 emax64 m 0 (10 ^ (- e)) 0 in
        binary_round_aux prec64 emax64 neg mz ez lz
  | _ => S754_zero neg
  end.

(** ** Binary to shortest decimal *)

(** A decimal: digits [d1 d2 .. dn] read as [0.d1d2..dn * 10^dp] (Go's decimalSlice). *)
Record decimal := { dec_digits : string; dec_dp : Z }.

(** One candidate precision: [n] digits for the number [num/den] whose leading digit has
    weight [10^p], within the rounding interval [lo, hi] (same denominator). *)
Definition try_digits (num lo hi den p n : Z) (incl : bool) : option Z :=
  let k := p + 1 - n in
  let d' := if 0 <=? k then den * 10 ^ k else den in
  let s := if 0 <=? k then 1 else 10 ^ (- k) in
  let c0 := (num * s) / d' in
  let ok c := if incl then (lo * s <=? c * d') && (c * d' <=? hi * s)
              else (lo * s <? c * d') && (c * d' <? hi * s) in
  let near0 := num * s - c0 * d' <=? (c0 + 1) * d' - num * s in
  match ok c0, ok (c0 + 1) with
  | true, true => Some (if near0 then c0 else c0 + 1)
  | true, false => Some c0
  | false, true => Some (c0 + 1)
  | false, false => None
  end.

Fixpoint search_digits (fuel : nat) (num lo hi den p n : Z) (incl : bool) : Z * Z :=
  match fuel with
  | O => (num / den, n)
  | S f =>
      match try_digits num lo hi den p n incl with
      | Some c => (c, n)
      | None => search_digits f num lo hi den p (n + 1) incl
      end
  end.

Fixpoint strip_zeros (r : string) : string :=
  match r with
  | String "0" r' => strip_zeros r'
  | _ => r
  end.

(** The shortest decimal that rounds to [m * 2^e] (17 digits always do). *)
Definition shortest (m : positive) (e : Z) : decimal :=
  let e2 := e - 2 in
  let sc := if 0 <=? e2 then 2 ^ e2 else 1 in
  let den := if 0 <=? e2 then 1 else 2 ^ (- e2) in
  let num := 4 * Zpos m * sc in
  let lo := (if (Zpos m =? 2 ^ 52) && (-1074 <? e) then 4 * Zpos m - 1
             else 4 * Zpos m - 2) * sc in
  let hi := (4 * Zpos m + 2) * sc in
  let geq p := if 0 <=? p then 10 ^ p * den <=? num else den <=? num * 10 ^ (- p) in
  let p0 := (Z.log2 (Zpos m) + e) * 30103 / 100000 in
  let p := if geq (p0 + 1) then p0 + 1 else if geq p0 then p0 else p0 - 1 in
  let '(c, n) := search_digits 17 num lo hi den p 1 (Z.even (Zpos m)) in
  let s := Itoa c in
  {| dec_digits := str_rev (strip_zeros (str_rev s));
     dec_dp := p + 1 + (Z.of_nat (String.length s) - n) |}.

Fixpoint zeros (n : nat) : string :=
  match n with O => "" | S k => String "0" (zeros k) end.

(** The [%f] layout with exactly the significant digits of [d]. *)
Definition fmt_f (d : decimal) : string :=
  let nd := Z.of_nat (String.length (dec_digits d)) in
  let dp := dec_dp d in
  if dp <=? 0 then "0." +:+ zeros (Z.to_nat (- dp)) +:+ dec_digits d
  else if nd <=? dp then dec_digits d +:+ zeros (Z.to_nat (dp - nd))
  else String.substring 0 (Z.to_nat dp) (dec_digits d) +:+ "."
       +:+ String.substring (Z.to_nat dp) (Z.to_nat (nd - dp)) (dec_digits d).

(** The [%e] layout; [pad] is the least number of exponent digits. *)
Definition fmt_e (pad : nat) (d : decimal) : string :=
  let ex := dec_dp d - 1 in
  let es := Itoa (Z.abs ex) in
  match dec_digits d with
  | "" => ""
  | String c rest =>
      String c "" +:+ (match rest with "" => "" | _ => "." +:+ rest end)
      +:+ (if ex <? 0 then "e-" else "e+")
      +:+ zeros (pad - String.length es) +:+ es
  end.

Definition sign_str (s : bool) : string := if s then "-" else "".

(** [%g] with shortest precision, which is also what [fmt.Sprint] prints. *)
Definition fmt_g (f : float64) : string :=
  match f with
  | S754_zero s => sign_str s +:+ "0"
  | S754_infinity s => if s then "-Inf" else "+Inf"
  | S754_nan => "NaN"
  | S754_finite s m e =>
      let d := shortest m e in
      let ex := dec_dp d - 1 in
      sign_str s +:+ (if (ex <? -4) || (6 <=? ex) then fmt_e 2 d else fmt_f d)
  end.

(** Conversion to an integer: towards zero. *)
Definition F_trunc (f : float64) : Z :=
  match f with
  | S754_finite s m e => cond_Zopp s (if 0 <=? e then Zpos m * 2 ^ e else Zpos m / 2 ^ (- e))
  | _ => 0
  end.
