(* ===== verification/Encoding.v ===== *)
(** Byte-level encodings of the Go standard library that the source uses:
    [encoding/hex], [encoding/base64] (StdEncoding) and [unicode/utf8]. *)

From S2P Require Import Prelude.
Open Scope Z_scope.

(** * Hexadecimal *)

(** A half-byte, most significant bit first. *)
Definition nibble : Type := bool * bool * bool * bool.

Definition nibble_val (n : nibble) : Z :=
  let '(a, b, c, d) := n in 8 * Z.b2z a + 4 * Z.b2z b + 2 * Z.b2z c + Z.b2z d.

Definition nibble_of (z : Z) : nibble :=
  (Z.testbit z 3, Z.testbit z 2, Z.testbit z 1, Z.testbit z 0).

Definition hex_char (n : nibble) : ascii :=
  let v := nibble_val n in byte_of (if v <? 10 then 48 + v else 87 + v).

Definition hex_digit (c : ascii) : option nibble :=
  let v := byte_val c in
  if (48 <=? v) && (v <=? 57) then Some (nibble_of (v - 48))
  else if (97 <=? v) && (v <=? 102) then Some (nibble_of (v - 87))
  else if (65 <=? v) && (v <=? 70) then Some (nibble_of (v - 55))
  else None.

Definition byte_nibbles (c : ascii) : nibble * nibble :=
  match c with
  | Ascii b0 b1 b2 b3 b4 b5 b6 b7 => ((b7, b6, b5, b4), (b3, b2, b1, b0))
  end.

Definition nibbles_byte (h l : nibble) : ascii :=
  let '(b7, b6, b5, b4) := h in
  let '(b3, b2, b1, b0) := l in Ascii b0 b1 b2 b3 b4 b5 b6 b7.

(** [hex.EncodeToString]: lower-case digits, high half first. *)
Fixpoint hex_encode (s : bytes) : string :=
  match s with
  | "" => ""
  | String c s' =>
      let '(h, l) := byte_nibbles c in String (hex_char h) (String (hex_char l) (hex_encode s'))
  end.

(** [hex.DecodeString]: digits of either case; odd lengths and other bytes are errors. *)
Fixpoint hex_decode (s : string) : option bytes :=
  match s with
  | "" => Some ""
  | String a (String b s') =>
      match hex_digit a, hex_digit b, hex_decode s' with
      | Some h, Some l, Some r => Some (String (nibbles_byte h l) r)
      | _, _, _ => None
      end
  | String _ "" => None
  end.

Lemma hex_digit_char n : hex_digit (hex_char n) = Some n.
Proof. destruct n as [[[[] []] []] []]; reflexivity. Qed.

Lemma nibbles_byte_nibbles c : nibbles_byte (byte_nibbles c).1 (byte_nibbles c).2 = c.
Proof. by destruct c. Qed.

Lemma hex_decode_encode s : hex_decode (hex_encode s) = Some s.
Proof.
  induction s as [|c s IH]; [done|]. cbn.
  destruct (byte_nibbles c) as [h l] eqn:Hc. cbn. rewrite !hex_digit_char, IH.
  by rewrite <- (nibbles_byte_nibbles c), Hc.
Qed.

Lemma string_ind2 (P : string -> Prop) :
  P "" -> (forall x, P (String x "")) -> (forall x y s, P s -> P (String x (String y s))) -> forall s, P s.
Proof.
  intros H0 H1 H2 s. enough (P s /\ (forall x, P (String x s))) by tauto.
  induction s as [|c s [Ha Hb]]; [auto|]. split; [apply Hb|]. intros. by apply H2.
Qed.

(** Two hex digits for every byte. *)
Definition all_hex (s : string) : bool :=
  str_forallb (fun c => match hex_digit c with Some _ => true | None => false end) s.

Lemma hex_decode_digits s raw :
  hex_decode s = Some raw -> String.length s = (2 * String.length raw)%nat /\ all_hex s = true.
Proof.
  revert raw. induction s as [|a|a b s IH] using string_ind2; intros raw;
    cbn [hex_decode String.length].
  - by intros [= <-].
  - done.
  - destruct (hex_digit a) as [h|] eqn:Ha; [|done]. destruct (hex_digit b) as [l|] eqn:Hb; [|done].
    destruct (hex_decode s) as [r|]; [|done]. intros [= <-]. destruct (IH r eq_refl) as [Hl Hh].
    cbn [String.length]. split; [lia|].
    unfold all_hex in *. cbn [str_forallb]. by rewrite Ha, Hb, Hh.
Qed.

Lemma hex_decode_None s :
  hex_decode s = None <-> ~ (Nat.Even (String.length s) /\ all_hex s = true).
Proof.
  split.
  - intros Hn [[m Hl] Hh]. revert m Hl Hn Hh.
    induction s as [|a|a b s IH] using string_ind2; intros m;
      cbn [hex_decode String.length]; [done|lia|]. intros Hl.
    unfold all_hex in *. cbn [str_forallb]. destruct (hex_digit a); [|done]. destruct (hex_digit b); [|done].
    cbn [andb].
    destruct (hex_decode s); [done|]. intros _. apply (IH (m - 1)%nat); [lia|done].
  - intros Hn. destruct (hex_decode s) as [raw|] eqn:Hr; [|done]. exfalso. apply Hn.
    apply hex_decode_digits in Hr as [Hl Hh]. split; [by exists (String.length raw)|done].
Qed.

Lemma length_hex_encode s : String.length (hex_encode s) = (2 * String.length s)%nat.
Proof.
  induction s as [|c s IH]; [done|]. cbn. destruct (byte_nibbles c). cbn. lia.
Qed.

(** * Base64, StdEncoding *)

(** A base64 digit: six bits, most significant first. *)
Definition sextet : Type := bool * bool * bool * bool * bool * bool.

Definition sextet_val (s : sextet) : Z :=
  let '(a, b, c, d, e, f) := s in
  32 * Z.b2z a + 16 * Z.b2z b + 8 * Z.b2z c + 4 * Z.b2z d + 2 * Z.b2z e + Z.b2z f.

Definition sextet_of (z : Z) : sextet :=
  (Z.testbit z 5, Z.testbit z 4, Z.testbit z 3, Z.testbit z 2, Z.testbit z 1, Z.testbit z 0).

(** The alphabet [A-Za-z0-9+/]. *)
Definition b64_char (s : sextet) : ascii :=
  let v := sextet_val s in
  byte_of (if v <? 26 then 65 + v else if v <? 52 then 71 + v
           else if v <? 62 then v - 4 else if v =? 62 then 43 else 47).

Definition b64_digit (c : ascii) : option sextet :=
  let v := byte_val c in
  if (65 <=? v) && (v <=? 90) then Some (sextet_of (v - 65))
  else if (97 <=? v) && (v <=? 122) then Some (sextet_of (v - 71))
  else if (48 <=? v) && (v <=? 57) then Some (sextet_of (v + 4))
  else if v =? 43 then Some (sextet_of 62)
  else if v =? 47 then Some (sextet_of 63)
  else None.

Definition pad : ascii := "="%char.

(** Regrouping 3 bytes as 4 sextets and back. *)
Definition sextets3 (x y z : ascii) : sextet * sextet * sextet * sextet :=
  match x, y, z with
  | Ascii a0 a1 a2 a3 a4 a5 a6 a7, Ascii b0 b1 b2 b3 b4 b5 b6 b7,
    Ascii c0 c1 c2 c3 c4 c5 c6 c7 =>
      ((a7, a6, a5, a4, a3, a2), (a1, a0, b7, b6, b5, b4),
       (b3, b2, b1, b0, c7, c6), (c5, c4, c3, c2, c1, c0))
  end.

Definition bytes3 (p q r s : sextet) : ascii * ascii * ascii :=
  let '(a7, a6, a5, a4, a3, a2) := p in
  let '(a1, a0, b7, b6, b5, b4) := q in
  let '(b3, b2, b1, b0, c7, c6) := r in
  let '(c5, c4, c3, c2, c1, c0) := s in
  (Ascii a0 a1 a2 a3 a4 a5 a6 a7, Ascii b0 b1 b2 b3 b4 b5 b6 b7,
   Ascii c0 c1 c2 c3 c4 c5 c6 c7).

Fixpoint b64_encode (s : bytes) : string :=
  match s with
  | "" => ""
  | String x "" =>
      let '(p, q, _, _) := sextets3 x "000" "000" in
      String (b64_char p) (String (b64_char q) (String pad (String pad "")))
  | String x (String y "") =>
      let '(p, q, r, _) := sextets3 x y "000" in
      String (b64_char p) (String (b64_char q) (String (b64_char r) (String pad "")))
  | String x (String y (String z s')) =>
      let '(p, q, r, t) := sextets3 x y z in
      String (b64_char p) (String (b64_char q) (String (b64_char r)
        (String (b64_char t) (b64_encode s'))))
  end.

(** Go's decoder skips carriage returns and line feeds. *)
Fixpoint skip_newlines (s : string) : string :=
  match s with
  | "" => ""
  | String c s' =>
      if (byte_val c =? 10) || (byte_val c =? 13) then skip_newlines s'
      else String c (skip_newlines s')
  end.

(** The quantum loop: groups of four digits; one or two pads only at the very end. The
    bits a pad leaves over are not checked (the encoding is not Strict). *)
Fixpoint b64_quanta (s : string) : option bytes :=
  match s with
  | "" => Some ""
  | String a (String b (String c (String d s'))) =>
      match b64_digit a, b64_digit b with
      | Some p, Some q =>
          match b64_digit c, b64_digit d with
          | Some r, Some t =>
              let '(x, y, z) := bytes3 p q r t in
              match b64_quanta s' with
              | Some rest => Some (String x (String y (String z rest)))
              | None => None
              end
          | Some r, None =>
              if Ascii.eqb d pad then
                let '(x, y, _) := bytes3 p q r (sextet_of 0) in
                match s' with "" => Some (String x (String y "")) | _ => None end
              else None
          | None, _ =>
              if Ascii.eqb c pad && Ascii.eqb d pad then
                let '(x, _, _) := bytes3 p q (sextet_of 0) (sextet_of 0) in
                match s' with "" => Some (String x "") | _ => None end
              else None
          end
      | _, _ => None
      end
  | _ => None
  end.

Definition b64_decode (s : string) : option bytes := b64_quanta (skip_newlines s).

Lemma b64_digit_char s : b64_digit (b64_char s) = Some s.
Proof. destruct s as [[[[[[] []] []] []] []] []]; reflexivity. Qed.

Lemma b64_char_not_newline s :
  (byte_val (b64_char s) =? 10) || (byte_val (b64_char s) =? 13) = false.
Proof. destruct s as [[[[[[] []] []] []] []] []]; reflexivity. Qed.

Lemma bytes3_sextets3 x y z :
  let '(p, q, r, t) := sextets3 x y z in bytes3 p q r t = (x, y, z).
Proof. by destruct x, y, z. Qed.

(** Induction over a string three bytes at a time. *)
Lemma string_ind3 (P : string -> Prop) :
  P "" -> (forall x, P (String x "")) -> (forall x y, P (String x (String y ""))) ->
  (forall x y z s, P s -> P (String x (String y (String z s)))) -> forall s, P s.
Proof.
  intros H0 H1 H2 H3 s.
  enough (P s /\ (forall x, P (String x s)) /\ (forall x y, P (String x (String y s)))) by tauto.
  induction s as [|c s IH]; [tauto|]. destruct IH as (Ha & Hb & Hc).
  split; [apply Hb|split]; [intros; apply Hc|]. intros. by apply H3.
Qed.

Lemma skip_newlines_encode s : skip_newlines (b64_encode s) = b64_encode s.
Proof.
  induction s as [|x|x y|x y z s IH] using string_ind3; [done|..]; cbn -[byte_val Z.eqb];
    destruct (sextets3 _ _ _) as [[[p q] r] t]; cbn -[byte_val Z.eqb];
    rewrite !b64_char_not_newline; cbn; by rewrite ?IH.
Qed.

(** Decoding inverts encoding on every byte string. *)
Lemma b64_decode_encode s : b64_decode (b64_encode s) = Some s.
Proof.
  unfold b64_decode. rewrite skip_newlines_encode.
  induction s as [|x|x y|x y z s IH] using string_ind3; [done|..]; cbn -[sextets3].
  - pose proof (bytes3_sextets3 x "000" "000") as Hb.
    destruct (sextets3 x "000" "000") as [[[p q] r] t] eqn:E.
    assert (r = sextet_of 0 /\ t = sextet_of 0) as [-> ->] by (destruct x; by inversion E).
    cbn -[bytes3]. rewrite !b64_digit_char. cbn -[bytes3 sextet_of]. by rewrite Hb.
  - pose proof (bytes3_sextets3 x y "000") as Hb.
    destruct (sextets3 x y "000") as [[[p q] r] t] eqn:E.
    assert (t = sextet_of 0) as -> by (destruct x, y; by inversion E).
    cbn -[bytes3]. rewrite !b64_digit_char. cbn -[bytes3 sextet_of]. by rewrite Hb.
  - pose proof (bytes3_sextets3 x y z) as Hb.
    destruct (sextets3 x y z) as [[[p q] r] t].
    cbn -[bytes3]. rewrite !b64_digit_char. rewrite Hb, IH. done.
Qed.

Lemma b64_encode_nonempty s : s <> "" -> b64_encode s <> "".
Proof.
  destruct s as [|x [|y [|z s]]]; [done|..]; intros _; cbn -[sextets3];
    by destruct (sextets3 _ _ _) as [[[p q] r] t].
Qed.

(** * UTF-8 *)

Definition in_range (lo hi : Z) (c : ascii) : bool := (lo <=? byte_val c) && (byte_val c <=? hi).

Definition cont (c : ascii) : bool := in_range 128 191 c.

(** Well-formed sequences of two, three and four bytes, after the [acceptRanges] table of
    [unicode/utf8]: no overlong forms, no surrogates, nothing above U+10FFFF. *)
Definition rune2 (a b : ascii) : bool := in_range 194 223 a && cont b.

Definition rune3 (a b c : ascii) : bool :=
  ((in_range 224 224 a && in_range 160 191 b)
   || (in_range 237 237 a && in_range 128 159 b)
   || ((in_range 225 236 a || in_range 238 239 a) && cont b)) && cont c.

Definition rune4 (a b c d : ascii) : bool :=
  ((in_range 240 240 a && in_range 144 191 b)
   || (in_range 244 244 a && in_range 128 143 b)
   || (in_range 241 243 a && cont b)) && cont c && cont d.

(** A string cut into well-formed runes and stray bytes, the way [for range] and
    [utf8.DecodeRuneInString] advance over it. *)
Inductive chunk :=
| Rune (bs : string)
| Bad (c : ascii).

Fixpoint runes (s : string) : list chunk :=
  match s with
  | "" => []
  | String a s1 =>
      if byte_val a <? 128 then Rune (String a "") :: runes s1
      else
        match s1 with
        | "" => [Bad a]
        | String b s2 =>
            if rune2 a b then Rune (String a (String b "")) :: runes s2
            else
              match s2 with
              | "" => Bad a :: runes s1
              | String c s3 =>
                  if rune3 a b c then Rune (String a (String b (String c ""))) :: runes s3
                  else
                    match s3 with
                    | "" => Bad a :: runes s1
                    | String d s4 =>
                        if rune4 a b c d
                        then Rune (String a (String b (String c (String d "")))) :: runes s4
                        else Bad a :: runes s1
                    end
              end
        end
  end.

Definition is_rune (ch : chunk) : bool := match ch with Rune _ => true | Bad _ => false end.
Definition chunk_bytes (ch : chunk) : string :=
  match ch with Rune bs => bs | Bad c => String c "" end.

(** [utf8.Valid]. *)
Definition utf8_Valid (s : bytes) : bool := forallb is_rune (runes s).

Definition is_ascii (s : string) : bool := str_forallb (fun c => byte_val c <? 128) s.

(** Cutting loses nothing. *)
Lemma concat_runes s : concat_str (map chunk_bytes (runes s)) = s.
Proof.
  remember (String.length s) as n eqn:Hn.
  assert (Hle : (String.length s <= n)%nat) by lia. clear Hn. revert s Hle.
  induction n as [|n IH]; intros s Hle.
  { destruct s; cbn in *; [done|lia]. }
  destruct s as [|a s1]; [done|]. cbn in Hle. cbn.
  destruct (byte_val a <? 128); [cbn; rewrite IH by lia; done|].
  destruct s1 as [|b s2]; [done|]. cbn in Hle.
  destruct (rune2 a b); [cbn; rewrite IH by lia; done|].
  destruct s2 as [|c s3]; [cbn [map concat_str]; rewrite IH by (cbn; lia); done|]. cbn in Hle.
  destruct (rune3 a b c); [cbn; rewrite IH by lia; done|].
  destruct s3 as [|d s4]; [cbn [map concat_str]; rewrite IH by (cbn; lia); done|]. cbn in Hle.
  destruct (rune4 a b c d); [cbn; rewrite IH by lia; done|].
  cbn [map concat_str]. rewrite IH by (cbn; lia). done.
Qed.

Lemma utf8_Valid_ascii s : is_ascii s = true -> utf8_Valid s = true.
Proof.
  unfold utf8_Valid. induction s as [|c s IH]; [done|]. unfold is_ascii.
  cbn -[byte_val Z.ltb]. intros [Hc Hs]%andb_prop. rewrite Hc. cbn. by apply IH.
Qed.
