(* ===== verification/Json.v ===== *)
(** [encoding/json] as the source uses it: a syntax tree, the encoder ([json.Marshal] with
    HTML escaping), the scanner and unquoter ([json.Unmarshal], [Decoder.Decode]), Go's
    dynamic values ([any]), and the field matching of struct targets.  The round-trip and
    fuel lemmas at the end are what the components that store and reload JSON rely on. *)

From S2P Require Import Prelude Float64 Encoding.
Open Scope Z_scope.

(** * Values *)

(** A JSON document; a number keeps its literal, since Go decodes it by target type. *)
#[warnings="-register-all"]
Inductive json :=
| JNull
| JBool (b : bool)
| JNum (lit : string)
| JStr (s : string)
| JArr (l : list json)
| JObj (l : list (string * json)).

(** A Go value of type [any], as far as the program makes them. *)
#[warnings="-register-all"]
Inductive any :=
| ANil
| ABool (b : bool)
| AInt (z : Z)
| AFloat (f : float64)
| AStr (s : string)
| ABytes (b : bytes)
| AList (l : list any)
| AMap (m : list (string * any)).

(** The two-value assertion [s, _ := v.(string)]. *)
Definition as_string (v : any) : option string :=
  match v with AStr s => Some s | _ => None end.

Definition as_float (v : any) : option float64 :=
  match v with AFloat f => Some f | _ => None end.

(** [m[key]] on a decoded map: the last binding of a key is the one kept. *)
Fixpoint map_get {A} (m : list (string * A)) (key : string) : option A :=
  match m with
  | [] => None
  | (k, v) :: m' =>
      match map_get m' key with
      | Some v' => Some v'
      | None => if String.eqb k key then Some v else None
      end
  end.

Lemma map_get_In {A} (m : list (string * A)) k v : map_get m k = Some v -> (k, v) ∈ m.
Proof.
  induction m as [|[k' v'] m IH]; [done|]. cbn. destruct (map_get m k) as [u|].
  - intros [= ->]. right. by apply IH.
  - destruct (String.eqb_spec k' k) as [->|]; [|done]. intros [= ->]. by left.
Qed.

(** * Encoding *)

Definition hex4 (z : Z) : string :=
  String (hex_char (nibble_of (z / 4096))) (String (hex_char (nibble_of (z / 256)))
    (String (hex_char (nibble_of (z / 16))) (String (hex_char (nibble_of z)) ""))).

Definition escape_u (z : Z) : string := String "\" (String "u" (hex4 z)).

(** One ASCII byte inside a string literal. *)
Definition escape_byte (c : ascii) : string :=
  let v := byte_val c in
  if (v =? 34) || (v =? 92) then String "\" (String c "")
  else if v =? 8 then "\b" else if v =? 12 then "\f" else if v =? 10 then "\n"
  else if v =? 13 then "\r" else if v =? 9 then "\t"
  else if (v <? 32) || (v =? 60) || (v =? 62) || (v =? 38) then escape_u v
  else String c "".

Definition line_sep : string := String "226" (String "128" (String "168" "")).
Definition para_sep : string := String "226" (String "128" (String "169" "")).
Definition replacement : string := String "239" (String "191" (String "189" "")).

Definition escape_chunk (ch : chunk) : string :=
  match ch with
  | Bad _ => escape_u 65533
  | Rune (String c "") => escape_byte c
  | Rune bs => if String.eqb bs line_sep then escape_u 8232
               else if String.eqb bs para_sep then escape_u 8233 else bs
  end.

Definition escape_body (s : string) : string := concat_str (map escape_chunk (runes s)).

Definition quote (s : string) : string := dq +:+ escape_body s +:+ dq.

Fixpoint print (j : json) : string :=
  match j with
  | JNull => "null"
  | JBool b => if b then "true" else "false"
  | JNum lit => lit
  | JStr s => quote s
  | JArr l => "[" +:+ join "," (map print l) +:+ "]"
  | JObj l => "{" +:+ join "," (map (fun '(k, v) => quote k +:+ ":" +:+ print v) l) +:+ "}"
  end.

(** The encoder's float layout: [%e] outside 1e-6 .. 1e21, with [e-09] written [e-9]. *)
Definition fmt_json (f : float64) : option string :=
  match f with
  | S754_zero s => Some (sign_str s +:+ "0")
  | S754_infinity _ | S754_nan => None
  | S754_finite s m e =>
      let d := shortest m e in
      let ex := dec_dp d - 1 in
      Some (sign_str s +:+
        (if (ex <? -6) then fmt_e 1 d else if 21 <=? ex then fmt_e 2 d else fmt_f d))
  end.

Fixpoint insert_key {A} (kv : string * A) (l : list (string * A)) : list (string * A) :=
  match l with
  | [] => [kv]
  | kv' :: l' =>
      if bool_decide (String.compare kv.1 kv'.1 = Lt) then kv :: l
      else kv' :: insert_key kv l'
  end.

Definition sort_keys {A} (l : list (string * A)) : list (string * A) := foldr insert_key [] l.

(** The entries of a map, given its assignments in order: the last one to a key is kept. *)
Definition map_entries {A} (m : list (string * A)) : list (string * A) :=
  foldr (fun kv l => if existsb (fun kv' => String.eqb kv'.1 kv.1) l then l else kv :: l) [] m.

(** [json.Marshal] of a dynamic value, up to printing; NaN and infinities are errors, map
    keys come out sorted, byte slices as base64. *)
Fixpoint json_of_any (v : any) : result json :=
  match v with
  | ANil => Ok JNull
  | ABool b => Ok (JBool b)
  | AInt z => Ok (JNum (Itoa z))
  | AFloat f => of_option (JNum <$> fmt_json f) (ENew [FStr "json: unsupported value"])
  | AStr s => Ok (JStr s)
  | ABytes b => Ok (JStr (b64_encode b))
  | AList l => l' <-? result_map json_of_any l;; Ok (JArr l')
  | AMap m =>
      m' <-? result_map (fun '(k, v) => j <-? json_of_any v;; Ok (k, j)) m;;
      Ok (JObj (sort_keys (map_entries m')))
  end.

(** * Scanning *)

Definition is_c (a b : ascii) : bool := Ascii.eqb a b.

Definition is_space (c : ascii) : bool :=
  let v := byte_val c in (v =? 32) || (v =? 9) || (v =? 10) || (v =? 13).

Fixpoint skip_ws (s : string) : string :=
  match s with
  | String c s' => if is_space c then skip_ws s' else s
  | "" => ""
  end.

Definition is_digit (c : ascii) : bool := in_range 48 57 c.

Fixpoint span_digits (s : string) : string * string :=
  match s with
  | String c s' =>
      if is_digit c then let '(d, r) := span_digits s' in (String c d, r) else ("", s)
  | "" => ("", "")
  end.

Definition scan_frac (s : string) : option (string * string) :=
  match s with
  | String c s' =>
      if is_c c "." then
        match span_digits s' with
        | ("", _) => None
        | (d, r) => Some (String "." d, r)
        end
      else Some ("", s)
  | "" => Some ("", "")
  end.

Definition scan_sign (s : string) : string * string :=
  match s with
  | String c s' => if is_c c "+" || is_c c "-" then (String c "", s') else ("", s)
  | "" => ("", "")
  end.

Definition scan_exp (s : string) : option (string * string) :=
  match s with
  | String c s' =>
      if is_c c "e" || is_c c "E" then
        let '(sg, s2) := scan_sign s' in
        match span_digits s2 with
        | ("", _) => None
        | (d, r) => Some (String c (sg +:+ d), r)
        end
      else Some ("", s)
  | "" => Some ("", "")
  end.

Definition scan_int (s : string) : option (string * string) :=
  match s with
  | String c s' =>
      if is_c c "0" then Some (String c "", s')
      else match span_digits s with ("", _) => None | dr => Some dr end
  | "" => None
  end.

(** A number literal at the head of the input: sign, integer part, fraction, exponent. *)
Definition scan_number (s : string) : option (string * string) :=
  let '(sg, s1) :=
    match s with
    | String c s' => if is_c c "-" then (String c "", s') else ("", s)
    | "" => ("", "")
    end in
  match scan_int s1 with
  | None => None
  | Some (i, s2) =>
      match scan_frac s2 with
      | None => None
      | Some (f, s3) =>
          match scan_exp s3 with
          | None => None
          | Some (e, s4) => Some (sg +:+ i +:+ f +:+ e, s4)
          end
      end
  end.

(** ** String literals *)

Definition hex_val (c : ascii) : option Z := nibble_val <$> hex_digit c.

Definition getu4 (a b c d : ascii) : option Z :=
  match hex_val a, hex_val b, hex_val c, hex_val d with
  | Some w, Some x, Some y, Some z => Some (4096 * w + 256 * x + 16 * y + z)
  | _, _, _, _ => None
  end.

(** [utf8.AppendRune]. *)
Definition encode_rune (r : Z) : string :=
  if r <? 128 then String (byte_of r) ""
  else if r <? 2048 then String (byte_of (192 + r / 64)) (String (byte_of (128 + r mod 64)) "")
  else if r <? 65536 then
    String (byte_of (224 + r / 4096)) (String (byte_of (128 + r / 64 mod 64))
      (String (byte_of (128 + r mod 64)) ""))
  else
    String (byte_of (240 + r / 262144)) (String (byte_of (128 + r / 4096 mod 64))
      (String (byte_of (128 + r / 64 mod 64)) (String (byte_of (128 + r mod 64)) ""))).

Definition is_surrogate (r : Z) : bool := (55296 <=? r) && (r <? 57344).

(** [utf16.DecodeRune] of a surrogate pair. *)
Definition decode_pair (r1 r2 : Z) : option Z :=
  if (r1 <? 56320) && (56320 <=? r2) && (r2 <? 57344)
  then Some ((r1 - 55296) * 1024 + (r2 - 56320) + 65536) else None.

Definition simple_escape (c : ascii) : option ascii :=
  let v := byte_val c in
  if (v =? 34) || (v =? 92) || (v =? 47) then Some c
  else if v =? 98 then Some (byte_of 8) else if v =? 102 then Some (byte_of 12)
  else if v =? 110 then Some (byte_of 10) else if v =? 114 then Some (byte_of 13)
  else if v =? 116 then Some (byte_of 9) else None.

Definition prepend {A} (p : string) (o : option (string * A)) : option (string * A) :=
  match o with Some (s, r) => Some (p +:+ s, r) | None => None end.

(** The rest of a string literal after its opening quote: the decoded text and what
    follows the closing quote. Stray bytes and lone surrogates become U+FFFD. *)
Fixpoint scan_str (s : string) : option (string * string) :=
  match s with
  | "" => None
  | String a s1 =>
      if byte_val a =? 34 then Some ("", s1)
      else if byte_val a <? 32 then None
      else if byte_val a =? 92 then
        match s1 with
        | "" => None
        | String e s2 =>
            if is_c e "u" then
              match s2 with
              | String h1 (String h2 (String h3 (String h4 s3))) =>
                  match getu4 h1 h2 h3 h4 with
                  | None => None
                  | Some r =>
                      if is_surrogate r then
                        match s3 with
                        | String b1 (String b2 (String g1 (String g2 (String g3 (String g4 s4))))) =>
                            match (if is_c b1 "\" && is_c b2 "u" then getu4 g1 g2 g3 g4 else None)
                                  ≫= decode_pair r with
                            | Some rr => prepend (encode_rune rr) (scan_str s4)
                            | None => prepend replacement (scan_str s3)
                            end
                        | _ => prepend replacement (scan_str s3)
                        end
                      else prepend (encode_rune r) (scan_str s3)
                  end
              | _ => None
              end
            else
              match simple_escape e with
              | Some c => prepend (String c "") (scan_str s2)
              | None => None
              end
        end
      else if byte_val a <? 128 then prepend (String a "") (scan_str s1)
      else
        match s1 with
        | "" => None
        | String b s2 =>
            if rune2 a b then prepend (String a (String b "")) (scan_str s2)
            else
              match s2 with
              | "" => prepend replacement (scan_str s1)
              | String c s3 =>
                  if rune3 a b c then prepend (String a (String b (String c ""))) (scan_str s3)
                  else
                    match s3 with
                    | "" => prepend replacement (scan_str s1)
                    | String d s4 =>
                        if rune4 a b c d
                        then prepend (String a (String b (String c (String d "")))) (scan_str s4)
                        else prepend replacement (scan_str s1)
                    end
              end
        end
  end.

(** ** Documents *)

Definition max_nesting : Z := 10000.

(** [n] is fuel; [depth] is the number of open arrays and objects. *)
Fixpoint parse_value (n : nat) (depth : Z) (s : string) {struct n} : option (json * string) :=
  match n with
  | O => None
  | S n =>
      match skip_ws s with
      | "" => None
      | String c s1 as s0 =>
          if byte_val c =? 123 then
            if max_nesting <=? depth then None
            else
              match strip_prefix "}" (skip_ws s1) with
              | Some r => Some (JObj [], r)
              | None =>
                  match parse_members n (depth + 1) (skip_ws s1) with
                  | Some (l, r) => Some (JObj l, r)
                  | None => None
                  end
              end
          else if byte_val c =? 91 then
            if max_nesting <=? depth then None
            else
              match strip_prefix "]" (skip_ws s1) with
              | Some r => Some (JArr [], r)
              | None =>
                  match parse_elements n (depth + 1) (skip_ws s1) with
                  | Some (l, r) => Some (JArr l, r)
                  | None => None
                  end
              end
          else if byte_val c =? 34 then
            match scan_str s1 with Some (t, r) => Some (JStr t, r) | None => None end
          else if is_digit c || is_c c "-" then
            match scan_number s0 with Some (l, r) => Some (JNum l, r) | None => None end
          else
            match strip_prefix "true" s0, strip_prefix "false" s0, strip_prefix "null" s0 with
            | Some r, _, _ => Some (JBool true, r)
            | _, Some r, _ => Some (JBool false, r)
            | _, _, Some r => Some (JNull, r)
            | _, _, _ => None
            end
      end
  end
with parse_elements (n : nat) (depth : Z) (s : string) {struct n} : option (list json * string) :=
  match n with
  | O => None
  | S n =>
      match parse_value n depth s with
      | None => None
      | Some (v, r) =>
          match skip_ws r with
          | "" => None
          | String c r1 =>
              if byte_val c =? 44 then
                match parse_elements n depth r1 with
                | Some (l, r2) => Some (v :: l, r2)
                | None => None
                end
              else if byte_val c =? 93 then Some ([v], r1)
              else None
          end
      end
  end
with parse_members (n : nat) (depth : Z) (s : string) {struct n}
    : option (list (string * json) * string) :=
  match n with
  | O => None
  | S n =>
      match strip_prefix dq (skip_ws s) with
      | None => None
      | Some s1 =>
          match scan_str s1 with
          | None => None
          | Some (k, r) =>
              match strip_prefix ":" (skip_ws r) with
              | None => None
              | Some r1 =>
                  match parse_value n depth r1 with
                  | None => None
                  | Some (v, r2) =>
                      match skip_ws r2 with
                      | "" => None
                      | String c r3 =>
                          if byte_val c =? 44 then
                            match parse_members n depth r3 with
                            | Some (l, r4) => Some ((k, v) :: l, r4)
                            | None => None
                            end
                          else if byte_val c =? 125 then Some ([(k, v)], r3)
                          else None
                      end
                  end
              end
          end
      end
  end.

(** Twice the input length is enough fuel: see [parse_value_fuel]. *)
Definition fuel_for (s : string) : nat := (2 * String.length s + 2)%nat.

Definition json_syntax : error := ENew [FStr "invalid JSON"].

(** [json.Unmarshal]'s syntax check: one document and nothing but blanks after it. *)
Definition parse_all (s : string) : result json :=
  match parse_value (fuel_for s) 0 s with
  | Some (j, r) => match skip_ws r with "" => Ok j | _ => Err json_syntax end
  | None => Err json_syntax
  end.

(** [json.NewDecoder(body).Decode]: the first document; what follows is not read. *)
Definition parse_first (s : string) : result json :=
  match parse_value (fuel_for s) 0 s with
  | Some (j, _) => Ok j
  | None => Err json_syntax
  end.

(** ** Numbers by target type *)

Fixpoint digits_value (acc : Z) (s : string) : Z :=
  match s with
  | String c s' => if is_digit c then digits_value (10 * acc + (byte_val c - 48)) s'
                   else digits_value acc s'
  | "" => acc
  end.

(** [strconv.ParseFloat] of a scanned literal; overflow is an error. *)
Definition lit_float (lit : string) : option float64 :=
  let '(neg, s1) :=
    match strip_prefix "-" lit with Some r => (true, r) | None => (false, lit) end in
  let '(i, s2) := span_digits s1 in
  let '(f, s3) := match strip_prefix "." s2 with Some r => span_digits r | None => ("", s2) end in
  let e :=
    match s3 with
    | String _ s4 =>
        let '(sg, d) := scan_sign s4 in
        let v := digits_value 0 d in if String.eqb sg "-" then - v else v
    | "" => 0
    end in
  let ds := strip_zeros (i +:+ f) in
  match F_of_dec neg (digits_value 0 ds) (Z.of_nat (String.length ds))
          (e - Z.of_nat (String.length f)) with
  | S754_infinity _ => None
  | x => Some x
  end.

Definition json_type_error : error := ENew [FStr "json: cannot unmarshal value"].

(** Decoding into [any]: objects become maps, numbers float64. *)
Fixpoint any_of_json (j : json) : result any :=
  match j with
  | JNull => Ok ANil
  | JBool b => Ok (ABool b)
  | JNum lit => of_option (AFloat <$> lit_float lit) json_type_error
  | JStr s => Ok (AStr s)
  | JArr l => l' <-? result_map any_of_json l;; Ok (AList l')
  | JObj l =>
      m <-? result_map (fun '(k, v) => a <-? any_of_json v;; Ok (k, a)) l;; Ok (AMap m)
  end.

(** Decoding into a [map[string]any] variable: null leaves the nil map. *)
Definition decode_map (j : json) : result (list (string * any)) :=
  match j with
  | JNull => Ok []
  | JObj _ => a <-? any_of_json j;; Ok (match a with AMap m => m | _ => [] end)
  | _ => Err json_type_error
  end.

(** ** Struct targets *)

(** [foldName]: equality of folded names is [bytes.EqualFold]. Besides the ASCII letters,
    U+017F folds to s and U+212A to k. *)
Definition ascii_lower (c : ascii) : ascii :=
  if in_range 65 90 c then byte_of (byte_val c + 32) else c.

Definition long_s : string := String "197" (String "191" "").
Definition kelvin : string := String "226" (String "132" (String "170" "")).

Definition fold_chunk (ch : chunk) : string :=
  match ch with
  | Rune (String c "") => String (ascii_lower c) ""
  | Rune bs => if String.eqb bs long_s then "s" else if String.eqb bs kelvin then "k" else bs
  | Bad c => String c ""
  end.

Definition fold_name (s : string) : string := concat_str (map fold_chunk (runes s)).

(** The field a key decodes into: an exact match first, then a case-insensitive one. *)
Definition match_field (fields : list string) (key : string) : option string :=
  match List.find (String.eqb key) fields with
  | Some f => Some f
  | None => List.find (fun f => String.eqb (fold_name f) (fold_name key)) fields
  end.

(** The members of an object that reach a field, in document order. *)
Definition field_values (fields : list string) (l : list (string * json)) (f : string)
    : list json :=
  omap (fun '(k, v) => if bool_decide (match_field fields k = Some f) then Some v else None) l.

(** The value a string field ends up with: every member assigns in turn, null is skipped,
    any other type is a decoding error. *)
Fixpoint decode_string (cur : string) (l : list json) : result string :=
  match l with
  | [] => Ok cur
  | JNull :: l' => decode_string cur l'
  | JStr s :: l' => decode_string s l'
  | _ :: _ => Err json_type_error
  end.

Fixpoint decode_bool (cur : bool) (l : list json) : result bool :=
  match l with
  | [] => Ok cur
  | JNull :: l' => decode_bool cur l'
  | JBool b :: l' => decode_bool b l'
  | _ :: _ => Err json_type_error
  end.

(** An [int] field takes integer literals within 64 bits only. *)
Fixpoint decode_int (cur : Z) (l : list json) : result Z :=
  match l with
  | [] => Ok cur
  | JNull :: l' => decode_int cur l'
  | JNum lit :: l' =>
      match parse_int lit with inl z => decode_int z l' | inr _ => Err json_type_error end
  | _ :: _ => Err json_type_error
  end.

(** An [any] field keeps the last member, null included. *)
Fixpoint decode_any (cur : any) (l : list json) : result any :=
  match l with
  | [] => Ok cur
  | j :: l' => a <-? any_of_json j;; decode_any a l'
  end.

(** The members of the object a struct is decoded from; null leaves the zero value. *)
Definition decode_members (j : json) : result (list (string * json)) :=
  match j with
  | JNull => Ok []
  | JObj l => Ok l
  | _ => Err json_type_error
  end.

(** A slice that may be nil, which is what null decodes to. *)
Definition decode_nil_slice {A} (elem : json -> result A) (j : json) : result (option (list A)) :=
  match j with
  | JNull => Ok None
  | JArr l => l' <-? result_map elem l;; Ok (Some l')
  | _ => Err json_type_error
  end.

(** A slice target whose nil and empty values need not be told apart. *)
Definition decode_slice {A} (elem : json -> result A) (j : json) : result (list A) :=
  match j with
  | JNull => Ok []
  | JArr l => result_map elem l
  | _ => Err json_type_error
  end.
