(* ===== verification/JsonFacts.v ===== *)
(** Facts about the JSON model of [Json.v]: what the encoder prints, the decoder reads
    back, for any document; and the decoder's fuel is enough. *)

From S2P Require Import Prelude Float64 Encoding Json.
Open Scope Z_scope.

(** What a string becomes on its way through the encoder and decoder: stray bytes are
    replaced by U+FFFD, everything else is kept. *)
Definition norm_chunk (ch : chunk) : string :=
  match ch with Rune bs => bs | Bad _ => replacement end.

Definition norm_str (s : string) : string := concat_str (map norm_chunk (runes s)).

Lemma norm_str_valid s : utf8_Valid s = true -> norm_str s = s.
Proof.
  unfold utf8_Valid, norm_str. intros Hv. rewrite <- (concat_runes s) at 2.
  f_equal. apply map_ext_in. intros ch Hin.
  pose proof (proj1 (forallb_forall _ _) Hv ch Hin) as Hr. by destruct ch.
Qed.

Inductive wf_rune : string -> Prop :=
| wf1 a : (byte_val a <? 128) = true -> wf_rune (String a "")
| wf2 a b : rune2 a b = true -> wf_rune (String a (String b ""))
| wf3 a b c : rune3 a b c = true -> wf_rune (String a (String b (String c "")))
| wf4 a b c d : rune4 a b c d = true ->
    wf_rune (String a (String b (String c (String d "")))).

Lemma runes_wf s : Forall (fun ch => match ch with Rune bs => wf_rune bs | _ => True end) (runes s).
Proof.
  remember (String.length s) as n eqn:Hn.
  assert (Hle : (String.length s <= n)%nat) by lia. clear Hn. revert s Hle.
  induction n as [|n IH]; intros s Hle.
  { destruct s; cbn in *; [constructor|lia]. }
  destruct s as [|a s1]; [constructor|]. cbn in Hle. cbn [runes].
  destruct (byte_val a <? 128) eqn:?; [by constructor; [constructor|apply IH; lia]|].
  destruct s1 as [|b s2]; [by repeat constructor|]. cbn in Hle.
  destruct (rune2 a b) eqn:?; [by constructor; [constructor|apply IH; lia]|].
  destruct s2 as [|c s3]; [constructor; [done|apply IH; cbn; lia]|]. cbn in Hle.
  destruct (rune3 a b c) eqn:?; [by constructor; [constructor|apply IH; lia]|].
  destruct s3 as [|d s4]; [constructor; [done|apply IH; cbn; lia]|]. cbn in Hle.
  destruct (rune4 a b c d) eqn:?; [by constructor; [constructor|apply IH; lia]|].
  constructor; [done|apply IH; cbn; lia].
Qed.

Lemma prepend_prepend {A} p q (o : option (string * A)) :
  prepend p (prepend q o) = prepend (p +:+ q) o.
Proof. destruct o as [[s r]|]; cbn; [by rewrite str_app_assoc|done]. Qed.

Lemma prepend_cons {A} c (o : option (string * A)) :
  prepend (String c "") o = match o with Some (s, r) => Some (String c s, r) | None => None end.
Proof. by destruct o as [[]|]. Qed.

(** ** One escaped chunk *)

Lemma scan_escape_ascii c t :
  (byte_val c <? 128) = true ->
  scan_str (escape_byte c +:+ t) = prepend (String c "") (scan_str t).
Proof.
  intros Hc. destruct c as [[] [] [] [] [] [] [] []]; try discriminate Hc; reflexivity.
Qed.

Ltac byte_ranges :=
  unfold rune2, rune3, rune4, cont, in_range in *;
  repeat match goal with
  | H : (_ && _)%bool = true |- _ => apply andb_prop in H; destruct H
  | H : (_ || _)%bool = true |- _ => apply orb_prop in H; destruct H
  | H : (_ <=? _) = true |- _ => apply Z.leb_le in H
  | H : (_ <? _) = true |- _ => apply Z.ltb_lt in H
  end.

Lemma byte_gt a v : (v < byte_val a) -> (byte_val a =? v) = false.
Proof. intros. apply Z.eqb_neq. lia. Qed.

Lemma rune2_high a b : rune2 a b = true -> 194 <= byte_val a <= 223.
Proof. intros. byte_ranges; lia. Qed.
Lemma rune3_high a b c : rune3 a b c = true -> 224 <= byte_val a <= 239.
Proof. intros. byte_ranges; lia. Qed.
Lemma rune4_high a b c d : rune4 a b c d = true -> 240 <= byte_val a <= 244.
Proof. intros. byte_ranges; lia. Qed.

Lemma rune2_off a b : 223 < byte_val a -> rune2 a b = false.
Proof. intros Ha. destruct (rune2 a b) eqn:E; [|done]. apply rune2_high in E. lia. Qed.
Lemma rune3_off a b c : 239 < byte_val a -> rune3 a b c = false.
Proof. intros Ha. destruct (rune3 a b c) eqn:E; [|done]. apply rune3_high in E. lia. Qed.

(** A well-formed multi-byte rune is copied as it stands. *)
Lemma scan_high a s :
  128 <= byte_val a ->
  scan_str (String a s) =
    match s with
    | "" => None
    | String b s2 =>
        if rune2 a b then prepend (String a (String b "")) (scan_str s2)
        else
          match s2 with
          | "" => prepend replacement (scan_str s)
          | String c s3 =>
              if rune3 a b c then prepend (String a (String b (String c ""))) (scan_str s3)
              else
                match s3 with
                | "" => prepend replacement (scan_str s)
                | String d s4 =>
                    if rune4 a b c d
                    then prepend (String a (String b (String c (String d "")))) (scan_str s4)
                    else prepend replacement (scan_str s)
                end
          end
    end.
Proof.
  intros Ha. cbn [scan_str]. rewrite !byte_gt by lia.
  rewrite !(proj2 (Z.ltb_ge _ _)) by lia. done.
Qed.

(** Only two runes of more than one byte are escaped. *)
Lemma escape_chunk_multi a b s t :
  let bs := String a (String b s) in
  escape_chunk (Rune bs) +:+ t = escape_u 8232 +:+ t /\ bs = line_sep \/
  escape_chunk (Rune bs) +:+ t = escape_u 8233 +:+ t /\ bs = para_sep \/
  escape_chunk (Rune bs) +:+ t = bs +:+ t.
Proof.
  cbn [escape_chunk]. destruct (String.eqb_spec (String a (String b s)) line_sep); [auto|].
  destruct (String.eqb_spec (String a (String b s)) para_sep); auto.
Qed.

Lemma scan_rune bs t :
  wf_rune bs -> scan_str (escape_chunk (Rune bs) +:+ t) = prepend bs (scan_str t).
Proof.
  intros Hwf. destruct Hwf as [a H|a b H|a b c H|a b c d H]; [by apply scan_escape_ascii|..].
  all: edestruct escape_chunk_multi as [[-> ->]|[[-> ->]| ->]]; [reflexivity..|].
  all: rewrite !str_cons_app.
  - pose proof (rune2_high _ _ H). rewrite scan_high by lia. by rewrite H.
  - pose proof (rune3_high _ _ _ H). rewrite scan_high by lia.
    rewrite rune2_off by lia. by rewrite H.
  - pose proof (rune4_high _ _ _ _ H). rewrite scan_high by lia.
    rewrite rune2_off, rune3_off by lia. by rewrite H.
Qed.

Lemma scan_bad c t :
  scan_str (escape_chunk (Bad c) +:+ t) = prepend replacement (scan_str t).
Proof. reflexivity. Qed.

(** A printed string literal reads back as its normal form. *)
Lemma scan_escape_body s rest :
  scan_str (escape_body s +:+ dq +:+ rest) = Some (norm_str s, rest).
Proof.
  unfold escape_body, norm_str. pose proof (runes_wf s) as Hwf.
  induction Hwf as [|ch l Hch _ IH]; [reflexivity|].
  cbn [map concat_str]. rewrite str_app_assoc.
  destruct ch as [bs|c]; [rewrite scan_rune by done|rewrite scan_bad]; rewrite IH; done.
Qed.

(** ** Number literals *)

Definition digit_stop (t : string) : Prop :=
  match t with "" => True | String c _ => is_digit c = false end.

(** What may follow a number without being read as part of it. *)
Definition num_stop (t : string) : Prop :=
  match t with
  | "" => True
  | String c _ =>
      is_digit c = false /\ is_c c "." = false /\ is_c c "e" = false /\ is_c c "E" = false
  end.

Lemma num_stop_digit t : num_stop t -> digit_stop t.
Proof. destruct t; cbn; tauto. Qed.

Lemma span_digits_app s t d r :
  span_digits s = (d, r) -> digit_stop t -> span_digits (s +:+ t) = (d, r +:+ t).
Proof.
  revert d r. induction s as [|c s IH]; intros d r; cbn -[is_digit].
  - intros [= <- <-] Ht. rewrite !str_nil_app. destruct t as [|c t]; [done|]. cbn -[is_digit] in Ht |- *. by rewrite Ht.
  - rewrite str_cons_app. cbn -[is_digit]. destruct (is_digit c).
    + destruct (span_digits s) as [d' r'] eqn:E. intros [= <- <-] Ht.
      by rewrite (IH d' r').
    + by intros [= <- <-] _.
Qed.

Lemma scan_int_app s t i r :
  scan_int s = Some (i, r) -> digit_stop t -> scan_int (s +:+ t) = Some (i, r +:+ t).
Proof.
  destruct s as [|c s]; [done|]. rewrite str_cons_app. unfold scan_int.
  destruct (is_c c "0"); [by intros [= <- <-]|]. rewrite <- str_cons_app.
  destruct (span_digits (String c s)) as [d r'] eqn:E. intros H Ht.
  rewrite (span_digits_app _ _ _ _ E Ht). by destruct d; [|injection H as <- <-].
Qed.

Lemma scan_frac_app s t f r :
  scan_frac s = Some (f, r) -> num_stop t -> scan_frac (s +:+ t) = Some (f, r +:+ t).
Proof.
  intros H Ht. pose proof (num_stop_digit _ Ht) as Hd. destruct s as [|c s].
  - injection H as <- <-. rewrite !str_nil_app. destruct t as [|c t]; [done|]. cbn -[is_c is_digit] in Ht |- *.
    destruct Ht as (_ & -> & _). done.
  - rewrite str_cons_app. cbn -[is_c] in H |- *. destruct (is_c c "."); [|by injection H as <- <-].
    destruct (span_digits s) as [d r'] eqn:E. rewrite (span_digits_app _ _ _ _ E Hd).
    by destruct d; [|injection H as <- <-].
Qed.

Lemma scan_exp_app s t e r :
  scan_exp s = Some (e, r) -> num_stop t -> scan_exp (s +:+ t) = Some (e, r +:+ t).
Proof.
  intros H Ht. pose proof (num_stop_digit _ Ht) as Hd. destruct s as [|c s].
  - injection H as <- <-. rewrite !str_nil_app. destruct t as [|c t]; [done|]. cbn -[is_c is_digit] in Ht |- *.
    destruct Ht as (_ & _ & -> & ->). done.
  - rewrite str_cons_app. cbn -[is_c] in H |- *.
    destruct (is_c c "e" || is_c c "E"); [|by injection H as <- <-].
    destruct s as [|b s]; [done|]. rewrite str_cons_app. cbn -[is_c span_digits] in H |- *.
    destruct (is_c b "+" || is_c b "-"); rewrite <- ?str_cons_app;
      (destruct (span_digits _) as [d r'] eqn:E;
       rewrite (span_digits_app _ _ _ _ E Hd); by destruct d; [|injection H as <- <-]).
Qed.

Lemma scan_number_app s t l r :
  scan_number s = Some (l, r) -> num_stop t -> scan_number (s +:+ t) = Some (l, r +:+ t).
Proof.
  intros H Ht. pose proof (num_stop_digit _ Ht) as Hd. destruct s as [|c s]; [done|].
  rewrite str_cons_app. unfold scan_number in *.
  destruct (is_c c "-"); [|rewrite <- str_cons_app];
    (destruct (scan_int _) as [[i s2]|] eqn:Ei; [|done]; rewrite (scan_int_app _ _ _ _ Ei Hd);
     destruct (scan_frac s2) as [[f s3]|] eqn:Ef; [|done]; rewrite (scan_frac_app _ _ _ _ Ef Ht);
     destruct (scan_exp s3) as [[e s4]|] eqn:Ee; [|done]; rewrite (scan_exp_app _ _ _ _ Ee Ht);
     by injection H as <- <-).
Qed.

Definition num_lit (l : string) : Prop := scan_number l = Some (l, "").

#[export] Instance num_lit_dec l : Decision (num_lit l).
Proof. unfold num_lit. apply _. Defined.

Lemma num_lit_head l : num_lit l ->
  exists c t, l = String c t /\ (is_digit c || is_c c "-") = true.
Proof.
  unfold num_lit. destruct l as [|c t]; [done|]. intros H. exists c, t. split; [done|].
  unfold scan_number in H. destruct (is_c c "-") eqn:Hm; [apply orb_true_r|].
  rewrite orb_false_r. unfold scan_int in H. destruct (is_c c "0") eqn:Hz.
  - apply Ascii.eqb_eq in Hz. by subst.
  - cbn -[is_digit] in H. by destruct (is_digit c).
Qed.

(** Printed integers are literals. *)
Lemma is_digit_pretty x : (x < 10)%N -> is_digit (pretty_N_char x) = true.
Proof.
  intros Hx.
  assert (x = 0 \/ x = 1 \/ x = 2 \/ x = 3 \/ x = 4 \/ x = 5 \/ x = 6 \/ x = 7
    \/ x = 8 \/ x = 9)%N as Hc by lia.
  destruct_or! Hc; subst; reflexivity.
Qed.

Lemma span_pretty_go x s d r :
  span_digits s = (d, r) ->
  exists d', span_digits (pretty_N_go x s) = (d', r) /\ pretty_N_go x s = d' +:+ r /\
    (x <> 0%N -> exists c t, d' = String c t /\ is_c c "0" = false).
Proof.
  revert s d r. induction x as [x IH] using (well_founded_induction N.lt_wf_0).
  intros s d r Hs. destruct (decide (x = 0)%N) as [->|Hx].
  { exists d. split; [done|]. split; [|done]. cbn.
    revert d r Hs. induction s as [|c s IHs]; intros d r; cbn -[is_digit]; [by intros [= <- <-]|].
    destruct (is_digit c); [|by intros [= <- <-]].
    destruct (span_digits s) as [d' r']. intros [= <- <-].
    rewrite str_cons_app. by rewrite <- (IHs d' r'). }
  rewrite pretty_N_go_step by lia.
  assert (Hm : (x mod 10 < 10)%N) by (apply N.mod_lt; lia).
  destruct (IH (x / 10)%N ltac:(apply N.div_lt; lia) (String (pretty_N_char (x mod 10)) s)
    (String (pretty_N_char (x mod 10)) d) r) as (d' & H1 & H2 & H3).
  { cbn -[is_digit]. by rewrite is_digit_pretty, Hs. }
  exists d'. do 2 (split; [done|]). intros _.
  destruct (decide (x / 10 = 0)%N) as [Hz|Hz]; [|by apply H3].
  rewrite Hz, pretty_N_go_0 in H1. cbn -[is_digit] in H1. rewrite is_digit_pretty, Hs in H1 by done.
  injection H1 as <-. eexists _, _. split; [done|].
  assert (x mod 10 <> 0)%N.
  { intros Hm0. apply Hx. pose proof (N.div_mod x 10 ltac:(done)) as Hd.
    by rewrite Hz, Hm0 in Hd. }
  assert (x mod 10 = 1 \/ x mod 10 = 2 \/ x mod 10 = 3 \/ x mod 10 = 4 \/ x mod 10 = 5 \/
    x mod 10 = 6 \/ x mod 10 = 7 \/ x mod 10 = 8 \/ x mod 10 = 9)%N as Hc
    by (revert Hm H; generalize (x mod 10)%N; intros; lia).
  destruct_or! Hc; rewrite Hc; reflexivity.
Qed.

Lemma scan_int_pretty p : scan_int (pretty (N.pos p)) = Some (pretty (N.pos p), "").
Proof.
  unfold pretty, pretty_N. rewrite decide_False by done.
  destruct (span_pretty_go (N.pos p) "" "" "") as (d & H1 & H2 & H3); [done|].
  destruct H3 as (c & t & -> & Hc); [done|]. rewrite H2, str_app_nil in *.
  unfold scan_int. rewrite Hc, H1. done.
Qed.

Lemma num_lit_Itoa z : num_lit (Itoa z).
Proof.
  unfold num_lit, Itoa. destruct z as [|p|p]; [reflexivity| |].
  - change (pretty (Z.pos p)) with (pretty (N.pos p)).
    pose proof (scan_int_pretty p) as Hi. unfold scan_number.
    destruct (pretty (N.pos p)) as [|c t] eqn:E; [done|].
    destruct (is_c c "-") eqn:Hm.
    + apply Ascii.eqb_eq in Hm. subst. cbn in Hi. discriminate Hi.
    + rewrite Hi. cbn. by rewrite !str_app_nil.
  - change (pretty (Z.neg p)) with (String "-" (pretty (N.pos p))).
    unfold scan_number. cbn -[scan_int pretty]. rewrite scan_int_pretty. cbn -[pretty].
    by rewrite str_app_nil.
Qed.

(** ** Documents *)

Lemma json_nested_ind (P : json -> Prop) :
  P JNull -> (forall b, P (JBool b)) -> (forall l, P (JNum l)) -> (forall s, P (JStr s)) ->
  (forall l, Forall P l -> P (JArr l)) ->
  (forall l, Forall (fun kv => P kv.2) l -> P (JObj l)) -> forall j, P j.
Proof.
  intros Hn Hb Hm Hs Ha Ho. fix self 1. intros [|b|l|s|l|l].
  - exact Hn.
  - apply Hb.
  - apply Hm.
  - apply Hs.
  - apply Ha. induction l as [|j l IH]; constructor; [apply self|apply IH].
  - apply Ho. induction l as [|[k j] l IH]; constructor; [apply self|apply IH].
Qed.

(** Documents the encoder prints: number literals are numbers, and at [d] open brackets
    the nesting stays within the decoder's limit. *)
Fixpoint doc (d : Z) (j : json) : bool :=
  match j with
  | JNum l => bool_decide (num_lit l)
  | JArr l => (d <? max_nesting) && forallb (doc (d + 1)) l
  | JObj l => (d <? max_nesting) && forallb (fun '(_, v) => doc (d + 1) v) l
  | _ => true
  end.

Fixpoint norm (j : json) : json :=
  match j with
  | JStr s => JStr (norm_str s)
  | JArr l => JArr (map norm l)
  | JObj l => JObj (map (fun '(k, v) => (norm_str k, norm v)) l)
  | _ => j
  end.

Fixpoint json_valid (j : json) : bool :=
  match j with
  | JStr s => utf8_Valid s
  | JArr l => forallb json_valid l
  | JObj l => forallb (fun '(k, v) => utf8_Valid k && json_valid v) l
  | _ => true
  end.

Lemma norm_valid j : json_valid j = true -> norm j = j.
Proof.
  induction j as [| | |s|l IH|l IH] using json_nested_ind; cbn; try done; intros Hv.
  - by rewrite norm_str_valid.
  - f_equal. induction IH as [|v l Hj _ IHl]; [done|]. cbn in *.
    apply andb_prop in Hv as [H1 H2]. f_equal; auto.
  - f_equal. induction IH as [|[k v] l Hj _ IHl]; [done|]. cbn in *.
    apply andb_prop in Hv as [[Hk H1]%andb_prop H2].
    rewrite norm_str_valid, Hj by done. f_equal. auto.
Qed.

Lemma quote_app s t : quote s +:+ t = dq +:+ escape_body s +:+ dq +:+ t.
Proof. unfold quote. by rewrite !str_app_assoc. Qed.

Lemma print_head d j : doc d j = true ->
  exists c t, print j = String c t /\ is_space c = false /\ (byte_val c =? 93) = false /\
    (byte_val c =? 125) = false.
Proof.
  destruct j as [|[]|l|s|l|l]; cbn -[quote]; intros Hd; [..|by eexists _, _|by eexists _, _];
    [by eexists _, _|by eexists _, _|by eexists _, _| |by eexists _, _].
  apply bool_decide_eq_true in Hd. destruct (num_lit_head l Hd) as (c & t & -> & Hc).
  exists c, t. split; [done|].
  destruct c as [[] [] [] [] [] [] [] []]; try discriminate Hc; done.
Qed.

Lemma skip_ws_print d j r : doc d j = true -> skip_ws (print j +:+ r) = print j +:+ r.
Proof.
  intros Hd. destruct (print_head _ _ Hd) as (c & t & -> & Hs & _).
  rewrite str_cons_app. cbn -[is_space]. by rewrite Hs.
Qed.

Lemma strip_print d j r : doc d j = true -> strip_prefix "]" (print j +:+ r) = None.
Proof.
  intros Hd. destruct (print_head _ _ Hd) as (c & t & -> & _ & Hc & _).
  rewrite str_cons_app. cbn -[Ascii.eqb]. destruct (Ascii.eqb_spec "]" c) as [<-|]; [done|done].
Qed.

Section round_trip.
(** The statement for one document, at the fuel its length calls for. *)
Definition reads_back (j : json) : Prop := forall n d rest,
  doc d j = true -> num_stop rest -> (2 * String.length (print j) + 1 <= n)%nat ->
  parse_value n d (print j +:+ rest) = Some (norm j, rest).

Lemma reads_back_elements l n d rest :
  Forall reads_back l -> l <> [] -> forallb (doc d) l = true ->
  (2 * String.length (join "," (map print l)) + 2 <= n)%nat ->
  parse_elements n d (join "," (map print l) +:+ "]" +:+ rest) = Some (map norm l, rest).
Proof.
  intros Hl. revert n. induction Hl as [|v l Hv Hl IH]; intros n Hne Hd Hn; [done|].
  cbn in Hd. apply andb_prop in Hd as [Hdv Hdl]. destruct n as [|n]; [lia|].
  destruct l as [|v2 l].
  - cbn [map join] in Hn |- *. cbn [parse_elements]. rewrite Hv; [done|done|by cbn|lia].
  - set (tl := join "," (map print (v2 :: l))) in *.
    change (join "," (map print (v :: v2 :: l))) with (print v +:+ "," +:+ tl) in Hn |- *.
    rewrite !str_length_app in Hn. cbn [String.length] in Hn.
    cbn [parse_elements]. rewrite !str_app_assoc. rewrite Hv; [|done|by cbn|lia].
    change (skip_ws ("," +:+ ?x)) with (String "," x). cbn beta iota zeta.
    change (byte_val "," =? 44) with true. cbn beta iota zeta. rewrite IH; [done|done|done|lia].
Qed.

Lemma reads_back_members l n d rest :
  Forall (fun kv => reads_back kv.2) l -> l <> [] ->
  forallb (fun '(_, v) => doc d v) l = true ->
  let body := join "," (map (fun '(k, v) => quote k +:+ ":" +:+ print v) l) in
  (2 * String.length body + 2 <= n)%nat ->
  parse_members n d (body +:+ "}" +:+ rest)
    = Some (map (fun '(k, v) => (norm_str k, norm v)) l, rest).
Proof.
  intros Hl. revert n.
  induction Hl as [|[k v] l Hv Hl IH]; intros n Hne Hd body Hn; [done|].
  cbn in Hd, Hv. apply andb_prop in Hd as [Hdv Hdl]. destruct n as [|n]; [lia|].
  subst body. cbn [parse_members].
  destruct l as [|kv2 l].
  - cbn [map join] in Hn |- *. rewrite !str_length_app in Hn.
    rewrite !str_app_assoc, quote_app. change (skip_ws (dq +:+ ?x)) with (dq +:+ x).
    rewrite strip_prefix_app, scan_escape_body.
    change (skip_ws (":" +:+ ?x)) with (":" +:+ x). rewrite strip_prefix_app.
    rewrite Hv; [done|done|by cbn|lia].
  - set (tl := join "," (map _ (kv2 :: l))) in *.
    change (join "," (map _ ((k, v) :: kv2 :: l)))
      with ((quote k +:+ ":" +:+ print v) +:+ "," +:+ tl) in Hn |- *.
    rewrite !str_length_app in Hn. cbn [String.length] in Hn.
    rewrite !str_app_assoc, quote_app. change (skip_ws (dq +:+ ?x)) with (dq +:+ x).
    rewrite strip_prefix_app, scan_escape_body.
    change (skip_ws (":" +:+ ?x)) with (":" +:+ x). rewrite strip_prefix_app.
    rewrite Hv; [|done|by cbn|lia].
    change (skip_ws ("," +:+ ?x)) with (String "," x). cbn beta iota zeta.
    change (byte_val "," =? 44) with true. cbn beta iota zeta. rewrite IH; [done|done|done|lia].
Qed.

Lemma print_reads_back j : reads_back j.
Proof.
  induction j as [|b|l|s|l IH|l IH] using json_nested_ind; intros n d rest Hd Hs Hn;
    (destruct n as [|n]; [lia|]).
  - reflexivity.
  - by destruct b.
  - cbn in Hd. apply bool_decide_eq_true in Hd.
    destruct (num_lit_head l Hd) as (c & t & -> & Hc).
    pose proof (scan_number_app _ _ _ _ Hd Hs) as Hsc. cbn [print norm].
    rewrite str_nil_app in Hsc. rewrite str_cons_app in *. cbn [parse_value skip_ws].
    assert (is_space c = false /\ (byte_val c =? 123) = false /\ (byte_val c =? 91) = false
      /\ (byte_val c =? 34) = false) as (-> & -> & -> & ->).
    { destruct c as [[] [] [] [] [] [] [] []]; try discriminate Hc; done. }
    by rewrite Hc, Hsc.
  - cbn [print norm]. rewrite quote_app.
    pose proof (scan_escape_body s rest) as Hb. cbn [parse_value].
    set (t := escape_body s +:+ dq +:+ rest) in *.
    change (skip_ws (dq +:+ t)) with (String "034" t).
    cbn -[scan_str t]. by rewrite Hb.
  - cbn in Hd. apply andb_prop in Hd as [Hmax Hd]. apply Z.ltb_lt in Hmax.
    cbn [print norm] in *. rewrite !str_length_app in Hn. cbn [String.length] in Hn.
    rewrite !str_app_assoc. change ("[" +:+ ?x) with (String "[" x).
    cbn [parse_value]. change (skip_ws (String "[" ?x)) with (String "[" x).
    cbn -[skip_ws parse_elements join strip_prefix].
    rewrite (proj2 (Z.leb_gt _ _)) by lia.
    destruct l as [|v l]; [done|]. pose proof Hd as Hd'. cbn in Hd'.
    apply andb_prop in Hd' as [Hv _].
    assert (exists r, join "," (map print (v :: l)) = print v +:+ r) as [r Hr].
    { destruct l; [exists ""; by rewrite str_app_nil|by eexists]. }
    change (join "," (print v :: map print l)) with (join "," (map print (v :: l))) in *.
    rewrite Hr, str_app_assoc, (skip_ws_print (d + 1)), (strip_print (d + 1)) by done.
    rewrite <- str_app_assoc, <- Hr. by rewrite reads_back_elements by (done || lia).
  - cbn in Hd. apply andb_prop in Hd as [Hmax Hd]. apply Z.ltb_lt in Hmax.
    cbn [print norm] in *. rewrite !str_length_app in Hn. cbn [String.length] in Hn.
    rewrite !str_app_assoc. change ("{" +:+ ?x) with (String "{" x).
    cbn [parse_value]. change (skip_ws (String "{" ?x)) with (String "{" x).
    cbn -[skip_ws parse_members join strip_prefix map].
    rewrite (proj2 (Z.leb_gt _ _)) by lia.
    destruct l as [|kv l]; [done|].
    assert (exists r, join "," (map (fun '(k, v) => quote k +:+ ":" +:+ print v) (kv :: l))
      = String "034" r) as [r Hr].
    { destruct kv as [k v]. destruct l; by eexists. }
    rewrite Hr in Hn |- *. rewrite str_cons_app.
    change (skip_ws (String "034" ?x)) with (String "034" x).
    change (strip_prefix "}" (String "034" _)) with (@None string). cbn beta iota.
    rewrite <- str_cons_app, <- Hr.
    rewrite reads_back_members; [done|done|done|done|rewrite Hr; lia].
Qed.
End round_trip.

(** Whatever document the encoder prints, [json.Unmarshal] reads it back. *)
Lemma parse_all_print j : doc 0 j = true -> parse_all (print j) = Ok (norm j).
Proof.
  intros Hd. unfold parse_all, fuel_for.
  rewrite <- (str_app_nil (print j)) at 2. rewrite print_reads_back; [done|done|done|lia].
Qed.

(** [Decoder.Decode] reads it back too, the encoder's trailing newline notwithstanding. *)
Lemma parse_first_print j : doc 0 j = true -> parse_first (print j +:+ nl) = Ok (norm j).
Proof.
  intros Hd. unfold parse_first, fuel_for. rewrite print_reads_back; [done|done|done|].
  rewrite str_length_app. lia.
Qed.

Lemma parse_first_print_bare j : doc 0 j = true -> parse_first (print j) = Ok (norm j).
Proof.
  intros Hd. unfold parse_first, fuel_for.
  rewrite <- (str_app_nil (print j)) at 2. rewrite print_reads_back; [done|done|done|lia].
Qed.

(** Same for a body handed to [json.Unmarshal]. *)
Lemma parse_all_print_nl j : doc 0 j = true -> parse_all (print j +:+ nl) = Ok (norm j).
Proof.
  intros Hd. unfold parse_all, fuel_for. rewrite print_reads_back; [done|done|done|].
  rewrite str_length_app. lia.
Qed.

(** ** The fuel is enough

    Every call consumes input, except that [parse_elements] hands its whole input to
    [parse_value]: twice the length bounds the depth of the recursion. *)

Definition shrinks {A} (f : string -> option (A * string)) : Prop :=
  forall s x r, f s = Some (x, r) -> (String.length r < String.length s)%nat.

Lemma skip_ws_le s : (String.length (skip_ws s) <= String.length s)%nat.
Proof. induction s as [|c s IH]; [done|]. cbn -[is_space]. destruct (is_space c); cbn; lia. Qed.

Lemma strip_prefix_len p s r :
  strip_prefix p s = Some r -> (String.length r + String.length p = String.length s)%nat.
Proof. intros ->%strip_prefix_Some. rewrite str_length_app. lia. Qed.

Lemma prepend_Some {A} p (o : option (string * A)) x r :
  prepend p o = Some (x, r) -> exists y, o = Some (y, r).
Proof. destruct o as [[y r']|]; [|done]. cbn. intros [= <- <-]. eauto. Qed.

Lemma scan_str_shrinks : shrinks scan_str.
Proof.
  intros s. remember (String.length s) as n eqn:Hn. revert s Hn.
  induction n as [n IH] using (well_founded_induction Nat.lt_wf_0). intros s -> x r H.
  assert (Hrec : forall s' p y, prepend p (scan_str s') = Some (y, r) ->
    (String.length s' < String.length s)%nat -> (String.length r < String.length s)%nat).
  { intros s' p y Hp Hl. apply prepend_Some in Hp as [z Hz].
    pose proof (IH _ Hl s' eq_refl _ _ Hz). lia. }
  destruct s as [|a s1]; [done|]. cbn [scan_str] in H.
  repeat first
    [ match type of H with prepend _ (scan_str _) = Some _ =>
        apply (Hrec _ _ _ H); cbn; lia end
    | case_match; try done; simplify_eq; cbn; try lia ].
Qed.

Lemma span_digits_le s d r : span_digits s = (d, r) -> (String.length r <= String.length s)%nat.
Proof.
  revert d r. induction s as [|c s IH]; intros d r; cbn -[is_digit]; [by intros [= <- <-]|].
  destruct (is_digit c); [|by intros [= <- <-]].
  destruct (span_digits s) as [d' r']. intros [= <- <-]. pose proof (IH _ _ eq_refl). lia.
Qed.

Lemma scan_int_shrinks : shrinks scan_int.
Proof.
  intros [|c s] x r; [done|]. unfold scan_int. destruct (is_c c "0").
  { intros [= <- <-]. cbn. lia. }
  cbn -[is_digit]. destruct (is_digit c); [|done].
  destruct (span_digits s) as [d r'] eqn:E. intros [= <- <-].
  pose proof (span_digits_le _ _ _ E). lia.
Qed.

Lemma scan_frac_le s f r : scan_frac s = Some (f, r) -> (String.length r <= String.length s)%nat.
Proof.
  destruct s as [|c s]; cbn -[is_c]; [by intros [= <- <-]|].
  destruct (is_c c "."); [|by intros [= <- <-]].
  destruct (span_digits s) as [d r'] eqn:E. pose proof (span_digits_le _ _ _ E).
  destruct d; [done|]. intros [= <- <-]. lia.
Qed.

Lemma scan_exp_le s e r : scan_exp s = Some (e, r) -> (String.length r <= String.length s)%nat.
Proof.
  destruct s as [|c s]; cbn -[is_c]; [by intros [= <- <-]|].
  destruct (is_c c "e" || is_c c "E"); [|by intros [= <- <-]].
  destruct (scan_sign s) as [sg s2] eqn:Es.
  assert (String.length s2 <= String.length s)%nat.
  { destruct s as [|b s]; cbn -[is_c] in Es; [by injection Es as <- <-|].
    case_match; injection Es as <- <-; cbn; lia. }
  destruct (span_digits s2) as [d r'] eqn:E. pose proof (span_digits_le _ _ _ E).
  destruct d; [done|]. intros [= <- <-]. lia.
Qed.

Lemma scan_number_shrinks : shrinks scan_number.
Proof.
  intros s x r. unfold scan_number. destruct s as [|c s]; [done|].
  destruct (if is_c c "-" then (String c "", s) else ("", String c s)) as [sg s1] eqn:E.
  assert (String.length s1 <= S (String.length s))%nat
    by (destruct (is_c c "-"); injection E as <- <-; cbn; lia).
  destruct (scan_int s1) as [[i s2]|] eqn:Ei; [|done]. apply scan_int_shrinks in Ei.
  destruct (scan_frac s2) as [[f s3]|] eqn:Ef; [|done]. apply scan_frac_le in Ef.
  destruct (scan_exp s3) as [[e s4]|] eqn:Ee; [|done]. apply scan_exp_le in Ee.
  intros [= <- <-]. cbn. lia.
Qed.

(** One statement for the three mutually recursive scanners: they consume input, and any
    fuel above the bound gives the same answer. *)
Definition fuel_ok {A} (k : nat) (f : nat -> string -> option (A * string)) (n : nat) : Prop :=
  forall s x r, f n s = Some (x, r) ->
    (String.length r < String.length s)%nat /\
    forall m, (2 * String.length s + k <= m)%nat -> f m s = Some (x, r).

Lemma parse_fuel_ok n : forall d,
  fuel_ok 1 (fun n => parse_value n d) n /\ fuel_ok 2 (fun n => parse_elements n d) n /\
  fuel_ok 1 (fun n => parse_members n d) n.
Proof.
  induction n as [|n IH]; intros d; [by split_and!|].
  split_and!; intros s x r H; cbn beta in *.
  - cbn [parse_value] in H. pose proof (skip_ws_le s) as Hw.
    destruct (skip_ws s) as [|c s1] eqn:Es; [done|]. cbn [String.length] in Hw.
    enough ((String.length r < S (String.length s1))%nat /\
      forall m, (2 * String.length s <= m)%nat -> parse_value (S m) d s = Some (x, r)) as [Hr Hm].
    { split; [lia|]. intros [|m] Hle; [lia|]. apply Hm. lia. }
    cbn [parse_value]. rewrite Es.
    pose proof (skip_ws_le s1) as Hw1.
    destruct (byte_val c =? 123); [|destruct (byte_val c =? 91);
      [|destruct (byte_val c =? 34); [|destruct (is_digit c || is_c c "-")]]].
    + case_match; [done|]. destruct (strip_prefix "}" _) as [r1|] eqn:Ep.
      { injection H as <- <-. apply strip_prefix_len in Ep. split; [lia|done]. }
      destruct (parse_members n (d + 1) _) as [[l r1]|] eqn:Em; [|done].
      injection H as <- <-. destruct (IH (d + 1)) as (_ & _ & Hmem).
      destruct (Hmem _ _ _ Em) as [Hlt Hfuel]. split; [lia|]. intros m Hm.
      by rewrite Hfuel by lia.
    + case_match; [done|]. destruct (strip_prefix "]" _) as [r1|] eqn:Ep.
      { injection H as <- <-. apply strip_prefix_len in Ep. split; [lia|done]. }
      destruct (parse_elements n (d + 1) _) as [[l r1]|] eqn:Em; [|done].
      injection H as <- <-. destruct (IH (d + 1)) as (_ & Hel & _).
      destruct (Hel _ _ _ Em) as [Hlt Hfuel]. split; [lia|]. intros m Hm.
      by rewrite Hfuel by lia.
    + destruct (scan_str s1) as [[t r1]|] eqn:Et; [|done]. injection H as <- <-.
      apply scan_str_shrinks in Et. split; [lia|done].
    + destruct (scan_number (String c s1)) as [[t r1]|] eqn:Et; [|done]. injection H as <- <-.
      apply scan_number_shrinks in Et. cbn in Et. split; [lia|done].
    + split; [|done]. repeat case_match; try done; simplify_eq;
        match goal with Hp : strip_prefix _ _ = Some _ |- _ => apply strip_prefix_len in Hp end;
        cbn in *; lia.
  - cbn [parse_elements] in H. destruct (IH d) as (Hval & Hel & _).
    destruct (parse_value n d s) as [[v r1]|] eqn:Ev; [|done].
    destruct (Hval _ _ _ Ev) as [Hl1 Hf1]. cbn beta in Hf1. pose proof (skip_ws_le r1) as Hw.
    enough ((String.length r < String.length s)%nat /\
      forall m, (2 * String.length s + 1 <= m)%nat -> parse_elements (S m) d s = Some (x, r))
      as [Hr Hm].
    { split; [lia|]. intros [|m] Hle; [lia|]. apply Hm. lia. }
    cbn [parse_elements]. destruct (skip_ws r1) as [|c r2] eqn:Es; [done|]. cbn in Hw.
    destruct (byte_val c =? 44) eqn:Ec.
    + destruct (parse_elements n d r2) as [[l r3]|] eqn:Ee; [|done]. injection H as <- <-.
      destruct (Hel _ _ _ Ee) as [Hl2 Hf2]. cbn beta in Hf2. split; [lia|]. intros m Hm.
      rewrite Hf1, Es, Ec, Hf2 by lia. done.
    + destruct (byte_val c =? 93) eqn:Ec2; [|done]. injection H as <- <-. split; [lia|].
      intros m Hm. rewrite Hf1, Es, Ec, Ec2 by lia. done.
  - cbn [parse_members] in H. destruct (IH d) as (Hval & _ & Hmem).
    pose proof (skip_ws_le s) as Hw0.
    destruct (strip_prefix dq (skip_ws s)) as [s1|] eqn:E1; [|done].
    pose proof (strip_prefix_len _ _ _ E1). destruct (scan_str s1) as [[k r0]|] eqn:E2; [|done].
    pose proof (scan_str_shrinks _ _ _ E2). pose proof (skip_ws_le r0).
    destruct (strip_prefix ":" (skip_ws r0)) as [s2|] eqn:E3; [|done].
    pose proof (strip_prefix_len _ _ _ E3).
    destruct (parse_value n d s2) as [[v r1]|] eqn:Ev; [|done].
    destruct (Hval _ _ _ Ev) as [Hl1 Hf1]. cbn beta in Hf1. pose proof (skip_ws_le r1) as Hw.
    cbn [String.length dq] in *.
    enough ((String.length r < String.length s)%nat /\
      forall m, (2 * String.length s <= m)%nat -> parse_members (S m) d s = Some (x, r))
      as [Hr Hm].
    { split; [lia|]. intros [|m] Hle; [lia|]. apply Hm. lia. }
    cbn [parse_members]. rewrite E1, E2, E3.
    destruct (skip_ws r1) as [|c r2] eqn:Es; [done|]. cbn in Hw.
    destruct (byte_val c =? 44) eqn:Ec.
    + destruct (parse_members n d r2) as [[l r3]|] eqn:Ee; [|done]. injection H as <- <-.
      destruct (Hmem _ _ _ Ee) as [Hl2 Hf2]. cbn beta in Hf2. split; [lia|]. intros m Hm.
      rewrite Hf1, Es, Ec, Hf2 by lia. done.
    + destruct (byte_val c =? 125) eqn:Ec2; [|done]. injection H as <- <-. split; [lia|].
      intros m Hm. rewrite Hf1, Es, Ec, Ec2 by lia. done.
Qed.

(** If the scanner accepts at all, it accepts with the fuel it is given. *)
Lemma parse_value_fuel n d s x r :
  parse_value n d s = Some (x, r) -> parse_value (fuel_for s) d s = Some (x, r).
Proof.
  intros H. destruct (parse_fuel_ok n d) as (Hv & _ & _).
  destruct (Hv _ _ _ H) as [_ Hf]. apply Hf. unfold fuel_for. lia.
Qed.
