(* ===== verification/Decimal.v ===== *)
(** Integers as JSON numbers: what [strconv.Itoa] writes is read by [strconv.ParseFloat] as the
    float64 with that value, and [fmt.Sprint] prints it back in plain decimal as long as it is
    less than a million, and with an exponent from there on. *)

From S2P Require Import Prelude Float64 Json.
Open Scope Z_scope.

(** * The digits of an integer *)

Definition digit (d : Z) : ascii := pretty_N_char (Z.to_N d).

#[local] Arguments digit : simpl never.
#[local] Arguments is_digit : simpl never.

Lemma pretty_N_go_app x s : pretty_N_go x s = pretty_N_go x "" +:+ s.
Proof.
  revert s. induction x as [x IH] using (well_founded_induction N.lt_wf_0). intros s.
  destruct (decide (x = 0)%N) as [->|Hx]; [done|].
  assert (Hlt : (x `div` 10 < x)%N) by (apply N.div_lt; lia).
  rewrite !(pretty_N_go_step x) by lia. rewrite (IH _ Hlt), (IH _ Hlt (String _ "")).
  by rewrite str_app_assoc.
Qed.

Lemma Itoa_go z : 0 < z -> Itoa z = pretty_N_go (Z.to_N z) "".
Proof.
  intros Hz. destruct z as [|p|p]; try lia. unfold Itoa. change (pretty (Z.pos p)) with (pretty (N.pos p)).
  unfold pretty, pretty_N. by rewrite decide_False.
Qed.

Lemma Itoa_snoc z d : 0 < z -> 0 <= d < 10 -> Itoa (10 * z + d) = Itoa z +:+ String (digit d) "".
Proof.
  intros Hz Hd. rewrite !Itoa_go by lia. rewrite pretty_N_go_step by lia.
  assert (Hdiv : (Z.to_N (10 * z + d) `div` 10 = Z.to_N z)%N).
  { symmetry. apply (N.div_unique _ _ _ (Z.to_N d)); lia. }
  assert (Hmod : (Z.to_N (10 * z + d) `mod` 10 = Z.to_N d)%N).
  { symmetry. apply (N.mod_unique _ _ (Z.to_N z)); lia. }
  rewrite Hdiv, Hmod. apply pretty_N_go_app.
Qed.

(** Appending one digit after the other. *)
Lemma Itoa_ind (P : Z -> Prop) :
  (forall d, 0 < d < 10 -> P d) ->
  (forall z d, 0 < z -> 0 <= d < 10 -> P z -> P (10 * z + d)) -> forall z, 0 < z -> P z.
Proof.
  intros H1 H2 z. induction (Z.lt_wf 0 z) as [z _ IH]. intros Hz.
  destruct (decide (z < 10)) as [Hlt|Hge]; [by apply H1|].
  rewrite (Z.div_mod z 10) by lia. pose proof (Z.mod_pos_bound z 10 ltac:(lia)).
  assert (1 <= z / 10) by (apply Z.div_le_lower_bound; lia).
  assert (z / 10 < z) by (apply Z.div_lt; lia).
  apply H2; [lia..|]. apply IH; lia.
Qed.

Ltac ten_digits d :=
  assert (d = 0 \/ d = 1 \/ d = 2 \/ d = 3 \/ d = 4 \/ d = 5 \/ d = 6 \/ d = 7 \/ d = 8 \/ d = 9)
    as Hten by lia; destruct_or! Hten; subst d.

Lemma digit_spec d : 0 <= d < 10 -> is_digit (digit d) = true /\ byte_val (digit d) - 48 = d.
Proof. intros Hd. by ten_digits d. Qed.

Lemma Itoa_digit d : 0 <= d < 10 -> Itoa d = String (digit d) "".
Proof. intros Hd. by ten_digits d. Qed.

Lemma span_digits_Itoa z : 0 < z -> span_digits (Itoa z) = (Itoa z, "").
Proof.
  assert (Hall : forall s, str_forallb is_digit s = true -> span_digits s = (s, "")).
  { induction s as [|c s IH]; [done|]. cbn. intros [-> Hs]%andb_true_iff. by rewrite IH. }
  intros Hz. apply Hall. revert z Hz. apply Itoa_ind.
  - intros d Hd. rewrite Itoa_digit by lia. cbn. by rewrite (proj1 (digit_spec d ltac:(lia))).
  - intros z d Hz Hd IH. rewrite Itoa_snoc by lia. revert IH. generalize (Itoa z). intros s.
    induction s as [|c s IHs]; [intros _; rewrite str_nil_app; cbn; by rewrite (proj1 (digit_spec d Hd))|].
    rewrite str_cons_app. cbn. intros [-> Hs]%andb_true_iff. by apply IHs.
Qed.

Lemma digits_value_app acc s t : digits_value acc (s +:+ t) = digits_value (digits_value acc s) t.
Proof.
  revert acc. induction s as [|c s IH]; intros acc; [done|]. rewrite str_cons_app.
  cbn -[Z.mul]. destruct (is_digit c); apply IH.
Qed.

Lemma digits_value_digit acc d : 0 <= d < 10 -> digits_value acc (String (digit d) "") = 10 * acc + d.
Proof.
  intros Hd. cbn -[Z.mul]. destruct (digit_spec d Hd) as [-> ->]. done.
Qed.

Lemma digits_value_Itoa z : 0 < z -> digits_value 0 (Itoa z) = z.
Proof.
  revert z. apply Itoa_ind.
  - intros d Hd. rewrite Itoa_digit, digits_value_digit by lia. lia.
  - intros z d Hz Hd IH. by rewrite Itoa_snoc, digits_value_app, IH, digits_value_digit.
Qed.

Lemma length_Itoa z : 0 < z -> forall n : nat, z < 10 ^ Z.of_nat n -> (String.length (Itoa z) <= n)%nat.
Proof.
  revert z. apply (Itoa_ind (fun z => forall n : nat, z < 10 ^ Z.of_nat n -> (String.length (Itoa z) <= n)%nat)).
  - intros d Hd n Hn. rewrite Itoa_digit by lia. destruct n; cbn in *; lia.
  - intros z d Hz Hd IH n Hn. rewrite Itoa_snoc, str_length_app by done. cbn [String.length].
    destruct n as [|n]; [cbn in Hn; lia|]. rewrite Nat2Z.inj_succ, Z.pow_succ_r in Hn by lia.
    specialize (IH n ltac:(lia)). lia.
Qed.

Lemma zeros_app m n : zeros (m + n) = zeros m +:+ zeros n.
Proof. induction m as [|m IH]; [done|]. cbn [zeros Nat.add]. by rewrite IH, str_cons_app. Qed.

Lemma length_zeros n : String.length (zeros n) = n.
Proof. induction n as [|n IH]; cbn; congruence. Qed.

Lemma digits_value_zeros n : digits_value 0 (zeros n) = 0.
Proof. by induction n. Qed.

Lemma Itoa_bound z : 0 < z -> z < 10 ^ Z.of_nat (String.length (Itoa z)).
Proof.
  revert z. apply (Itoa_ind (fun z => z < 10 ^ Z.of_nat (String.length (Itoa z)))).
  - intros d Hd. rewrite Itoa_digit by lia. cbn. lia.
  - intros z d Hz Hd IH. rewrite Itoa_snoc, str_length_app by done. cbn [String.length].
    rewrite Nat.add_1_r, Nat2Z.inj_succ, Z.pow_succ_r; lia.
Qed.

Lemma Itoa_zeros c n : 0 < c -> Itoa (c * 10 ^ Z.of_nat n) = Itoa c +:+ zeros n.
Proof.
  intros Hc. induction n as [|n IH]; [by rewrite Z.mul_1_r, str_app_nil|].
  rewrite Nat2Z.inj_succ, Z.pow_succ_r by lia.
  replace (c * (10 * 10 ^ Z.of_nat n)) with (10 * (c * 10 ^ Z.of_nat n) + 0) by lia.
  rewrite Itoa_snoc by lia. rewrite IH. change (String (digit 0) "") with (zeros 1).
  by rewrite str_app_assoc, <- zeros_app, Nat.add_comm.
Qed.

(** ** Trailing zeros *)

Lemma strip_zeros_prefix s : s = zeros (String.length s - String.length (strip_zeros s)) +:+ strip_zeros s.
Proof.
  assert (Hex : exists n, s = zeros n +:+ strip_zeros s).
  { induction s as [|c s [n IH]]; [by exists O|].
    destruct (ascii_dec c "0") as [->|Hc].
    - exists (S n). cbn [strip_zeros zeros]. rewrite str_cons_app. by f_equal.
    - exists O. destruct c as [[] [] [] [] [] [] [] []]; done. }
  destruct Hex as [n Hn]. rewrite Hn at 2. rewrite str_length_app, length_zeros.
  replace (n + _ - _)%nat with n by lia. exact Hn.
Qed.

Lemma length_str_rev s : String.length (str_rev s) = String.length s.
Proof.
  induction s as [|c s IH]; [done|]. rewrite str_rev_cons, str_length_app, IH. cbn. lia.
Qed.

Lemma str_rev_zeros n : str_rev (zeros n) = zeros n.
Proof.
  induction n as [|n IH]; [done|]. cbn [zeros]. rewrite str_rev_cons, IH.
  change (String "0" "") with (zeros 1). by rewrite <- zeros_app, Nat.add_comm.
Qed.

Definition significant (s : string) : string := str_rev (strip_zeros (str_rev s)).

Lemma significant_spec s : s = significant s +:+ zeros (String.length s - String.length (significant s)).
Proof.
  unfold significant. rewrite length_str_rev, <- (length_str_rev s).
  rewrite <- str_rev_zeros, <- str_rev_append, <- strip_zeros_prefix. by rewrite str_rev_involutive.
Qed.

(** * The float with the value of an integer *)

Lemma log2_digits p : Zpos (digits2_pos p) = Z.log2 (Zpos p) + 1.
Proof.
  assert (Hs : forall p, digits2_pos p = Pos.size p) by (intros q; induction q; cbn; congruence).
  rewrite Hs. destruct p; cbn; lia.
Qed.

Lemma iter_xO m d : Zpos (Pos.iter xO m d) = Zpos m * 2 ^ Zpos d.
Proof.
  induction d as [|d IH] using Pos.peano_ind; [cbn; lia|].
  rewrite Pos.iter_succ, Pos2Z.inj_succ, Z.pow_succ_r by lia. change (Zpos (Pos.iter xO m d)~0) with (2 * Zpos (Pos.iter xO m d)).
  rewrite IH. lia.
Qed.

(** An integer below [2^52] is shifted until it has 53 bits; nothing is rounded. *)
Lemma F_of_int (p : positive) : Z.log2 (Zpos p) < 52 ->
  exists m k, F_of_Z (Zpos p) = S754_finite false m (- k) /\
    Zpos m = Zpos p * 2 ^ k /\ k = 52 - Z.log2 (Zpos p).
Proof.
  intros Hl. pose proof (Z.log2_nonneg (Zpos p)). remember (52 - Z.log2 (Zpos p)) as k eqn:Ek.
  assert (Hk : exists d, k = Zpos d) by (destruct k eqn:E; [lia|by eexists|lia]).
  destruct Hk as [d Hd]. exists (Pos.iter xO p d), k. rewrite iter_xO, <- Hd. split; [|done].
  assert (Hbits : Zpos (digits2_pos (Pos.iter xO p d)) = 53).
  { rewrite log2_digits, iter_xO, Z.log2_mul_pow2 by lia. lia. }
  unfold F_of_Z, binary_normalize, binary_round, prec64, emax64.
  rewrite log2_digits.
  replace (fexp 53 1024 (Z.log2 (Zpos p) + 1 + 0)) with (- k)
    by (unfold fexp, emin; lia).
  unfold shl_align. replace (- k - 0) with (Z.neg d) by lia.
  assert (Hshr : forall z, Zdigits2 z = 53 ->
    shr_fexp 53 1024 z (- k) loc_Exact = ({| shr_m := z; shr_r := false; shr_s := false |}, - k)).
  { intros z Hz. unfold shr_fexp. rewrite Hz.
    replace (fexp 53 1024 (53 + - k) - - k) with 0 by (unfold fexp, emin; lia). done. }
  unfold binary_round_aux. rewrite (Hshr (Zpos (Pos.iter xO p d))) by exact Hbits.
  cbn [shr_m loc_of_shr_record round_nearest_even].
  rewrite (Hshr (Zpos (Pos.iter xO p d))) by exact Hbits. cbn [shr_m].
  by rewrite (proj2 (Z.leb_le _ _)) by lia.
Qed.

(** * Its shortest decimal *)

Section shortest_int.
Context (z den lo hi : Z) (incl : bool) (p : Z).
Context (Hz : 0 < z) (Hden : 2 < den) (Hlo : z * den - 2 <= lo < z * den) (Hhi : z * den < hi <= z * den + 2).

(** Fewer digits will do only if the others are zeros. *)
Lemma try_digits_int n : 0 <= p + 1 - n ->
  let k := 10 ^ (p + 1 - n) in
  try_digits (z * den) lo hi den p n incl = if z mod k =? 0 then Some (z / k) else None.
Proof.
  intros Hn. cbn zeta. set (k := 10 ^ (p + 1 - n)).
  assert (Hk : 0 < k) by (apply Z.pow_pos_nonneg; lia).
  unfold try_digits. cbv zeta. rewrite (proj2 (Z.leb_le 0 (p + 1 - n))) by lia. fold k.
  rewrite !Z.mul_1_r, (Z.mul_comm den k), Z.div_mul_cancel_r by lia.
  pose proof (Z.div_mod z k ltac:(lia)) as Hdm. pose proof (Z.mod_pos_bound z k Hk) as Hm.
  set (c := z / k) in *. set (r := z mod k) in *.
  assert (Hc1 : (if incl then (lo <=? (c + 1) * (k * den)) && ((c + 1) * (k * den) <=? hi)
    else (lo <? (c + 1) * (k * den)) && ((c + 1) * (k * den) <? hi)) = false).
  { assert (Hx : hi < (c + 1) * (k * den)) by nia.
    destruct incl; apply andb_false_iff; right; [apply Z.leb_gt|apply Z.ltb_ge]; lia. }
  rewrite Hc1. destruct (Z.eqb_spec r 0) as [Hr|Hr].
  - assert (Hc0 : (if incl then (lo <=? c * (k * den)) && (c * (k * den) <=? hi)
      else (lo <? c * (k * den)) && (c * (k * den) <? hi)) = true).
    { assert (Hx : c * (k * den) = z * den) by nia. rewrite Hx.
      destruct incl; apply andb_true_iff; split; try apply Z.leb_le; try apply Z.ltb_lt; lia. }
    by rewrite Hc0.
  - assert (Hc0 : (if incl then (lo <=? c * (k * den)) && (c * (k * den) <=? hi)
      else (lo <? c * (k * den)) && (c * (k * den) <? hi)) = false).
    { assert (Hx : c * (k * den) < lo) by nia.
      destruct incl; apply andb_false_iff; left; [apply Z.leb_gt|apply Z.ltb_ge]; lia. }
    by rewrite Hc0.
Qed.

Lemma search_digits_int f n : 1 <= n <= p + 1 -> p + 1 - n < Z.of_nat f ->
  exists (c : Z) (j : nat), search_digits f (z * den) lo hi den p n incl = (c, p + 1 - Z.of_nat j) /\
    c * 10 ^ Z.of_nat j = z.
Proof.
  revert n. induction f as [|f IH]; intros n Hn Hf; [lia|]. cbn [search_digits].
  rewrite try_digits_int by lia. cbn zeta. destruct (Z.eqb_spec (z mod 10 ^ (p + 1 - n)) 0) as [Hm|Hm].
  - exists (z / 10 ^ (p + 1 - n)), (Z.to_nat (p + 1 - n)). rewrite Z2Nat.id by lia.
    split; [f_equal; lia|]. pose proof (Z.div_mod z (10 ^ (p + 1 - n))) as Hdm.
    assert (0 < 10 ^ (p + 1 - n)) by (apply Z.pow_pos_nonneg; lia). lia.
  - destruct (decide (n = p + 1)) as [->|Hne].
    { exfalso. apply Hm. rewrite Z.sub_diag. apply Z.mod_1_r. }
    apply IH; lia.
Qed.
End shortest_int.

Lemma length_Itoa_pos z : 0 < z -> (0 < String.length (Itoa z))%nat.
Proof.
  intros Hz. pose proof (digits_value_Itoa z Hz) as Hd. destruct (Itoa z); cbn in *; lia.
Qed.

Lemma significant_length s : (String.length (significant s) <= String.length s)%nat.
Proof. rewrite (significant_spec s) at 2. rewrite str_length_app. lia. Qed.

Lemma shortest_of_int (z k : Z) (m : positive) :
  0 < z -> Zpos m = z * 2 ^ k -> 0 < k -> Z.log2 z < 52 ->
  exists c (j : nat), 0 < c /\ c * 10 ^ Z.of_nat j = z /\
    shortest m (- k) = {| dec_digits := significant (Itoa c);
                          dec_dp := Z.of_nat (String.length (Itoa c) + j) |}.
Proof.
  intros Hz Hm Hk Hl. unfold shortest. cbv zeta.
  rewrite (proj2 (Z.leb_gt 0 (- k - 2))) by lia. rewrite !Z.mul_1_r.
  replace (- (- k - 2)) with (k + 2) by lia.
  assert (Hden : 2 ^ (k + 2) = 4 * 2 ^ k) by (rewrite Z.pow_add_r by lia; lia).
  assert (H2 : 2 <= 2 ^ k) by (rewrite <- (Z.pow_1_r 2) at 1; apply Z.pow_le_mono_r; lia).
  assert (Hnum : 4 * Zpos m = z * 2 ^ (k + 2)) by lia.
  assert (Hlog : Z.log2 (Zpos m) + - k = Z.log2 z) by (rewrite Hm, Z.log2_mul_pow2 by lia; lia).
  rewrite Hlog, Hnum. set (den := 2 ^ (k + 2)) in *. set (p0 := Z.log2 z * 30103 / 100000).
  assert (Hp0 : 0 <= p0 <= 15).
  { pose proof (Z.log2_nonneg z). split; [apply Z.div_pos; lia|].
    enough (p0 < 16) by lia. apply Z.div_lt_upper_bound; lia. }
  clearbody p0.
  match goal with |- context [search_digits 17 _ ?l _ _ ?q 1 _] => set (lo := l); set (p := q) end.
  assert (Hp : 0 <= p <= 16).
  { subst p. match goal with |- context [if ?b then p0 + 1 else _] => destruct b end; [lia|].
    destruct (decide (p0 = 0)) as [->|Hne].
    - cbn [Z.leb Z.compare]. change (10 ^ 0) with 1. rewrite (proj2 (Z.leb_le (1 * den) (z * den))) by nia. lia.
    - match goal with |- context [if ?b then p0 else _] => destruct b end; lia. }
  destruct (search_digits_int z den lo (z * den + 2) (Z.even (Zpos m)) p ltac:(lia)
    ltac:(subst lo; destruct (_ && _); lia) ltac:(lia) 17 1 ltac:(lia) ltac:(lia)) as (c & j & Hs & Hc).
  rewrite Hs. exists c, j. split; [nia|]. split; [done|]. f_equal. lia.
Qed.

(** The float of an integer that has not been rounded. *)
Lemma F_of_Z_shortest z : 0 < z < 2 ^ 52 ->
  exists m e c (j : nat), F_of_Z z = S754_finite false m e /\
    Itoa z = Itoa c +:+ zeros j /\ 0 < c /\
    shortest m e = {| dec_digits := significant (Itoa c); dec_dp := Z.of_nat (String.length (Itoa z)) |}.
Proof.
  intros Hz. assert (Hl : Z.log2 z < 52) by (apply Z.log2_lt_pow2; lia).
  destruct z as [|q|q]; try lia. destruct (F_of_int q Hl) as (m & k & -> & Hm & Hk).
  destruct (shortest_of_int (Zpos q) k m) as (c & j & Hc & Hcj & Hs); [lia..|].
  pose proof (Itoa_zeros c j Hc) as Hz0. rewrite Hcj in Hz0.
  exists m, (- k), c, j. rewrite Hs, Hz0, str_length_app, length_zeros. by split_and!.
Qed.

(** A number below a million comes out as it went in. *)
Lemma fmt_g_int (z : Z) : 0 <= z < 1000000 -> fmt_g (F_of_Z z) = Itoa z.
Proof.
  intros Hz. destruct (decide (z = 0)) as [->|Hne]; [done|].
  destruct (F_of_Z_shortest z) as (m & e & c & j & -> & Hz0 & Hc & Hs); [lia|].
  pose proof (length_Itoa z ltac:(lia) 6 ltac:(cbn; lia)) as Hlen.
  rewrite Hz0, str_length_app, length_zeros in Hlen, Hs.
  pose proof (length_Itoa_pos c Hc). pose proof (significant_length (Itoa c)).
  cbn [fmt_g sign_str]. rewrite str_nil_app, Hs. cbn [dec_dp dec_digits].
  rewrite (proj2 (Z.ltb_ge _ _)), (proj2 (Z.leb_gt _ _)) by lia. cbn [orb].
  unfold fmt_f. cbn [dec_dp dec_digits].
  rewrite (proj2 (Z.leb_gt _ 0)), (proj2 (Z.leb_le _ _)) by lia.
  rewrite Hz0. pose proof (significant_spec (Itoa c)) as Hsig. set (t := significant (Itoa c)) in *.
  set (n := (String.length (Itoa c) - String.length t)%nat) in Hsig.
  transitivity ((t +:+ zeros n) +:+ zeros j); [|by rewrite <- Hsig].
  rewrite str_app_assoc, <- zeros_app. do 2 f_equal. lia.
Qed.

(** One of a million or more comes out with an exponent, one less than its number of digits. *)
Lemma fmt_g_large (z : Z) : 1000000 <= z < 2 ^ 52 ->
  exists digits, fmt_g (F_of_Z z) =
    digits +:+ "e+" +:+ zeros (2 - String.length (Itoa (Z.of_nat (String.length (Itoa z)) - 1))) +:+
      Itoa (Z.of_nat (String.length (Itoa z)) - 1).
Proof.
  intros Hz. destruct (F_of_Z_shortest z) as (m & e & c & j & -> & _ & Hc & Hs); [lia|].
  pose proof (Itoa_bound z ltac:(lia)) as Hlen.
  assert (7 <= Z.of_nat (String.length (Itoa z))).
  { apply Z.nlt_ge. intros Hlt. assert (Hp : 10 ^ Z.of_nat (String.length (Itoa z)) <= 10 ^ 6).
    { apply Z.pow_le_mono_r; lia. } change (10 ^ 6) with 1000000 in Hp. lia. }
  cbn [fmt_g sign_str]. rewrite str_nil_app, Hs. cbn [dec_dp dec_digits].
  rewrite (proj2 (Z.leb_le 6 _)) by lia. rewrite orb_true_r.
  unfold fmt_e. cbn [dec_dp dec_digits]. rewrite (proj2 (Z.ltb_ge _ 0)), Z.abs_eq by lia.
  destruct (significant (Itoa c)) as [|d rest] eqn:Hd.
  - exfalso. pose proof (significant_spec (Itoa c)) as Hsig. rewrite Hd, str_nil_app in Hsig.
    pose proof (digits_value_Itoa c Hc) as Hv. rewrite Hsig, digits_value_zeros in Hv. lia.
  - exists (String d (match rest with "" => "" | _ => "." +:+ rest end)). by rewrite str_cons_app, str_nil_app.
Qed.

(** * Reading the literal *)

Lemma length_strip_zeros s : (String.length (strip_zeros s) <= String.length s)%nat.
Proof. rewrite (strip_zeros_prefix s) at 2. rewrite str_length_app. lia. Qed.

Lemma digits_value_strip s : digits_value 0 (strip_zeros s) = digits_value 0 s.
Proof.
  rewrite (strip_zeros_prefix s) at 2. by rewrite digits_value_app, digits_value_zeros.
Qed.

Lemma lit_float_Itoa (z : Z) : 0 <= z < 2 ^ 52 -> lit_float (Itoa z) = Some (F_of_Z z).
Proof.
  intros Hz. destruct (decide (z = 0)) as [->|Hne]; [done|].
  unfold lit_float.
  assert (Hsign : strip_prefix "-" (Itoa z) = None).
  { rewrite Itoa_go by lia. destruct (pretty_N_go_head (Z.to_N z) "" ltac:(lia)) as (d & t & Hd & ->).
    assert (d = 0 \/ d = 1 \/ d = 2 \/ d = 3 \/ d = 4 \/ d = 5 \/ d = 6 \/ d = 7
      \/ d = 8 \/ d = 9)%N as Hc by lia. destruct_or! Hc; by subst. }
  rewrite Hsign, span_digits_Itoa by lia. cbn [strip_prefix]. rewrite str_app_nil.
  rewrite digits_value_strip, digits_value_Itoa by lia.
  pose proof (length_Itoa z ltac:(lia) 16 ltac:(cbn; lia)) as Hlen.
  pose proof (length_strip_zeros (Itoa z)).
  destruct z as [|q|q]; try lia. unfold F_of_dec. cbn [String.length Z.of_nat Z.sub Z.opp Z.add].
  rewrite (proj2 (Z.ltb_ge _ _)), (proj2 (Z.ltb_ge _ _)) by lia. cbn [Z.leb Z.compare cond_Zopp].
  rewrite Z.mul_1_r. change (binary_normalize prec64 emax64 (Z.pos q) 0 false) with (F_of_Z (Zpos q)).
  assert (Hl : Z.log2 (Zpos q) < 52) by (apply Z.log2_lt_pow2; lia).
  by destruct (F_of_int q) as (m & k & -> & _ & _); [lia|].
Qed.
