(* ===== verification/World.v ===== *)
(** The state the services share and the monad their code runs in: the two SQLite
    databases as tables, telegraf.conf, the trace of what was sent to the network and to
    Docker, and a tick that numbers every interaction with code outside the repository.
    The classes [DbEnv], [SnmpEnv], [RandEnv], [HostEnv] and [HttpEnv] stand for that code:
    each answers the interaction with a given number. *)

From S2P Require Import Prelude Float64 Json.
Open Scope Z_scope.

(** * SQL values and tables *)

Inductive sqlval :=
| VNull
| VInt (z : Z)
| VReal (f : float64)
| VText (s : string)
| VBlob (b : bytes).

#[export] Instance sqlval_eq_dec : EqDecision sqlval.
Proof. solve_decision. Defined.

(** The columns of [devices] that a statement can write by name. *)
Inductive column :=
| c_hostname | c_snmp_version | c_community | c_v3_user | c_v3_auth_key | c_v3_priv_key
| c_v3_auth_protocol | c_v3_priv_protocol | c_group_name | c_status | c_is_public_ip
| c_discovered_via.

#[export] Instance column_eq_dec : EqDecision column.
Proof. solve_decision. Defined.

(** A row of [devices]; [id] is the rowid, and [ip_address] is NOT NULL. *)
Record device_row := {
  r_id : Z;
  r_ip_address : string;
  r_hostname : sqlval;
  r_snmp_version : sqlval;
  r_community : sqlval;
  r_v3_user : sqlval;
  r_v3_auth_key : sqlval;
  r_v3_priv_key : sqlval;
  r_v3_auth_protocol : sqlval;
  r_v3_priv_protocol : sqlval;
  r_group_name : sqlval;
  r_status : sqlval;
  r_is_public_ip : sqlval;
  r_discovered_via : sqlval;
  r_created_at : string;
  r_updated_at : string
}.

(** Rows in rowid order, and the AUTOINCREMENT counter of [sqlite_sequence]. *)
Record devices_table := { rows : list device_row; seq : Z }.

(** A row of [traps]; [community] and [agent_address] are NULL on rows older than the
    columns. *)
Record trap_row := {
  t_id : Z;
  t_source_ip : string;
  t_oid : string;
  t_payload : string;
  t_community : option string;
  t_agent_address : option string;
  t_received_at : string
}.

(** [trap_cols]: those of the two late columns that the table on disk has. *)
Record traps_table := { trap_rows : list trap_row; trap_seq : Z; trap_cols : list string }.

(** * The gosnmp types the source fills in *)

Inductive SnmpVersion := Version1 | Version2c | Version3.
Inductive SnmpV3AuthProtocol := NoAuth | MD5 | SHA.
Inductive SnmpV3PrivProtocol := NoPriv | DES | AES.
Inductive SnmpV3MsgFlags := NoAuthNoPriv | AuthNoPriv | AuthPriv.

#[export] Instance SnmpVersion_eq_dec : EqDecision SnmpVersion.
Proof. solve_decision. Defined.

Record UsmSecurityParameters := {
  UserName : string;
  AuthenticationProtocol : SnmpV3AuthProtocol;
  AuthenticationPassphrase : string;
  PrivacyProtocol : SnmpV3PrivProtocol;
  PrivacyPassphrase : string
}.

Record GoSNMP := {
  Target : string;
  Port : Z;
  Timeout : Z;
  Retries : Z;
  Transport : string;
  g_Version : SnmpVersion;
  g_Community : string;
  MsgFlags : SnmpV3MsgFlags;
  SecurityParameters : option UsmSecurityParameters
}.

Record SnmpPDU := { Name : string; Type_ : Z; Value : any }.

(** * The world *)

Record http_request := {
  http_method : string;
  http_url : string;
  http_headers : list (string * string);
  http_body : string
}.

(** What leaves a process for the network, the container runtime or the shared volume. *)
Inductive event :=
| EvHttp (r : http_request)
| EvGet (c : GoSNMP)
| EvWalk (c : GoSNMP)
| EvPing (ip : string)
| EvWriteConf (content : string)
| EvReload (container : string).

Record world := World {
  w_tick : nat;
  w_devices : devices_table;
  w_settings : gmap string string;
  w_traps : traps_table;
  w_conf : option string;
  w_trace : list event (* newest first *)
}.

Definition set_tick (n : nat) (w : world) : world :=
  World n (w_devices w) (w_settings w) (w_traps w) (w_conf w) (w_trace w).
Definition set_devices (t : devices_table) (w : world) : world :=
  World (w_tick w) t (w_settings w) (w_traps w) (w_conf w) (w_trace w).
Definition set_settings (s : gmap string string) (w : world) : world :=
  World (w_tick w) (w_devices w) s (w_traps w) (w_conf w) (w_trace w).
Definition set_traps (t : traps_table) (w : world) : world :=
  World (w_tick w) (w_devices w) (w_settings w) t (w_conf w) (w_trace w).
Definition set_conf (c : option string) (w : world) : world :=
  World (w_tick w) (w_devices w) (w_settings w) (w_traps w) c (w_trace w).
Definition log_event (e : event) (w : world) : world :=
  World (w_tick w) (w_devices w) (w_settings w) (w_traps w) (w_conf w) (e :: w_trace w).
Definition bump (w : world) : world := set_tick (S (w_tick w)) w.

(** * Code outside the repository, by interaction number *)

(** SQLite and its driver: a statement may fail as a whole; the clock behind
    CURRENT_TIMESTAMP; REAL values stored in a TEXT column; text stored in a NUMERIC one. *)
Class DbEnv := {
  db_fault : nat -> option error;
  clock_text : nat -> string;
  real_text : float64 -> string;
  numeric_text : string -> sqlval
}.

(** gosnmp: dialling, the GET of one OID, and a walk (the PDUs it delivers, then its error). *)
Class SnmpEnv := {
  snmp_connect : nat -> GoSNMP -> option error;
  snmp_get : nat -> GoSNMP -> string -> option error;
  snmp_walk : nat -> GoSNMP -> string -> list SnmpPDU * option error
}.

(** [io.ReadFull(rand.Reader, buf)] for a buffer of a given length. *)
Class RandEnv := { rand_read : nat -> nat -> result bytes }.

(** The host: default gateway; the raw ICMP socket of golang.org/x/net/icmp (opening it,
    sending an echo request to an address, setting a deadline, a read into a buffer, and the type of the
    message read); telegraf.conf on its volume ([None]: no such file is not an error of this
    kind; a failed write also says what it leaves of the file); and [docker exec]. *)
Class HostEnv := {
  discover_gateway : nat -> result string;
  icmp_listen : nat -> option error;
  icmp_write : nat -> string -> option error;
  icmp_deadline : nat -> Z -> option error;
  icmp_read : nat -> Z -> result bytes;
  icmp_parse : bytes -> result Z;
  read_fault : nat -> option error;
  write_fault : nat -> option (error * (option string -> option string));
  docker_exec : nat -> string -> option (error * string)
}.

(** The HTTP client: whether [http.NewRequest] takes a URL, and the exchange: an error, or a
    status and what reading the body gives. *)
Class HttpEnv := {
  http_new : string -> string -> option error;
  http_do : nat -> http_request -> result (Z * result string)
}.

(** * The monad *)

(** A program: it is done, or it does something to the world in one step and goes on with what
    that gave.  Between two steps other programs may run ([Interleaving.v]); within one they
    may not. *)
Inductive IO (A : Type) : Type :=
| Ret (a : A)
| Act {B : Type} (s : world -> B * world) (k : B -> IO A).
Arguments Ret {A} _.
Arguments Act {A B} _ _.

(** The program run on its own, from start to end. *)
Fixpoint run {A} (m : IO A) (w : world) : A * world :=
  match m with
  | Ret a => (a, w)
  | Act s k => let '(b, w') := s w in run (k b) w'
  end.

Coercion run : IO >-> Funclass.

Definition ret {A} (a : A) : IO A := Ret a.

Fixpoint bind {A B} (m : IO A) (k : A -> IO B) : IO B :=
  match m with
  | Ret a => k a
  | Act s k' => Act s (fun b => bind (k' b) k)
  end.

(** One step. *)
Definition atomically {A} (s : world -> A * world) : IO A := Act s Ret.

Declare Scope io_scope.
Delimit Scope io_scope with io.

Notation "'let*' x := c 'in' k" := (bind c (fun x => k))
  (at level 10, x name, c at level 200, k at level 200) : io_scope.
Notation "'let*' ' p := c 'in' k" := (bind c (fun p => k))
  (at level 10, p strict pattern, c at level 200, k at level 200) : io_scope.
(** [x, err := c; if err != nil { h }; k] *)
Notation "'try*' x := c 'catch' e => h 'in' k" :=
  (bind c (fun r => match r with Ok x => k | Err e => h end))
  (at level 10, x name, e name, c at level 200, h at level 200, k at level 200) : io_scope.
Notation "c ;;; k" := (bind c (fun _ => k)) (at level 100, right associativity) : io_scope.
Open Scope io_scope.

(** Pure fallible code inside the monad. *)
Definition lift {A} (r : result A) : IO (result A) := ret r.

(** The current interaction number, which is then used up. *)
Definition next_tick : IO nat := atomically (fun w => (w_tick w, bump w)).

Definition emit (e : event) : IO unit := atomically (fun w => (tt, log_event e w)).

(** Loops that visit every element: [for _, x := range l { body }]. *)
Fixpoint for_each {A} (l : list A) (body : A -> IO unit) : IO unit :=
  match l with
  | [] => ret tt
  | x :: l' => body x ;;; for_each l' body
  end.

Fixpoint map_io {A B} (f : A -> IO B) (l : list A) : IO (list B) :=
  match l with
  | [] => ret []
  | x :: l' => let* y := f x in let* ys := map_io f l' in ret (y :: ys)
  end.

(** * Reasoning about the monad *)

(** Every step of the program is in [R], whatever the world it is taken in: the shape of every
    frame, invariant and trace property below.  Other programs may have changed the world
    between two steps. *)
Fixpoint io_steps (R : relation world) {A} (m : IO A) : Prop :=
  match m with
  | Ret _ => True
  | Act s k => forall w, R w (s w).2 /\ io_steps R (k (s w).1)
  end.

(** What the program can return, whatever others do between its steps. *)
Fixpoint returns {A} (Q : A -> Prop) (m : IO A) : Prop :=
  match m with
  | Ret a => Q a
  | Act s k => forall w, returns Q (k (s w).1)
  end.

Lemma bind_eq {A B} (m : IO A) (k : A -> IO B) w :
  bind m k w = k (m w).1 (m w).2.
Proof.
  revert w. induction m as [a|C s k' IH]; intros w; cbn; [done|].
  destruct (s w) as [b w']. apply IH.
Qed.

(** The two steps of a sequence that was run. *)
Lemma bind_inv {A B} (m : IO A) (k : A -> IO B) w b w2 :
  bind m k w = (b, w2) -> exists a w1, m w = (a, w1) /\ k a w1 = (b, w2).
Proof. rewrite bind_eq. destruct (m w) as [a w1]. eauto. Qed.

Lemma returns_run {A} (Q : A -> Prop) (m : IO A) w : returns Q m -> Q (m w).1.
Proof.
  revert w. induction m as [a|B s k IH]; intros w Hm; [done|]. cbn.
  specialize (IH (s w).1 (s w).2 (Hm w)). by destruct (s w).
Qed.

Lemma returns_bind {A B} (P : A -> Prop) (Q : B -> Prop) (m : IO A) (k : A -> IO B) :
  returns P m -> (forall a, P a -> returns Q (k a)) -> returns Q (bind m k).
Proof.
  intros Hm Hk. induction m as [a|C s k' IH]; cbn; [by apply Hk|]. intros w. by apply IH.
Qed.

Lemma returns_mono {A} (P Q : A -> Prop) (m : IO A) :
  (forall a, P a -> Q a) -> returns P m -> returns Q m.
Proof. intros HPQ. induction m as [a|C s k IH]; cbn; [apply HPQ|]. intros Hm w. by apply IH. Qed.

Lemma returns_any {A} (m : IO A) : returns (fun _ => True) m.
Proof. induction m as [a|C s k IH]; cbn; [done|]. intros w. apply IH. Qed.

Lemma steps_run (R : relation world) `{!PreOrder R} {A} (m : IO A) w : io_steps R m -> R w (m w).2.
Proof.
  revert w. induction m as [a|B s k IH]; intros w Hm; cbn; [reflexivity|].
  destruct (Hm w) as [Hs Hk]. specialize (IH (s w).1 (s w).2 Hk). destruct (s w) as [b w'].
  by transitivity w'.
Qed.

Section io_steps.
Context (R : relation world).

Lemma steps_ret {A} (a : A) : io_steps R (ret a).
Proof. exact I. Qed.

Lemma steps_atomically {A} (s : world -> A * world) :
  (forall w, R w (s w).2) -> io_steps R (atomically s).
Proof. intros Hs w. split; [apply Hs|exact I]. Qed.

(** The continuation may count on what the first step always returns. *)
Lemma steps_bind_post {A B} (Q : A -> Prop) (m : IO A) (k : A -> IO B) :
  returns Q m -> io_steps R m -> (forall a, Q a -> io_steps R (k a)) ->
  io_steps R (bind m k).
Proof.
  intros Hq Hm Hk. induction m as [a|C s k' IH]; cbn; [by apply Hk|]. intros w.
  destruct (Hm w) as [Hs Hk']. split; [exact Hs|]. by apply IH.
Qed.

Lemma steps_bind {A B} (m : IO A) (k : A -> IO B) :
  io_steps R m -> (forall a, io_steps R (k a)) -> io_steps R (bind m k).
Proof.
  intros Hm Hk. apply (steps_bind_post (fun _ => True)); [apply returns_any|done|auto].
Qed.

Lemma steps_for_each {A} (l : list A) body :
  (forall x, x ∈ l -> io_steps R (body x)) -> io_steps R (for_each l body).
Proof.
  induction l as [|x l IH]; intros H; [apply steps_ret|].
  apply steps_bind; [apply H; set_solver|]. intros _. apply IH. set_solver.
Qed.

Lemma steps_map_io {A B} (f : A -> IO B) (l : list A) :
  (forall x, x ∈ l -> io_steps R (f x)) -> io_steps R (map_io f l).
Proof.
  induction l as [|x l IH]; intros H; [apply steps_ret|].
  apply steps_bind; [apply H; set_solver|]. intros y.
  apply steps_bind; [apply IH; set_solver|]. intros ys. apply steps_ret.
Qed.
End io_steps.

(** Weakening along the relation. *)
Lemma steps_mono (R R' : relation world) {A} (m : IO A) :
  (forall w w', R w w' -> R' w w') -> io_steps R m -> io_steps R' m.
Proof.
  intros HR. induction m as [a|B s k IH]; [done|]. cbn. intros Hm w. destruct (Hm w).
  split; [by apply HR|by apply IH].
Qed.

#[export] Instance io_steps_proper A :
  Proper (pointwise_relation _ (pointwise_relation _ impl) ==> eq ==> impl) (fun R => @io_steps R A).
Proof. intros R R' HR m _ <-. exact (steps_mono R R' m (fun w w' => HR w w')). Qed.

(** An invariant is the relation "if it held it holds". *)
Definition keeps (I : world -> Prop) : relation world := fun w w' => I w -> I w'.

#[export] Instance keeps_preorder I : PreOrder (keeps I).
Proof. split; unfold keeps; [by intros w|intros w1 w2 w3; auto]. Qed.

(** Only events satisfying [P] are added to the trace. *)
Definition traces (P : event -> Prop) : relation world := fun w w' =>
  exists l, w_trace w' = l ++ w_trace w /\ Forall P l.

#[export] Instance traces_preorder P : PreOrder (traces P).
Proof.
  split.
  - intros w. by exists [].
  - intros w1 w2 w3 (l1 & H1 & F1) (l2 & H2 & F2). exists (l2 ++ l1).
    rewrite H2, H1, app_assoc. split; [done|]. by apply Forall_app.
Qed.

(** The part of the world [f] projects is left alone. *)
Definition frames {B} (f : world -> B) : relation world := fun w w' => f w' = f w.

#[export] Instance frames_preorder {B} (f : world -> B) : PreOrder (frames f).
Proof. split; unfold frames; [done|intros ???; congruence]. Qed.

(** Interaction numbers are not part of what a relation talks about. *)
Class Ticks (R : relation world) : Prop := ticks : forall w, R w (bump w).

#[export] Instance traces_ticks P : Ticks (traces P).
Proof. intros w. by exists []. Qed.

Lemma frames_ticks {B} (f : world -> B) : (forall w, f (bump w) = f w) -> Ticks (frames f).
Proof. intros H w. apply H. Qed.

#[export] Instance frames_conf_ticks : Ticks (frames w_conf).
Proof. by apply frames_ticks. Qed.
#[export] Instance frames_devices_ticks : Ticks (frames w_devices).
Proof. by apply frames_ticks. Qed.
#[export] Instance frames_settings_ticks : Ticks (frames w_settings).
Proof. by apply frames_ticks. Qed.
#[export] Instance frames_traps_ticks : Ticks (frames w_traps).
Proof. by apply frames_ticks. Qed.
#[export] Instance frames_trace_ticks : Ticks (frames w_trace).
Proof. by apply frames_ticks. Qed.

Lemma steps_next_tick R `{!Ticks R} : io_steps R next_tick.
Proof. apply steps_atomically. intros w. apply ticks. Qed.

(** Everything the services share but the trace and the interaction number. *)
Definition stored_state (w : world) : devices_table * gmap string string * traps_table * option string :=
  (w_devices w, w_settings w, w_traps w, w_conf w).

#[export] Instance frames_stored_ticks : Ticks (frames stored_state).
Proof. by apply frames_ticks. Qed.

(** Relations that allow events satisfying [P] to be added to the trace. *)
Class AllowsEvents (P : event -> Prop) (R : relation world) : Prop :=
  allows_events : forall e w, P e -> R w (log_event e w).

#[export] Instance traces_allow P : AllowsEvents P (traces P).
Proof. intros e w He. exists [e]. split; [done|]. by constructor. Qed.
#[export] Instance frames_conf_allow P : AllowsEvents P (frames w_conf).
Proof. by intros e w. Qed.
#[export] Instance frames_devices_allow P : AllowsEvents P (frames w_devices).
Proof. by intros e w. Qed.
#[export] Instance frames_settings_allow P : AllowsEvents P (frames w_settings).
Proof. by intros e w. Qed.
#[export] Instance frames_traps_allow P : AllowsEvents P (frames w_traps).
Proof. by intros e w. Qed.
#[export] Instance frames_stored_allow P : AllowsEvents P (frames stored_state).
Proof. by intros e w. Qed.

Lemma allows_any (P : event -> Prop) R : AllowsEvents (fun _ => True) R -> AllowsEvents P R.
Proof. intros HR e w _. by apply HR. Qed.

Lemma steps_emit P R `{!AllowsEvents P R} e : P e -> io_steps R (emit e).
Proof. intros He. apply steps_atomically. intros w. by apply (allows_events (P := P)). Qed.

(** A Hoare triple, where the result matters. *)
Definition triple {A} (P : world -> Prop) (m : IO A) (Q : A -> world -> Prop) : Prop :=
  forall w, P w -> Q (m w).1 (m w).2.

Lemma triple_ret {A} (a : A) P : triple P (ret a) (fun r w => r = a /\ P w).
Proof. by intros w. Qed.

Lemma triple_bind {A B} (m : IO A) (k : A -> IO B) P Q S :
  triple P m Q -> (forall a, triple (Q a) (k a) S) -> triple P (bind m k) S.
Proof. intros Hm Hk w Hw. rewrite bind_eq. by apply Hk, Hm. Qed.

(** A step that leaves [f] alone, run. *)
Lemma frames_run {A B} (f : world -> B) (m : IO A) w a w1 :
  io_steps (frames f) m -> m w = (a, w1) -> f w1 = f w.
Proof. intros Hm Hr. apply (steps_run _ _ w) in Hm. unfold frames in Hm. by rewrite Hr in Hm. Qed.

#[global] Arguments bind : simpl never.

Create HintDb io_db.
#[export] Hint Resolve steps_ret steps_next_tick : io_db.

(** Walk through a program with one relation: binds, returns, matches and loops; what is
    left are the calls, which the database [io_db] knows or the caller proves. *)
Ltac io_walk :=
  repeat first
    [ apply steps_ret
    | apply steps_next_tick; typeclasses eauto
    | solve [eauto 3 with io_db typeclass_instances]
    | apply steps_bind; [|intros ?]
    | apply steps_for_each; intros ? ?
    | match goal with |- io_steps _ (match ?x with _ => _ end) => destruct x eqn:? end
    | match goal with |- io_steps _ (let '_ := ?x in _) => destruct x eqn:? end ].

(** Run the steps of a program one after the other. *)
Ltac io_run := repeat (rewrite bind_eq; cbn).

(** * A sample environment: statements never fail, nobody answers on the network *)

Definition quiet_db : DbEnv :=
  {| db_fault _ := None; clock_text n := "t" +:+ Itoa (Z.of_nat n);
     real_text := fmt_g; numeric_text := VText |}.

Definition quiet_snmp : SnmpEnv :=
  {| snmp_connect _ _ := None; snmp_get _ _ _ := Some (ENew [FStr "request timeout"]);
     snmp_walk _ _ _ := ([], Some (ENew [FStr "request timeout"])) |}.

(** And one on which every device answers. *)
Definition answering_snmp : SnmpEnv :=
  {| snmp_connect _ _ := None; snmp_get _ _ _ := None; snmp_walk _ _ _ := ([], None) |}.

Definition empty_world : world :=
  World 0 {| rows := []; seq := 0 |} ∅ {| trap_rows := []; trap_seq := 0; trap_cols := [] |} None [].
