(* ===== verification/Store.v ===== *)
(** [internal/store]: the SQL statements of the device, settings and traps stores as
    operations on the tables of [World.v].  Definitions first; the invariant, the
    refinement to finite maps and the frame lemmas are in [StoreFacts.v]. *)

From S2P Require Import Prelude Float64 Json World.
Open Scope Z_scope.

(** One SQL statement: it takes an interaction number, may fail as a whole, and otherwise
    runs atomically on the world. *)
Definition stmt `{DbEnv} {A} (f : world -> result A * world) : IO (result A) :=
  atomically (fun w =>
    match db_fault (w_tick w) with
    | Some e => (Err e, bump w)
    | None => f (bump w)
    end).

Definition now_text `{DbEnv} (w : world) : string := clock_text (w_tick w).

(** * devices.go *)

(** [store.Device]. *)
Record Device := {
  ID : Z;
  IPAddress : string;
  Hostname : string;
  SNMPVersion : string;
  Community : string;
  V3User : string;
  V3AuthKey : string;
  V3PrivKey : string;
  V3AuthProtocol : string;
  V3PrivProtocol : string;
  GroupName : string;
  Status : string;
  IsPublicIP : bool;
  DiscoveredVia : string;
  CreatedAt : string;
  UpdatedAt : string
}.

(** The zero value with an IP address. *)
Definition new_device (ip : string) : Device :=
  Build_Device 0 ip "" "" "" "" "" "" "" "" "" "" false "" "" "".

Definition column_name (c : column) : string :=
  match c with
  | c_hostname => "hostname" | c_snmp_version => "snmp_version" | c_community => "community"
  | c_v3_user => "v3_user" | c_v3_auth_key => "v3_auth_key" | c_v3_priv_key => "v3_priv_key"
  | c_v3_auth_protocol => "v3_auth_protocol" | c_v3_priv_protocol => "v3_priv_protocol"
  | c_group_name => "group_name" | c_status => "status" | c_is_public_ip => "is_public_ip"
  | c_discovered_via => "discovered_via"
  end.

Definition all_columns : list column :=
  [c_hostname; c_snmp_version; c_community; c_v3_user; c_v3_auth_key; c_v3_priv_key;
   c_v3_auth_protocol; c_v3_priv_protocol; c_group_name; c_status; c_is_public_ip;
   c_discovered_via].

(** The column a name stands for, if [allowedDeviceColumn] lets it through. *)
Definition column_of (name : string) : option column :=
  List.find (fun c => String.eqb (column_name c) name) all_columns.

Definition allowedDeviceColumn (col : string) : bool :=
  match column_of col with Some _ => true | None => false end.

Definition get_col (c : column) (r : device_row) : sqlval :=
  match c with
  | c_hostname => r_hostname r | c_snmp_version => r_snmp_version r
  | c_community => r_community r | c_v3_user => r_v3_user r
  | c_v3_auth_key => r_v3_auth_key r | c_v3_priv_key => r_v3_priv_key r
  | c_v3_auth_protocol => r_v3_auth_protocol r | c_v3_priv_protocol => r_v3_priv_protocol r
  | c_group_name => r_group_name r | c_status => r_status r
  | c_is_public_ip => r_is_public_ip r | c_discovered_via => r_discovered_via r
  end.

Definition set_col (c : column) (v : sqlval) (r : device_row) : device_row :=
  let g c' := if decide (c' = c) then v else get_col c' r in
  Build_device_row (r_id r) (r_ip_address r) (g c_hostname) (g c_snmp_version)
    (g c_community) (g c_v3_user) (g c_v3_auth_key) (g c_v3_priv_key)
    (g c_v3_auth_protocol) (g c_v3_priv_protocol) (g c_group_name) (g c_status)
    (g c_is_public_ip) (g c_discovered_via) (r_created_at r) (r_updated_at r).

Definition set_updated (t : string) (r : device_row) : device_row :=
  Build_device_row (r_id r) (r_ip_address r) (r_hostname r) (r_snmp_version r)
    (r_community r) (r_v3_user r) (r_v3_auth_key r) (r_v3_priv_key r)
    (r_v3_auth_protocol r) (r_v3_priv_protocol r) (r_group_name r) (r_status r)
    (r_is_public_ip r) (r_discovered_via r) (r_created_at r) t.

(** ** Binding and column affinity *)

Definition b2v (b : bool) : sqlval := VInt (Z.b2z b).

(** [database/sql]'s conversion of an argument to a driver value. *)
Definition bind_arg (v : any) : result sqlval :=
  match v with
  | ANil => Ok VNull
  | ABool b => Ok (b2v b)
  | AInt z => Ok (VInt z)
  | AFloat f => Ok (VReal f)
  | AStr s => Ok (VText s)
  | ABytes b => Ok (VBlob b)
  | AList _ | AMap _ => Err (ENew [FStr "sql: converting argument: unsupported type"])
  end.

(** What a value becomes when stored: TEXT columns turn numbers into text, the BOOLEAN
    column (NUMERIC affinity) turns numeric text into numbers. *)
Definition affinity `{DbEnv} (c : column) (v : sqlval) : sqlval :=
  match c, v with
  | c_is_public_ip, VText s => numeric_text s
  | c_is_public_ip, _ => v
  | _, VInt z => VText (Itoa z)
  | _, VReal f => VText (real_text f)
  | _, _ => v
  end.

(** ** Constraints of the schema *)

Definition in_texts (l : list string) (v : sqlval) : bool :=
  match v with
  | VNull => true (* a CHECK that evaluates to NULL passes *)
  | VText s => existsb (String.eqb s) l
  | _ => false
  end.

Definition check_version (v : sqlval) : bool := in_texts ["v1"; "v2c"; "v3"; ""] v.
Definition check_status (v : sqlval) : bool := in_texts ["pending"; "active"; "failed"] v.

Definition check_row (r : device_row) : bool :=
  check_version (r_snmp_version r) && check_status (r_status r).

Definition constraint_error (what : string) : error := ENew [FStr "constraint failed: "; FStr what].

(** ** Reading a row *)

Definition scan_error (i : Z) (name why : string) : error :=
  ENew [FStr "sql: Scan error on column index "; FInt i; FStr ", name "; FQuote name;
        FStr ": "; FStr why].

(** Scanning into a [*string]: NULL is an error, numbers are formatted. *)
Definition scan_text (i : Z) (c : column) (r : device_row) : result string :=
  match get_col c r with
  | VNull => Err (scan_error i (column_name c) "converting NULL to string is unsupported")
  | VInt z => Ok (Itoa z)
  | VReal f => Ok (fmt_g f)
  | VText s => Ok s
  | VBlob b => Ok b
  end.

Definition parse_bool (s : string) : option bool :=
  if existsb (String.eqb s) ["1"; "t"; "T"; "TRUE"; "true"; "True"] then Some true
  else if existsb (String.eqb s) ["0"; "f"; "F"; "FALSE"; "false"; "False"] then Some false
  else None.

(** Scanning the BOOLEAN column into a [*bool]. *)
Definition scan_bool (i : Z) (c : column) (r : device_row) : result bool :=
  let bad := Err (scan_error i (column_name c) "couldn't convert into type bool") in
  match get_col c r with
  | VInt z => Ok (negb (z =? 0))
  | VText s => match parse_bool s with Some b => Ok b | None => bad end
  | _ => bad
  end.

Definition scanDevice (r : device_row) : result Device :=
  hostname <-? scan_text 2 c_hostname r;;
  version <-? scan_text 3 c_snmp_version r;;
  community <-? scan_text 4 c_community r;;
  user <-? scan_text 5 c_v3_user r;;
  auth_key <-? scan_text 6 c_v3_auth_key r;;
  priv_key <-? scan_text 7 c_v3_priv_key r;;
  auth_proto <-? scan_text 8 c_v3_auth_protocol r;;
  priv_proto <-? scan_text 9 c_v3_priv_protocol r;;
  group <-? scan_text 10 c_group_name r;;
  status <-? scan_text 11 c_status r;;
  is_public <-? scan_bool 12 c_is_public_ip r;;
  via <-? scan_text 13 c_discovered_via r;;
  Ok (Build_Device (r_id r) (r_ip_address r) hostname version community user auth_key
        priv_key auth_proto priv_proto group status is_public via
        (r_created_at r) (r_updated_at r)).

(** ** Queries *)

Module DeviceStore.
Section device_store.
Context `{DbEnv}.

(** The rows a WHERE clause selects, in rowid order ([ORDER BY id]). *)
Definition select_rows (p : device_row -> bool) : IO (result (list device_row)) :=
  stmt (fun w => (Ok (List.filter p (rows (w_devices w))), w)).

Definition scan_all (rs : list device_row) : result (list Device) :=
  wrap [FStr "store: scanning device: "] (result_map scanDevice rs).

Definition List : IO (result (list Device)) :=
  try* rs := select_rows (fun _ => true) catch e =>
    ret (Err (EWrap [FStr "store: listing devices: "] e [])) in
  ret (scan_all rs).

(** [status = ?]: NULL is equal to nothing. *)
Definition text_is (s : string) (v : sqlval) : bool :=
  match v with VText t => String.eqb t s | _ => false end.

Definition ListByStatus (status : string) : IO (result (list Device)) :=
  try* rs := select_rows (fun r => text_is status (r_status r)) catch e =>
    ret (Err (EWrap [FStr "store: listing devices by status: "] e [])) in
  ret (scan_all rs).

(** [QueryRow(...).Scan]: the first selected row, or [sql.ErrNoRows]. *)
Definition query_row (p : device_row -> bool) : IO (result Device) :=
  stmt (fun w =>
    (match List.find p (rows (w_devices w)) with
     | Some r => scanDevice r
     | None => Err ErrNoRows
     end, w)).

(** Both getters turn ErrNoRows into ErrNotFound and wrap everything else. *)
Definition getter_error (pre : list frag) (e : error) : error :=
  if errors_is ErrNoRows e then ErrNotFound else EWrap pre e [].

Definition Get (id : Z) : IO (result Device) :=
  try* d := query_row (fun r => r_id r =? id) catch e =>
    ret (Err (getter_error [FStr "store: getting device "; FInt id; FStr ": "] e)) in
  ret (Ok d).

Definition GetByIP (ip : string) : IO (result Device) :=
  try* d := query_row (fun r => String.eqb (r_ip_address r) ip) catch e =>
    ret (Err (getter_error [FStr "store: getting device by ip "; FStr ip; FStr ": "] e)) in
  ret (Ok d).

(** ** Statements that write *)

(** The row an INSERT of [d] would add, with the defaults of the schema. *)
Definition row_of (d : Device) (id : Z) (now : string) : device_row :=
  Build_device_row id (IPAddress d) (VText (Hostname d)) (VText (SNMPVersion d))
    (VText (Community d)) (VText (V3User d)) (VText (V3AuthKey d)) (VText (V3PrivKey d))
    (VText (V3AuthProtocol d)) (VText (V3PrivProtocol d)) (VText (GroupName d))
    (VText (Status d)) (b2v (IsPublicIP d)) (VText (DiscoveredVia d)) now now.

Definition has_ip (ip : string) (t : devices_table) : bool :=
  existsb (fun r => String.eqb (r_ip_address r) ip) (rows t).

(** INSERT INTO devices: CHECKs, the UNIQUE ip_address, and the next AUTOINCREMENT id,
    which is one past the largest id ever used. *)
Definition insert_device (d : Device) (w : world) : result Z * world :=
  let t := w_devices w in
  let id := seq t + 1 in
  let r := row_of d id (now_text w) in
  if negb (check_row r) then (Err (constraint_error "CHECK"), w)
  else if has_ip (IPAddress d) t then
    (Err (constraint_error "UNIQUE constraint failed: devices.ip_address"), w)
  else if max_int64 <? id then (Err (constraint_error "database or disk is full"), w)
  else (Ok id, set_devices {| rows := rows t ++ [r]; seq := id |} w).

(** An empty status is stored as pending. *)
Definition with_status (d : Device) (s : string) : Device :=
  Build_Device (ID d) (IPAddress d) (Hostname d) (SNMPVersion d) (Community d) (V3User d)
    (V3AuthKey d) (V3PrivKey d) (V3AuthProtocol d) (V3PrivProtocol d) (GroupName d) s
    (IsPublicIP d) (DiscoveredVia d) (CreatedAt d) (UpdatedAt d).

Definition Create (d : Device) : IO (result Z) :=
  let d := if String.eqb (Status d) "" then with_status d "pending" else d in
  try* id := stmt (insert_device d) catch e =>
    ret (Err (EWrap [FStr "store: creating device: "] e [])) in
  ret (Ok id).

(** UPDATE devices SET ... WHERE id = ?: the assignments of the SET clause from left to
    right, then [updated_at]; the constraints are checked on the row it matches. *)
Definition assign (sets : list (column * sqlval)) (r : device_row) : device_row :=
  foldl (fun r '(c, v) => set_col c (affinity c v) r) r sets.

Definition update_rows (id : Z) (f : device_row -> device_row) (l : list device_row)
    : list device_row :=
  map (fun r => if r_id r =? id then f r else r) l.

Definition update_device (id : Z) (sets : list (column * sqlval)) (w : world)
    : result Z * world :=
  let t := w_devices w in
  let f r := set_updated (now_text w) (assign sets r) in
  let hit := List.filter (fun r => r_id r =? id) (rows t) in
  if forallb (fun r => check_row (f r)) hit then
    (Ok (Z.of_nat (length hit)),
     set_devices {| rows := update_rows id f (rows t); seq := seq t |} w)
  else (Err (constraint_error "CHECK"), w).

(** The loop that builds the SET clause, in the order the map is ranged over: the first
    column that is not allowed ends the call. *)
Fixpoint set_clause (updates : list (string * any)) : result (list (column * any)) :=
  match updates with
  | [] => Ok []
  | (col, val) :: updates' =>
      if negb (allowedDeviceColumn col) then
        Err (ENew [FStr "store: invalid column "; FQuote col])
      else
        rest <-? set_clause updates';;
        Ok (match column_of col with Some c => (c, val) :: rest | None => rest end)
  end.

Definition bind_all (sets : list (column * any)) : result (list (column * sqlval)) :=
  result_map (fun '(c, v) => b <-? bind_arg v;; Ok (c, b)) sets.

(** Arguments are bound before the statement runs; a bad one fails the call. *)
Definition exec_update (id : Z) (sets : list (column * any)) : IO (result Z) :=
  stmt (fun w =>
    match bind_all sets with
    | Err e => (Err e, w)
    | Ok vals => update_device id vals w
    end).

Definition Update (id : Z) (updates : list (string * any)) : IO (result unit) :=
  match updates with
  | [] => ret (Ok tt)
  | _ =>
      match set_clause updates with
      | Err e => ret (Err e)
      | Ok sets =>
          try* n := exec_update id sets catch e =>
            ret (Err (EWrap [FStr "store: updating device "; FInt id; FStr ": "] e [])) in
          if n =? 0 then ret (Err ErrNotFound) else ret (Ok tt)
      end
  end.

Definition delete_device (id : Z) (w : world) : result Z * world :=
  let t := w_devices w in
  let hit := List.filter (fun r => r_id r =? id) (rows t) in
  (Ok (Z.of_nat (length hit)),
   set_devices {| rows := List.filter (fun r => negb (r_id r =? id)) (rows t); seq := seq t |} w).

Definition Delete (id : Z) : IO (result unit) :=
  try* n := stmt (delete_device id) catch e =>
    ret (Err (EWrap [FStr "store: deleting device "; FInt id; FStr ": "] e [])) in
  if n =? 0 then ret (Err ErrNotFound) else ret (Ok tt).
End device_store.
End DeviceStore.

(** * settings.go *)

Module SettingsStore.
Section settings_store.
Context `{DbEnv}.

Definition Get (key : string) : IO (result string) :=
  try* v := stmt (fun w => (of_option (w_settings w !! key) ErrNoRows, w)) catch e =>
    ret (Err (if errors_is ErrNoRows e then ErrNotFound
              else EWrap [FStr "store: getting setting "; FQuote key; FStr ": "] e [])) in
  ret (Ok v).

(** An upsert. *)
Definition Set_ (key value : string) : IO (result unit) :=
  try* u := stmt (fun w => (Ok tt, set_settings (<[key := value]> (w_settings w)) w))
    catch e => ret (Err (EWrap [FStr "store: setting "; FQuote key; FStr ": "] e [])) in
  ret (Ok u).
End settings_store.
End SettingsStore.

(** * traps.go *)

(** [store.Trap]. *)
Record Trap := {
  TID : Z;
  SourceIP : string;
  OID : string;
  Payload : string;
  TCommunity : string;
  AgentAddress : string;
  ReceivedAt : string
}.

Module TrapStore.
Section trap_store.
Context `{DbEnv}.

Definition insert_trap (t : Trap) (w : world) : result Z * world :=
  let tab := w_traps w in
  let id := trap_seq tab + 1 in
  if max_int64 <? id then (Err (constraint_error "database or disk is full"), w)
  else
    (Ok id, set_traps {|
      trap_rows := trap_rows tab ++
        [{| t_id := id; t_source_ip := SourceIP t; t_oid := OID t; t_payload := Payload t;
            t_community := Some (TCommunity t); t_agent_address := Some (AgentAddress t);
            t_received_at := now_text w |}];
      trap_seq := id; trap_cols := trap_cols tab |} w).

Definition Insert (t : Trap) : IO (result Z) :=
  try* id := stmt (insert_trap t) catch e =>
    ret (Err (EWrap [FStr "store: inserting trap: "] e [])) in
  ret (Ok id).

(** A row of the SELECT, with both COALESCEs. *)
Definition trap_of (r : trap_row) : Trap :=
  Build_Trap (t_id r) (t_source_ip r) (t_oid r) (t_payload r)
    (default "" (t_community r)) (default "" (t_agent_address r)) (t_received_at r).

(** [ORDER BY id DESC LIMIT ?]. *)
Definition select_traps (limit : Z) (w : world) : list Trap :=
  map trap_of (take (Z.to_nat limit) (rev (trap_rows (w_traps w)))).

Definition List (limit : Z) : IO (result (list Trap)) :=
  let limit := if limit <=? 0 then 100 else limit in
  try* l := stmt (fun w => (Ok (select_traps limit w), w)) catch e =>
    ret (Err (EWrap [FStr "store: listing traps: "] e [])) in
  ret (Ok l).
End trap_store.
End TrapStore.

(** * schema.go *)

Section schema.
Context `{DbEnv}.

(** [INSERT OR IGNORE] of a default: an existing database keeps its settings. *)
Definition insert_or_ignore (key value : string) (s : gmap string string) : gmap string string :=
  match s !! key with Some _ => s | None => <[key := value]> s end.

Definition insert_default (key value : string) (w : world) : world :=
  set_settings (insert_or_ignore key value (w_settings w)) w.

(** [configSchema]: two [CREATE TABLE IF NOT EXISTS], which leave the rows there are, and the
    defaults of the settings. *)
Definition configSchema : list (world -> world) :=
  [id; id; insert_default "polling_interval_seconds" "60";
   insert_default "credential_duplication_enabled" "0"].

(** [Exec] of several statements: the driver runs one after the other, each on its own, up to
    the first that fails. *)
Fixpoint exec_script (script : list (world -> world)) : IO (result unit) :=
  match script with
  | [] => ret (Ok tt)
  | s :: script' => try* u := stmt (fun w => (Ok tt, s w)) catch e => ret (Err e) in exec_script script'
  end.

Definition OpenConfigDB : IO (result unit) :=
  try* u := exec_script configSchema catch e =>
    ret (Err (EWrap [FStr "store: applying config schema: "] e [])) in
  ret (Ok u).

(** The two late columns: adding one a second time is the driver's error below, which the
    code recognises by its text (driver errors are one literal piece). *)
Definition alter_add (col : string) (w : world) : result unit * world :=
  let tab := w_traps w in
  if existsb (String.eqb col) (trap_cols tab)
  then (Err (ENew [FStr ("duplicate column name: " +:+ col)]), w)
  else (Ok tt, set_traps {| trap_rows := trap_rows tab; trap_seq := trap_seq tab;
                            trap_cols := trap_cols tab ++ [col] |} w).

Definition says (sub : string) (e : error) : bool :=
  match e with ENew [FStr s] => Contains s sub | _ => false end.

Fixpoint migrate (cols : list string) : IO (result unit) :=
  match cols with
  | [] => ret (Ok tt)
  | col :: cols' =>
      try* u := stmt (alter_add col) catch e =>
        (if says "duplicate column name" e then migrate cols'
         else ret (Err (EWrap [FStr "store: migrating traps schema: "] e []))) in
      migrate cols'
  end.

(** On a database that does not exist yet the schema creates both columns. *)
Definition apply_traps_schema (fresh : bool) (w : world) : world :=
  if fresh then
    set_traps {| trap_rows := []; trap_seq := 0; trap_cols := ["community"; "agent_address"] |} w
  else w.

Definition OpenTrapsDB (fresh : bool) : IO (result unit) :=
  try* u := stmt (fun w => (Ok tt, apply_traps_schema fresh w)) catch e =>
    ret (Err (EWrap [FStr "store: applying traps schema: "] e [])) in
  migrate ["community"; "agent_address"].
End schema.
