(* ===== verification/StoreFacts.v ===== *)
(** Facts about the stores of [Store.v]: the invariant of the devices table and its
    preservation by every statement, the refinement of the table to a finite map keyed by
    id, order independence of partial updates, and the frame lemmas other files use. *)

From Stdlib Require Import Sorting.Sorted Permutation.
From S2P Require Import Prelude Float64 Json World Store.
Open Scope Z_scope.

(** * Rows *)

Lemma get_set_col c c' v r :
  get_col c' (set_col c v r) = if decide (c' = c) then v else get_col c' r.
Proof. by destruct c'. Qed.

Lemma set_col_id c v r : r_id (set_col c v r) = r_id r.
Proof. done. Qed.
Lemma set_col_ip c v r : r_ip_address (set_col c v r) = r_ip_address r.
Proof. done. Qed.

Lemma set_col_swap c1 c2 v1 v2 r :
  c1 <> c2 -> set_col c1 v1 (set_col c2 v2 r) = set_col c2 v2 (set_col c1 v1 r).
Proof.
  intros Hne. destruct c1, c2; try done; destruct r; reflexivity.
Qed.

Section rows.
Context `{DbEnv}.
Import DeviceStore.

Lemma assign_id sets r : r_id (assign sets r) = r_id r.
Proof.
  unfold assign. revert r. induction sets as [|[c v] sets IH]; intros r; [done|].
  cbn [foldl]. by rewrite IH.
Qed.

Lemma assign_ip sets r : r_ip_address (assign sets r) = r_ip_address r.
Proof.
  unfold assign. revert r. induction sets as [|[c v] sets IH]; intros r; [done|].
  cbn [foldl]. by rewrite IH.
Qed.

Lemma assign_created sets r : r_created_at (assign sets r) = r_created_at r.
Proof.
  unfold assign. revert r. induction sets as [|[c v] sets IH]; intros r; [done|].
  cbn [foldl]. by rewrite IH.
Qed.

(** A column the SET clause does not name keeps its value. *)
Lemma assign_other c sets r : c ∉ sets.*1 -> get_col c (assign sets r) = get_col c r.
Proof.
  unfold assign. revert r. induction sets as [|[c' v] sets IH]; intros r Hc; [done|].
  cbn in Hc. apply not_elem_of_cons in Hc as [Hne Hc].
  cbn [foldl]. rewrite IH, get_set_col by done. by rewrite decide_False.
Qed.

Lemma assign_named c v sets r :
  NoDup sets.*1 -> (c, v) ∈ sets -> get_col c (assign sets r) = affinity c v.
Proof.
  unfold assign. revert r. induction sets as [|[c' v'] sets IH]; intros r Hnd Hin.
  { by apply not_elem_of_nil in Hin. }
  cbn in Hnd. apply NoDup_cons in Hnd as [Hc' Hnd].
  cbn [foldl]. apply elem_of_cons in Hin as [[= -> ->]|Hin]; [|by apply IH].
  pose proof (assign_other c' sets (set_col c' (affinity c' v') r) Hc') as Ho.
  unfold assign in Ho. rewrite Ho, get_set_col. by rewrite decide_True.
Qed.

(** The order of the assignments does not matter when they name distinct columns. *)
Lemma assign_Permutation sets1 sets2 r :
  Permutation sets1 sets2 -> NoDup sets1.*1 -> assign sets1 r = assign sets2 r.
Proof.
  intros Hp. revert r.
  induction Hp as [|[c v] l1 l2 Hp IH|[c1 v1] [c2 v2] l|l1 l2 l3 Hp1 IH1 Hp2 IH2];
    intros r Hnd; [done|..].
  - cbn in Hnd. apply NoDup_cons in Hnd as [_ Hnd]. unfold assign in *. cbn [foldl].
    by apply IH.
  - unfold assign. cbn [foldl]. f_equal. apply set_col_swap. cbn in Hnd.
    apply NoDup_cons in Hnd as [Hn _]. set_solver.
  - rewrite IH1 by done. apply IH2. by rewrite <- Hp1.
Qed.
End rows.

Lemma column_of_Some name c : column_of name = Some c <-> column_name c = name.
Proof.
  unfold column_of. split.
  - intros [_ Hn]%List.find_some. by apply String.eqb_eq.
  - intros <-. by destruct c.
Qed.

Arguments column_of : simpl never.

Lemma column_name_inj c1 c2 : column_name c1 = column_name c2 -> c1 = c2.
Proof. by destruct c1, c2. Qed.

(** A row that does not scan never reports [sql.ErrNoRows]. *)
Lemma scanDevice_error r e : scanDevice r = Err e -> errors_is ErrNoRows e = false.
Proof.
  assert (Ht : forall i c e', scan_text i c r = Err e' -> errors_is ErrNoRows e' = false).
  { intros i c e'. unfold scan_text. case_match; by intros [= <-]. }
  unfold scanDevice.
  repeat (apply (result_bind_Err (fun e' => errors_is ErrNoRows e' = false));
    [apply Ht|intros ? ?]).
  apply (result_bind_Err (fun e' => errors_is ErrNoRows e' = false)); [|intros ? ?].
  - intros e1. unfold scan_bool. repeat case_match; by intros [= <-].
  - apply (result_bind_Err (fun e' => errors_is ErrNoRows e' = false)); [apply Ht|done].
Qed.

Lemma scanDevice_ip r d : scanDevice r = Ok d -> IPAddress d = r_ip_address r.
Proof.
  unfold scanDevice.
  repeat (cbn [result_bind]; match goal with |- context [result_bind ?x _] => destruct x; [|done] end).
  by intros [= <-].
Qed.

(** A NULL in any of the nullable columns makes the row unreadable. *)
Lemma scanDevice_null c r : get_col c r = VNull -> exists e, scanDevice r = Err e.
Proof.
  intros Hc. destruct (scanDevice r) as [d|e] eqn:E; [|by eexists]. exfalso. revert E Hc.
  unfold scanDevice, result_bind.
  destruct (scan_text 2 _ r) eqn:E2; [|done]. destruct (scan_text 3 _ r) eqn:E3; [|done].
  destruct (scan_text 4 _ r) eqn:E4; [|done]. destruct (scan_text 5 _ r) eqn:E5; [|done].
  destruct (scan_text 6 _ r) eqn:E6; [|done]. destruct (scan_text 7 _ r) eqn:E7; [|done].
  destruct (scan_text 8 _ r) eqn:E8; [|done]. destruct (scan_text 9 _ r) eqn:E9; [|done].
  destruct (scan_text 10 _ r) eqn:E10; [|done]. destruct (scan_text 11 _ r) eqn:E11; [|done].
  destruct (scan_bool 12 _ r) eqn:E12; [|done]. destruct (scan_text 13 _ r) eqn:E13; [|done].
  intros _ Hc. unfold scan_text, scan_bool in *. by destruct c; rewrite Hc in *.
Qed.

(** One unreadable row makes the whole listing fail. *)
Lemma scan_all_null rs r c : r ∈ rs -> get_col c r = VNull -> is_ok (DeviceStore.scan_all rs) = false.
Proof.
  intros Hin Hc. unfold DeviceStore.scan_all.
  destruct (result_map scanDevice rs) as [ds|e] eqn:E; [|done].
  apply result_map_Ok in E. apply list_elem_of_lookup in Hin as [i Hi].
  destruct (Forall2_lookup_l _ _ _ _ _ E Hi) as (d & _ & Hd).
  destruct (scanDevice_null c r Hc). congruence.
Qed.

(** A row with text in its text columns and a number in its BOOLEAN column is readable. *)
Lemma scanDevice_row_of d id now :
  scanDevice (DeviceStore.row_of d id now) =
    Ok (Build_Device id (IPAddress d) (Hostname d) (SNMPVersion d) (Community d) (V3User d)
      (V3AuthKey d) (V3PrivKey d) (V3AuthProtocol d) (V3PrivProtocol d) (GroupName d) (Status d)
      (IsPublicIP d) (DiscoveredVia d) now now).
Proof. unfold scanDevice. cbn. by destruct (IsPublicIP d). Qed.

(** * The SET clause *)

Definition clause (u : list (string * any)) : list (column * any) :=
  omap (fun '(k, v) => (fun c => (c, v)) <$> column_of k) u.

Lemma set_clause_spec u :
  if forallb (fun kv => allowedDeviceColumn kv.1) u
  then DeviceStore.set_clause u = Ok (clause u)
  else exists e, DeviceStore.set_clause u = Err e.
Proof.
  induction u as [|[k v] u IH]; [done|]. cbn [forallb fst DeviceStore.set_clause].
  destruct (allowedDeviceColumn k) eqn:Hk; cbn [negb andb]; [|by eexists].
  destruct (forallb _ u).
  - rewrite IH. unfold clause, allowedDeviceColumn in *. cbn. by destruct (column_of k).
  - destruct IH as [e ->]. by eexists.
Qed.

Lemma clause_NoDup u : NoDup u.*1 -> NoDup (clause u).*1.
Proof.
  unfold clause. induction u as [|[k v] u IH]; cbn; [constructor|]. intros [Hk Hu]%NoDup_cons.
  destruct (column_of k) as [c|] eqn:Hc; cbn; [|by apply IH].
  apply NoDup_cons. split; [|by apply IH]. intros Hin. apply Hk. clear IH Hu Hk.
  apply column_of_Some in Hc. subst k.
  induction u as [|[k' v'] u IH]; [by apply not_elem_of_nil in Hin|].
  cbn in Hin |- *. destruct (column_of k') as [c'|] eqn:Hc'; cbn in Hin.
  - apply elem_of_cons in Hin as [->|Hin].
    + apply column_of_Some in Hc'. subst. by left.
    + right. by apply IH.
  - right. by apply IH.
Qed.

Lemma clause_Permutation u1 u2 : Permutation u1 u2 -> Permutation (clause u1) (clause u2).
Proof. apply omap_Permutation. Qed.

Lemma bind_all_keys sets vals : DeviceStore.bind_all sets = Ok vals -> vals.*1 = sets.*1.
Proof.
  unfold DeviceStore.bind_all. rewrite result_map_Ok.
  induction 1 as [|[c v] [c' v'] l l' Hx _ IH]; [done|]. cbn. rewrite IH. f_equal.
  destruct (bind_arg v); cbn in Hx; congruence.
Qed.

(** * The invariant of the devices table *)

Record table_ok (t : devices_table) : Prop := {
  ok_sorted : StronglySorted Z.lt (map r_id (rows t));
  ok_ids : Forall (fun i => 1 <= i <= seq t) (map r_id (rows t));
  ok_seq : 0 <= seq t <= max_int64;
  ok_ips : NoDup (map r_ip_address (rows t));
  ok_checks : Forall (fun r => check_row r = true) (rows t)
}.

Definition db_ok (w : world) : Prop := table_ok (w_devices w).

Lemma empty_table_ok : table_ok {| rows := []; seq := 0 |}.
Proof. split; cbn; try constructor; unfold max_int64; lia. Qed.

Lemma sorted_snoc l x :
  StronglySorted Z.lt l -> Forall (fun y => y < x) l -> StronglySorted Z.lt (l ++ [x]).
Proof.
  induction 1 as [|y l Hs IH Hy]; intros Hx; cbn; [by repeat constructor|].
  inversion Hx; subst. constructor; [by apply IH|]. by apply Forall_app_2; [|constructor].
Qed.

Lemma sorted_filter {A} (f : A -> Z) p (l : list A) :
  StronglySorted Z.lt (map f l) -> StronglySorted Z.lt (map f (List.filter p l)).
Proof.
  induction l as [|x l IH]; cbn; [done|]. inversion 1 as [|? ? Hs Hx]; subst.
  destruct (p x); cbn; [|by apply IH]. constructor; [by apply IH|].
  rewrite Forall_forall in Hx |- *. intros y Hy. apply Hx.
  rewrite list_elem_of_In, in_map_iff in Hy |- *. destruct Hy as (z & <- & Hz).
  apply filter_In in Hz as [Hz _]. eauto.
Qed.

Lemma map_filter_sub {A B} (f : A -> B) p (l : list A) y :
  y ∈ map f (List.filter p l) -> y ∈ map f l.
Proof.
  rewrite !list_elem_of_In, !in_map_iff. intros (x & <- & Hx).
  apply filter_In in Hx as [Hx _]. eauto.
Qed.

Lemma NoDup_map_filter {A B} (f : A -> B) p (l : list A) :
  NoDup (map f l) -> NoDup (map f (List.filter p l)).
Proof.
  induction l as [|x l IH]; cbn; [done|]. intros [Hx Hnd]%NoDup_cons.
  destruct (p x); cbn; [|by apply IH]. apply NoDup_cons. split; [|by apply IH].
  intros Hin%map_filter_sub. done.
Qed.

Lemma Forall_filter {A} (P : A -> Prop) p l : Forall P l -> Forall P (List.filter p l).
Proof.
  induction 1 as [|x l Hx _ IH]; cbn; [constructor|]. destruct (p x); [by constructor|done].
Qed.

Lemma sorted_NoDup l : StronglySorted Z.lt l -> NoDup l.
Proof.
  induction 1 as [|x l Hs IH Hx]; constructor; [|done].
  rewrite Forall_forall in Hx. intros Hin%Hx. lia.
Qed.

Section preservation.
Context `{DbEnv}.
Import DeviceStore.

Lemma has_ip_spec ip t : has_ip ip t = true <-> ip ∈ map r_ip_address (rows t).
Proof.
  unfold has_ip. rewrite existsb_exists, list_elem_of_In, in_map_iff.
  split; intros (r & H1 & H2); exists r; [apply String.eqb_eq in H2|]; subst;
    by rewrite ?String.eqb_refl.
Qed.

Lemma insert_device_ok d w r w' :
  table_ok (w_devices w) -> insert_device d w = (r, w') -> table_ok (w_devices w').
Proof.
  intros Hok. unfold insert_device. destruct Hok as [Hs Hi Hq Hu Hc].
  destruct (check_row _) eqn:Hchk; cbn [negb]; [|by intros [= <- <-]; split].
  destruct (has_ip _ _) eqn:Hip; [by intros [= <- <-]; split|].
  destruct (max_int64 <? _) eqn:Hmax; [by intros [= <- <-]; split|].
  apply Z.ltb_ge in Hmax. intros [= <- <-]. split; cbn; rewrite ?map_app; cbn.
  - apply sorted_snoc; [done|]. eapply Forall_impl; [exact Hi|]. cbn. lia.
  - apply Forall_app_2; [eapply Forall_impl; [exact Hi|]; cbn; lia|].
    constructor; [lia|constructor].
  - lia.
  - apply NoDup_app. split_and!; [done| |apply NoDup_singleton].
    intros ip Hin ->%list_elem_of_singleton. apply has_ip_spec in Hin. congruence.
  - apply Forall_app_2; [done|]. by constructor.
Qed.

Lemma update_rows_map {B} (g : device_row -> B) id f l :
  (forall r, g (f r) = g r) -> map g (update_rows id f l) = map g l.
Proof.
  intros Hg. unfold update_rows. rewrite map_map. apply map_ext. intros r.
  by destruct (r_id r =? id).
Qed.

Lemma update_device_ok id sets w r w' :
  table_ok (w_devices w) -> update_device id sets w = (r, w') -> table_ok (w_devices w').
Proof.
  intros [Hs Hi Hq Hu Hc]. unfold update_device. cbn zeta.
  destruct (forallb _ _) eqn:Hchk; [|by intros [= <- <-]; split].
  intros [= <- <-]. split; cbn; [..|].
  1,2: rewrite update_rows_map; [done|]; intros; cbn; apply assign_id.
  - done.
  - rewrite update_rows_map; [done|]. intros; cbn. apply assign_ip.
  - unfold update_rows. apply Forall_map. rewrite Forall_forall in Hc |- *. intros r Hr.
    destruct (r_id r =? id) eqn:Hid; [|by apply Hc].
    rewrite forallb_forall in Hchk. apply Hchk, filter_In.
    by rewrite <- list_elem_of_In.
Qed.

Lemma delete_device_ok id w r w' :
  table_ok (w_devices w) -> delete_device id w = (r, w') -> table_ok (w_devices w').
Proof.
  intros [Hs Hi Hq Hu Hc] [= <- <-]. split; cbn.
  - by apply sorted_filter.
  - rewrite Forall_forall in Hi |- *. intros i Hin%map_filter_sub. by apply Hi.
  - done.
  - by apply NoDup_map_filter.
  - by apply Forall_filter.
Qed.
End preservation.

(** * The table as a finite map *)

Definition abs (t : devices_table) : gmap Z device_row :=
  list_to_map (map (fun r => (r_id r, r)) (rows t)).

Arguments abs : simpl never.

Lemma lookup_abs t id : abs t !! id = List.find (fun r => r_id r =? id) (rows t).
Proof.
  unfold abs. induction (rows t) as [|r l IH]; [apply lookup_empty|]. cbn.
  destruct (Z.eqb_spec (r_id r) id) as [<-|Hne]; [apply lookup_insert_eq|].
  by rewrite lookup_insert_ne.
Qed.

Lemma find_none_ids (l : list device_row) id :
  id ∉ map r_id l -> List.find (fun r => r_id r =? id) l = None.
Proof.
  induction l as [|r l IH]; [done|]. cbn. intros [Hr Hl]%not_elem_of_cons.
  rewrite (proj2 (Z.eqb_neq _ _)) by congruence. by apply IH.
Qed.

Lemma find_app {A} (p : A -> bool) l1 l2 :
  List.find p (l1 ++ l2) = match List.find p l1 with Some x => Some x | None => List.find p l2 end.
Proof. induction l1 as [|x l IH]; [done|]. cbn. by destruct (p x). Qed.

Section refinement.
Context `{DbEnv}.
Import DeviceStore.

Lemma fresh_id t : table_ok t -> seq t + 1 ∉ map r_id (rows t).
Proof.
  intros Hok Hin. pose proof (ok_ids _ Hok) as Hi. rewrite Forall_forall in Hi.
  apply Hi in Hin. lia.
Qed.

Lemma abs_snoc t r s :
  r_id r ∉ map r_id (rows t) ->
  abs {| rows := rows t ++ [r]; seq := s |} = <[r_id r := r]> (abs t).
Proof.
  intros Hf%find_none_ids. apply map_eq. intros i. rewrite lookup_abs. cbn [rows].
  rewrite find_app. cbn. destruct (decide (i = r_id r)) as [->|Hne].
  - by rewrite Hf, Z.eqb_refl, lookup_insert_eq.
  - rewrite lookup_insert_ne, lookup_abs by done.
    rewrite (proj2 (Z.eqb_neq (r_id r) i)) by congruence. by case_match.
Qed.

Lemma insert_device_abs d w id w' :
  db_ok w -> insert_device d w = (Ok id, w') ->
  abs (w_devices w) !! id = None /\
  abs (w_devices w') = <[id := row_of d id (now_text w)]> (abs (w_devices w)).
Proof.
  intros Hok. unfold insert_device. repeat case_match; try done. intros [= <- <-].
  pose proof (fresh_id _ Hok) as Hf. split; [rewrite lookup_abs; by apply find_none_ids|].
  cbn. by apply (abs_snoc _ (row_of d _ _)).
Qed.

Lemma find_update_rows id f l i :
  (forall r, r_id (f r) = r_id r) ->
  List.find (fun r => r_id r =? i) (update_rows id f l) =
    (if decide (id = i) then fmap f else (fun o => o)) (List.find (fun r => r_id r =? i) l).
Proof.
  intros Hf. induction l as [|r l IH]; cbn; [by case_decide|].
  assert (r_id (if r_id r =? id then f r else r) = r_id r) as -> by (destruct (r_id r =? id); auto).
  destruct (Z.eqb_spec (r_id r) i) as [Hi|Hi]; [|exact IH]. subst.
  destruct (Z.eqb_spec (r_id r) id) as [Hr|Hr]; case_decide; simplify_eq; done.
Qed.

Lemma abs_update_rows id f t s :
  (forall r, r_id (f r) = r_id r) ->
  abs {| rows := update_rows id f (rows t); seq := s |} = alter f id (abs t).
Proof.
  intros Hf. apply map_eq. intros i. rewrite lookup_abs, lookup_alter, !lookup_abs.
  cbn [rows]. rewrite find_update_rows by done. by destruct (decide (id = i)) as [->|].
Qed.

(** How many rows a WHERE id = ? matches, when ids are unique. *)
Lemma hits_spec t id : table_ok t ->
  List.filter (fun r => r_id r =? id) (rows t) = match abs t !! id with Some r => [r] | None => [] end.
Proof.
  intros Hok. rewrite lookup_abs. pose proof (sorted_NoDup _ (ok_sorted _ Hok)) as Hnd.
  induction (rows t) as [|r l IH]; [done|]. cbn in Hnd |- *.
  apply NoDup_cons in Hnd as [Hr Hnd]. destruct (Z.eqb_spec (r_id r) id) as [<-|Hne].
  - f_equal. rewrite IH by done. by rewrite find_none_ids.
  - by apply IH.
Qed.

(** What an UPDATE of one id does, by whether the id is there. *)
Lemma update_device_spec id sets w :
  table_ok (w_devices w) ->
  let f r := set_updated (now_text w) (assign sets r) in
  match abs (w_devices w) !! id with
  | None => exists w', update_device id sets w = (Ok 0, w') /\
      abs (w_devices w') = abs (w_devices w) /\ seq (w_devices w') = seq (w_devices w)
  | Some r =>
      if check_row (f r)
      then exists w', update_device id sets w = (Ok 1, w') /\
        abs (w_devices w') = <[id := f r]> (abs (w_devices w)) /\
        seq (w_devices w') = seq (w_devices w)
      else update_device id sets w = (Err (constraint_error "CHECK"), w)
  end.
Proof.
  intros Hok. cbn zeta. unfold update_device. cbn zeta. rewrite (hits_spec _ id Hok).
  assert (Hid : forall r, r_id (set_updated (now_text w) (assign sets r)) = r_id r)
    by (intros; apply assign_id).
  pose proof (abs_update_rows id _ (w_devices w) (seq (w_devices w)) Hid) as Habs.
  destruct (abs (w_devices w) !! id) as [r|] eqn:Hr; cbn [forallb length];
    [rewrite andb_true_r; destruct (check_row _); [|done]|];
    (eexists; split_and!; [done| |done]; etransitivity; [exact Habs|]);
    apply map_eq; intros i; rewrite lookup_alter; case_decide; subst;
    by rewrite ?lookup_insert_eq, ?lookup_insert_ne, ?Hr.
Qed.

Lemma delete_device_abs id w n w' :
  delete_device id w = (n, w') -> abs (w_devices w') = delete id (abs (w_devices w)).
Proof.
  intros [= <- <-]. apply map_eq. intros i. rewrite lookup_abs. cbn.
  destruct (decide (id = i)) as [->|Hne].
  - rewrite lookup_delete_eq. induction (rows _) as [|r l IH]; [done|]. cbn.
    destruct (r_id r =? i) eqn:E; cbn; [done|]. by rewrite E.
  - rewrite lookup_delete_ne, lookup_abs by done.
    induction (rows _) as [|r l IH]; [done|]. cbn.
    destruct (Z.eqb_spec (r_id r) id) as [Hr|Hr]; cbn.
    + rewrite IH. by rewrite (proj2 (Z.eqb_neq _ _)) by congruence.
    + by destruct (r_id r =? i).
Qed.

End refinement.

(** * Statements as steps *)

(** Relations that do not look at the devices table. *)
Class IgnoresDevices (R : relation world) : Prop :=
  ignores_devices : forall t w, R w (set_devices t w).

#[export] Instance traces_ignores P : IgnoresDevices (traces P).
Proof. intros t w. by exists []. Qed.
#[export] Instance frames_conf_ignores : IgnoresDevices (frames w_conf).
Proof. by intros t w. Qed.
#[export] Instance frames_settings_ignores : IgnoresDevices (frames w_settings).
Proof. by intros t w. Qed.
#[export] Instance frames_traps_ignores : IgnoresDevices (frames w_traps).
Proof. by intros t w. Qed.

#[export] Instance keeps_db_ok_ticks : Ticks (keeps db_ok).
Proof. intros w Hw. exact Hw. Qed.

Section statements.
Context `{DbEnv}.

Lemma stmt_run {A} (f : world -> result A * world) w :
  stmt f w = match db_fault (w_tick w) with
             | Some e => (Err e, bump w)
             | None => f (bump w)
             end.
Proof. cbn. by destruct (db_fault _) as [e|]; [|destruct (f (bump w))]. Qed.

Lemma steps_stmt R `{!PreOrder R, !Ticks R} {A} (f : world -> result A * world) :
  (forall w, R w (f w).2) -> io_steps R (stmt f).
Proof.
  intros Hf. apply steps_atomically. intros w. destruct (db_fault _); [apply ticks|].
  etransitivity; [apply ticks|apply Hf].
Qed.

(** A query leaves the world to the clock. *)
Lemma steps_query R `{!PreOrder R, !Ticks R} {A} (f : world -> result A) :
  io_steps R (stmt (fun w => (f w, w))).
Proof. apply steps_stmt; [done..|]. intros w. cbn. reflexivity. Qed.
End statements.

#[export] Hint Resolve steps_query : io_db.

Section device_steps.
Context `{DbEnv} (R : relation world) `{!PreOrder R, !Ticks R}.
Import DeviceStore.

Lemma steps_List : io_steps R List.
Proof. unfold List, select_rows. io_walk. Qed.
Lemma steps_ListByStatus s : io_steps R (ListByStatus s).
Proof. unfold ListByStatus, select_rows. io_walk. Qed.
Lemma steps_Get id : io_steps R (Get id).
Proof. unfold Get, query_row. io_walk. Qed.
Lemma steps_GetByIP ip : io_steps R (GetByIP ip).
Proof. unfold GetByIP, query_row. io_walk. Qed.
Lemma steps_settings_Get key : io_steps R (SettingsStore.Get key).
Proof. unfold SettingsStore.Get. io_walk. Qed.
Lemma steps_traps_List n : io_steps R (TrapStore.List n).
Proof. unfold TrapStore.List. io_walk. Qed.

(** The writers, for a relation that the statement itself respects. *)
Lemma steps_Create d :
  (forall d w, R w (insert_device d w).2) -> io_steps R (Create d).
Proof.
  intros HR. unfold Create. apply steps_bind; [by apply steps_stmt|].
  intros. io_walk.
Qed.

Lemma steps_Update id u :
  (forall sets vals w, set_clause u = Ok sets -> bind_all sets = Ok vals ->
   R w (update_device id vals w).2) -> io_steps R (Update id u).
Proof.
  intros HR. unfold Update, exec_update. destruct u as [|x u]; [by apply steps_ret|].
  destruct (set_clause _) as [sets|] eqn:Hs; [|by apply steps_ret].
  apply steps_bind; [ |intros; io_walk].
  apply steps_stmt; [done..|]. intros w.
  destruct (bind_all sets) as [vals|] eqn:Hb; [by eapply HR|cbn; reflexivity].
Qed.

Lemma steps_Delete id :
  (forall w, R w (delete_device id w).2) -> io_steps R (Delete id).
Proof.
  intros HR. unfold Delete. apply steps_bind; [by apply steps_stmt|].
  intros. io_walk.
Qed.

Lemma steps_Set key value :
  (forall w, R w (set_settings (<[key := value]> (w_settings w)) w)) ->
  io_steps R (SettingsStore.Set_ key value).
Proof.
  intros HR. unfold SettingsStore.Set_. apply steps_bind; [ |intros; io_walk].
  by apply steps_stmt.
Qed.

Lemma insert_ignored `{!IgnoresDevices R} d w : R w (insert_device d w).2.
Proof. unfold insert_device. repeat case_match; cbn; try reflexivity. apply ignores_devices. Qed.
Lemma update_ignored `{!IgnoresDevices R} id sets w : R w (update_device id sets w).2.
Proof. unfold update_device. cbn zeta. case_match; cbn; [apply ignores_devices|reflexivity]. Qed.
Lemma delete_ignored `{!IgnoresDevices R} id w : R w (delete_device id w).2.
Proof. apply ignores_devices. Qed.

Lemma ignored_Create `{!IgnoresDevices R} d : io_steps R (Create d).
Proof. apply steps_Create. intros. apply insert_ignored. Qed.
Lemma ignored_Update `{!IgnoresDevices R} id u : io_steps R (Update id u).
Proof. apply steps_Update. intros. by apply update_ignored. Qed.
Lemma ignored_Delete `{!IgnoresDevices R} id : io_steps R (Delete id).
Proof. apply steps_Delete. intros. apply delete_ignored. Qed.
End device_steps.

#[export] Hint Resolve steps_List steps_ListByStatus steps_Get steps_GetByIP
  steps_settings_Get steps_traps_List ignored_Create ignored_Update ignored_Delete : io_db.

Section db_ok_steps.
Context `{DbEnv}.
Import DeviceStore.

Lemma insert_keeps d w : keeps db_ok w (insert_device d w).2.
Proof. intros Hw. destruct (insert_device d w) eqn:E. by eapply insert_device_ok. Qed.
Lemma update_keeps id sets w : keeps db_ok w (update_device id sets w).2.
Proof. intros Hw. destruct (update_device id sets w) eqn:E. by eapply update_device_ok. Qed.
Lemma delete_keeps id w : keeps db_ok w (delete_device id w).2.
Proof. intros Hw. destruct (delete_device id w) eqn:E. by eapply delete_device_ok. Qed.

Lemma db_ok_Create d : io_steps (keeps db_ok) (Create d).
Proof. apply steps_Create; try typeclasses eauto. apply insert_keeps. Qed.
Lemma db_ok_Update id u : io_steps (keeps db_ok) (Update id u).
Proof. apply steps_Update; try typeclasses eauto. intros. apply update_keeps. Qed.
Lemma db_ok_Delete id : io_steps (keeps db_ok) (Delete id).
Proof. apply steps_Delete; try typeclasses eauto. apply delete_keeps. Qed.
End db_ok_steps.

#[export] Hint Resolve db_ok_Create db_ok_Update db_ok_Delete : io_db.

(** * What a successful or failed statement did *)

(** The device [Create] stores. *)
Definition stored (d : Device) : Device :=
  if String.eqb (Status d) "" then DeviceStore.with_status d "pending" else d.

Lemma stored_ip d : IPAddress (stored d) = IPAddress d.
Proof. unfold stored. by destruct (String.eqb _ _). Qed.

Section writes.
Context `{DbEnv}.
Import DeviceStore.

Definition grown (d : Device) (w : world) : world :=
  let id := seq (w_devices w) + 1 in
  set_devices {| rows := rows (w_devices w) ++ [row_of (stored d) id (clock_text (S (w_tick w)))];
                 seq := id |} (bump w).

Lemma Create_cases d w :
  (exists e, Create d w = (Err (EWrap [FStr "store: creating device: "] e []), bump w)) \/
  (Create d w = (Ok (seq (w_devices w) + 1), grown d w) /\
   db_fault (w_tick w) = None /\
   check_row (row_of (stored d) (seq (w_devices w) + 1) (clock_text (S (w_tick w)))) = true /\
   has_ip (IPAddress d) (w_devices w) = false /\ seq (w_devices w) < max_int64).
Proof.
  unfold Create. fold (stored d). rewrite bind_eq, stmt_run.
  destruct (db_fault (w_tick w)); [left; by eexists|].
  unfold insert_device. change (w_devices (bump w)) with (w_devices w).
  change (now_text (bump w)) with (clock_text (S (w_tick w))). rewrite stored_ip.
  destruct (check_row _) eqn:Hc; cbn [negb]; [|left; by eexists].
  destruct (has_ip _ _) eqn:Hip; [left; by eexists|].
  destruct (max_int64 <? _) eqn:Hm; [left; by eexists|].
  right. split_and!; [done..|]. apply Z.ltb_ge in Hm. lia.
Qed.

Lemma find_none {A} (p : A -> bool) l : existsb p l = false -> List.find p l = None.
Proof.
  induction l as [|x l IH]; cbn; [done|]. destruct (p x); [done|]. exact IH.
Qed.

Lemma abs_grown d w : table_ok (w_devices w) ->
  abs (w_devices (grown d w)) =
    <[seq (w_devices w) + 1 := row_of (stored d) (seq (w_devices w) + 1) (clock_text (S (w_tick w)))]>
      (abs (w_devices w)).
Proof. intros Hok. by apply (abs_snoc _ (row_of _ _ _)), fresh_id. Qed.

Lemma row_checked w id r : db_ok w -> abs (w_devices w) !! id = Some r -> check_row r = true.
Proof.
  intros Hok Hr. pose proof (ok_checks _ Hok) as Hc. rewrite Forall_forall in Hc. apply Hc.
  rewrite lookup_abs in Hr. apply find_some in Hr as [Hin _]. by apply list_elem_of_In.
Qed.

(** The update the background jobs use: the status alone, to one of its three values. *)
Lemma update_status id st r w :
  db_ok w -> db_fault (w_tick w) = None -> abs (w_devices w) !! id = Some r ->
  In st ["pending"; "active"; "failed"]%string ->
  exists w1, Update id [("status", AStr st)] w = (Ok tt, w1) /\
    abs (w_devices w1) =
      <[id := set_updated (clock_text (S (w_tick w))) (set_col c_status (VText st) r)]>
        (abs (w_devices w)).
Proof.
  intros Hok Hf Hr Hst. unfold Update, exec_update.
  change (set_clause [("status", AStr st)]) with (Ok [(c_status, AStr st)]).
  cbv beta iota. rewrite bind_eq, stmt_run, Hf.
  change (bind_all [(c_status, AStr st)]) with (Ok [(c_status, VText st)]).
  pose proof (update_device_spec id [(c_status, VText st)] (bump w) Hok) as Hu. cbn zeta in Hu.
  change (w_devices (bump w)) with (w_devices w) in Hu. rewrite Hr in Hu.
  assert (Hc : check_row (set_updated (now_text (bump w)) (assign [(c_status, VText st)] r)) = true).
  { pose proof (row_checked w id r Hok Hr) as Hrc. revert Hrc. unfold check_row, assign. cbn [foldl].
    rewrite !andb_true_iff. intros [Hv _]. split; [exact Hv|].
    cbn in Hst. by destruct_or! Hst; subst. }
  rewrite Hc in Hu. destruct Hu as (w1 & -> & Habs & _). by exists w1.
Qed.

(** What the readers return, and the world they leave. *)
Lemma settings_Get_run key w r w1 :
  SettingsStore.Get key w = (r, w1) ->
  w1 = bump w /\ match r with Ok v => w_settings w !! key = Some v | Err _ => True end.
Proof.
  unfold SettingsStore.Get. rewrite bind_eq, stmt_run. destruct (db_fault _); [by intros [= <- <-]|].
  cbn. destruct (w_settings w !! key); by intros [= <- <-].
Qed.

Lemma List_run w r w1 :
  List w = (r, w1) ->
  w1 = bump w /\ match r with Ok ds => scan_all (rows (w_devices w)) = Ok ds | Err _ => True end.
Proof.
  unfold List, select_rows. rewrite bind_eq, stmt_run. destruct (db_fault _); [by intros [= <- <-]|].
  cbn. rewrite filter_all. intros [= <- <-]. by destruct (scan_all _).
Qed.

Lemma ListByStatus_run st w r w1 :
  ListByStatus st w = (r, w1) ->
  w1 = bump w /\
  match r with
  | Ok ds => scan_all (List.filter (fun r => text_is st (r_status r)) (rows (w_devices w))) = Ok ds
  | Err _ => True
  end.
Proof.
  unfold ListByStatus, select_rows. rewrite bind_eq, stmt_run.
  destruct (db_fault _); [by intros [= <- <-]|]. cbn. intros [= <- <-]. by destruct (scan_all _).
Qed.

(** A getter that answers has read the row. *)
Lemma Get_Ok id w d w1 : Get id w = (Ok d, w1) ->
  exists r, abs (w_devices w) !! id = Some r /\ scanDevice r = Ok d /\ w1 = bump w.
Proof.
  unfold Get, query_row. rewrite bind_eq, stmt_run. destruct (db_fault _); [done|]. cbn.
  rewrite <- lookup_abs. destruct (abs (w_devices w) !! id) as [r|]; [|done].
  destruct (scanDevice r) as [d'|] eqn:Hs; [|done]. cbn. intros [= <- <-]. by exists r.
Qed.

(** An update that succeeds with something to set has hit the row. *)
Lemma Update_Ok id u w w1 :
  table_ok (w_devices w) -> u <> [] -> Update id u w = (Ok tt, w1) ->
  exists sets vals r, set_clause u = Ok sets /\ bind_all sets = Ok vals /\
    abs (w_devices w) !! id = Some r /\
    abs (w_devices w1) =
      <[id := set_updated (clock_text (S (w_tick w))) (assign vals r)]> (abs (w_devices w)).
Proof.
  intros Hok Hne. unfold Update, exec_update. destruct u as [|x u]; [done|].
  destruct (set_clause _) as [sets|]; [|done]. rewrite bind_eq, stmt_run.
  destruct (db_fault _); [done|]. destruct (bind_all sets) as [vals|] eqn:Hb; [|done].
  pose proof (update_device_spec id vals (bump w) Hok) as Hu. cbn zeta in Hu.
  change (w_devices (bump w)) with (w_devices w) in Hu.
  destruct (abs (w_devices w) !! id) as [r|]; [destruct (check_row _)|].
  - destruct Hu as (w' & -> & Habs & _). cbn. intros [= <-].
    exists sets, vals, r. split_and!; [done..|exact Habs].
  - by rewrite Hu.
  - by destruct Hu as (w' & -> & _).
Qed.

(** An update that fails has left the devices as they were. *)
Lemma Update_Err id u e w w1 :
  table_ok (w_devices w) -> Update id u w = (Err e, w1) -> abs (w_devices w1) = abs (w_devices w).
Proof.
  intros Hok. unfold Update, exec_update. destruct u as [|x u]; [done|].
  destruct (set_clause _) as [sets|]; [|by intros [= _ <-]]. rewrite bind_eq, stmt_run.
  destruct (db_fault _); [by intros [= _ <-]|].
  destruct (bind_all sets) as [vals|] eqn:Hb; [|by intros [= _ <-]].
  pose proof (update_device_spec id vals (bump w) Hok) as Hu. cbn zeta in Hu.
  change (w_devices (bump w)) with (w_devices w) in Hu.
  destruct (abs (w_devices w) !! id) as [r|]; [destruct (check_row _)|].
  - by destruct Hu as (w' & -> & _).
  - rewrite Hu. by intros [= _ <-].
  - destruct Hu as (w' & -> & Habs & _). cbn. intros [= _ <-]. exact Habs.
Qed.

(** An update of an id that is not there never succeeds, unless it sets nothing. *)
Lemma Update_missing id u w :
  table_ok (w_devices w) -> abs (w_devices w) !! id = None -> u <> [] ->
  is_ok (Update id u w).1 = false.
Proof.
  intros Hok Hn Hne. destruct (Update id u w) as [[[]|e] w1] eqn:Hu; [|done].
  destruct (Update_Ok _ _ _ _ Hok Hne Hu) as (? & ? & ? & _ & _ & Hr & _). congruence.
Qed.

(** The new row is found under its id and its address. *)
Lemma grown_find d w : table_ok (w_devices w) -> has_ip (IPAddress d) (w_devices w) = false ->
  let id := seq (w_devices w) + 1 in
  let r := row_of (stored d) id (clock_text (S (w_tick w))) in
  List.find (fun r => r_id r =? id) (rows (w_devices (grown d w))) = Some r /\
  List.find (fun r => String.eqb (r_ip_address r) (IPAddress d)) (rows (w_devices (grown d w))) = Some r.
Proof.
  intros Hok Hip. cbn. rewrite !find_app. split.
  - rewrite find_none_ids by (by apply fresh_id). cbn. by rewrite Z.eqb_refl.
  - rewrite find_none by exact Hip. cbn. by rewrite stored_ip, String.eqb_refl.
Qed.
End writes.

(** * The traps table, newest first *)

Definition history (w : world) : list Trap := map TrapStore.trap_of (rev (trap_rows (w_traps w))).

Section traps.
Context `{DbEnv}.

Lemma traps_List_run n w :
  db_fault (w_tick w) = None ->
  TrapStore.List n w = (Ok (take (Z.to_nat (if n <=? 0 then 100 else n)) (history w)), bump w).
Proof.
  intros Hf. unfold TrapStore.List. rewrite bind_eq, stmt_run, Hf. cbn. unfold ret, TrapStore.select_traps, history.
  by rewrite firstn_map.
Qed.

(** A stored trap: the columns of the row, with the id and time the database gave it. *)
Definition stored_trap (t : Trap) (id : Z) (now : string) : Trap :=
  Build_Trap id (SourceIP t) (OID t) (Payload t) (TCommunity t) (AgentAddress t) now.

Lemma Insert_run t w :
  db_fault (w_tick w) = None -> trap_seq (w_traps w) < max_int64 ->
  exists w1, TrapStore.Insert t w = (Ok (trap_seq (w_traps w) + 1), w1) /\
    w_tick w1 = S (w_tick w) /\
    history w1 = stored_trap t (trap_seq (w_traps w) + 1) (clock_text (S (w_tick w))) :: history w.
Proof.
  intros Hf Hs. unfold TrapStore.Insert. rewrite bind_eq, stmt_run, Hf. unfold TrapStore.insert_trap.
  change (w_traps (bump w)) with (w_traps w).
  rewrite (proj2 (Z.ltb_ge _ _)) by lia. eexists. split; [reflexivity|]. split; [done|].
  unfold history. cbn. by rewrite rev_app_distr.
Qed.
End traps.

(** * Which column ends up with what *)

Section columns.
Context `{DbEnv}.
Import DeviceStore.

Lemma clause_elem u c v : (c, v) ∈ clause u <-> (column_name c, v) ∈ u.
Proof.
  unfold clause. rewrite list_elem_of_omap. split.
  - intros ([k v'] & Hin & Hc). destruct (column_of k) as [c'|] eqn:Hk; [|done].
    cbn in Hc. injection Hc as -> ->. apply column_of_Some in Hk. by subst.
  - intros Hin. exists (column_name c, v). split; [done|].
    by rewrite (proj2 (column_of_Some _ _) eq_refl).
Qed.

Lemma bind_all_elem sets vals c v :
  bind_all sets = Ok vals -> (c, v) ∈ sets -> exists b, bind_arg v = Ok b /\ (c, b) ∈ vals.
Proof.
  unfold bind_all. rewrite result_map_Ok. intros Hf Hin.
  apply list_elem_of_lookup in Hin as [i Hi].
  destruct (Forall2_lookup_l _ _ _ _ _ Hf Hi) as ([c' b] & Hb & Hcb). cbn in Hcb.
  destruct (bind_arg v) as [b'|]; [|done]. injection Hcb as -> ->.
  exists b. split; [done|]. by eapply list_elem_of_lookup_2.
Qed.

(** The columns of a row after an update whose keys are distinct: a named column holds the
    bound value, with the column's affinity, the others are untouched. *)
Lemma assign_update u sets vals r c :
  NoDup u.*1 -> set_clause u = Ok sets -> bind_all sets = Ok vals ->
  (forall v, (column_name c, v) ∈ u ->
     exists b, bind_arg v = Ok b /\ get_col c (assign vals r) = affinity c b) /\
  (column_name c ∉ u.*1 -> get_col c (assign vals r) = get_col c r).
Proof.
  intros Hnd Hs Hb. pose proof (set_clause_spec u) as Hc. rewrite Hs in Hc.
  destruct (forallb _ u); [|by destruct Hc]. injection Hc as ->. split.
  - intros v Hin. apply clause_elem in Hin.
    destruct (bind_all_elem _ _ _ _ Hb Hin) as (b & Hbv & Hcb). exists b. split; [done|].
    apply assign_named; [|done]. rewrite (bind_all_keys _ _ Hb). by apply clause_NoDup.
  - intros Hn. apply assign_other. rewrite (bind_all_keys _ _ Hb). intros Hin.
    apply list_elem_of_fmap in Hin as ([c' v] & -> & Hin). apply clause_elem in Hin.
    apply Hn. apply list_elem_of_fmap. by exists (column_name c', v).
Qed.
End columns.

(** * Opening the configuration database *)

Section opening.
Context `{DbEnv}.

Lemma exec_script_cons s script w w1 :
  exec_script (s :: script) w = (Ok tt, w1) -> exec_script script (s (bump w)) = (Ok tt, w1).
Proof.
  cbn [exec_script]. intros Hrun. apply bind_inv in Hrun as ([u|e] & w2 & Hs & Hrun); [|done].
  rewrite stmt_run in Hs. destruct (db_fault _); [done|]. by injection Hs as _ <-.
Qed.

(** When every statement succeeds, the defaults that were missing are there; that is all. *)
Lemma OpenConfigDB_Ok w w1 : OpenConfigDB w = (Ok tt, w1) ->
  w_settings w1 = insert_or_ignore "credential_duplication_enabled" "0"
    (insert_or_ignore "polling_interval_seconds" "60" (w_settings w)) /\
  w_devices w1 = w_devices w /\ w_traps w1 = w_traps w.
Proof.
  unfold OpenConfigDB. intros Hrun. apply bind_inv in Hrun as ([[]|e] & w2 & Hs & Hrun); [|done].
  injection Hrun as <-. do 4 apply exec_script_cons in Hs. by injection Hs as <-.
Qed.

Lemma steps_exec_script R `{!PreOrder R, !Ticks R} script :
  (forall s w, s ∈ script -> R w (s w)) -> io_steps R (exec_script script).
Proof.
  induction script as [|s script IH]; intros HR; cbn [exec_script]; [done|].
  apply steps_bind; [apply steps_stmt; [done..|]; intros w; apply HR; by left|].
  intros []; [|done]. apply IH. intros s' w Hs. apply HR. by right.
Qed.
End opening.

(** What a statement of the schema does: nothing but to the settings. *)
Lemma configSchema_settings s w : s ∈ configSchema -> exists m, s w = set_settings m w.
Proof.
  unfold configSchema. intros Hs.
  repeat (apply elem_of_cons in Hs as [->|Hs]; [by (eexists; first [reflexivity|by instantiate (1 := w_settings w); destruct w])|]).
  by apply not_elem_of_nil in Hs.
Qed.
