(* ===== verification/StoreSpec.v ===== *)
(** What [internal/store] promises: an abstract device store, which is a finite map from ids
    to rows together with the largest id ever used, with one total function per operation;
    and the theorem that the statements of [Store.v] implement it.  Also the properties of
    the stores that clients rely on: reachable databases are well formed, a partial update
    does not depend on the iteration order of the Go map it is given, what is created is
    read back, and the two defects found on the way. *)

From Stdlib Require Import Sorting.Sorted Permutation.
From stdpp Require Import sorting.
From S2P Require Import Prelude Float64 Json World Store StoreFacts.
Open Scope Z_scope.

(** * The abstract store *)

Record dstate := DState { d_map : gmap Z device_row; d_high : Z }.

Definition abs_state (w : world) : dstate := DState (abs (w_devices w)) (seq (w_devices w)).

Inductive op :=
| OpCreate (d : Device)
| OpUpdate (id : Z) (updates : list (string * any))
| OpDelete (id : Z)
| OpGet (id : Z)
| OpGetByIP (ip : string)
| OpList
| OpListByStatus (status : string).

Inductive outcome :=
| OutId (r : result Z)
| OutUnit (r : result unit)
| OutDevice (r : result Device)
| OutDevices (r : result (list Device)).

Definition run_op `{DbEnv} (o : op) : IO outcome :=
  match o with
  | OpCreate d => let* r := DeviceStore.Create d in ret (OutId r)
  | OpUpdate id u => let* r := DeviceStore.Update id u in ret (OutUnit r)
  | OpDelete id => let* r := DeviceStore.Delete id in ret (OutUnit r)
  | OpGet id => let* r := DeviceStore.Get id in ret (OutDevice r)
  | OpGetByIP ip => let* r := DeviceStore.GetByIP ip in ret (OutDevice r)
  | OpList => let* r := DeviceStore.List in ret (OutDevices r)
  | OpListByStatus s => let* r := DeviceStore.ListByStatus s in ret (OutDevices r)
  end.

Section spec.
Context `{DbEnv}.
Import DeviceStore.

Definition by_id (a b : device_row) : Prop := r_id a <= r_id b.
#[local] Instance by_id_dec : RelDecision by_id.
Proof. intros a b. unfold by_id. apply _. Defined.

(** The rows in the order of their ids. *)
Definition ordered (m : gmap Z device_row) : list device_row :=
  merge_sort by_id (map_to_list m).*2.

Definition spec_create (now : string) (d : Device) (s : dstate) : result Z * dstate :=
  let d := if String.eqb (Status d) "" then with_status d "pending" else d in
  let id := d_high s + 1 in
  let fail what := (Err (EWrap [FStr "store: creating device: "] (constraint_error what) []), s) in
  if negb (check_row (row_of d id now)) then fail "CHECK"
  else if existsb (fun r => String.eqb (r_ip_address r) (IPAddress d)) (ordered (d_map s))
  then fail "UNIQUE constraint failed: devices.ip_address"
  else if max_int64 <? id then fail "database or disk is full"
  else (Ok id, DState (<[id := row_of d id now]> (d_map s)) id).

Definition spec_update (now : string) (id : Z) (u : list (string * any)) (s : dstate)
    : result unit * dstate :=
  let fail e := Err (EWrap [FStr "store: updating device "; FInt id; FStr ": "] e []) in
  match u with
  | [] => (Ok tt, s)
  | _ =>
      match set_clause u with
      | Err e => (Err e, s)
      | Ok sets =>
          match bind_all sets, d_map s !! id with
          | Err e, _ => (fail e, s)
          | Ok _, None => (Err ErrNotFound, s)
          | Ok vals, Some r =>
              let r' := set_updated now (assign vals r) in
              if check_row r' then (Ok tt, DState (<[id := r']> (d_map s)) (d_high s))
              else (fail (constraint_error "CHECK"), s)
          end
      end
  end.

Definition spec_delete (id : Z) (s : dstate) : result unit * dstate :=
  match d_map s !! id with
  | None => (Err ErrNotFound, s)
  | Some _ => (Ok tt, DState (delete id (d_map s)) (d_high s))
  end.

(** A getter: not found, or the row as it scans. *)
Definition spec_row (pre : list frag) (o : option device_row) : result Device :=
  match o with None => Err ErrNotFound | Some r => wrap pre (scanDevice r) end.

Definition spec_run (now : string) (o : op) (s : dstate) : outcome * dstate :=
  match o with
  | OpCreate d => let '(r, s') := spec_create now d s in (OutId r, s')
  | OpUpdate id u => let '(r, s') := spec_update now id u s in (OutUnit r, s')
  | OpDelete id => let '(r, s') := spec_delete id s in (OutUnit r, s')
  | OpGet id =>
      (OutDevice (spec_row [FStr "store: getting device "; FInt id; FStr ": "] (d_map s !! id)), s)
  | OpGetByIP ip =>
      (OutDevice (spec_row [FStr "store: getting device by ip "; FStr ip; FStr ": "]
         (List.find (fun r => String.eqb (r_ip_address r) ip) (ordered (d_map s)))), s)
  | OpList => (OutDevices (scan_all (ordered (d_map s))), s)
  | OpListByStatus st =>
      (OutDevices (scan_all (List.filter (fun r => text_is st (r_status r)) (ordered (d_map s)))), s)
  end.

(** ** The table, in order, is the map, in order *)

#[local] Instance by_id_total : Total by_id.
Proof. intros a b. unfold by_id. lia. Qed.
#[local] Instance by_id_trans : Transitive by_id.
Proof. intros a b c. unfold by_id. lia. Qed.

Lemma rows_sorted t : table_ok t -> StronglySorted by_id (rows t).
Proof.
  intros Hok. pose proof (ok_sorted _ Hok) as Hs. induction (rows t) as [|r l IH]; [constructor|].
  cbn in Hs. inversion Hs as [|? ? Hl Hr]; subst. constructor; [by apply IH|].
  rewrite Forall_map in Hr. eapply Forall_impl; [exact Hr|]. unfold by_id. cbn. lia.
Qed.

Lemma map_to_list_abs t : table_ok t -> (map_to_list (abs t)).*2 ≡ₚ rows t.
Proof.
  intros Hok. unfold abs. rewrite map_to_list_to_map.
  - rewrite <- list_fmap_compose. unfold compose. cbn. by rewrite list_fmap_id.
  - rewrite map_map. cbn. apply sorted_NoDup, ok_sorted, Hok.
Qed.

Lemma sorted_unique (l1 l2 : list device_row) :
  NoDup (map r_id l2) -> StronglySorted by_id l1 -> StronglySorted by_id l2 ->
  l1 ≡ₚ l2 -> l1 = l2.
Proof.
  intros Hnd H1 H2 Hp. revert l2 Hnd H2 Hp.
  induction H1 as [|x l1 Hs IH Hx]; intros l2 Hnd H2 Hp.
  { by apply Permutation_nil_l in Hp. }
  destruct l2 as [|y l2]; [by apply Permutation_nil_r in Hp|].
  inversion H2 as [|? ? Hs2 Hy]; subst. cbn in Hnd. apply NoDup_cons in Hnd as [Hny Hnd].
  assert (x = y) as ->.
  { assert (Hiny : y ∈ x :: l1) by (rewrite Hp; apply elem_of_cons; by left).
    assert (Hinx : x ∈ y :: l2) by (rewrite <- Hp; apply elem_of_cons; by left).
    apply elem_of_cons in Hiny as [->|Hiny]; [done|].
    apply elem_of_cons in Hinx as [->|Hinx]; [done|].
    rewrite Forall_forall in Hx, Hy. pose proof (Hx _ Hiny). pose proof (Hy _ Hinx).
    destruct Hny. replace (r_id y) with (r_id x) by (unfold by_id in *; lia).
    apply list_elem_of_In, in_map. by apply list_elem_of_In. }
  f_equal. apply IH; [done..|]. by eapply Permutation_cons_inv.
Qed.

Lemma ordered_abs t : table_ok t -> ordered (abs t) = rows t.
Proof.
  intros Hok. apply sorted_unique.
  - apply sorted_NoDup, ok_sorted, Hok.
  - apply StronglySorted_merge_sort; apply _.
  - by apply rows_sorted.
  - unfold ordered. rewrite merge_sort_Permutation. by apply map_to_list_abs.
Qed.

(** ** One operation at a time *)

Section one_op.
Context (w : world) (Hok : db_ok w) (Hrun : db_fault (w_tick w) = None).

Let now := clock_text (S (w_tick w)).

Lemma run_stmt {A} (f : world -> result A * world) : stmt f w = f (bump w).
Proof. by rewrite stmt_run, Hrun. Qed.

Lemma create_refines d :
  spec_create now d (abs_state w) = ((Create d w).1, abs_state (Create d w).2).
Proof.
  unfold Create, spec_create. rewrite bind_eq, run_stmt. unfold insert_device.
  cbn [abs_state d_map d_high]. rewrite ordered_abs by exact Hok.
  set (d' := if String.eqb (Status d) "" then _ else _).
  change (now_text (bump w)) with now.
  change (w_devices (bump w)) with (w_devices w).
  destruct (check_row _) eqn:Hchk; cbn [negb]; [|done].
  unfold has_ip. destruct (existsb _ _) eqn:Hip; [done|].
  destruct (max_int64 <? _) eqn:Hmax; [done|].
  cbn. f_equal. unfold abs_state. cbn. f_equal.
  destruct (insert_device_abs d' (bump w) (seq (w_devices w) + 1)
    (set_devices {| rows := rows (w_devices w) ++ [row_of d' (seq (w_devices w) + 1) now];
                    seq := seq (w_devices w) + 1 |} (bump w))) as [_ Habs]; [exact Hok| |].
  - unfold insert_device. change (w_devices (bump w)) with (w_devices w).
    change (now_text (bump w)) with now. unfold has_ip. by rewrite Hchk, Hip, Hmax.
  - by symmetry.
Qed.

Lemma query_refines pre p :
  let q := try* d := query_row p catch e => ret (Err (getter_error pre e)) in ret (Ok d) in
  q w = (spec_row pre (List.find p (rows (w_devices w))), bump w).
Proof.
  cbn zeta. unfold query_row. rewrite bind_eq, run_stmt. cbn.
  destruct (List.find _ _) as [r|]; [|done]. cbn.
  destruct (scanDevice r) as [d|e] eqn:E; [done|]. cbn. unfold ret, getter_error.
  by rewrite (scanDevice_error _ _ E).
Qed.
Lemma update_refines id u :
  spec_update now id u (abs_state w) = ((Update id u w).1, abs_state (Update id u w).2).
Proof.
  unfold Update, spec_update. destruct u as [|x u]; [done|].
  destruct (set_clause _) as [sets|e]; [|done].
  unfold exec_update. rewrite bind_eq, run_stmt.
  destruct (bind_all sets) as [vals|e]; [|done]. cbn [abs_state d_map d_high].
  pose proof (update_device_spec id vals (bump w) Hok) as Hu. cbn zeta in Hu.
  change (w_devices (bump w)) with (w_devices w) in Hu.
  change (now_text (bump w)) with now in Hu.
  destruct (abs (w_devices w) !! id) as [r|]; [destruct (check_row _)|].
  - destruct Hu as (w' & -> & Habs & Hseq). cbn. unfold abs_state. by rewrite Habs, Hseq.
  - by rewrite Hu.
  - destruct Hu as (w' & -> & Habs & Hseq). cbn. unfold abs_state. by rewrite Habs, Hseq.
Qed.

Lemma delete_refines id :
  spec_delete id (abs_state w) = ((Delete id w).1, abs_state (Delete id w).2).
Proof.
  unfold Delete, spec_delete. rewrite bind_eq, run_stmt.
  pose proof (delete_device_abs id (bump w) _ _ (surjective_pairing _)) as Habs.
  cbn [abs_state d_map d_high]. unfold delete_device in *. cbn in *.
  rewrite (hits_spec _ id Hok).
  destruct (abs (w_devices w) !! id) as [r|] eqn:Hr; cbn.
  - f_equal. unfold abs_state. cbn. f_equal. symmetry. exact Habs.
  - f_equal. unfold abs_state. cbn. f_equal. symmetry.
    etransitivity; [exact Habs|]. by apply delete_id.
Qed.
End one_op.

(** A statement that fails changes nothing but the clock. *)
Lemma run_op_faulty o w e :
  db_fault (w_tick w) = Some e -> abs_state (run_op o w).2 = abs_state w.
Proof.
  intros He.
  assert (Hs : forall A (f : world -> result A * world), stmt f w = (Err e, bump w)).
  { intros A f. by rewrite stmt_run, He. }
  destruct o as [d|id [|x u]|id|id|ip| |st]; unfold run_op; rewrite bind_eq;
    unfold Create, Update, exec_update, Delete, Get, GetByIP, List, ListByStatus,
      query_row, select_rows; try destruct (set_clause _); try done;
    rewrite bind_eq, Hs; done.
Qed.
End spec.

(** Every operation keeps the invariant, whatever happens. *)
Lemma run_op_keeps `{DbEnv} o w : db_ok w -> db_ok (run_op o w).2.
Proof.
  apply (steps_run (keeps db_ok)).
  destruct o; cbn [run_op]; (apply steps_bind; [|intros; by apply steps_ret]);
    first [apply db_ok_Create|apply db_ok_Update|apply db_ok_Delete|apply steps_Get; apply _
      |apply steps_GetByIP; apply _|apply steps_List; apply _|apply steps_ListByStatus; apply _].
Qed.

(** * The properties *)

(** C1.  The device store of [internal/store] implements its abstract specification: on a
    well-formed database and as long as SQLite itself does not fail, every operation gives
    the result the finite-map specification gives (ids one past the largest ever used,
    duplicates and CHECK violations rejected, [ErrNotFound] exactly for missing ids, listings
    in id order) and leaves the specified contents; when the statement fails, the contents
    are unchanged.  Either way the database stays well-formed: rows in the order of their ids,
    no id past the counter, no two devices with one address, every CHECK satisfied. *)
Theorem store_refines_spec `{DbEnv} (o : op) (w : world) :
  db_ok w ->
  db_ok (run_op o w).2 /\
  match db_fault (w_tick w) with
  | None =>
      spec_run (clock_text (S (w_tick w))) o (abs_state w) =
        ((run_op o w).1, abs_state (run_op o w).2)
  | Some _ => abs_state (run_op o w).2 = abs_state w
  end.
Proof.
  intros Hok. split; [by apply run_op_keeps|].
  destruct (db_fault (w_tick w)) as [e|] eqn:Hf; [by eapply run_op_faulty|].
  destruct o as [d|id u|id|id|ip| |st]; cbn -[spec_create spec_update spec_delete];
    rewrite bind_eq; cbn -[spec_create spec_update spec_delete].
  - by rewrite create_refines.
  - by rewrite update_refines.
  - by rewrite delete_refines.
  - unfold DeviceStore.Get. rewrite query_refines by done. by rewrite <- lookup_abs.
  - unfold DeviceStore.GetByIP. rewrite query_refines by done. by rewrite ordered_abs.
  - rewrite ordered_abs by done. unfold DeviceStore.List, DeviceStore.select_rows.
    rewrite bind_eq, run_stmt by done. cbn. by rewrite filter_all.
  - rewrite ordered_abs by done. unfold DeviceStore.ListByStatus, DeviceStore.select_rows.
    by rewrite bind_eq, run_stmt.
Qed.

(** ** A concrete database for the witnesses *)

Definition router : Device :=
  Build_Device 0 "10.0.0.1" "R1" "v2c" "" "" "" "" "" "" "core" "" false "manual" "" "".

Definition one_router : world :=
  (let _ := quiet_db in (DeviceStore.Create router empty_world).2).

Lemma one_router_ok : db_ok one_router.
Proof.
  apply (steps_run _ _ empty_world (db_ok_Create (H := quiet_db) router)). apply empty_table_ok.
Qed.

Lemma store_refines_spec_witness :
  (run_op (H := quiet_db) (OpUpdate 1 [("status", AStr "active")]) one_router).1 = OutUnit (Ok tt).
Proof.
  destruct (store_refines_spec (H := quiet_db) (OpUpdate 1 [("status", AStr "active")])
    one_router one_router_ok) as [_ Href]. cbv beta iota delta [db_fault quiet_db] in Href.
  apply (f_equal fst) in Href. vm_compute in Href. vm_compute. exact (eq_sym Href).
Defined.

(** ** Partial updates *)

Section updates.
Context `{DbEnv}.
Import DeviceStore.

Lemma exec_update_Permutation id s1 s2 w :
  Permutation s1 s2 -> NoDup s1.*1 -> (forall e1 e2, bind_all s1 = Err e1 -> bind_all s2 = Err e2 -> e1 = e2) ->
  exec_update id s1 w = exec_update id s2 w.
Proof.
  intros Hp Hnd He. unfold exec_update. rewrite !stmt_run.
  destruct (db_fault _); [done|].
  pose proof (result_map_Permutation (fun '(c, v) => b <-? bind_arg v;; Ok (c, b)) _ _ Hp) as Hb.
  fold (bind_all s1) (bind_all s2) in Hb.
  destruct (bind_all s1) as [v1|e1] eqn:E1, (bind_all s2) as [v2|e2] eqn:E2; try done.
  - assert (Hf : forall r, assign v1 r = assign v2 r).
    { intros r. apply assign_Permutation; [done|]. by rewrite (bind_all_keys _ _ E1). }
    unfold update_device. cbn zeta.
    assert (Hc : forall l, forallb (fun r => check_row (set_updated (now_text (bump w)) (assign v1 r))) l =
      forallb (fun r => check_row (set_updated (now_text (bump w)) (assign v2 r))) l).
    { intros l. induction l as [|r l IH]; cbn; [done|]. by rewrite Hf, IH. }
    rewrite Hc. destruct (forallb _ _); [|done]. f_equal. f_equal. f_equal.
    unfold update_rows. apply map_ext. intros r. by rewrite Hf.
  - by rewrite (He e1 e2).
Qed.

(** The only error an argument can cause. *)
Lemma bind_all_error s e :
  bind_all s = Err e -> e = ENew [FStr "sql: converting argument: unsupported type"].
Proof.
  unfold bind_all. induction s as [|[c v] s IH]; cbn -[bind_arg]; [done|].
  destruct v; cbn; try (destruct (result_map _ s); cbn; [done|]; exact IH); by intros [= <-].
Qed.
End updates.

(** C2.  [DeviceStore.Update] ranges over a Go map, whose order is not specified: whatever
    the order, the same database results, the call succeeds or fails alike, and if every
    column is allowed the returned error is the same too. *)
Theorem update_order_irrelevant `{DbEnv} (id : Z) (u1 u2 : list (string * any)) (w : world) :
  Permutation u1 u2 -> NoDup u1.*1 ->
  (DeviceStore.Update id u1 w).2 = (DeviceStore.Update id u2 w).2 /\
  is_ok (DeviceStore.Update id u1 w).1 = is_ok (DeviceStore.Update id u2 w).1 /\
  (forallb (fun kv => allowedDeviceColumn kv.1) u1 = true ->
   (DeviceStore.Update id u1 w).1 = (DeviceStore.Update id u2 w).1).
Proof.
  intros Hp Hnd. unfold DeviceStore.Update.
  destruct u1 as [|x1 u1]; [by apply Permutation_nil_l in Hp; subst|].
  destruct u2 as [|x2 u2]; [by apply Permutation_nil_r in Hp|].
  pose proof (set_clause_spec (x1 :: u1)) as H1. pose proof (set_clause_spec (x2 :: u2)) as H2.
  assert (forallb (fun kv : string * any => allowedDeviceColumn kv.1) (x1 :: u1) =
          forallb (fun kv => allowedDeviceColumn kv.1) (x2 :: u2)) as Hall.
  { apply Bool.eq_iff_eq_true. rewrite !forallb_forall.
    by split; intros Hf x Hx; apply Hf; eapply Permutation_in; [|exact Hx|..|exact Hx]; try done. }
  rewrite <- Hall in H2. destruct (forallb _ (x1 :: u1)).
  - rewrite H1, H2. rewrite !bind_eq.
    rewrite (exec_update_Permutation id _ (clause (x2 :: u2))); [done|..].
    + by apply clause_Permutation.
    + by apply clause_NoDup.
    + intros e1 e2 ->%bind_all_error ->%bind_all_error. done.
  - destruct H1 as [e1 ->], H2 as [e2 ->]. done.
Qed.

Lemma update_order_irrelevant_witness :
  is_ok (DeviceStore.Update (H := quiet_db) 1
    [("hostname", AStr "R2"); ("status", AStr "active")] one_router).1 = true.
Proof.
  destruct (update_order_irrelevant (H := quiet_db) 1
    [("hostname", AStr "R2"); ("status", AStr "active")]
    [("status", AStr "active"); ("hostname", AStr "R2")] one_router) as (_ & -> & _).
  - apply perm_swap.
  - apply (bool_decide_unpack _). vm_compute. exact I.
  - vm_compute. reflexivity.
Defined.

(** ** Reading back what was written *)

(** The device a successful [Create d] leaves in the table. *)
Definition created (d : Device) (id : Z) (now : string) : Device :=
  Build_Device id (IPAddress d) (Hostname d) (SNMPVersion d) (Community d) (V3User d)
    (V3AuthKey d) (V3PrivKey d) (V3AuthProtocol d) (V3PrivProtocol d) (GroupName d)
    (if String.eqb (Status d) "" then "pending" else Status d)
    (IsPublicIP d) (DiscoveredVia d) now now.

(** C3.  A device that [Create] reports as stored is read back by [Get] under the id it
    returned and by [GetByIP] under its address, field by field, with an empty status turned
    into pending and both timestamps set by the database. *)
Theorem create_get_roundtrip `{DbEnv} (d : Device) (id : Z) (w w1 : world) :
  db_ok w -> db_fault (S (w_tick w)) = None ->
  DeviceStore.Create d w = (Ok id, w1) ->
  let got := Ok (created d id (clock_text (S (w_tick w)))) in
  (DeviceStore.Get id w1).1 = got /\ (DeviceStore.GetByIP (IPAddress d) w1).1 = got.
Proof.
  intros Hok Hf Hc. destruct (Create_cases d w) as [[e He]|(He & _ & _ & Hip & _)];
    rewrite Hc in He; [done|]. injection He as -> ->. cbn zeta.
  destruct (grown_find d w Hok Hip) as [H1 H2].
  unfold DeviceStore.Get, DeviceStore.GetByIP. rewrite !query_refines by exact Hf.
  cbn zeta. cbn [fst]. rewrite H1, H2. cbn [spec_row]. rewrite scanDevice_row_of.
  unfold stored, created. by destruct (String.eqb (Status d) "").
Qed.

Lemma create_get_roundtrip_witness :
  (DeviceStore.Get (H := quiet_db) 1 one_router).1 = Ok (created router 1 "t1").
Proof.
  destruct (create_get_roundtrip (H := quiet_db) router 1 empty_world one_router) as [Hget _].
  - apply empty_table_ok.
  - reflexivity.
  - vm_compute. reflexivity.
  - exact Hget.
Defined.

(** Deleting is final: after a successful [Delete] the id is not found again and the
    address is free, every other device reads as before, and no later [Create] is given the
    deleted id. *)
Theorem delete_final `{DbEnv} (id : Z) (w w1 : world) :
  db_ok w -> DeviceStore.Delete id w = (Ok tt, w1) -> db_fault (w_tick w1) = None ->
  (DeviceStore.Get id w1).1 = Err ErrNotFound /\
  (forall i, i <> id -> abs (w_devices w1) !! i = abs (w_devices w) !! i) /\
  (forall d id', (DeviceStore.Create d w1).1 = Ok id' -> id' <> id).
Proof.
  intros Hok Hd Hf.
  assert (Hf0 : db_fault (w_tick w) = None).
  { destruct (db_fault (w_tick w)) eqn:E; [|done]. revert Hd. unfold DeviceStore.Delete.
    by rewrite bind_eq, stmt_run, E. }
  pose proof (delete_refines w Hok Hf0 id) as Hs. rewrite Hd in Hs. unfold spec_delete in Hs.
  cbn [abs_state d_map d_high] in Hs.
  destruct (abs (w_devices w) !! id) as [r|] eqn:Hr; [|done].
  cbn [fst snd] in Hs. injection Hs as Hm Hq. split_and!.
  - unfold DeviceStore.Get. rewrite query_refines by done. cbn zeta. cbn [fst].
    by rewrite <- lookup_abs, <- Hm, lookup_delete_eq.
  - intros i Hi. by rewrite <- Hm, lookup_delete_ne.
  - intros d id' Hid. destruct (Create_cases d w1) as [[e He]|(He & _)]; rewrite He in Hid; [done|].
    injection Hid as <-. rewrite <- Hq. intros Heq.
    apply (fresh_id _ Hok). rewrite Heq. rewrite lookup_abs in Hr. apply find_some in Hr as [Hin Hr].
    apply Z.eqb_eq in Hr. subst id. apply list_elem_of_In. by apply in_map.
Qed.

Lemma delete_final_witness :
  let w1 := (DeviceStore.Delete (H := quiet_db) 1 one_router).2 in
  (DeviceStore.Get (H := quiet_db) 1 w1).1 = Err ErrNotFound.
Proof.
  cbv zeta.
  destruct (delete_final (H := quiet_db) 1 one_router
    (DeviceStore.Delete (H := quiet_db) 1 one_router).2) as [Hget _].
  - exact one_router_ok.
  - vm_compute. reflexivity.
  - reflexivity.
  - exact Hget.
Defined.
