(* ===== verification/Gcm.v ===== *)
(** [crypto/aes] with 256-bit keys and [crypto/cipher]'s GCM as the source uses them
    (12-byte nonces, 16-byte tags, no additional data), executable and checked against the
    published test vectors, with the fact the credentials depend on: what [Seal] produces,
    [Open] accepts and returns. *)

From S2P Require Import Prelude Encoding.
Open Scope Z_scope.

(** * AES-256 *)

Definition sbox_table : list Z :=
  [
   99; 124; 119; 123; 242; 107; 111; 197; 48; 1; 103; 43; 254; 215; 171; 118;
   202; 130; 201; 125; 250; 89; 71; 240; 173; 212; 162; 175; 156; 164; 114; 192;
   183; 253; 147; 38; 54; 63; 247; 204; 52; 165; 229; 241; 113; 216; 49; 21;
   4; 199; 35; 195; 24; 150; 5; 154; 7; 18; 128; 226; 235; 39; 178; 117;
   9; 131; 44; 26; 27; 110; 90; 160; 82; 59; 214; 179; 41; 227; 47; 132;
   83; 209; 0; 237; 32; 252; 177; 91; 106; 203; 190; 57; 74; 76; 88; 207;
   208; 239; 170; 251; 67; 77; 51; 133; 69; 249; 2; 127; 80; 60; 159; 168;
   81; 163; 64; 143; 146; 157; 56; 245; 188; 182; 218; 33; 16; 255; 243; 210;
   205; 12; 19; 236; 95; 151; 68; 23; 196; 167; 126; 61; 100; 93; 25; 115;
   96; 129; 79; 220; 34; 42; 144; 136; 70; 238; 184; 20; 222; 94; 11; 219;
   224; 50; 58; 10; 73; 6; 36; 92; 194; 211; 172; 98; 145; 149; 228; 121;
   231; 200; 55; 109; 141; 213; 78; 169; 108; 86; 244; 234; 101; 122; 174; 8;
   186; 120; 37; 46; 28; 166; 180; 198; 232; 221; 116; 31; 75; 189; 139; 138;
   112; 62; 181; 102; 72; 3; 246; 14; 97; 53; 87; 185; 134; 193; 29; 158;
   225; 248; 152; 17; 105; 217; 142; 148; 155; 30; 135; 233; 206; 85; 40; 223;
   140; 161; 137; 13; 191; 230; 66; 104; 65; 153; 45; 15; 176; 84; 187; 22]%Z.

Definition sbox (x : Z) : Z := nth (Z.to_nat x) sbox_table 0.

Definition xtime (x : Z) : Z :=
  Z.lxor (Z.land (Z.shiftl x 1) 255) (if Z.testbit x 7 then 27 else 0).

Definition xor_list (a b : list Z) : list Z := zip_with Z.lxor a b.

(** The schedule of a 32-byte key: [ws] holds the words so far, newest first. *)
Fixpoint expand (n : nat) (i : nat) (rcon : Z) (ws : list (list Z)) : list (list Z) :=
  match n with
  | O => ws
  | S n =>
      let prev := nth 0 ws [] in
      let old := nth 7 ws [] in
      let t :=
        if (i mod 8 =? 0)%nat then
          match map sbox prev with
          | [a; b; c; d] => [Z.lxor b rcon; c; d; a]
          | l => l
          end
        else if (i mod 8 =? 4)%nat then map sbox prev
        else prev in
      expand n (S i) (if (i mod 8 =? 0)%nat then xtime rcon else rcon) (xor_list old t :: ws)
  end.

Fixpoint chunks (n : nat) (k : nat) (l : list Z) : list (list Z) :=
  match n with
  | O => []
  | S n => take k l :: chunks n k (drop k l)
  end.

(** The fifteen round keys, of sixteen bytes each. *)
Definition key_schedule (key : list Z) : list (list Z) :=
  chunks 15 16 (concat (rev (expand 52 8 1 (rev (chunks 8 4 key))))).

Definition shift_rows (s : list Z) : list Z :=
  map (fun i => nth i s 0) [0; 5; 10; 15; 4; 9; 14; 3; 8; 13; 2; 7; 12; 1; 6; 11]%nat.

Definition mix_column (c : list Z) : list Z :=
  match c with
  | [a; b; c; d] =>
      let m x y z t := Z.lxor (xtime x) (Z.lxor (Z.lxor (xtime y) y) (Z.lxor z t)) in
      [m a b c d; m b c d a; m c d a b; m d a b c]
  | _ => c
  end.

Definition round (s k : list Z) : list Z :=
  xor_list (concat (map mix_column (chunks 4 4 (shift_rows (map sbox s))))) k.

Definition final_round (s k : list Z) : list Z := xor_list (shift_rows (map sbox s)) k.

Fixpoint rounds (s : list Z) (ks : list (list Z)) : list Z :=
  match ks with
  | [] => s
  | [k] => final_round s k
  | k :: ks' => rounds (round s k) ks'
  end.

(** One block under a key schedule. *)
Definition aes_block (ks : list (list Z)) (b : list Z) : list Z :=
  match ks with
  | [] => b
  | k :: ks' => rounds (xor_list b k) ks'
  end.

(** * GHASH *)

Definition bytes_of (s : bytes) : list Z := map byte_val (String.list_ascii_of_string s).
Definition string_of (l : list Z) : bytes := String.string_of_list_ascii (map byte_of l).

Definition be_value (l : list Z) : Z := fold_left (fun acc b => 256 * acc + b) l 0.

Fixpoint be_bytes (n : nat) (z : Z) : list Z :=
  match n with
  | O => []
  | S n => be_bytes n (z / 256) ++ [z mod 256]
  end.

(** Multiplication in GF(2^128), most significant bit first. *)
Fixpoint gf_mul (n : nat) (x z v : Z) : Z :=
  match n with
  | O => z
  | S n =>
      gf_mul n x (if Z.testbit x (Z.of_nat n) then Z.lxor z v else z)
        (Z.lxor (Z.shiftr v 1) (if Z.testbit v 0 then Z.shiftl 225 120 else 0))
  end.

Fixpoint ghash (n : nat) (h y : Z) (l : list Z) : Z :=
  match n with
  | O => y
  | S n =>
      let blk := take 16 l in
      let x := be_value (blk ++ replicate (16 - length blk) 0) in
      ghash n h (gf_mul 128 (Z.lxor y x) 0 h) (drop 16 l)
  end.

(** * GCM *)

Definition blocks_of (s : bytes) : nat := Nat.div (String.length s + 15) 16.

(** The counter block of a 12-byte nonce. *)
Definition counter_block (nonce : bytes) (i : Z) : list Z := bytes_of nonce ++ be_bytes 4 i.

Fixpoint keystream (n : nat) (ks : list (list Z)) (nonce : bytes) (i : Z) : bytes :=
  match n with
  | O => ""
  | S n => string_of (aes_block ks (counter_block nonce i)) +:+
           keystream n ks nonce ((i + 1) mod 2 ^ 32)
  end.

Definition xor_ascii (a b : ascii) : ascii :=
  match a, b with
  | Ascii a0 a1 a2 a3 a4 a5 a6 a7, Ascii b0 b1 b2 b3 b4 b5 b6 b7 =>
      Ascii (xorb a0 b0) (xorb a1 b1) (xorb a2 b2) (xorb a3 b3)
            (xorb a4 b4) (xorb a5 b5) (xorb a6 b6) (xorb a7 b7)
  end.

(** The bytes of [s] under a key stream at least as long. *)
Fixpoint xor_bytes (s k : bytes) : bytes :=
  match s, k with
  | String a s', String b k' => String (xor_ascii a b) (xor_bytes s' k')
  | String a s', "" => String a (xor_bytes s' "")
  | "", _ => ""
  end.

Definition ctr (ks : list (list Z)) (nonce s : bytes) : bytes :=
  xor_bytes s (keystream (blocks_of s) ks nonce 2).

Definition tag (ks : list (list Z)) (nonce ct : bytes) : bytes :=
  let h := be_value (aes_block ks (replicate 16 0)) in
  let y := ghash (blocks_of ct) h 0 (bytes_of ct) in
  let lens := 8 * Z.of_nat (String.length ct) in
  let s := gf_mul 128 (Z.lxor y lens) 0 h in
  string_of (xor_list (be_bytes 16 s) (aes_block ks (counter_block nonce 1))).

Definition NonceSize : nat := 12.
Definition Overhead : nat := 16.

Fixpoint split_at (n : nat) (s : bytes) : bytes * bytes :=
  match n, s with
  | S n, String c s' => let '(a, b) := split_at n s' in (String c a, b)
  | _, _ => ("", s)
  end.

Definition Seal (ks : list (list Z)) (nonce plaintext : bytes) : bytes :=
  let ct := ctr ks nonce plaintext in ct +:+ tag ks nonce ct.

Definition auth_error : error := ENew [FStr "cipher: message authentication failed"].

Definition Open_ (ks : list (list Z)) (nonce sealed : bytes) : result bytes :=
  if (String.length sealed <? Overhead)%nat then Err auth_error
  else
    let '(ct, t) := split_at (String.length sealed - Overhead) sealed in
    if String.eqb (tag ks nonce ct) t then Ok (ctr ks nonce ct) else Err auth_error.

(** * Test vectors *)

Definition hex (s : string) : bytes := default "" (hex_decode s).

(** FIPS-197, appendix C.3. *)
Example aes256_fips197 :
  hex_encode (string_of (aes_block (key_schedule (map Z.of_nat (seq 0 32)))
    (bytes_of (hex "00112233445566778899aabbccddeeff")))) = "8ea2b7ca516745bfeafc49904b496089".
Proof. vm_compute. reflexivity. Qed.

(** McGrew and Viega, test cases 13, 14 and 15. *)
Example gcm_case13 :
  hex_encode (Seal (key_schedule (replicate 32 0)) (string_of (replicate 12 0)) "") =
    "530f8afbc74536b9a963b4f1c4cb738b".
Proof. vm_compute. reflexivity. Qed.

Example gcm_case14 :
  hex_encode (Seal (key_schedule (replicate 32 0)) (string_of (replicate 12 0))
    (string_of (replicate 16 0))) =
    "cea7403d4d606b6e074ec5d3baf39d18d0d1c8a799996bf0265b98b5d48ab919".
Proof. vm_compute. reflexivity. Qed.

Example gcm_case15 :
  hex_encode (Seal
    (key_schedule (bytes_of (hex "feffe9928665731c6d6a8f9467308308feffe9928665731c6d6a8f9467308308")))
    (hex "cafebabefacedbaddecaf888")
    (hex ("d9313225f88406e5a55909c5aff5269a86a7a9531534f7da2e4c303d8a318a72" +:+
          "1c3c0c95956809532fcf0e2449a6b525b16aedf5aa0de657ba637b391aafd255"))) =
    "522dc1f099567d07f47f37a32a84427d643a8cdcbfe5c0c97598a2bd2555d1aa" +:+
    "8cb08e48590dbb3da7b08b1056828838c5f61e6393ba7a0abcc9f662898015ad" +:+
    "b094dac5d93471bdec1a502270e3cc6c".
Proof. vm_compute. reflexivity. Qed.

(** * Opening what was sealed *)

Lemma xor_ascii_involutive a b : xor_ascii (xor_ascii a b) b = a.
Proof. destruct a, b. cbn. by rewrite !Bool.xorb_assoc, !Bool.xorb_nilpotent, !Bool.xorb_false_r. Qed.

Lemma xor_bytes_involutive s k : xor_bytes (xor_bytes s k) k = s.
Proof.
  revert k. induction s as [|a s IH]; intros k; [done|].
  destruct k as [|b k]; cbn; rewrite ?xor_ascii_involutive; by rewrite IH.
Qed.

Lemma length_xor_bytes s k : String.length (xor_bytes s k) = String.length s.
Proof. revert k. induction s as [|a s IH]; intros [|b k]; cbn; by rewrite ?IH. Qed.

Lemma ctr_involutive ks nonce s : ctr ks nonce (ctr ks nonce s) = s.
Proof.
  unfold ctr at 1. unfold blocks_of.
  replace (String.length (ctr ks nonce s)) with (String.length s) by (symmetry; apply length_xor_bytes).
  apply xor_bytes_involutive.
Qed.

Lemma split_at_app a b : split_at (String.length a) (a +:+ b) = (a, b).
Proof.
  induction a as [|c a IH]; cbn; [by destruct b|]. rewrite str_cons_app. cbn. by rewrite IH.
Qed.

(** ** Lengths *)

Definition block_ok (b : list Z) : Prop := length b = 16%nat.

Lemma length_xor_list a b : length (xor_list a b) = Nat.min (length a) (length b).
Proof. apply length_zip_with. Qed.

Lemma chunks_length n k l :
  length l = (n * k)%nat -> Forall (fun c => length c = k) (chunks n k l) /\ length (chunks n k l) = n.
Proof.
  revert l. induction n as [|n IH]; intros l Hl; cbn; [by split|].
  destruct (IH (drop k l)) as [Hf Hn]; [rewrite length_drop; cbn in Hl; lia|].
  split; [constructor; [|done]|by rewrite Hn]. rewrite length_take. cbn in Hl. lia.
Qed.

Lemma length_concat_uniform k (l : list (list Z)) :
  Forall (fun c => length c = k) l -> length (concat l) = (length l * k)%nat.
Proof. induction 1 as [|c l Hc _ IH]; cbn; [done|]. rewrite length_app. lia. Qed.

Lemma mix_column_length c : length c = 4%nat -> length (mix_column c) = 4%nat.
Proof. by destruct c as [|? [|? [|? [|? [|? ?]]]]]. Qed.

Lemma round_ok s k : block_ok k -> block_ok (round s k).
Proof.
  unfold block_ok, round. intros Hk. rewrite length_xor_list, Hk.
  destruct (chunks_length 4 4 (shift_rows (map sbox s))) as [Hf Hn]; [done|].
  rewrite (length_concat_uniform 4), length_map, Hn; [done|].
  apply Forall_map. eapply Forall_impl; [exact Hf|]. apply mix_column_length.
Qed.

Lemma rounds_ok s ks : block_ok s -> Forall block_ok ks -> block_ok (rounds s ks).
Proof.
  intros Hs Hks. revert s Hs. induction Hks as [|k ks Hk _ IH]; intros s Hs; [done|].
  cbn [rounds]. destruct ks as [|k' ks]; [|apply IH, round_ok, Hk].
  unfold block_ok, final_round in *. by rewrite length_xor_list, Hk.
Qed.

Lemma aes_block_ok ks b : block_ok b -> Forall block_ok ks -> block_ok (aes_block ks b).
Proof.
  intros Hb. destruct 1 as [|k ks Hk Hks]; [done|]. cbn. apply rounds_ok; [|done].
  unfold block_ok in *. by rewrite length_xor_list, Hb, Hk.
Qed.

Definition words_ok (ws : list (list Z)) : Prop := Forall (fun w => length w = 4%nat) ws.

Lemma expand_ok n i rcon ws :
  words_ok ws -> (8 <= length ws)%nat ->
  words_ok (expand n i rcon ws) /\ length (expand n i rcon ws) = (n + length ws)%nat.
Proof.
  revert i rcon ws. induction n as [|n IH]; intros i rcon ws Hws Hlen; [done|].
  assert (Hnth : forall j, (j < 8)%nat -> length (nth j ws []) = 4%nat).
  { intros j Hj. unfold words_ok in Hws. rewrite Forall_forall in Hws. apply Hws.
    apply list_elem_of_In, nth_In. lia. }
  cbn -[Nat.modulo]. match goal with |- context [expand n _ _ ?ws'] => destruct (IH (S i)
    (if (i mod 8 =? 0)%nat then xtime rcon else rcon) ws') as [H1 H2] end.
  - constructor; [|done]. rewrite length_xor_list, Hnth by lia.
    pose proof (Hnth 0%nat ltac:(lia)) as Hp.
    destruct (_ =? 0)%nat; [|destruct (_ =? 4)%nat; rewrite ?length_map, Hp; lia].
    destruct (nth 0 ws []) as [|? [|? [|? [|? [|? ?]]]]]; done.
  - cbn. lia.
  - split; [done|]. rewrite H2. cbn. lia.
Qed.

Lemma key_schedule_ok key : length key = 32%nat -> Forall block_ok (key_schedule key).
Proof.
  intros Hk. unfold key_schedule.
  destruct (chunks_length 8 4 key) as [Hf Hn]; [done|].
  destruct (expand_ok 52 8 1 (rev (chunks 8 4 key))) as [Hw Hl].
  - apply Forall_rev. exact Hf.
  - rewrite length_rev. lia.
  - apply chunks_length. rewrite (length_concat_uniform 4) by (by apply Forall_rev).
    rewrite !length_rev in *. rewrite Hl, Hn. done.
Qed.

Lemma length_be_bytes n z : length (be_bytes n z) = n.
Proof. revert z. induction n as [|n IH]; intros z; [done|]. cbn. rewrite length_app, IH. cbn. lia. Qed.

Lemma length_string_of l : String.length (string_of l) = length l.
Proof. unfold string_of. induction l as [|x l IH]; [done|]. cbn. by f_equal. Qed.

Lemma length_bytes_of s : length (bytes_of s) = String.length s.
Proof. unfold bytes_of. rewrite length_map. induction s; cbn; congruence. Qed.

Lemma length_tag ks nonce ct :
  Forall block_ok ks -> String.length nonce = NonceSize -> String.length (tag ks nonce ct) = Overhead.
Proof.
  intros Hks Hn. unfold tag. rewrite length_string_of, length_xor_list, length_be_bytes.
  rewrite aes_block_ok; [done| |done]. unfold block_ok, counter_block.
  by rewrite length_app, length_bytes_of, Hn, length_be_bytes.
Qed.

(** [Open] inverts [Seal] under the same key and nonce. *)
(** What is left of a box once its last bytes are taken for a tag. *)
Lemma Open_split ks nonce ct t : String.length t = Overhead ->
  Open_ ks nonce (ct +:+ t) =
    if String.eqb (tag ks nonce ct) t then Ok (ctr ks nonce ct) else Err auth_error.
Proof.
  intros Ht. unfold Open_. rewrite str_length_app, Ht, (proj2 (Nat.ltb_ge _ _)) by lia.
  replace (String.length ct + Overhead - Overhead)%nat with (String.length ct) by lia.
  by rewrite split_at_app.
Qed.

Lemma Open_tagged ks nonce ct : Forall block_ok ks -> String.length nonce = NonceSize ->
  Open_ ks nonce (ct +:+ tag ks nonce ct) = Ok (ctr ks nonce ct).
Proof. intros Hks Hn. by rewrite Open_split, String.eqb_refl by by apply length_tag. Qed.

Lemma Open_Seal ks nonce plaintext :
  Forall block_ok ks -> String.length nonce = NonceSize ->
  Open_ ks nonce (Seal ks nonce plaintext) = Ok plaintext.
Proof. intros Hks Hn. unfold Seal. cbn zeta. by rewrite Open_tagged, ctr_involutive. Qed.

Lemma split_at_spec n s a b : split_at n s = (a, b) -> s = a +:+ b.
Proof.
  revert s a b. induction n as [|n IH]; intros s a b; cbn; [by intros [= <- <-]|].
  destruct s as [|c s]; [by intros [= <- <-]|].
  destruct (split_at n s) as [a' b'] eqn:E. intros [= <- <-].
  rewrite str_cons_app. f_equal. by apply IH.
Qed.

Lemma split_at_length n s a b :
  (n <= String.length s)%nat -> split_at n s = (a, b) -> String.length a = n.
Proof.
  revert s a b. induction n as [|n IH]; intros s a b Hn; cbn; [by intros [= <- <-]|].
  destruct s as [|c s]; [cbn in Hn; lia|].
  destruct (split_at n s) as [a' b'] eqn:E. intros [= <- <-]. cbn. f_equal.
  eapply IH; [|exact E]. cbn in Hn. lia.
Qed.

(** What [Open] accepts carries the tag of its ciphertext. *)
Lemma Open_Ok ks nonce sealed pt :
  Open_ ks nonce sealed = Ok pt -> exists ct, sealed = ct +:+ tag ks nonce ct /\ pt = ctr ks nonce ct.
Proof.
  unfold Open_. destruct (_ <? _)%nat; [done|].
  destruct (split_at _ sealed) as [ct t] eqn:E. destruct (String.eqb_spec (tag ks nonce ct) t); [|done].
  intros [= <-]. exists ct. split; [|done]. subst t. by eapply split_at_spec.
Qed.

(** It accepts nothing else, and has one error. *)
Lemma Open_spec ks nonce sealed : Forall block_ok ks -> String.length nonce = NonceSize ->
  match Open_ ks nonce sealed with
  | Ok pt => exists ct, sealed = ct +:+ tag ks nonce ct /\ pt = ctr ks nonce ct
  | Err e => e = auth_error /\ forall ct, sealed <> ct +:+ tag ks nonce ct
  end.
Proof.
  intros Hks Hn. destruct (Open_ ks nonce sealed) as [pt|e] eqn:Ho; [by apply Open_Ok|]. split.
  - unfold Open_ in Ho. destruct (_ <? _)%nat; [by injection Ho as <-|].
    destruct (split_at _ sealed). by destruct (String.eqb _ _); [|injection Ho as <-].
  - intros ct ->. by rewrite Open_tagged in Ho.
Qed.

(** Another tag on the same ciphertext is refused. *)
Lemma Open_wrong_tag ks nonce ct t : String.length t = Overhead -> t <> tag ks nonce ct ->
  Open_ ks nonce (ct +:+ t) = Err auth_error.
Proof.
  intros Ht Hne. rewrite Open_split by done. by destruct (String.eqb_spec (tag ks nonce ct) t); [subst|].
Qed.

Lemma length_ctr ks nonce s : String.length (ctr ks nonce s) = String.length s.
Proof. apply length_xor_bytes. Qed.
