(* ===== verification/Crypto.v ===== *)
(** [internal/crypto]: credentials at rest.  [NewKey], [Encrypt] and [Decrypt] on the
    executable AES-256-GCM of [Gcm.v]; the random nonce comes from [RandEnv]. *)

From S2P Require Import Prelude Encoding Float64 Json World Gcm.

(** [Key]: the AEAD it holds is determined by its round keys. *)
Record Key := { gcm : list (list Z) }.

Definition key_error (what : string) : error := ENew [FStr what].

Definition NewKey (hexKey : string) : result Key :=
  if String.eqb hexKey "" then Err ErrEmptyKey
  else
    match hex_decode hexKey with
    | None => Err (EWrap [FStr "crypto: decoding hex key: "] (key_error "encoding/hex") [])
    | Some raw =>
        if negb (String.length raw =? 32)%nat then
          Err (ENew [FStr "crypto: key must be 32 bytes (64 hex chars), got ";
                     FInt (Z.of_nat (String.length raw)); FStr " bytes"])
        else Ok {| gcm := key_schedule (bytes_of raw) |}
    end.

Definition Encrypt `{RandEnv} (k : Key) (plaintext : string) : IO (result string) :=
  if String.eqb plaintext "" then ret (Ok "")
  else
    let* t := next_tick in
    match rand_read t NonceSize with
    | Err e => ret (Err (EWrap [FStr "crypto: generating nonce: "] e []))
    | Ok nonce => ret (Ok (b64_encode (nonce +:+ Seal (gcm k) nonce plaintext)))
    end.

Definition Decrypt (k : Key) (encoded : string) : result string :=
  if String.eqb encoded "" then Ok ""
  else
    match b64_decode encoded with
    | None => Err (EWrap [FStr "crypto: decoding base64: "] (key_error "illegal base64 data") [])
    | Some sealed =>
        if (String.length sealed <? NonceSize)%nat
        then Err (ENew [FStr "crypto: ciphertext too short"])
        else
          let '(nonce, ciphertext) := split_at NonceSize sealed in
          wrap [FStr "crypto: decrypting: "] (Open_ (gcm k) nonce ciphertext)
    end.

(** * Facts the clients use *)

(** [io.ReadFull] fills the whole buffer or fails. *)
Class FullReads `{RandEnv} : Prop :=
  rand_full : forall t n b, rand_read t n = Ok b -> String.length b = n.

(** A key as [NewKey] makes it. *)
Definition key_ok (k : Key) : Prop := Forall block_ok (gcm k).

Lemma NewKey_ok s k : NewKey s = Ok k -> key_ok k.
Proof.
  unfold NewKey. destruct (String.eqb _ _); [done|]. destruct (hex_decode s) as [raw|]; [|done].
  destruct (_ =? _)%nat eqn:Hl; [|done]. intros [= <-]. apply Nat.eqb_eq in Hl.
  apply key_schedule_ok. by rewrite length_bytes_of.
Qed.

Lemma Decrypt_empty k : Decrypt k "" = Ok "".
Proof. done. Qed.

(** What [Decrypt] is given by a sealed box with a full nonce. *)
Lemma Decrypt_sealed k nonce s : String.length nonce = NonceSize ->
  Decrypt k (b64_encode (nonce +:+ s)) =
    wrap [FStr "crypto: decrypting: "] (Open_ (gcm k) nonce s).
Proof.
  intros Hn. unfold Decrypt.
  destruct (String.eqb_spec (b64_encode (nonce +:+ s)) "") as [He|_].
  { exfalso. revert He. apply b64_encode_nonempty. by destruct nonce. }
  rewrite b64_decode_encode, str_length_app, Hn.
  rewrite (proj2 (Nat.ltb_ge _ _)) by lia. rewrite <- Hn at 1. by rewrite split_at_app.
Qed.

Section facts.
Context `{RandEnv}.

Lemma steps_Encrypt R `{!PreOrder R, !Ticks R} k s : io_steps R (Encrypt k s).
Proof. unfold Encrypt. io_walk. Qed.

(** Both ways an encryption can go. *)
Lemma Encrypt_cases k s w :
  (s = "" /\ Encrypt k s w = (Ok "", w)) \/
  (exists e, Encrypt k s w = (Err (EWrap [FStr "crypto: generating nonce: "] e []), bump w)) \/
  (exists nonce, s <> "" /\ rand_read (w_tick w) NonceSize = Ok nonce /\
     Encrypt k s w = (Ok (b64_encode (nonce +:+ Seal (gcm k) nonce s)), bump w)).
Proof.
  unfold Encrypt. destruct (String.eqb_spec s "") as [->|Hs]; [by left|right].
  rewrite bind_eq. cbn. destruct (rand_read _ _) as [nonce|e]; [right|left]; by eexists.
Qed.

(** An encryption that succeeds is undone by [Decrypt], and is empty exactly for the empty
    credential. *)
Lemma Decrypt_Encrypt `{!FullReads} k s e w w' :
  key_ok k -> Encrypt k s w = (Ok e, w') -> Decrypt k e = Ok s /\ (e = "" <-> s = "").
Proof.
  intros Hk He.
  destruct (Encrypt_cases k s w) as [[-> Hc]|[[e' Hc]|(nonce & Hs & Hr & Hc)]];
    rewrite Hc in He; try done; injection He as <- <-; [done|].
  apply rand_full in Hr. rewrite Decrypt_sealed, Open_Seal by done. split; [done|].
  split; [|done]. intros He. exfalso. revert He. apply b64_encode_nonempty. by destruct nonce.
Qed.
(** What [Encrypt] returns under a key. *)
Definition encryption (k : Key) (e : string) : Prop :=
  exists p w, (Encrypt k p w).1 = Ok e.

Definition encryption_result (k : Key) (r : result string) : Prop :=
  match r with Ok e => encryption k e | Err _ => True end.

Lemma encryption_empty k : encryption k "".
Proof. by exists "", empty_world. Qed.

Lemma Encrypt_result k p : returns (encryption_result k) (Encrypt k p).
Proof.
  destruct (String.eqb_spec p "") as [->|Hp]; [apply encryption_empty|].
  assert (Hrun : forall w, (Encrypt k p w).1 = match rand_read (w_tick w) NonceSize with
    | Ok nonce => Ok (b64_encode (nonce +:+ Seal (gcm k) nonce p))
    | Err e => Err (EWrap [FStr "crypto: generating nonce: "] e []) end).
  { intros w. unfold Encrypt. rewrite (proj2 (String.eqb_neq _ _) Hp), bind_eq. cbn.
    by destruct (rand_read _ _). }
  unfold Encrypt. rewrite (proj2 (String.eqb_neq _ _) Hp). intros w. specialize (Hrun w).
  change (returns (encryption_result k) (match rand_read (w_tick w) NonceSize with
    | Ok nonce => ret (Ok (b64_encode (nonce +:+ Seal (gcm k) nonce p)))
    | Err e => ret (Err (EWrap [FStr "crypto: generating nonce: "] e [])) end)).
  destruct (rand_read _ _); [by exists p, w|done].
Qed.
End facts.

#[export] Hint Resolve steps_Encrypt : io_db.

(** A source of nonces for the witnesses. *)
Definition counting_rand : RandEnv :=
  {| rand_read t n := Ok (string_of (replicate n (Z.of_nat t))) |}.

#[export] Instance counting_full : FullReads (H := counting_rand).
Proof. intros t n b [= <-]. by rewrite length_string_of, length_replicate. Qed.

Definition zero_key_hex : string := hex_encode (string_of (replicate 32 0%Z)).

(** [Decrypt] of a stored value, by the bytes it holds. *)
Lemma Decrypt_box k e nonce box : b64_decode e = Some (nonce +:+ box) -> String.length nonce = NonceSize ->
  Decrypt k e = wrap [FStr "crypto: decrypting: "] (Open_ (gcm k) nonce box).
Proof.
  intros He Hn. unfold Decrypt. destruct (String.eqb_spec e "") as [->|_].
  { injection He as He. by destruct nonce. }
  rewrite He, str_length_app, Hn, (proj2 (Nat.ltb_ge _ _)) by lia. rewrite <- Hn at 1. by rewrite split_at_app.
Qed.

(** The three shapes of a stored value that is not empty. *)
Lemma stored_shape e :
  b64_decode e = None \/
  (exists sealed, b64_decode e = Some sealed /\ (String.length sealed < NonceSize)%nat) \/
  (exists nonce box, b64_decode e = Some (nonce +:+ box) /\ String.length nonce = NonceSize).
Proof.
  destruct (b64_decode e) as [sealed|] eqn:He; [right|by left].
  destruct (Nat.lt_ge_cases (String.length sealed) NonceSize) as [Hl|Hl]; [left; by exists sealed|right].
  destruct (split_at NonceSize sealed) as [nonce box] eqn:Hs. exists nonce, box.
  split; [f_equal; by apply split_at_spec in Hs|by eapply split_at_length].
Qed.

(** What [Decrypt] makes of a value that is not empty. *)
Lemma Decrypt_spec k e : key_ok k -> e <> "" ->
  match Decrypt k e with
  | Ok s => exists nonce ct, String.length nonce = NonceSize /\
      b64_decode e = Some (nonce +:+ ct +:+ tag (gcm k) nonce ct) /\ s = ctr (gcm k) nonce ct
  | Err err =>
      (b64_decode e = None /\
       err = EWrap [FStr "crypto: decoding base64: "] (key_error "illegal base64 data") []) \/
      (exists sealed, b64_decode e = Some sealed /\ (String.length sealed < NonceSize)%nat /\
       err = ENew [FStr "crypto: ciphertext too short"]) \/
      (exists nonce box, b64_decode e = Some (nonce +:+ box) /\ String.length nonce = NonceSize /\
       (forall ct, box <> ct +:+ tag (gcm k) nonce ct) /\
       err = EWrap [FStr "crypto: decrypting: "] auth_error [])
  end.
Proof.
  intros Hk Hne. destruct (stored_shape e) as [He|[(sealed & He & Hl)|(nonce & box & He & Hn)]].
  - unfold Decrypt. rewrite (proj2 (String.eqb_neq _ _) Hne), He. by left.
  - unfold Decrypt. rewrite (proj2 (String.eqb_neq _ _) Hne), He, (proj2 (Nat.ltb_lt _ _) Hl).
    right. left. by exists sealed.
  - rewrite (Decrypt_box _ _ _ _ He Hn). pose proof (Open_spec (gcm k) nonce box Hk Hn) as Ho.
    destruct (Open_ _ _ _) as [s|err]; cbn [wrap].
    + destruct Ho as (ct & -> & ->). by exists nonce, ct.
    + destruct Ho as [-> Hno]. right. right. by exists nonce, box.
Qed.

Lemma NewKey_accepts hexKey :
  is_ok (NewKey hexKey) = true <-> String.length hexKey = 64%nat /\ all_hex hexKey = true.
Proof.
  unfold NewKey. destruct (String.eqb_spec hexKey "") as [->|_]; [by split; [|intros []]|].
  destruct (hex_decode hexKey) as [raw|] eqn:Hr.
  + apply hex_decode_digits in Hr as [Hl Hh]. destruct (Nat.eqb_spec (String.length raw) 32); cbn.
    * by split; [split; [lia|]|].
    * split; [done|]. intros [? _]. lia.
  + apply hex_decode_None in Hr. split; [done|]. intros [Hl Hh]. destruct Hr. split; [by exists 32%nat|done].
Qed.

Lemma NewKey_refuses hexKey err : NewKey hexKey = Err err <->
  (hexKey = "" /\ err = ErrEmptyKey) \/
  (hexKey <> "" /\ ~ (Nat.Even (String.length hexKey) /\ all_hex hexKey = true) /\
   err = EWrap [FStr "crypto: decoding hex key: "] (key_error "encoding/hex") []) \/
  (hexKey <> "" /\ exists n, String.length hexKey = (2 * n)%nat /\ all_hex hexKey = true /\ n <> 32%nat /\
   err = ENew [FStr "crypto: key must be 32 bytes (64 hex chars), got "; FInt (Z.of_nat n); FStr " bytes"]).
Proof.
  unfold NewKey. destruct (String.eqb_spec hexKey "") as [->|Hne].
  { split; [intros [= <-]; by left|]. by intros [[_ ->]|[(? & _)|(? & _)]]. }
  destruct (hex_decode hexKey) as [raw|] eqn:Hr.
  + pose proof Hr as [Hl Hh]%hex_decode_digits. destruct (Nat.eqb_spec (String.length raw) 32) as [H32|H32]; cbn [negb].
    * split; [done|]. intros [[? _]|[(_ & Hn & _)|(_ & n & Hl' & _ & Hn & _)]]; [done| |lia].
      destruct Hn. split; [by exists (String.length raw)|done].
    * split; [intros [= <-]; right; right; split; [done|]; by exists (String.length raw)|].
      intros [[? _]|[(_ & Hn & _)|(_ & n & Hl' & _ & _ & ->)]]; [done| |].
      -- destruct Hn. split; [by exists (String.length raw)|done].
      -- by replace n with (String.length raw) by lia.
  + apply hex_decode_None in Hr. split; [intros [= <-]; right; by left|].
    intros [[? _]|[(_ & _ & ->)|(_ & n & Hl & Hh & _)]]; [done..|].
    destruct Hr. split; [by exists n|done].
Qed.

Lemma NewKey_schedule hexKey k : NewKey hexKey = Ok k ->
  exists raw, hex_decode hexKey = Some raw /\ gcm k = key_schedule (bytes_of raw).
Proof.
  unfold NewKey. destruct (String.eqb hexKey ""); [done|]. destruct (hex_decode hexKey) as [raw|]; [|done].
  destruct (negb _); [done|]. intros [= <-]. by exists raw.
Qed.

(** The base64 of a full nonce is not empty. *)
Lemma box_nonempty e nonce box :
  b64_decode e = Some (nonce +:+ box) -> String.length nonce = NonceSize -> e <> "".
Proof. intros He Hn ->. injection He as He. by destruct nonce. Qed.

(** * Properties *)

(** C5.  Credentials survive storage: under any key [NewKey] accepts, what [Encrypt] returns
    is decrypted to the same plaintext, it is empty exactly for the empty credential, and
    encryption fails only when the random source does.  What is stored for a credential that
    is not empty is a nonce, a ciphertext as long as the credential and an authentication tag;
    with any other tag in the place of this one, [Decrypt] refuses it. *)
Theorem encrypt_decrypt_roundtrip `{RandEnv, !FullReads} (hexKey s : string) (k : Key) (w : world) :
  NewKey hexKey = Ok k ->
  match (Encrypt k s w).1 with
  | Ok e =>
      Decrypt k e = Ok s /\ (e = "" <-> s = "") /\
      (s <> "" -> exists nonce ct t,
         b64_decode e = Some (nonce +:+ ct +:+ t) /\ String.length nonce = NonceSize /\
         String.length ct = String.length s /\ String.length t = Overhead /\
         forall e' t', b64_decode e' = Some (nonce +:+ ct +:+ t') -> String.length t' = Overhead -> t' <> t ->
           Decrypt k e' = Err (EWrap [FStr "crypto: decrypting: "] auth_error []))
  | Err _ => s <> "" /\ is_ok (rand_read (w_tick w) NonceSize) = false
  end.
Proof.
  intros Hk%NewKey_ok. destruct (Encrypt k s w) as [[e|e] w'] eqn:He; cbn.
  - destruct (Decrypt_Encrypt _ _ _ _ _ Hk He) as [Hd Hempty]. split_and!; [done|apply Hempty..|].
    intros Hs. destruct (Encrypt_cases k s w) as [[? _]|[[e' Hc]|(nonce & _ & Hr & Hc)]];
      [done|by rewrite Hc in He|]. rewrite Hc in He. injection He as <- _. apply rand_full in Hr.
    exists nonce, (ctr (gcm k) nonce s), (tag (gcm k) nonce (ctr (gcm k) nonce s)).
    split_and!; [by rewrite b64_decode_encode|done|apply length_ctr|by apply length_tag|].
    intros e' t' He' Ht Hne. by rewrite (Decrypt_box _ _ _ _ He' Hr), Open_wrong_tag.
  - revert He. unfold Encrypt. destruct (String.eqb_spec s ""); [done|]. rewrite bind_eq. cbn.
    by destruct (rand_read _ _).
Qed.

Lemma encrypt_decrypt_roundtrip_witness :
  match NewKey zero_key_hex with
  | Ok k =>
      exists e, (Encrypt (H := counting_rand) k "public" empty_world).1 = Ok e /\
        Decrypt k e = Ok "public"
  | Err _ => False
  end.
Proof.
  destruct (NewKey zero_key_hex) as [k|] eqn:Hk; [|vm_compute in Hk; discriminate Hk].
  pose proof (encrypt_decrypt_roundtrip (H := counting_rand) zero_key_hex "public" k empty_world Hk)
    as Hr.
  destruct (Encrypt (H := counting_rand) k "public" empty_world).1 as [e|e].
  - exists e. split; [reflexivity|exact (proj1 Hr)].
  - destruct Hr as [_ Hr]. vm_compute in Hr. discriminate Hr.
Defined.

(** C6.  Which keys and which stored values are accepted, and the error of each refusal.
    [NewKey] accepts exactly 64 hex digits, in either case; the empty string is [ErrEmptyKey],
    an odd number of characters or a character that is no hex digit is a decoding error, and
    any other length is reported in bytes; the key is the AES-256 schedule of the bytes that the
    digits stand for.  [Decrypt] accepts exactly the empty string and the
    base64 of a nonce, a ciphertext and its tag under that key; what is not base64, what is
    shorter than a nonce, and everything else are three different errors. *)
Theorem keys_and_ciphertexts_accepted (hexKey : string) :
  (is_ok (NewKey hexKey) = true <-> String.length hexKey = 64%nat /\ all_hex hexKey = true) /\
  (forall err, NewKey hexKey = Err err <->
     (hexKey = "" /\ err = ErrEmptyKey) \/
     (hexKey <> "" /\ ~ (Nat.Even (String.length hexKey) /\ all_hex hexKey = true) /\
      err = EWrap [FStr "crypto: decoding hex key: "] (key_error "encoding/hex") []) \/
     (hexKey <> "" /\ exists n, String.length hexKey = (2 * n)%nat /\ all_hex hexKey = true /\ n <> 32%nat /\
      err = ENew [FStr "crypto: key must be 32 bytes (64 hex chars), got "; FInt (Z.of_nat n); FStr " bytes"])) /\
  (forall k, NewKey hexKey = Ok k ->
     exists raw, hex_decode hexKey = Some raw /\ gcm k = key_schedule (bytes_of raw)) /\
  (forall k e, NewKey hexKey = Ok k ->
     (forall s, Decrypt k e = Ok s <->
        (e = "" /\ s = "") \/
        exists nonce ct, String.length nonce = NonceSize /\
          b64_decode e = Some (nonce +:+ ct +:+ tag (gcm k) nonce ct) /\ s = ctr (gcm k) nonce ct) /\
     (forall err, Decrypt k e = Err err <-> e <> "" /\
        ((b64_decode e = None /\
          err = EWrap [FStr "crypto: decoding base64: "] (key_error "illegal base64 data") []) \/
         (exists sealed, b64_decode e = Some sealed /\ (String.length sealed < NonceSize)%nat /\
          err = ENew [FStr "crypto: ciphertext too short"]) \/
         (exists nonce box, b64_decode e = Some (nonce +:+ box) /\ String.length nonce = NonceSize /\
          (forall ct, box <> ct +:+ tag (gcm k) nonce ct) /\
          err = EWrap [FStr "crypto: decrypting: "] auth_error [])))).
Proof.
  split_and!; [apply NewKey_accepts|apply NewKey_refuses|apply NewKey_schedule|].
  intros k e Hk%NewKey_ok. split.
  + intros s. destruct (String.eqb_spec e "") as [->|Hne].
    { split; [intros [= <-]; by left|]. intros [[_ ->]|(nonce & ct & Hn & He & _)]; [done|].
      by apply box_nonempty in He. }
    pose proof (Decrypt_spec k e Hk Hne) as Hd. split.
    * intros Hs. rewrite Hs in Hd. by right.
    * intros [[? _]|(nonce & ct & Hn & He & ->)]; [done|].
      by rewrite (Decrypt_box _ _ _ _ He Hn), Open_tagged.
  + intros err. split.
    * intros Herr. assert (Hne : e <> "") by by intros ->. split; [done|].
      pose proof (Decrypt_spec k e Hk Hne) as Hd. by rewrite Herr in Hd.
    * intros [Hne [[He ->]|[(sealed & He & Hl & ->)|(nonce & box & He & Hn & Hno & ->)]]].
      -- unfold Decrypt. by rewrite (proj2 (String.eqb_neq _ _) Hne), He.
      -- unfold Decrypt. by rewrite (proj2 (String.eqb_neq _ _) Hne), He, (proj2 (Nat.ltb_lt _ _) Hl).
      -- rewrite (Decrypt_box _ _ _ _ He Hn). pose proof (Open_spec (gcm k) nonce box Hk Hn) as Ho.
         destruct (Open_ _ _ _) as [s|err]; cbn [wrap]; [|by destruct Ho as [-> _]].
         destruct Ho as (ct & -> & _). by destruct (Hno ct).
Qed.
