(* ===== verification/Netutil.v ===== *)
(** [internal/netutil]: the public/private classification that gates discovery, with the
    parts of Go's [net] and [net/netip] it rests on: [ParseIP], [ParseCIDR] and
    [IPNet.Contains]. *)

From S2P Require Import Prelude Encoding.
Open Scope Z_scope.

(** * net/netip *)

(** [parseIPv4Fields]: the loop over the bytes. [start] says that the previous byte is a
    dot or that there is none, [fields] are the octets so far, newest first. *)
Fixpoint ipv4_fields (start : bool) (val : Z) (digLen : nat) (fields : list Z) (s : string)
    : option (list Z) :=
  match s with
  | "" => if (length fields <? 3)%nat then None else Some (rev (val :: fields))
  | String c s' =>
      match digit_val c with
      | Some d =>
          if (digLen =? 1)%nat && (val =? 0) then None
          else
            let val := val * 10 + d in
            if 255 <? val then None else ipv4_fields false val (S digLen) fields s'
      | None =>
          if Ascii.eqb c "." then
            if start || (String.length s' =? 0)%nat then None
            else if (length fields =? 3)%nat then None
            else ipv4_fields true 0 0 (val :: fields) s'
          else None
      end
  end.

Definition parseIPv4Fields (s : string) : option (list Z) := ipv4_fields true 0 0 [] s.

Definition v4_in_6 (f : list Z) : list Z := replicate 10 0 ++ [255; 255] ++ f.

(** The hex digits of one group: their value, their number, and the rest; [None] for a
    fifth digit. *)
Fixpoint hex_group (acc : Z) (off : nat) (s : string) : option (Z * nat * string) :=
  match s with
  | String c s' =>
      match hex_digit c with
      | Some n =>
          if (3 <? off)%nat then None else hex_group (16 * acc + nibble_val n) (S off) s'
      | None => Some (acc, off, s)
      end
  | "" => Some (acc, off, "")
  end.

(** The loop of [parseIPv6]: [ip] are the bytes so far, [ell] the position of the ellipsis;
    the result is what is left of the string, the bytes and the ellipsis. *)
Fixpoint ipv6_loop (n : nat) (s : string) (ip : list Z) (ell : option nat)
    : option (string * list Z * option nat) :=
  match n with
  | O => Some (s, ip, ell)
  | S n =>
      if (16 <=? length ip)%nat then Some (s, ip, ell)
      else
        match hex_group 0 0 s with
        | None => None
        | Some (_, O, _) => None
        | Some (acc, _, r) =>
            if HasPrefix r "." then
              if (match ell with None => negb (length ip =? 12)%nat | Some _ => false end)
                 || (16 <? length ip + 4)%nat
              then None
              else
                match parseIPv4Fields s with
                | Some f => Some ("", ip ++ f, ell)
                | None => None
                end
            else
              let ip := ip ++ [acc / 256; acc mod 256] in
              if String.eqb r "" then Some ("", ip, ell)
              else
                match strip_prefix ":" r with
                | None | Some "" => None
                | Some r1 =>
                    match strip_prefix ":" r1, ell with
                    | None, _ => ipv6_loop n r1 ip ell
                    | Some _, Some _ => None
                    | Some "", None => Some ("", ip, Some (length ip))
                    | Some r2, None => ipv6_loop n r2 ip (Some (length ip))
                    end
                end
        end
  end.

Fixpoint has_char (c : ascii) (s : string) : bool :=
  match s with "" => false | String d s' => Ascii.eqb c d || has_char c s' end.

(** The part of [parseIPv6] after the zone has been split off; a group takes two of the
    sixteen bytes, so nine rounds are enough. *)
Definition ipv6_body (s : string) : option (list Z) :=
  let '(ell, s) :=
    match strip_prefix "::" s with Some r => (Some O, r) | None => (None, s) end in
  match ell, s with
  | Some _, "" => Some (replicate 16 0)
  | _, _ =>
      match ipv6_loop 9 s [] ell with
      | Some ("", ip, ell) =>
          if (length ip <? 16)%nat then
            match ell with
            | None => None
            | Some e => Some (take e ip ++ replicate (16 - length ip) 0 ++ drop e ip)
            end
          else match ell with None => Some ip | Some _ => None end
      | _ => None
      end
  end.

(** [ParseAddr] on an address without a zone: the first dot, colon or percent sign decides.
    An address with a zone (or an empty one) is refused by both callers below. *)
Fixpoint addr_kind (s : string) : option ascii :=
  match s with
  | "" => None
  | String c s' =>
      if Ascii.eqb c "." || Ascii.eqb c ":" || Ascii.eqb c "%" then Some c else addr_kind s'
  end.

Inductive addr := V4 (f : list Z) | V6 (b : list Z).

Definition ParseAddr (s : string) : option addr :=
  match addr_kind s with
  | Some c =>
      if Ascii.eqb c "." then V4 <$> parseIPv4Fields s
      else if Ascii.eqb c ":" then if has_char "%" s then None else V6 <$> ipv6_body s
      else None
  | None => None
  end.

(** [Addr.As16] and [Addr.BitLen]. *)
Definition As16 (a : addr) : list Z := match a with V4 f => v4_in_6 f | V6 b => b end.
Definition BitLen (a : addr) : Z := match a with V4 _ => 32 | V6 _ => 128 end.

(** * net *)

Definition ParseIP (s : string) : option (list Z) := As16 <$> ParseAddr s.

Definition is_v4_in_6 (ip : list Z) : bool :=
  (length ip =? 16)%nat && bool_decide (take 12 ip = v4_in_6 []).

Definition To4 (ip : list Z) : option (list Z) :=
  if (length ip =? 4)%nat then Some ip
  else if is_v4_in_6 ip then Some (drop 12 ip) else None.

(** [CIDRMask(n, bits)]: [n] ones, then zeros, as bytes. *)
Fixpoint mask_bytes (bytes : nat) (n : Z) : list Z :=
  match bytes with
  | O => []
  | S b =>
      (if 8 <=? n then 255 else 255 - (2 ^ (8 - Z.max 0 n) - 1)) :: mask_bytes b (n - 8)
  end.

Record IPNet := { NetIP : list Z; NetMask : list Z }.

Definition and_bytes (a b : list Z) : list Z := zip_with Z.land a b.

(** [IP.Mask] of a 16-byte address. *)
Definition Mask (ip m : list Z) : list Z :=
  if (length m =? 4)%nat && is_v4_in_6 ip then and_bytes (drop 12 ip) m else and_bytes ip m.

Fixpoint cut (sep : ascii) (s : string) : option (string * string) :=
  match s with
  | "" => None
  | String c s' =>
      if Ascii.eqb c sep then Some ("", s')
      else match cut sep s' with Some (a, b) => Some (String c a, b) | None => None end
  end.

(** [dtoi] of a whole string: digits only, below 0xFFFFFF. *)
Fixpoint dtoi_loop (n : Z) (s : string) : option Z :=
  match s with
  | "" => Some n
  | String c s' =>
      match digit_val c with
      | Some d => if 16777215 <=? n * 10 + d then None else dtoi_loop (n * 10 + d) s'
      | None => None
      end
  end.

Definition dtoi (s : string) : option Z := match s with "" => None | _ => dtoi_loop 0 s end.

Definition ParseCIDR (s : string) : option IPNet :=
  match cut "/" s with
  | None => None
  | Some (addr, mask) =>
      match ParseAddr addr, dtoi mask with
      | Some a, Some n =>
          if BitLen a <? n then None
          else
            let m := mask_bytes (Z.to_nat (BitLen a / 8)) n in
            Some {| NetIP := Mask (As16 a) m; NetMask := m |}
      | _, _ => None
      end
  end.

(** [IPNet.Contains], for a network whose address and mask have the same length. *)
Definition NetContains (n : IPNet) (ip : list Z) : bool :=
  let ip := default ip (To4 ip) in
  (length ip =? length (NetIP n))%nat &&
  bool_decide (and_bytes (NetIP n) (NetMask n) = and_bytes ip (NetMask n)).

(** * rfc1918.go *)

(** [None] stands for the panic. *)
Fixpoint mustParseCIDRs (cidrs : list string) : option (list IPNet) :=
  match cidrs with
  | [] => Some []
  | c :: cidrs' =>
      match ParseCIDR c with
      | None => None
      | Some n => match mustParseCIDRs cidrs' with Some l => Some (n :: l) | None => None end
      end
  end.

Definition privateBlocks : list IPNet :=
  default [] (mustParseCIDRs ["10.0.0.0/8"; "172.16.0.0/12"; "192.168.0.0/16"; "127.0.0.0/8"]).

Definition IsPrivate (ip : string) : bool :=
  match ParseIP ip with
  | None => false
  | Some parsed => existsb (fun n => NetContains n parsed) privateBlocks
  end.

Definition IsPublic (ip : string) : bool := negb (IsPrivate ip).

(** * What the parser returns *)

Definition octet (b : Z) : Prop := 0 <= b < 256.

Definition octets : list Z := map Z.of_nat (seq 0 256).

(** A decidable fact about an octet is checked on all of them. *)
Lemma octet_all (P : Z -> bool) b : forallb P octets = true -> octet b -> P b = true.
Proof.
  intros HP Hb. rewrite forallb_forall in HP. apply HP. unfold octets.
  rewrite in_map_iff. exists (Z.to_nat b). unfold octet in Hb. rewrite in_seq. lia.
Qed.

Lemma digit_val_nonneg c d : digit_val c = Some d -> 0 <= d <= 9.
Proof. unfold digit_val. case_match; [|done]. intros [= <-]. lia. Qed.

Lemma ipv4_fields_ok start val n fields s f :
  octet val -> Forall octet fields -> (length fields <= 3)%nat ->
  ipv4_fields start val n fields s = Some f -> Forall octet f /\ length f = 4%nat.
Proof.
  revert start val n fields. induction s as [|c s IH]; intros start val n fields Hv Hf Hl;
    cbn [ipv4_fields].
  - destruct (Nat.ltb_spec (length fields) 3); [done|]. intros [= <-]. split.
    + apply Forall_app_2; [by apply Forall_rev|by constructor].
    + rewrite length_app, length_rev. cbn. lia.
  - destruct (digit_val c) as [d|] eqn:Hd.
    + apply digit_val_nonneg in Hd. destruct (_ && _); [done|].
      destruct (Z.ltb_spec 255 (val * 10 + d)); [done|]. apply IH; [|done..].
      unfold octet in *. lia.
    + destruct (Ascii.eqb _ _); [|done]. destruct (_ || _); [done|].
      destruct (Nat.eqb_spec (length fields) 3); [done|].
      apply IH; [unfold octet; lia|by constructor|cbn; lia].
Qed.

Lemma parseIPv4Fields_ok s f : parseIPv4Fields s = Some f -> Forall octet f /\ length f = 4%nat.
Proof. apply ipv4_fields_ok; [unfold octet; lia|constructor|cbn; lia]. Qed.

Lemma nibble_val_range n : 0 <= nibble_val n < 16.
Proof. by destruct n as [[[[] []] []] []]. Qed.

Lemma hex_group_range acc off s a n r :
  (off <= 4)%nat -> 0 <= acc < 16 ^ Z.of_nat off -> hex_group acc off s = Some (a, n, r) ->
  0 <= a < 65536.
Proof.
  assert (Hp : forall k acc', (k <= 4)%nat -> 0 <= acc' < 16 ^ Z.of_nat k -> 0 <= acc' < 65536).
  { intros k acc' Hk Ha. pose proof (Z.pow_le_mono_r 16 (Z.of_nat k) 4). lia. }
  revert acc off. induction s as [|c s IH]; intros acc off Hoff Ha; cbn [hex_group].
  - intros [= <- <- <-]. by eapply Hp.
  - destruct (hex_digit c) as [d|]; [|intros [= <- <- <-]; by eapply Hp].
    destruct (Nat.ltb_spec 3 off); [done|]. apply IH; [lia|].
    pose proof (nibble_val_range d). rewrite Nat2Z.inj_succ, Z.pow_succ_r by lia. lia.
Qed.

Lemma ipv6_loop_ok n s ip ell r ip' ell' :
  Forall octet ip -> (length ip <= 16)%nat -> Nat.Even (length ip) ->
  ipv6_loop n s ip ell = Some (r, ip', ell') -> Forall octet ip' /\ (length ip' <= 16)%nat.
Proof.
  revert s ip ell. induction n as [|n IH]; intros s ip ell Hip Hlen Hev; cbn [ipv6_loop].
  { by intros [= <- <- <-]. }
  destruct (Nat.leb_spec 16 (length ip)); [by intros [= <- <- <-]|].
  destruct (hex_group 0 0 s) as [[[acc k] t]|] eqn:Hg; [|done].
  apply hex_group_range in Hg; [|lia|cbn; lia].
  assert (Hip2 : Forall octet (ip ++ [acc / 256; acc mod 256])).
  { apply Forall_app_2; [done|]. unfold octet.
    pose proof (Z.mod_pos_bound acc 256 ltac:(lia)).
    pose proof (Z.div_lt_upper_bound acc 256 256 ltac:(lia) ltac:(lia)).
    pose proof (Z.div_pos acc 256 ltac:(lia) ltac:(lia)). repeat constructor; lia. }
  assert (Hlen2 : length (ip ++ [acc / 256; acc mod 256]) = (length ip + 2)%nat)
    by (by rewrite length_app).
  assert (Hev2 : Nat.Even (length (ip ++ [acc / 256; acc mod 256]))).
  { rewrite Hlen2. destruct Hev as [m Hm]. exists (S m). lia. }
  assert (Hle2 : Nat.le (length (ip ++ [acc / 256; acc mod 256])) 16).
  { rewrite Hlen2. destruct Hev as [m Hm]. lia. }
  destruct k as [|k]; [done|]. destruct (HasPrefix t ".").
  - destruct (match ell with None => _ | Some _ => false end || (16 <? length ip + 4)%nat) eqn:Hb; [done|].
    apply orb_false_iff in Hb as [_ Hb]. apply Nat.ltb_ge in Hb.
    destruct (parseIPv4Fields s) as [f|] eqn:Hf; [|done]. intros [= <- <- <-].
    apply parseIPv4Fields_ok in Hf as [Hf Hl4].
    split; [by apply Forall_app_2|]. rewrite length_app. lia.
  - cbn zeta. destruct (String.eqb t ""); [by intros [= <- <- <-]|].
    destruct (strip_prefix ":" t) as [[|c1 r1]|]; [done| |done].
    destruct (strip_prefix ":" (String c1 r1)) as [[|c2 r2]|], ell as [e|];
      try done; try (by intros [= <- <- <-]); by apply IH.
Qed.

Lemma Forall_octet_zeros n : Forall octet (replicate n 0).
Proof. apply Forall_replicate. unfold octet. lia. Qed.

Lemma ipv6_body_ok s b : ipv6_body s = Some b -> Forall octet b /\ length b = 16%nat.
Proof.
  unfold ipv6_body. destruct (match strip_prefix "::" s with Some r => (Some O, r) | None => (None, s) end)
    as [ell t].
  assert (Hgo : match ipv6_loop 9 t [] ell with
      | Some ("", ip, ell) =>
          if (length ip <? 16)%nat then
            match ell with
            | None => None
            | Some e => Some (take e ip ++ replicate (16 - length ip) 0 ++ drop e ip)
            end
          else match ell with None => Some ip | Some _ => None end
      | _ => None
      end = Some b -> Forall octet b /\ length b = 16%nat).
  { destruct (ipv6_loop 9 t [] ell) as [[[[|] ip] ell']|] eqn:Hl; [|done..].
    apply ipv6_loop_ok in Hl as [Hf Hlen]; [|constructor|cbn; lia|by exists O].
    destruct (Nat.ltb_spec (length ip) 16), ell' as [e|]; try done; intros [= <-].
    - split.
      + apply Forall_app_2; [by apply Forall_take|]. apply Forall_app_2; [apply Forall_octet_zeros|].
        by apply Forall_drop.
      + rewrite !length_app, length_replicate, length_take, length_drop. lia.
    - split; [done|lia]. }
  destruct ell as [e|], t as [|c t]; try exact Hgo.
  intros [= <-]. split; [apply (Forall_octet_zeros 16)|done].
Qed.

Lemma ParseIP_ok s ip : ParseIP s = Some ip -> Forall octet ip /\ length ip = 16%nat.
Proof.
  unfold ParseIP, ParseAddr. destruct (addr_kind s) as [k|]; [|done].
  destruct (Ascii.eqb k ".").
  - destruct (parseIPv4Fields s) as [f|] eqn:Hf; [|done]. cbn. intros [= <-].
    apply parseIPv4Fields_ok in Hf as [Hf Hl].
    split; [|cbn; by rewrite Hl]. by repeat (constructor; [unfold octet; lia|]).
  - destruct (Ascii.eqb k ":"); [|done]. destruct (has_char _ _); [done|].
    destruct (ipv6_body s) as [b|] eqn:Hb; [|done]. intros [= <-].
    by apply (ipv6_body_ok s).
Qed.

(** * Membership in the private blocks *)

(** The plan's ranges, on the first two octets. *)
Definition private_octets (a b : Z) : bool :=
  (a =? 10) || ((a =? 172) && (16 <=? b) && (b <=? 31)) || ((a =? 192) && (b =? 168)) || (a =? 127).

Lemma privateBlocks_eq : privateBlocks =
  [{| NetIP := [10; 0; 0; 0]; NetMask := [255; 0; 0; 0] |};
   {| NetIP := [172; 16; 0; 0]; NetMask := [255; 240; 0; 0] |};
   {| NetIP := [192; 168; 0; 0]; NetMask := [255; 255; 0; 0] |};
   {| NetIP := [127; 0; 0; 0]; NetMask := [255; 0; 0; 0] |}].
Proof. reflexivity. Qed.

Lemma land_255 a : octet a -> Z.land a 255 = a.
Proof. intros Ha. apply (octet_all (fun a => Z.land a 255 =? a)) in Ha; [lia|reflexivity]. Qed.

Lemma land_240 b : octet b -> (16 =? Z.land b 240) = (16 <=? b) && (b <=? 31).
Proof.
  intros Hb. apply eqb_true_iff.
  by apply (octet_all (fun b => eqb (16 =? Z.land b 240) ((16 <=? b) && (b <=? 31)))) in Hb.
Qed.

Lemma contains_v4 a b c d na nb ma mb :
  NetContains {| NetIP := [na; nb; 0; 0]; NetMask := [ma; mb; 0; 0] |} (v4_in_6 [a; b; c; d]) =
    (Z.land na ma =? Z.land a ma) && (Z.land nb mb =? Z.land b mb).
Proof.
  unfold NetContains. change (To4 (v4_in_6 [a; b; c; d])) with (Some [a; b; c; d]).
  cbn -[Z.land]. rewrite !Z.land_0_r. apply eq_true_iff_eq. rewrite bool_decide_eq_true, andb_true_iff, !Z.eqb_eq.
  split; [by intros [= -> ->]|by intros [-> ->]].
Qed.

Lemma private_v4 a b c d :
  octet a -> octet b ->
  existsb (fun n => NetContains n (v4_in_6 [a; b; c; d])) privateBlocks = private_octets a b.
Proof.
  intros Ha Hb. rewrite privateBlocks_eq. cbn [existsb]. rewrite !contains_v4.
  change (Z.land 10 255) with 10. change (Z.land 172 255) with 172. change (Z.land 192 255) with 192.
  change (Z.land 127 255) with 127. change (Z.land 168 255) with 168. change (Z.land 16 240) with 16.
  change (Z.land 0 0) with 0. rewrite !Z.land_0_r, !land_255, land_240 by done.
  change (0 =? 0) with true.
  rewrite !andb_true_r, orb_false_r, (Z.eqb_sym 10), (Z.eqb_sym 172), (Z.eqb_sym 192), (Z.eqb_sym 127),
    (Z.eqb_sym 168).
  unfold private_octets. by rewrite !orb_assoc, !andb_assoc.
Qed.

(** An address that is no IPv4 address is in no block. *)
Lemma private_v6 ip : length ip = 16%nat -> To4 ip = None ->
  existsb (fun n => NetContains n ip) privateBlocks = false.
Proof.
  intros Hl H4. rewrite privateBlocks_eq. unfold NetContains. rewrite H4. cbn [default existsb NetIP].
  by rewrite Hl.
Qed.

Lemma To4_Some ip f : length ip = 16%nat -> To4 ip = Some f -> ip = v4_in_6 f /\ length f = 4%nat.
Proof.
  intros Hl. unfold To4. rewrite Hl. cbn [Nat.eqb]. unfold is_v4_in_6. rewrite Hl.
  cbn [Nat.eqb andb]. case_bool_decide as Ht; [|done]. intros [= <-].
  split; [|rewrite length_drop, Hl; done]. rewrite <- (take_drop 12 ip) at 1. by rewrite Ht.
Qed.

(** ** The canonical dotted form *)

Definition dotted (a b c d : Z) : string :=
  Itoa a +:+ "." +:+ Itoa b +:+ "." +:+ Itoa c +:+ "." +:+ Itoa d.

(** The digits of one octet, as [ipv4_fields] consumes them. *)
Fixpoint digit_run (val : Z) (n : nat) (s : string) : option (Z * nat) :=
  match s with
  | "" => Some (val, n)
  | String c s' =>
      match digit_val c with
      | Some d =>
          if ((n =? 1)%nat && (val =? 0)) || (255 <? val * 10 + d) then None
          else digit_run (val * 10 + d) (S n) s'
      | None => None
      end
  end.

Lemma digit_run_fields fields s t st val n v' n' :
  s <> "" -> digit_run val n s = Some (v', n') ->
  ipv4_fields st val n fields (s +:+ t) = ipv4_fields false v' n' fields t.
Proof.
  revert st val n. induction s as [|c s IH]; intros st val n Hs; [done|].
  rewrite str_cons_app. cbn [digit_run ipv4_fields].
  destruct (digit_val c) as [d|]; [|done]. destruct (_ && _); [done|]. cbn [orb].
  destruct (255 <? val * 10 + d); [done|]. destruct s as [|c' s]; [by intros [= -> ->]|].
  by apply IH.
Qed.

Lemma octet_digits a : octet a -> exists n, digit_run 0 0 (Itoa a) = Some (a, n).
Proof.
  intros Ha.
  apply (octet_all (fun a => match digit_run 0 0 (Itoa a) with
    | Some (v, _) => v =? a | None => false end)) in Ha; [|vm_compute; reflexivity].
  destruct (digit_run 0 0 (Itoa a)) as [[v n]|]; [|done]. apply Z.eqb_eq in Ha as ->. by exists n.
Qed.

Lemma Itoa_nonempty a s : Itoa a +:+ s <> "".
Proof.
  intros H. assert (Itoa a = "") as Ha by (by destruct (Itoa a)).
  destruct a as [|p|p]; [done| |done].
  apply (pretty_N_go_nonempty (N.pos p) ""); [lia|exact Ha].
Qed.

(** Reading one octet that a dot follows, and the last one. *)
Lemma field_dot a fields t : octet a -> (length fields < 3)%nat -> t <> "" ->
  ipv4_fields true 0 0 fields (Itoa a +:+ String "." t) = ipv4_fields true 0 0 (a :: fields) t.
Proof.
  intros Ha Hl Ht. destruct (octet_digits a Ha) as [n Hn].
  rewrite (digit_run_fields _ _ _ _ _ _ a n); [|by rewrite <- (str_app_nil (Itoa a)); apply Itoa_nonempty|done].
  destruct t as [|c t]; [done|]. cbn [ipv4_fields].
  change (digit_val ".") with (@None Z). change (Ascii.eqb "." ".") with true.
  cbn [orb String.length Nat.eqb]. destruct (Nat.eqb_spec (length fields) 3); [lia|done].
Qed.

Lemma field_last a x y z : octet a ->
  ipv4_fields true 0 0 [z; y; x] (Itoa a) = Some [x; y; z; a].
Proof.
  intros Ha. destruct (octet_digits a Ha) as [n Hn]. rewrite <- (str_app_nil (Itoa a)).
  by rewrite (digit_run_fields _ _ _ _ _ _ a n); [|rewrite <- (str_app_nil (Itoa a)); apply Itoa_nonempty|].
Qed.

Lemma addr_kind_dot a t : octet a -> addr_kind (Itoa a +:+ String "." t) = Some "."%char.
Proof.
  intros Ha.
  apply (octet_all (fun a => match addr_kind (Itoa a) with None => true | Some _ => false end)) in Ha;
    [|vm_compute; reflexivity].
  induction (Itoa a) as [|c s IH]; [done|]. rewrite str_cons_app. cbn [addr_kind] in *.
  destruct (_ || _); [done|]. by apply IH.
Qed.

Lemma ParseIP_dotted a b c d :
  octet a -> octet b -> octet c -> octet d ->
  ParseIP (dotted a b c d) = Some (v4_in_6 [a; b; c; d]).
Proof.
  intros Ha Hb Hc Hd.
  assert (Hk : addr_kind (dotted a b c d) = Some "."%char).
  { unfold dotted. rewrite str_cons_app. by apply addr_kind_dot. }
  unfold ParseIP, ParseAddr. rewrite Hk. cbn iota beta. change (Ascii.eqb "." ".") with true. cbn iota.
  unfold parseIPv4Fields, dotted. rewrite !str_cons_app, !str_nil_app.
  rewrite !field_dot; try done; try (cbn; lia); try apply Itoa_nonempty.
  - by rewrite field_last.
  - rewrite <- (str_app_nil (Itoa d)). apply Itoa_nonempty.
Qed.

(** * Properties *)

(** C7.  An address is private exactly when it parses to an IPv4 address, in dotted form or
    mapped into IPv6, of 10/8, 172.16/12, 192.168/16 or 127/8; in particular every canonical
    dotted quad is classified by its first two octets, and whatever does not parse, and every
    proper IPv6 address, is public. *)
Theorem IsPrivate_spec (s : string) :
  (IsPrivate s = true <->
   exists a b c d, ParseIP s = Some (v4_in_6 [a; b; c; d]) /\ private_octets a b = true) /\
  (forall a b c d, octet a -> octet b -> octet c -> octet d ->
   IsPrivate (dotted a b c d) = private_octets a b) /\
  (ParseIP s = None \/ ParseIP s ≫= To4 = None -> IsPublic s = true).
Proof.
  unfold IsPublic, IsPrivate. split_and!.
  - destruct (ParseIP s) as [ip|] eqn:Hp; [|split; [done|by intros (? & ? & ? & ? & ? & _)]].
    apply ParseIP_ok in Hp as [Hoct Hlen]. destruct (To4 ip) as [f|] eqn:H4.
    + apply To4_Some in H4 as [-> Hf]; [|done]. destruct f as [|a [|b [|c [|d [|? ?]]]]]; try done.
      do 12 apply Forall_inv_tail in Hoct. inversion Hoct as [|? ? Ha Hoct']; subst.
      inversion Hoct' as [|? ? Hb _]; subst. rewrite private_v4 by done. split; [by eauto 10|].
      by intros (a' & b' & c' & d' & [= -> -> -> ->] & ?).
    + rewrite private_v6 by done. split; [done|]. by intros (? & ? & ? & ? & [= ->] & _).
  - intros a b c d Ha Hb Hc Hd. rewrite ParseIP_dotted by done. by apply private_v4.
  - destruct (ParseIP s) as [ip|] eqn:Hp; [|done]. intros [?|H4]; [done|].
    rewrite private_v6; [done|by eapply ParseIP_ok|exact H4].
Qed.
