(* ===== verification/Snmp.v ===== *)
(** [internal/snmp]: building a client from credentials, the one GET that verifies them, the
    probe of the factory defaults, the next hops of a routing table, and trap names.  gosnmp
    itself is [SnmpEnv]; what is sent with which client is in the trace. *)

From S2P Require Import Prelude Encoding Float64 Json World.
Open Scope Z_scope.

(** * probe.go *)

Definition sysDescr0 : string := "1.3.6.1.2.1.1.1.0".

Definition second : Z := 1000000000.

(** [defaultCommunities]. *)
Definition defaultCommunities : list (SnmpVersion * string) :=
  [(Version2c, "public"); (Version2c, "private"); (Version1, "public")].

Record Credentials := {
  cVersion : string;
  cCommunity : string;
  cV3User : string;
  cV3AuthKey : string;
  cV3PrivKey : string;
  cV3AuthProtocol : string;
  cV3PrivProtocol : string
}.

#[export] Instance Credentials_eq_dec : EqDecision Credentials.
Proof. solve_decision. Defined.

Definition parseAuthProtocol (s : string) : result SnmpV3AuthProtocol :=
  if String.eqb s "" || String.eqb s "NoAuth" then Ok NoAuth
  else if String.eqb s "MD5" then Ok MD5
  else if String.eqb s "SHA" then Ok SHA
  else Err (ENew [FStr "snmp: unsupported auth protocol "; FQuote s]).

Definition parsePrivProtocol (s : string) : result SnmpV3PrivProtocol :=
  if String.eqb s "" || String.eqb s "NoPriv" then Ok NoPriv
  else if String.eqb s "DES" then Ok DES
  else if String.eqb s "AES" then Ok AES
  else Err (ENew [FStr "snmp: unsupported privacy protocol "; FQuote s]).

(** The zero values gosnmp starts from: [Version1] is 0 and so is [NoAuthNoPriv]. *)
Definition base_client (ip : string) (timeout : Z) (v : SnmpVersion) (community : string)
    (flags : SnmpV3MsgFlags) (usm : option UsmSecurityParameters) : GoSNMP :=
  {| Target := ip; Port := 161; Timeout := timeout; Retries := 1; Transport := "udp";
     g_Version := v; g_Community := community; MsgFlags := flags; SecurityParameters := usm |}.

Definition buildClient (ip : string) (creds : Credentials) (timeout : Z) : result GoSNMP :=
  if String.eqb (cVersion creds) "v1" then
    Ok (base_client ip timeout Version1 (cCommunity creds) NoAuthNoPriv None)
  else if String.eqb (cVersion creds) "v2c" then
    Ok (base_client ip timeout Version2c (cCommunity creds) NoAuthNoPriv None)
  else if String.eqb (cVersion creds) "v3" then
    authProto <-? parseAuthProtocol (cV3AuthProtocol creds);;
    privProto <-? parsePrivProtocol (cV3PrivProtocol creds);;
    let msgFlags := NoAuthNoPriv in
    let msgFlags := if negb (String.eqb (cV3AuthKey creds) "") then AuthNoPriv else msgFlags in
    let msgFlags := if negb (String.eqb (cV3PrivKey creds) "") then AuthPriv else msgFlags in
    Ok (base_client ip timeout Version3 "" msgFlags
      (Some {| UserName := cV3User creds; AuthenticationProtocol := authProto;
               AuthenticationPassphrase := cV3AuthKey creds; PrivacyProtocol := privProto;
               PrivacyPassphrase := cV3PrivKey creds |}))
  else Err (ENew [FStr "snmp: unsupported version "; FQuote (cVersion creds)]).

Section probe.
Context `{SnmpEnv}.

(** [client.Connect], and [client.Get] of one OID, whose answer the callers ignore. *)
Definition connect (c : GoSNMP) : IO (result unit) :=
  let* t := next_tick in
  ret (match snmp_connect t c with None => Ok tt | Some e => Err e end).

Definition get_oid (c : GoSNMP) (oid : string) : IO (result unit) :=
  let* t := next_tick in
  emit (EvGet c) ;;;
  ret (match snmp_get t c oid with None => Ok tt | Some e => Err e end).

Definition Verify (ip : string) (creds : Credentials) (timeout : Z) : IO (result unit) :=
  match buildClient ip creds timeout with
  | Err e => ret (Err e)
  | Ok client =>
      try* u := connect client catch e =>
        ret (Err (EWrap [FStr "snmp: connecting to "; FStr ip; FStr ": "] e [])) in
      try* u := get_oid client sysDescr0 catch e =>
        ret (Err (EWrap [FStr "snmp: get sysDescr from "; FStr ip; FStr ": "] e [])) in
      ret (Ok tt)
  end.

Definition default_creds (d : SnmpVersion * string) : Credentials :=
  let versionStr := if bool_decide (d.1 = Version1) then "v1" else "v2c" in
  Build_Credentials versionStr d.2 "" "" "" "" "".

Fixpoint probe (ip : string) (timeout : Z) (l : list (SnmpVersion * string))
    : IO (result Credentials) :=
  match l with
  | [] => ret (Err ErrProbeFailed)
  | d :: l' =>
      let creds := default_creds d in
      try* u := Verify ip creds timeout catch e => probe ip timeout l' in
      ret (Ok creds)
  end.

Definition ProbeDefaults (ip : string) (timeout : Z) : IO (result Credentials) :=
  probe ip timeout defaultCommunities.
End probe.

(** * routes.go *)

Definition ipRouteNextHopOID : string := ".1.3.6.1.2.1.4.21.1.7".

(** The walk's callback on [seen] and [hops]. *)
Definition visit (st : gset string * list string) (pdu : SnmpPDU) : gset string * list string :=
  let '(seen, hops) := st in
  match as_string (Value pdu) with
  | None => st
  | Some hop =>
      if String.eqb hop "" || String.eqb hop "0.0.0.0" then st
      else if bool_decide (hop ∈ seen) then st
      else ({[hop]} ∪ seen, hops ++ [hop])
  end.

Section routes.
Context `{SnmpEnv}.

Definition walk (c : GoSNMP) (oid : string) : IO (list SnmpPDU * option error) :=
  let* t := next_tick in emit (EvWalk c) ;;; ret (snmp_walk t c oid).

Definition WalkRouteNextHops (ip : string) (creds : Credentials) (timeout : Z)
    : IO (result (list string)) :=
  match buildClient ip creds timeout with
  | Err e => ret (Err e)
  | Ok client =>
      try* u := connect client catch e =>
        ret (Err (EWrap [FStr "snmp: connecting to "; FStr ip; FStr ": "] e [])) in
      let* '(pdus, walkErr) := walk client ipRouteNextHopOID in
      let '(_, hops) := foldl visit (∅, []) pdus in
      match walkErr with
      | Some e => ret (Err (EWrap [FStr "snmp: walking route table on "; FStr ip; FStr ": "] e []))
      | None => ret (Ok hops)
      end
  end.
End routes.

(** * trapnames.go *)

Definition trapNames : list (string * string) :=
  [(".1.3.6.1.6.3.1.1.5.1", "ColdStart");
   (".1.3.6.1.6.3.1.1.5.2", "WarmStart");
   (".1.3.6.1.6.3.1.1.5.3", "LinkDown");
   (".1.3.6.1.6.3.1.1.5.4", "LinkUp");
   (".1.3.6.1.6.3.1.1.5.5", "AuthenticationFailure");
   (".1.3.6.1.6.3.1.1.5.6", "EgpNeighborLoss");
   (".1.3.6.1.4.1.9.9.43.2.0.1", "ConfigManEvent");
   (".1.3.6.1.4.1.9.9.43.2.0.2", "ConfigChanged");
   (".1.3.6.1.4.1.9.9.43.2.0.3", "ConfigCTIDRolledOver")].

Definition TrapName (oid : string) : string :=
  let normalized := oid in
  let normalized := if negb (HasPrefix normalized ".") then "." +:+ normalized else normalized in
  let normalized := TrimSuffix normalized "." in
  match map_get trapNames normalized with Some name => name | None => oid end.

(** * Facts the clients use *)

(** What a client built for [ip] carries. *)
Lemma buildClient_Ok ip creds timeout c :
  buildClient ip creds timeout = Ok c ->
  Target c = ip /\ Port c = 161 /\ Timeout c = timeout /\ Retries c = 1 /\ Transport c = "udp" /\
  ((cVersion creds = "v1" /\ g_Version c = Version1 /\ g_Community c = cCommunity creds
      /\ SecurityParameters c = None) \/
   (cVersion creds = "v2c" /\ g_Version c = Version2c /\ g_Community c = cCommunity creds
      /\ SecurityParameters c = None) \/
   (cVersion creds = "v3" /\ g_Version c = Version3 /\ g_Community c = "" /\
    exists a p, parseAuthProtocol (cV3AuthProtocol creds) = Ok a /\
      parsePrivProtocol (cV3PrivProtocol creds) = Ok p /\
      MsgFlags c = (if negb (String.eqb (cV3PrivKey creds) "") then AuthPriv
                    else if negb (String.eqb (cV3AuthKey creds) "") then AuthNoPriv
                    else NoAuthNoPriv) /\
      SecurityParameters c = Some {| UserName := cV3User creds; AuthenticationProtocol := a;
        AuthenticationPassphrase := cV3AuthKey creds; PrivacyProtocol := p;
        PrivacyPassphrase := cV3PrivKey creds |})).
Proof.
  unfold buildClient.
  destruct (String.eqb_spec (cVersion creds) "v1") as [->|_];
    [intros [= <-]; split_and!; try done; by left|].
  destruct (String.eqb_spec (cVersion creds) "v2c") as [->|_];
    [intros [= <-]; split_and!; try done; by right; left|].
  destruct (String.eqb_spec (cVersion creds) "v3") as [->|_]; [|done].
  destruct (parseAuthProtocol _) as [a|] eqn:Ha; [|done]. cbn.
  destruct (parsePrivProtocol _) as [p|] eqn:Hp; [|done]. cbn. intros [= <-]. cbn.
  split_and!; [done..|]. right; right. split_and!; [done..|]. exists a, p. by split_and!.
Qed.

Section snmp_facts.
Context `{SnmpEnv}.

(** Every request a program makes on behalf of [ip] with [creds] goes to [ip] with [creds]. *)
Definition for_host (ip : string) (creds : Credentials) (timeout : Z) (e : event) : Prop :=
  exists c, buildClient ip creds timeout = Ok c /\ (e = EvGet c \/ e = EvWalk c).

Lemma steps_Verify P R `{!PreOrder R, !Ticks R, !AllowsEvents P R} ip creds timeout :
  (forall c, buildClient ip creds timeout = Ok c -> P (EvGet c)) ->
  io_steps R (Verify ip creds timeout).
Proof.
  intros HP. unfold Verify. destruct (buildClient _ _ _) as [c|e]; [|by apply steps_ret].
  unfold connect, get_oid. io_walk. apply (steps_emit P); [done|by apply HP].
Qed.

Lemma steps_probe P R `{!PreOrder R, !Ticks R, !AllowsEvents P R} ip timeout l :
  (forall d c, d ∈ l -> buildClient ip (default_creds d) timeout = Ok c -> P (EvGet c)) ->
  io_steps R (probe ip timeout l).
Proof.
  induction l as [|d l IH]; intros HP; cbn [probe]; [by apply steps_ret|].
  apply steps_bind; [ |intros r].
  - apply (steps_Verify P); [done..|]. intros c. apply HP. by left.
  - destruct r; [by apply steps_ret|]. apply IH. intros d' c Hd. apply HP. by right.
Qed.

Lemma steps_ProbeDefaults P R `{!PreOrder R, !Ticks R, !AllowsEvents P R} ip timeout :
  (forall d c, d ∈ defaultCommunities -> buildClient ip (default_creds d) timeout = Ok c -> P (EvGet c)) ->
  io_steps R (ProbeDefaults ip timeout).
Proof. by apply steps_probe. Qed.

Lemma steps_Walk P R `{!PreOrder R, !Ticks R, !AllowsEvents P R} ip creds timeout :
  (forall c, buildClient ip creds timeout = Ok c -> P (EvWalk c)) ->
  io_steps R (WalkRouteNextHops ip creds timeout).
Proof.
  intros HP. unfold WalkRouteNextHops.
  destruct (buildClient _ _ _) as [c|e]; [|by apply steps_ret].
  unfold connect, walk. io_walk. apply (steps_emit P); [done|by apply HP].
Qed.

(** ** The probe *)

(** A device that was tried with each of [l], in this order, and did not answer. *)
Fixpoint refused (ip : string) (timeout : Z) (l : list (SnmpVersion * string)) (w w' : world) : Prop :=
  match l with
  | [] => w' = w
  | d :: l' => exists e w1, Verify ip (default_creds d) timeout w = (Err e, w1) /\ refused ip timeout l' w1 w'
  end.

(** [probe] tries the entries in order, up to the first that answers. *)
Lemma probe_tries ip timeout l w :
  match probe ip timeout l w with
  | (Ok creds, w2) => exists before d after w1, l = before ++ d :: after /\ creds = default_creds d /\
      refused ip timeout before w w1 /\ Verify ip creds timeout w1 = (Ok tt, w2)
  | (Err e, w2) => e = ErrProbeFailed /\ refused ip timeout l w w2
  end.
Proof.
  revert w. induction l as [|d l IH]; intros w; [done|]. cbn [probe]. rewrite bind_eq.
  destruct (Verify _ _ _ w) as [[[]|e] w'] eqn:Hv; cbn.
  - by exists [], d, l, w.
  - specialize (IH w'). destruct (probe _ _ _ _) as [[c|e'] w2].
    + destruct IH as (before & d' & after & w1 & -> & -> & Hr & Hok). exists (d :: before), d', after, w1.
      split_and!; try done. by exists e, w'.
    + destruct IH as [-> Hr]. split; [done|]. by exists e, w'.
Qed.

End snmp_facts.

(** ** Next hops *)

Definition is_hop (s : string) : bool := negb (String.eqb s "" || String.eqb s "0.0.0.0").

(** The hop values of a walk, in order, with repetitions. *)
Definition hop_values (pdus : list SnmpPDU) : list string :=
  List.filter is_hop (omap (fun pdu => as_string (Value pdu)) pdus).

(** First occurrences only. *)
Fixpoint firsts (l : list string) : list string :=
  match l with
  | [] => []
  | x :: l' => x :: List.filter (fun y => negb (String.eqb y x)) (firsts l')
  end.

Lemma filter_comm {A} (p q : A -> bool) l : List.filter p (List.filter q l) = List.filter q (List.filter p l).
Proof.
  induction l as [|x l IH]; [done|]. cbn.
  destruct (p x) eqn:Hp, (q x) eqn:Hq; cbn; rewrite ?Hp, ?Hq, IH; done.
Qed.

Lemma filter_and {A} (p q : A -> bool) l :
  List.filter p (List.filter q l) = List.filter (fun x => q x && p x) l.
Proof.
  induction l as [|x l IH]; [done|]. cbn. destruct (q x); cbn; [|done]. destruct (p x); by rewrite IH.
Qed.

Definition unseen (seen : gset string) (s : string) : bool := bool_decide (s ∉ seen).

Lemma hop_values_cons pdu pdus :
  hop_values (pdu :: pdus) =
    match as_string (Value pdu) with
    | Some hop => if is_hop hop then hop :: hop_values pdus else hop_values pdus
    | None => hop_values pdus
    end.
Proof. unfold hop_values. cbn. by destruct (as_string (Value pdu)). Qed.

Lemma unseen_firsts seen hop l :
  List.filter (unseen seen) (List.filter (fun y => negb (String.eqb y hop)) l) =
  List.filter (unseen ({[hop]} ∪ seen)) l.
Proof.
  rewrite filter_and. apply filter_ext. intros y. unfold unseen.
  apply eq_true_iff_eq. rewrite andb_true_iff, negb_true_iff, !bool_decide_eq_true, String.eqb_neq.
  rewrite not_elem_of_union, not_elem_of_singleton. tauto.
Qed.

Lemma visit_foldl pdus seen hops :
  foldl visit (seen, hops) pdus =
    (list_to_set (hop_values pdus) ∪ seen,
     hops ++ List.filter (unseen seen) (firsts (hop_values pdus))).
Proof.
  revert seen hops. induction pdus as [|pdu pdus IH]; intros seen hops.
  { cbn. by rewrite app_nil_r, (left_id_L ∅ (∪)). }
  rewrite hop_values_cons. cbn [foldl]. unfold visit at 2.
  destruct (as_string (Value pdu)) as [hop|]; [|apply IH]. unfold is_hop.
  destruct (_ || _); cbn [negb]; [apply IH|].
  cbn [firsts List.filter list_to_set foldr]. rewrite unseen_firsts.
  unfold unseen at 1. case_bool_decide as Hs.
  - rewrite bool_decide_false by (by intros ?). rewrite IH.
    rewrite (subseteq_union_1_L {[hop]} seen) by (by apply singleton_subseteq_l).
    f_equal. rewrite <- (assoc_L (∪)), (comm_L (∪) {[hop]}), <- (assoc_L (∪)).
    by rewrite (comm_L (∪) seen), (subseteq_union_1_L {[hop]} seen) by (by apply singleton_subseteq_l).
  - rewrite bool_decide_true by done. rewrite IH, <- app_assoc. f_equal.
    by rewrite (assoc_L (∪)), (comm_L (∪) _ {[hop]}).
Qed.

Lemma firsts_spec l : NoDup (firsts l) /\ (forall x, x ∈ firsts l <-> x ∈ l).
Proof.
  induction l as [|x l [Hnd Hin]]; [split; [constructor|done]|]. cbn.
  assert (Hf : forall y, y ∈ List.filter (fun y => negb (String.eqb y x)) (firsts l) <-> y <> x /\ y ∈ l).
  { intros y. rewrite list_elem_of_In, filter_In, <- list_elem_of_In, Hin, negb_true_iff, String.eqb_neq.
    tauto. }
  split.
  - apply NoDup_cons. split; [rewrite Hf; tauto|]. by apply NoDup_ListNoDup, List.NoDup_filter, NoDup_ListNoDup.
  - intros y. rewrite !elem_of_cons, Hf. destruct (decide (y = x)); tauto.
Qed.

(** ** Trap names *)

Lemma TrimSuffix_Some s suf : TrimSuffix s suf = s \/ s = TrimSuffix s suf +:+ suf.
Proof.
  unfold TrimSuffix. destruct (strip_prefix _ _) as [r|] eqn:E; [right|by left].
  apply strip_prefix_Some in E.
  by rewrite <- (str_rev_involutive s), E, str_rev_append, str_rev_involutive.
Qed.

(** * Properties *)

(** C8.  [WalkRouteNextHops] returns the distinct next hops of the walk in the order of their
    first occurrence: what it returns is exactly the first occurrences of the string values
    that are neither empty nor 0.0.0.0, whatever else the walk delivers; and it returns
    nothing when the client cannot be built, the connection fails or the walk ends in an
    error. *)
Theorem next_hops_spec `{SnmpEnv} (ip : string) (creds : Credentials) (timeout : Z) (w : world) :
  match (WalkRouteNextHops ip creds timeout w).1 with
  | Ok hops => exists c pdus, buildClient ip creds timeout = Ok c /\
      snmp_connect (w_tick w) c = None /\
      snmp_walk (S (w_tick w)) c ipRouteNextHopOID = (pdus, None) /\
      hops = firsts (hop_values pdus) /\ NoDup hops /\
      (forall h, h ∈ hops <-> h <> "" /\ h <> "0.0.0.0" /\ exists p, p ∈ pdus /\ Value p = AStr h)
  | Err _ =>
      match buildClient ip creds timeout with
      | Err _ => True
      | Ok c => is_Some (snmp_connect (w_tick w) c) \/
          is_Some (snmp_walk (S (w_tick w)) c ipRouteNextHopOID).2
      end
  end.
Proof.
  unfold WalkRouteNextHops. destruct (buildClient ip creds timeout) as [c|e]; [|done].
  unfold connect. io_run. destruct (snmp_connect (w_tick w) c) as [e|] eqn:Hc; [left; by eexists|].
  unfold walk. io_run.
  destruct (snmp_walk (S (w_tick w)) c ipRouteNextHopOID) as [pdus walkErr] eqn:Hw.
  destruct (foldl visit (∅, []) pdus) as [seen hops] eqn:Hf. rewrite visit_foldl in Hf.
  destruct walkErr as [e|]; cbn; [right; by eexists|].
  assert (hops = firsts (hop_values pdus)) as ->.
  { injection Hf as _ <-. rewrite <- (filter_all (firsts (hop_values pdus))) at 2.
    apply filter_ext. intros y. unfold unseen. by apply bool_decide_true. }
  destruct (firsts_spec (hop_values pdus)) as [Hnd Hin].
  exists c, pdus. split_and!; try done. intros h. rewrite Hin. unfold hop_values.
  rewrite list_elem_of_In, filter_In, <- list_elem_of_In, list_elem_of_omap. unfold is_hop.
  rewrite negb_true_iff, orb_false_iff, !String.eqb_neq. split.
  - intros [(p & Hp & Hs) [H1 H2]]. split_and!; [done..|]. exists p. split; [done|].
    by destruct (Value p); cbn in Hs; simplify_eq.
  - intros (H1 & H2 & p & Hp & Hs). split; [|done]. exists p. by rewrite Hs.
Qed.

(** C9.  Probing a device with no credentials tries the three factory defaults in their order,
    v2c public, v2c private, v1 public, and stops at the first the device answers, which is what
    it returns: all before it were tried and not answered.  If none is answered all three were
    tried, and the error is [ErrProbeFailed].  Every request goes to that address as v1 or v2c,
    never v3, and there is no other. *)
Theorem probe_defaults_spec `{SnmpEnv} (ip : string) (timeout : Z) (w : world) :
  traces (fun e => exists c, e = EvGet c /\ Target c = ip /\ SecurityParameters c = None /\
    ((g_Version c = Version2c /\ (g_Community c = "public" \/ g_Community c = "private")) \/
     (g_Version c = Version1 /\ g_Community c = "public")))
    w (ProbeDefaults ip timeout w).2 /\
  let factory := [(Version2c, "public"); (Version2c, "private"); (Version1, "public")] in
  match ProbeDefaults ip timeout w with
  | (Ok creds, w2) => exists before d after w1, factory = before ++ d :: after /\
      creds = Build_Credentials (if bool_decide (d.1 = Version1) then "v1" else "v2c") d.2 "" "" "" "" "" /\
      refused ip timeout before w w1 /\ Verify ip creds timeout w1 = (Ok tt, w2)
  | (Err e, w2) => e = ErrProbeFailed /\ refused ip timeout factory w w2
  end.
Proof.
  split.
  2:{ cbv zeta. pose proof (probe_tries ip timeout defaultCommunities w) as Ht. unfold ProbeDefaults.
      destruct (probe _ _ _ _) as [[creds|e] w2]; [|exact Ht].
      destruct Ht as (before & d & after & w1 & Hl & -> & Hr). by exists before, d, after, w1. }
  match goal with |- traces ?Q _ _ => apply (steps_run (traces Q)), (steps_ProbeDefaults Q); try apply _ end.
  intros d c Hd Hc. exists c. unfold defaultCommunities in Hd.
  repeat (apply elem_of_cons in Hd as [->|Hd]; [injection Hc as <-; cbn; tauto|]).
  by apply not_elem_of_nil in Hd.
Qed.

(** [TrapName] names a trap by its OID, written with or without its leading dot and
    with or without a trailing one, and leaves every other OID unchanged. *)
Theorem trap_name_spec (oid : string) :
  (forall o n, (o, n) ∈ trapNames ->
   TrapName o = n /\ TrapName (o +:+ ".") = n /\
   forall t, o = "." +:+ t -> TrapName t = n /\ TrapName (t +:+ ".") = n) /\
  (TrapName oid = oid \/
   exists o, (o, TrapName oid) ∈ trapNames /\
     (oid = o \/ oid = o +:+ "." \/ "." +:+ oid = o \/ "." +:+ oid = o +:+ ".")).
Proof.
  split.
  - intros o n Hin. unfold trapNames in Hin.
    repeat (apply elem_of_cons in Hin as [Hin|Hin];
      [injection Hin as -> ->; split_and!; [reflexivity..|];
       intros t Ht; rewrite str_cons_app, str_nil_app in Ht; injection Ht as <-;
       split; reflexivity|]).
    by apply not_elem_of_nil in Hin.
  - unfold TrapName. set (norm := if negb (HasPrefix oid ".") then _ else _).
    destruct (map_get trapNames (TrimSuffix norm ".")) as [n|] eqn:Hn; [right|by left].
    apply map_get_In in Hn. exists (TrimSuffix norm "."). split; [done|].
    clear Hn. subst norm. destruct (HasPrefix oid "."); cbn [negb].
    + destruct (TrimSuffix_Some oid ".") as [Ht|Ht]; [left; by symmetry|right; left; exact Ht].
    + destruct (TrimSuffix_Some ("." +:+ oid) ".") as [Ht|Ht];
        [right; right; left; by symmetry|right; right; right; exact Ht].
Qed.
