(* ===== verification/TrapReceiver.v ===== *)
(** [trap-receiver]: the handler gosnmp calls for every trap or inform, which works out the
    trap's identity, encodes its varbinds as JSON and stores the row.  The decoded packet and
    the names of the PDU types are gosnmp's. *)

From S2P Require Import Prelude Float64 Encoding Json JsonFacts World Store StoreFacts Snmp.
Open Scope Z_scope.

(** gosnmp's [SnmpPacket] with its embedded [SnmpTrap], as far as the handler reads it. *)
Record SnmpPacket := {
  p_Version : SnmpVersion;
  p_Community : string;
  Variables : list SnmpPDU;
  Enterprise : string;
  GenericTrap : Z;
  SpecificTrap : Z;
  p_AgentAddress : string
}.

(** [Asn1BER.String]. *)
Class TypeNames := { type_name : Z -> string }.

Definition snmpTrapOID : string := ".1.3.6.1.6.3.1.1.4.1.0".

Definition genericTrapOID (g : Z) : option string :=
  match g with
  | 0 => Some ".1.3.6.1.6.3.1.1.5.1"
  | 1 => Some ".1.3.6.1.6.3.1.1.5.2"
  | 2 => Some ".1.3.6.1.6.3.1.1.5.3"
  | 3 => Some ".1.3.6.1.6.3.1.1.5.4"
  | 4 => Some ".1.3.6.1.6.3.1.1.5.5"
  | 5 => Some ".1.3.6.1.6.3.1.1.5.6"
  | _ => None
  end.

(** The loop over the varbinds of a v2c or v3 trap. *)
Fixpoint find_trap_oid (vars : list SnmpPDU) : string :=
  match vars with
  | [] => ""
  | v :: vars' =>
      if String.eqb (Name v) snmpTrapOID then
        match as_string (Value v) with Some s => s | None => find_trap_oid vars' end
      else find_trap_oid vars'
  end.

Definition extractTrapOID (packet : SnmpPacket) : string :=
  if bool_decide (p_Version packet = Version1) then
    match genericTrapOID (GenericTrap packet) with
    | Some oid => oid
    | None => TrimSuffix (Enterprise packet) "." +:+ "." +:+ Itoa (SpecificTrap packet)
    end
  else find_trap_oid (Variables packet).

Definition normalizeValue (v : any) : any :=
  match v with
  | ABytes b => if utf8_Valid b then AStr b else AStr (hex_encode b)
  | _ => v
  end.

(** The struct [varbind], in field order. *)
Definition varbind (oid type : string) (value : json) : json :=
  JObj [("oid", JStr oid); ("type", JStr type); ("value", value)].

Section receiver.
Context `{TypeNames, DbEnv}.

Definition encode_varbind (v : SnmpPDU) : result json :=
  value <-? json_of_any (normalizeValue (Value v));;
  Ok (varbind (Name v) (type_name (Type_ v)) value).

Definition encodeVarbinds (vars : list SnmpPDU) : result string :=
  out <-? result_map encode_varbind vars;; Ok (print (JArr out)).

Definition trap_of_packet (packet : SnmpPacket) (source payload : string) : Trap :=
  {| TID := 0; SourceIP := source; OID := extractTrapOID packet; Payload := payload;
     TCommunity := p_Community packet;
     AgentAddress := if bool_decide (p_Version packet = Version1) then p_AgentAddress packet else "";
     ReceivedAt := "" |}.

(** The function [newTrapHandler] returns; [source] is [addr.IP.String()]. *)
Definition handle_trap (packet : SnmpPacket) (source : string) : IO unit :=
  match encodeVarbinds (Variables packet) with
  | Err _ => ret tt
  | Ok payload => let* _ := TrapStore.Insert (trap_of_packet packet source payload) in ret tt
  end.
End receiver.

(** * Facts *)

(** The values gosnmp delivers for all types but the opaque floats. *)
Definition scalar (v : any) : bool :=
  match v with ANil | ABool _ | AInt _ | AStr _ | ABytes _ => true | _ => false end.

(** What a scalar is stored as. *)
Definition value_json (v : any) : json :=
  match v with
  | ABool b => JBool b
  | AInt z => JNum (Itoa z)
  | AStr s => JStr s
  | ABytes b => JStr (if utf8_Valid b then b else hex_encode b)
  | _ => JNull
  end.

Lemma value_json_spec v : scalar v = true -> json_of_any (normalizeValue v) = Ok (value_json v).
Proof. destruct v; try done. cbn. by destruct (utf8_Valid b). Qed.

Lemma doc_value_json d v : doc d (value_json v) = true.
Proof. destruct v; try done. apply bool_decide_eq_true, num_lit_Itoa. Qed.

Section receiver_facts.
Context `{TypeNames}.

(** The varbind as it reads back. *)
Definition stored_varbind (v : SnmpPDU) : json :=
  varbind (Name v) (type_name (Type_ v)) (value_json (Value v)).

Lemma encodeVarbinds_scalar vars :
  forallb (fun v => scalar (Value v)) vars = true ->
  encodeVarbinds vars = Ok (print (JArr (map stored_varbind vars))).
Proof.
  intros Hs. unfold encodeVarbinds.
  assert (result_map encode_varbind vars = Ok (map stored_varbind vars)) as ->; [|done].
  induction vars as [|v vars IH]; [done|]. cbn in Hs. apply andb_prop in Hs as [Hv Hs].
  cbn. unfold encode_varbind at 1. rewrite value_json_spec by done. cbn. by rewrite IH.
Qed.

Lemma payload_reads_back vars :
  parse_all (print (JArr (map stored_varbind vars))) = Ok (norm (JArr (map stored_varbind vars))).
Proof.
  apply parse_all_print. cbn. apply forallb_forall. intros j (v & <- & _)%in_map_iff.
  cbn. by rewrite doc_value_json.
Qed.
End receiver_facts.

(** * Properties *)

(** A varbind that says which trap this is. *)
Definition announces (v : SnmpPDU) (oid : string) : Prop := Name v = snmpTrapOID /\ Value v = AStr oid.

Lemma find_trap_oid_first before v after oid :
  Forall (fun u => forall o, ~ announces u o) before -> announces v oid ->
  find_trap_oid (before ++ v :: after) = oid.
Proof.
  intros Hb [Hn Hv]. induction Hb as [|u before Hu _ IH]; cbn.
  - by rewrite Hn, String.eqb_refl, Hv.
  - destruct (String.eqb_spec (Name u) snmpTrapOID); [|exact IH].
    destruct (Value u) as [| | | |o| | |] eqn:Hval; try exact IH. by destruct (Hu o).
Qed.

Lemma find_trap_oid_none vars :
  Forall (fun u => forall o, ~ announces u o) vars -> find_trap_oid vars = "".
Proof.
  induction 1 as [|u vars Hu _ IH]; [done|]. cbn.
  destruct (String.eqb_spec (Name u) snmpTrapOID); [|exact IH].
  destruct (Value u) as [| | | |o| | |] eqn:Hval; try exact IH. by destruct (Hu o).
Qed.

(** C11.  The OID that identifies a trap.  For a v2c or v3 packet it is the one the first
    announcing varbind announces, a snmpTrapOID.0 with an OID for its value, whatever vendor's it
    is, and the empty string if there is none.  An SNMPv1 generic trap is identified like the
    v2c notification of the same event: for each of the six RFC 1157 types by the SNMPv2-MIB
    OID, which [TrapName] names; a v1 enterprise trap is its enterprise OID, without a trailing
    dot, and its number. *)
Theorem trap_identity (packet : SnmpPacket) :
  (p_Version packet <> Version1 ->
   (forall before v after oid, Variables packet = before ++ v :: after ->
      Forall (fun u => forall o, ~ announces u o) before -> announces v oid ->
      extractTrapOID packet = oid) /\
   (Forall (fun u => forall o, ~ announces u o) (Variables packet) -> extractTrapOID packet = "")) /\
  (p_Version packet = Version1 ->
   (0 <= GenericTrap packet <= 5 -> exists oid, genericTrapOID (GenericTrap packet) = Some oid /\
      extractTrapOID packet = oid /\ oid = ".1.3.6.1.6.3.1.1.5." +:+ Itoa (GenericTrap packet + 1) /\
      nth_error ["ColdStart"; "WarmStart"; "LinkDown"; "LinkUp"; "AuthenticationFailure";
        "EgpNeighborLoss"]%string (Z.to_nat (GenericTrap packet)) = Some (TrapName oid)) /\
   (forall e, ~ 0 <= GenericTrap packet <= 5 -> Enterprise packet = e \/ Enterprise packet = e +:+ "." ->
      (forall t, e <> t +:+ ".") -> extractTrapOID packet = e +:+ "." +:+ Itoa (SpecificTrap packet))).
Proof.
  unfold extractTrapOID. split; intros Hv.
  - rewrite bool_decide_false by done. split; [|apply find_trap_oid_none].
    intros before v after oid ->. apply find_trap_oid_first.
  - rewrite bool_decide_true by done. split.
    + intros Hg. assert (Hc : GenericTrap packet = 0 \/ GenericTrap packet = 1 \/ GenericTrap packet = 2 \/
        GenericTrap packet = 3 \/ GenericTrap packet = 4 \/ GenericTrap packet = 5) by lia.
      destruct_or! Hc; rewrite Hc; eexists; (split; [reflexivity|]); split_and!; reflexivity.
    + intros e Hg He Hdot. assert (genericTrapOID (GenericTrap packet) = None) as ->.
      { unfold genericTrapOID. repeat (case_match; try done); lia. }
      destruct He as [->| ->]; [by rewrite TrimSuffix_no|by rewrite TrimSuffix_app].
Qed.

Definition sample_types : TypeNames := {| type_name z := "type " +:+ Itoa z |}.

Definition link_up : SnmpPacket :=
  {| p_Version := Version1; p_Community := "R1"; Variables := []; Enterprise := ".1.3.6.1.4.1.9";
     GenericTrap := 3; SpecificTrap := 0; p_AgentAddress := "172.16.154.69" |}.

Lemma trap_identity_witness : extractTrapOID link_up = ".1.3.6.1.6.3.1.1.5.4".
Proof.
  destruct (proj1 (proj2 (trap_identity link_up) eq_refl)) as (oid & Hoid & He & _).
  - split; discriminate.
  - rewrite He. injection Hoid as <-. reflexivity.
Defined.

(** The trap a packet becomes. *)
Definition trap_for (packet : SnmpPacket) (source payload : string) (t : Trap) : Prop :=
  SourceIP t = source /\ OID t = extractTrapOID packet /\ Payload t = payload /\
  TCommunity t = p_Community packet /\
  AgentAddress t = match p_Version packet with Version1 => p_AgentAddress packet | _ => "" end.

Lemma Insert_refused `{DbEnv} t w : is_Some (db_fault (w_tick w)) \/ max_int64 <= trap_seq (w_traps w) ->
  w_traps (TrapStore.Insert t w).2 = w_traps w.
Proof.
  intros Hw. unfold TrapStore.Insert. rewrite bind_eq, stmt_run.
  destruct (db_fault (w_tick w)) as [e|]; [done|]. destruct Hw as [[? [=]]|Hw]. unfold TrapStore.insert_trap.
  change (w_traps (bump w)) with (w_traps w). by rewrite (proj2 (Z.ltb_lt _ _)) by lia.
Qed.

(** C12.  What becomes of a packet.  If its varbinds encode, the database takes the insert and
    there is an id left, the packet is the newest trap: [List] returns it first, followed by the
    traps that were there, with its source, its community, its agent address exactly for v1,
    the OID that identifies it, and the encoded varbinds.  In every other case the traps are as
    they were.  Scalar varbinds always encode, to JSON that reads back as the varbinds, octet
    strings as text when they are valid UTF-8 and as hex otherwise. *)
Theorem trap_stored_newest_first `{TypeNames, DbEnv} (packet : SnmpPacket) (source : string)
    (w : world) :
  let w' := (handle_trap packet source w).2 in
  (forallb (fun v => scalar (Value v)) (Variables packet) = true ->
   exists payload, encodeVarbinds (Variables packet) = Ok payload /\
     parse_all payload = Ok (norm (JArr (map stored_varbind (Variables packet))))) /\
  match encodeVarbinds (Variables packet), db_fault (w_tick w) with
  | Ok payload, None =>
      if trap_seq (w_traps w) <? max_int64 then
        exists t, trap_for packet source payload t /\ history w' = t :: history w /\
          forall n, 0 < n -> db_fault (w_tick w') = None ->
            (TrapStore.List n w').1 = Ok (t :: take (Z.to_nat n - 1) (history w))
      else w_traps w' = w_traps w
  | _, _ => w_traps w' = w_traps w
  end.
Proof.
  cbv zeta. split.
  { intros Hs. exists (print (JArr (map stored_varbind (Variables packet)))).
    split; [by apply encodeVarbinds_scalar|apply payload_reads_back]. }
  unfold handle_trap. destruct (encodeVarbinds (Variables packet)) as [payload|]; [|done].
  rewrite bind_eq. cbn [run ret fst snd].
  destruct (db_fault (w_tick w)) as [e|] eqn:Hf; [by apply Insert_refused; left; rewrite Hf|].
  destruct (Z.ltb_spec (trap_seq (w_traps w)) max_int64) as [Hseq|Hseq]; [|by apply Insert_refused; right].
  destruct (Insert_run (trap_of_packet packet source payload) w Hf Hseq) as (w1 & -> & _ & Hh). cbn [snd].
  eexists. split; [|split; [exact Hh|]].
  - split_and!; try done. cbn. by destruct (p_Version packet).
  - intros n Hn Hf1. rewrite traps_List_run by done. rewrite (proj2 (Z.leb_gt _ _)) by lia. cbn [fst].
    rewrite Hh. by replace (Z.to_nat n) with (S (Z.to_nat n - 1)) at 1 by lia.
Qed.

Lemma trap_stored_newest_first_witness :
  exists t, OID t = ".1.3.6.1.6.3.1.1.5.4" /\ AgentAddress t = "172.16.154.69" /\
    (TrapStore.List (H := quiet_db) 5
      (handle_trap (H := sample_types) (H0 := quiet_db) link_up "10.0.0.1" empty_world).2).1 = Ok [t].
Proof.
  destruct (proj2 (trap_stored_newest_first (H := sample_types) (H0 := quiet_db) link_up "10.0.0.1" empty_world))
    as (t & (_ & Hoid & _ & _ & Haa) & _ & Hl).
  exists t. split; [rewrite Hoid; reflexivity|]. split; [rewrite Haa; reflexivity|]. exact (Hl 5 eq_refl eq_refl).
Defined.
