(* ===== verification/ConfigApi.v ===== *)
(** [config-api]: the HTTP handlers of [config-api/handlers].  A handler takes what the
    request carries (its path value, query parameter or body, as text) and answers with a
    status and a body.  Error bodies keep the Go error; the others are JSON documents. *)

From S2P Require Import Prelude Float64 Encoding Json World Store StoreFacts Gcm Crypto Netutil.
From S2P Require Import Snmp.
Open Scope Z_scope.

(** * json.go *)

(** [BError e] is the object whose only member [error] is the text of [e]. *)
Inductive body :=
| BJson (j : json)
| BError (e : error)
| BEmpty.

Record response := { status : Z; resp_body : body }.

Definition writeJSON (code : Z) (v : json) : response := {| status := code; resp_body := BJson v |}.
Definition writeError (code : Z) (e : error) : response := {| status := code; resp_body := BError e |}.

(** * devices.go *)

Definition defaultProbeTimeout : Z := 3 * second.

Record DeviceHandler := { h_Key : Key; h_ProbeTimeout : Z }.

Definition probeTimeout (h : DeviceHandler) : Z :=
  if 0 <? h_ProbeTimeout h then h_ProbeTimeout h else defaultProbeTimeout.

Definition jint (z : Z) : json := JNum (Itoa z).

(** A string member with [omitempty]. *)
Definition opt_member (key s : string) : list (string * json) :=
  if String.eqb s "" then [] else [(key, JStr s)].

Definition is_set (s : string) : json := JBool (negb (String.eqb s "")).

(** [toDeviceResponse] and the encoding of [deviceResponse]. *)
Definition toDeviceResponse (d : Device) : json :=
  JObj ([("id", jint (ID d)); ("ip_address", JStr (IPAddress d)); ("hostname", JStr (Hostname d));
         ("snmp_version", JStr (SNMPVersion d)); ("has_community", is_set (Community d))]
        ++ opt_member "v3_user" (V3User d)
        ++ [("has_v3_auth_key", is_set (V3AuthKey d)); ("has_v3_priv_key", is_set (V3PrivKey d))]
        ++ opt_member "v3_auth_protocol" (V3AuthProtocol d)
        ++ opt_member "v3_priv_protocol" (V3PrivProtocol d)
        ++ opt_member "group_name" (GroupName d)
        ++ [("status", JStr (Status d)); ("is_public_ip", JBool (IsPublicIP d))]
        ++ opt_member "discovered_via" (DiscoveredVia d)
        ++ [("created_at", JStr (CreatedAt d)); ("updated_at", JStr (UpdatedAt d))]).

Record deviceRequest := {
  q_ip : string; q_hostname : string; q_version : string; q_community : string;
  q_v3_user : string; q_v3_auth_key : string; q_v3_priv_key : string;
  q_v3_auth_protocol : string; q_v3_priv_protocol : string; q_group : string; q_status : string
}.

Definition device_fields : list string :=
  ["ip_address"; "hostname"; "snmp_version"; "community"; "v3_user"; "v3_auth_key"; "v3_priv_key";
   "v3_auth_protocol"; "v3_priv_protocol"; "group_name"; "status"].

Definition decode_deviceRequest (j : json) : result deviceRequest :=
  l <-? decode_members j;;
  let field f := decode_string "" (field_values device_fields l f) in
  ip <-? field "ip_address";; hostname <-? field "hostname";; version <-? field "snmp_version";;
  community <-? field "community";; user <-? field "v3_user";; auth <-? field "v3_auth_key";;
  priv <-? field "v3_priv_key";; auth_proto <-? field "v3_auth_protocol";;
  priv_proto <-? field "v3_priv_protocol";; group <-? field "group_name";; st <-? field "status";;
  Ok (Build_deviceRequest ip hostname version community user auth priv auth_proto priv_proto group st).

Definition request_creds (q : deviceRequest) : Credentials :=
  {| cVersion := q_version q; cCommunity := q_community q; cV3User := q_v3_user q;
     cV3AuthKey := q_v3_auth_key q; cV3PrivKey := q_v3_priv_key q;
     cV3AuthProtocol := q_v3_auth_protocol q; cV3PrivProtocol := q_v3_priv_protocol q |}.

Definition invalid_id : response := writeError 400 (ENew [FStr "invalid device id"]).

(** The columns a PATCH may set, by their JSON key, which is also the column's name: those
    copied as they are, and those encrypted first. *)
Definition plain_keys : list string :=
  ["hostname"; "snmp_version"; "v3_user"; "v3_auth_protocol"; "v3_priv_protocol"; "group_name"; "status"].
Definition secret_keys : list string := ["community"; "v3_auth_key"; "v3_priv_key"].

Definition snmpFieldsChanged (req : list (string * any)) : bool :=
  existsb (fun key => match map_get req key with Some _ => true | None => false end)
    ["snmp_version"; "community"; "v3_user"; "v3_auth_key"; "v3_priv_key"; "v3_auth_protocol";
     "v3_priv_protocol"].

Definition with_device_status (d : Device) (s : string) : Device := DeviceStore.with_status d s.

Module DeviceApi.
Section device_api.
Context `{DbEnv, SnmpEnv, RandEnv} (h : DeviceHandler).

Definition probeStatus (ip : string) (creds : Credentials) : IO string :=
  if String.eqb (cVersion creds) "" then ret "pending"
  else
    let* r := Verify ip creds (probeTimeout h) in
    ret (if is_ok r then "active" else "failed").

Definition List : IO response :=
  try* devices := DeviceStore.List catch e => ret (writeError 500 e) in
  ret (writeJSON 200 (JArr (map toDeviceResponse devices))).

Definition Get (path_id : string) : IO response :=
  match ParseInt path_id with
  | Err _ => ret invalid_id
  | Ok id =>
      try* d := DeviceStore.Get id catch e =>
        ret (if errors_is ErrNotFound e then writeError 404 e else writeError 500 e) in
      ret (writeJSON 200 (toDeviceResponse d))
  end.

Definition Create (request_body : string) : IO response :=
  match (j <-? parse_first request_body;; decode_deviceRequest j) with
  | Err e => ret (writeError 400 e)
  | Ok req =>
      if String.eqb (q_ip req) "" then
        ret (writeError 400 (ENew [FStr "ip_address is required"]))
      else
        try* community := Encrypt (h_Key h) (q_community req) catch e => ret (writeError 500 e) in
        try* authKey := Encrypt (h_Key h) (q_v3_auth_key req) catch e => ret (writeError 500 e) in
        try* privKey := Encrypt (h_Key h) (q_v3_priv_key req) catch e => ret (writeError 500 e) in
        let* st := probeStatus (q_ip req) (request_creds req) in
        let d := Build_Device 0 (q_ip req) (q_hostname req) (q_version req) community
          (q_v3_user req) authKey privKey (q_v3_auth_protocol req) (q_v3_priv_protocol req)
          (q_group req) st (IsPublic (q_ip req)) "manual" "" "" in
        try* id := DeviceStore.Create d catch e => ret (writeError 500 e) in
        try* stored := DeviceStore.Get id catch e => ret (writeError 500 e) in
        ret (writeJSON 201 (toDeviceResponse stored))
  end.

(** The first loop of [Update]: what the request has for the keys of [order]. *)
Definition plain_updates (order : list string) (req : list (string * any)) : list (string * any) :=
  omap (fun key => match map_get req key with Some v => Some (key, v) | None => None end) order.

(** The second loop: the value, or the empty string if it is not one, encrypted. *)
Fixpoint secret_updates (order : list string) (req : list (string * any))
    : IO (result (list (string * any))) :=
  match order with
  | [] => ret (Ok [])
  | key :: order' =>
      match map_get req key with
      | None => secret_updates order' req
      | Some v =>
          let plaintext := default "" (as_string v) in
          try* encrypted := Encrypt (h_Key h) plaintext catch e => ret (Err e) in
          try* rest := secret_updates order' req catch e => ret (Err e) in
          ret (Ok ((key, AStr encrypted) :: rest))
      end
  end.

(** Probing with what is now stored. *)
Definition reprobe (d : Device) : IO (result string) :=
  match Decrypt (h_Key h) (Community d) with
  | Err e => ret (Err e)
  | Ok community =>
      match Decrypt (h_Key h) (V3AuthKey d) with
      | Err e => ret (Err e)
      | Ok authKey =>
          match Decrypt (h_Key h) (V3PrivKey d) with
          | Err e => ret (Err e)
          | Ok privKey =>
              let* st := probeStatus (IPAddress d)
                (Build_Credentials (SNMPVersion d) community (V3User d) authKey privKey
                   (V3AuthProtocol d) (V3PrivProtocol d)) in
              ret (Ok st)
          end
      end
  end.

(** [plain] and [secret] are the orders in which Go happens to range over the two tables. *)
Definition Update (plain secret : list string) (path_id request_body : string) : IO response :=
  match ParseInt path_id with
  | Err _ => ret invalid_id
  | Ok id =>
      match (j <-? parse_first request_body;; decode_map j) with
      | Err e => ret (writeError 400 e)
      | Ok req =>
          try* secrets := secret_updates secret req catch e => ret (writeError 500 e) in
          let updates := plain_updates plain req ++ secrets in
          try* u := DeviceStore.Update id updates catch e =>
            ret (if errors_is ErrNotFound e then writeError 404 e else writeError 500 e) in
          try* d := DeviceStore.Get id catch e => ret (writeError 500 e) in
          if snmpFieldsChanged req
             && (match map_get req "status" with None => true | Some _ => false end) then
            try* st := reprobe d catch e => ret (writeError 500 e) in
            try* u := DeviceStore.Update id [("status", AStr st)] catch e =>
              ret (writeError 500 e) in
            ret (writeJSON 200 (toDeviceResponse (with_device_status d st)))
          else ret (writeJSON 200 (toDeviceResponse d))
      end
  end.

Definition Delete (path_id : string) : IO response :=
  match ParseInt path_id with
  | Err _ => ret invalid_id
  | Ok id =>
      try* u := DeviceStore.Delete id catch e =>
        ret (if errors_is ErrNotFound e then writeError 404 e else writeError 500 e) in
      ret {| status := 204; resp_body := BEmpty |}
  end.
End device_api.
End DeviceApi.
