(* ===== verification/ConfigApiFacts.v ===== *)
(** The device handlers of config-api: no response depends on a stored credential, what a
    creation stores, what a PATCH can and cannot change, and two ways a PATCH goes wrong. *)

From S2P Require Import Prelude Float64 Encoding Json World Store StoreFacts StoreSpec Gcm Crypto.
From S2P Require Import Netutil Snmp ConfigApi.
Open Scope Z_scope.

(** * Rows that differ in their credentials only *)

Definition secret_column (c : column) : bool :=
  match c with c_community | c_v3_auth_key | c_v3_priv_key => true | _ => false end.

(** Both are text, and either both are set or neither is. *)
Definition same_set (v1 v2 : sqlval) : Prop :=
  exists s1 s2, v1 = VText s1 /\ v2 = VText s2 /\ (String.eqb s1 "" = String.eqb s2 "").

Record same_public (r1 r2 : device_row) : Prop := {
  sp_id : r_id r1 = r_id r2;
  sp_ip : r_ip_address r1 = r_ip_address r2;
  sp_created : r_created_at r1 = r_created_at r2;
  sp_updated : r_updated_at r1 = r_updated_at r2;
  sp_columns : forall c, if secret_column c then same_set (get_col c r1) (get_col c r2)
                         else get_col c r1 = get_col c r2
}.

Definition same_response (x y : result Device) : Prop :=
  match x, y with
  | Ok d1, Ok d2 => toDeviceResponse d1 = toDeviceResponse d2
  | Err e1, Err e2 => e1 = e2
  | _, _ => False
  end.

Lemma same_set_scan i c r1 r2 : same_set (get_col c r1) (get_col c r2) ->
  exists s1 s2, scan_text i c r1 = Ok s1 /\ scan_text i c r2 = Ok s2 /\
    String.eqb s1 "" = String.eqb s2 "".
Proof.
  intros (s1 & s2 & H1 & H2 & He). exists s1, s2. unfold scan_text. by rewrite H1, H2, He.
Qed.

(** Reading both rows gives the same response, or the same error. *)
Lemma same_public_scan r1 r2 : same_public r1 r2 -> same_response (scanDevice r1) (scanDevice r2).
Proof.
  intros [Hid Hip Hcr Hup Hc]. unfold scanDevice.
  assert (Ht : forall i c, secret_column c = false -> scan_text i c r1 = scan_text i c r2).
  { intros i c Hs. specialize (Hc c). rewrite Hs in Hc. unfold scan_text. by rewrite Hc. }
  assert (Hb : scan_bool 12 c_is_public_ip r1 = scan_bool 12 c_is_public_ip r2).
  { unfold scan_bool. by rewrite (Hc c_is_public_ip). }
  rewrite (Ht 2 c_hostname), (Ht 3 c_snmp_version), (Ht 5 c_v3_user), (Ht 8 c_v3_auth_protocol),
    (Ht 9 c_v3_priv_protocol), (Ht 10 c_group_name), (Ht 11 c_status), (Ht 13 c_discovered_via), Hb
    by done.
  destruct (same_set_scan 4 c_community r1 r2 (Hc c_community)) as (a1 & a2 & -> & -> & Ha).
  destruct (same_set_scan 6 c_v3_auth_key r1 r2 (Hc c_v3_auth_key)) as (k1 & k2 & -> & -> & Hk).
  destruct (same_set_scan 7 c_v3_priv_key r1 r2 (Hc c_v3_priv_key)) as (p1 & p2 & -> & -> & Hp).
  unfold same_response.
  repeat (cbn [result_bind]; match goal with |- context [result_bind ?x _] =>
            destruct x; [|done] end).
  unfold toDeviceResponse, is_set. cbn. by rewrite Hid, Hip, Hcr, Hup, Ha, Hk, Hp.
Qed.

Definition same_public_world (w1 w2 : world) : Prop :=
  w_tick w1 = w_tick w2 /\ Forall2 same_public (rows (w_devices w1)) (rows (w_devices w2)).

Lemma same_public_all l1 l2 : Forall2 same_public l1 l2 ->
  match DeviceStore.scan_all l1, DeviceStore.scan_all l2 with
  | Ok d1, Ok d2 => map toDeviceResponse d1 = map toDeviceResponse d2
  | Err e1, Err e2 => e1 = e2
  | _, _ => False
  end.
Proof.
  unfold DeviceStore.scan_all, wrap.
  induction 1 as [|r1 r2 l1 l2 Hr _ IH]; cbn; [done|].
  apply same_public_scan in Hr. unfold same_response in Hr.
  destruct (scanDevice r1) as [d1|], (scanDevice r2) as [d2|]; try done; cbn; [|by subst].
  destruct (result_map scanDevice l1), (result_map scanDevice l2); cbn in *; try done.
  by rewrite Hr, IH.
Qed.

Lemma find_same_public (p : device_row -> bool) l1 l2 :
  (forall r1 r2, same_public r1 r2 -> p r1 = p r2) -> Forall2 same_public l1 l2 ->
  match List.find p l1, List.find p l2 with
  | Some r1, Some r2 => same_public r1 r2
  | None, None => True
  | _, _ => False
  end.
Proof.
  intros Hp. induction 1 as [|r1 r2 l1 l2 Hr _ IH]; [done|]. cbn.
  rewrite (Hp _ _ Hr). by destruct (p r2).
Qed.

Section api.
Context `{DbEnv, SnmpEnv, RandEnv} (h : DeviceHandler).

(** C13.  No credential reaches the browser: if two databases differ only in the values of
    community, v3_auth_key and v3_priv_key, and the same of these are set, then
    [GET /devices] and [GET /devices/{id}] answer the same, errors included. *)
Theorem device_reads_hide_credentials (w1 w2 : world) (path_id : string) :
  same_public_world w1 w2 ->
  (DeviceApi.List w1).1 = (DeviceApi.List w2).1 /\
  (DeviceApi.Get path_id w1).1 = (DeviceApi.Get path_id w2).1.
Proof.
  intros [Ht Hrows]. split.
  - unfold DeviceApi.List, DeviceStore.List, DeviceStore.select_rows.
    rewrite !bind_eq, !stmt_run, Ht. destruct (db_fault (w_tick w2)); [done|]. cbn.
    rewrite !filter_all. pose proof (same_public_all _ _ Hrows) as Hs.
    destruct (DeviceStore.scan_all (rows (w_devices w1))), (DeviceStore.scan_all (rows (w_devices w2)));
      try done; cbn; by rewrite Hs.
  - unfold DeviceApi.Get. destruct (ParseInt path_id) as [id|]; [|done].
    unfold DeviceStore.Get, DeviceStore.query_row.
    rewrite !bind_eq, !stmt_run, Ht. destruct (db_fault (w_tick w2)) as [e|]; [done|]. cbn.
    pose proof (find_same_public (fun r => r_id r =? id) _ _ (fun r1 r2 Hr => f_equal (fun i => i =? id) (sp_id _ _ Hr)) Hrows) as Hf.
    cbn in Hf. destruct (List.find _ (rows (w_devices w1))) as [r1|],
      (List.find _ (rows (w_devices w2))) as [r2|]; try done.
    apply same_public_scan in Hf. unfold same_response in Hf.
    destruct (scanDevice r1), (scanDevice r2); try done; cbn; by rewrite Hf.
Qed.
End api.

Lemma device_reads_hide_credentials_witness :
  let w s := (DeviceStore.Create (H := quiet_db)
    (Build_Device 0 "10.0.0.1" "R1" "v2c" s "" "" "" "" "" "" "" false "" "" "") empty_world).2 in
  (DeviceApi.List (H := quiet_db) (w "secret")).1 = (DeviceApi.List (H := quiet_db) (w "other")).1.
Proof.
  cbv zeta. refine (proj1 (device_reads_hide_credentials (H := quiet_db) _ _ "1" _)).
  split; [reflexivity|]. constructor; [|constructor]. split; try reflexivity.
  intros []; cbn; try reflexivity; eexists _, _; (split_and!; [reflexivity..|]); reflexivity.
Defined.

(** * Creating a device *)

Section create.
Context `{DbEnv, SnmpEnv, RandEnv, !FullReads} (h : DeviceHandler).

Lemma probeStatus_steps R `{!PreOrder R, !Ticks R, !AllowsEvents (fun _ => True) R} ip creds :
  io_steps R (DeviceApi.probeStatus h ip creds).
Proof.
  unfold DeviceApi.probeStatus. destruct (String.eqb _ _); [by apply steps_ret|].
  apply steps_bind; [by apply (steps_Verify (fun _ => True))|intros; by apply steps_ret].
Qed.

(** The status a device deserves in [w]: pending if it has no SNMP version, else active if it
    answers with the credentials and failed if it does not. *)
Definition probe_outcome (ip : string) (creds : Credentials) (w : world) : string :=
  if bool_decide (cVersion creds = "") then "pending"
  else match (Verify ip creds (probeTimeout h) w).1 with Ok _ => "active" | Err _ => "failed" end.

Lemma probeStatus_result ip creds w :
  (DeviceApi.probeStatus h ip creds w).1 = probe_outcome ip creds w.
Proof.
  unfold DeviceApi.probeStatus, probe_outcome.
  destruct (String.eqb_spec (cVersion creds) "") as [->|Hne]; [done|].
  rewrite bool_decide_false, bind_eq by done. cbn. by destruct (Verify _ _ _ _).1.
Qed.

Lemma probe_outcome_cases ip creds w : In (probe_outcome ip creds w) ["pending"; "active"; "failed"].
Proof. unfold probe_outcome. cbn. repeat case_match; auto. Qed.

(** What a creation does before it probes: one encryption after the other, until one fails. *)
Definition sealing (q : deviceRequest) : IO (result (string * string * string)) :=
  try* c := Encrypt (h_Key h) (q_community q) catch e => ret (Err e) in
  try* a := Encrypt (h_Key h) (q_v3_auth_key q) catch e => ret (Err e) in
  try* p := Encrypt (h_Key h) (q_v3_priv_key q) catch e => ret (Err e) in
  ret (Ok (c, a, p)).

Lemma sealing_frames R `{!PreOrder R, !Ticks R} q : io_steps R (sealing q).
Proof. unfold sealing. io_walk; by apply steps_Encrypt. Qed.

Lemma sealing_Ok q c a p w w1 : key_ok (h_Key h) -> sealing q w = (Ok (c, a, p), w1) ->
  Decrypt (h_Key h) c = Ok (q_community q) /\ Decrypt (h_Key h) a = Ok (q_v3_auth_key q) /\
  Decrypt (h_Key h) p = Ok (q_v3_priv_key q).
Proof.
  intros Hk Hrun. unfold sealing in Hrun.
  apply bind_inv in Hrun as ([c'|e] & w2 & Hc & Hrun); [|done].
  apply bind_inv in Hrun as ([a'|e] & w3 & Ha & Hrun); [|done].
  apply bind_inv in Hrun as ([p'|e] & w4 & Hp & Hrun); [|done].
  injection Hrun as <- <- <- <-. split_and!; by eapply Decrypt_Encrypt.
Qed.

(** The status of a device created in [w]: the probe follows the encryptions. *)
Definition first_status (q : deviceRequest) (w : world) : string :=
  probe_outcome (q_ip q) (request_creds q) (sealing q w).2.

(** A body that is no device request, or one without an address. *)
Definition bad_request (request_body : string) : Prop :=
  match (j <-? parse_first request_body;; decode_deviceRequest j) with
  | Ok q => q_ip q = ""
  | Err _ => True
  end.

(** [Get] of the row just inserted, when it answers. *)
Lemma Get_grown d w w1 :
  db_ok w -> DeviceStore.has_ip (IPAddress d) (w_devices w) = false -> w1 = grown d w ->
  match DeviceStore.Get (seq (w_devices w) + 1) w1 with
  | (Ok got, w2) =>
      scanDevice (DeviceStore.row_of (stored d) (seq (w_devices w) + 1) (clock_text (S (w_tick w)))) = Ok got
      /\ w2 = bump w1
  | (Err _, w2) => w2 = bump w1 /\ is_Some (db_fault (w_tick w1))
  end.
Proof.
  intros Hok Hip ->. unfold DeviceStore.Get, DeviceStore.query_row. rewrite bind_eq, stmt_run.
  destruct (db_fault _); [split; [done|by eexists]|]. cbn [fst snd].
  destruct (grown_find d w Hok Hip) as [Hf _]. cbn zeta in Hf.
  change (rows (w_devices (bump (grown d w)))) with (rows (w_devices (grown d w))).
  rewrite Hf. rewrite scanDevice_row_of. done.
Qed.

(** What the row of a created device reads as. *)
Definition created_from (q : deviceRequest) (st : string) (id : Z) (d : Device) : Prop :=
  ID d = id /\ IPAddress d = q_ip q /\ Hostname d = q_hostname q /\ SNMPVersion d = q_version q /\
  V3User d = q_v3_user q /\ V3AuthProtocol d = q_v3_auth_protocol q /\
  V3PrivProtocol d = q_v3_priv_protocol q /\ GroupName d = q_group q /\
  Decrypt (h_Key h) (Community d) = Ok (q_community q) /\
  Decrypt (h_Key h) (V3AuthKey d) = Ok (q_v3_auth_key q) /\
  Decrypt (h_Key h) (V3PrivKey d) = Ok (q_v3_priv_key q) /\
  IsPublicIP d = IsPublic (q_ip q) /\ DiscoveredVia d = "manual" /\ Status d = st.

(** The answer of a creation that has stored [d] and stopped in [w']: the device, or 500 when
    the statement that reads it back, the last of the request, failed. *)
Definition created_answer (d : Device) (resp : response) (w' : world) : Prop :=
  resp = writeJSON 201 (toDeviceResponse d) \/
  (status resp = 500 /\ exists t, w_tick w' = S t /\ is_Some (db_fault t)).

(** The device a creation builds. *)
Definition new_row (q : deviceRequest) (c a p st : string) : Device :=
  Build_Device 0 (q_ip q) (q_hostname q) (q_version q) c (q_v3_user q) a p
    (q_v3_auth_protocol q) (q_v3_priv_protocol q) (q_group q) st (IsPublic (q_ip q)) "manual" "" "".

(** The handler as three parts: the encryptions, the probe, the two statements. *)
Lemma Create_eq request_body q w :
  (j <-? parse_first request_body;; decode_deviceRequest j) = Ok q -> q_ip q <> "" ->
  DeviceApi.Create h request_body w =
    match sealing q w with
    | (Err e, w1) => (writeError 500 e, w1)
    | (Ok (c, a, p), w1) =>
        let st := probe_outcome (q_ip q) (request_creds q) w1 in
        let w2 := (DeviceApi.probeStatus h (q_ip q) (request_creds q) w1).2 in
        match DeviceStore.Create (new_row q c a p st) w2 with
        | (Err e, w3) => (writeError 500 e, w3)
        | (Ok id, w3) =>
            match DeviceStore.Get id w3 with
            | (Err e, w4) => (writeError 500 e, w4)
            | (Ok d, w4) => (writeJSON 201 (toDeviceResponse d), w4)
            end
        end
    end.
Proof.
  intros Hq Hip. unfold DeviceApi.Create, sealing, new_row.
  rewrite Hq, (proj2 (String.eqb_neq _ _) Hip), !bind_eq.
  destruct (Encrypt _ (q_community q) w) as [[c|e] w1]; [|done]. cbn [fst snd]. rewrite !bind_eq.
  destruct (Encrypt _ (q_v3_auth_key q) w1) as [[a|e] w2]; [|done]. cbn [fst snd]. rewrite !bind_eq.
  destruct (Encrypt _ (q_v3_priv_key q) w2) as [[p|e] w3]; [|done]. cbn [fst snd].
  cbn [ret run]. rewrite !bind_eq, probeStatus_result. cbv zeta.
  destruct (DeviceStore.Create _ (DeviceApi.probeStatus _ _ _ w3).2) as [[id|e] w5]; [|done].
  cbn [fst snd]. rewrite bind_eq. by destruct (DeviceStore.Get id w5) as [[d|e] w6].
Qed.

(** A creation, run: nothing before the insert writes, and the row is the request's. *)
Lemma create_run (request_body : string) (w w' : world) (resp : response) :
  key_ok (h_Key h) -> db_ok w -> DeviceApi.Create h request_body w = (resp, w') ->
  (status resp = 400 <-> bad_request request_body) /\
  ((w_devices w' = w_devices w /\ (status resp = 400 \/ status resp = 500)) \/
   exists q r d,
    (j <-? parse_first request_body;; decode_deviceRequest j) = Ok q /\
    r_id r = seq (w_devices w) + 1 /\
    w_devices w' = {| rows := rows (w_devices w) ++ [r]; seq := r_id r |} /\
    r_status r = VText (Status d) /\
    scanDevice r = Ok d /\ created_from q (first_status q w) (r_id r) d /\ created_answer d resp w').
Proof.
  intros Hk Hok Hrun. unfold bad_request.
  destruct (j <-? parse_first request_body;; decode_deviceRequest j) as [q|e] eqn:Hq;
    [|unfold DeviceApi.Create in Hrun; rewrite Hq in Hrun; injection Hrun as <- <-; cbn; tauto].
  destruct (String.eqb_spec (q_ip q) "") as [Hip|Hip].
  { unfold DeviceApi.Create in Hrun. rewrite Hq, Hip in Hrun. injection Hrun as <- <-. cbn. tauto. }
  rewrite (Create_eq _ q) in Hrun by done. unfold first_status.
  destruct (sealing q w) as [[[[c a] p]|e] w1] eqn:Hs;
    pose proof (frames_run w_devices _ w _ w1 (sealing_frames _ _) Hs) as Hw1; cbn [fst snd].
  2:{ injection Hrun as <- <-. split; [by split|]. left. by auto. }
  destruct (sealing_Ok _ _ _ _ _ _ Hk Hs) as (Hc & Ha & Hp). cbv zeta in Hrun.
  set (st := probe_outcome _ _ _) in *. set (d := new_row _ _ _ _ _) in Hrun.
  set (w2 := (DeviceApi.probeStatus _ _ _ _).2) in Hrun.
  assert (Hw2 : w_devices w2 = w_devices w).
  { rewrite <- Hw1. apply (steps_run (frames w_devices)), probeStatus_steps; apply _. }
  destruct (Create_cases d w2) as [[e He]|(He & _ & _ & Hnew & _)]; rewrite He in Hrun.
  { injection Hrun as <- <-. split; [by split|]. left. by auto. }
  pose proof (Get_grown d w2 _ (eq_ind_r table_ok Hok Hw2) Hnew eq_refl) as Hg.
  assert (Hst : stored d = d).
  { unfold stored. destruct (String.eqb_spec (Status d) "") as [Hs0|]; [|done]. exfalso.
    pose proof (probe_outcome_cases (q_ip q) (request_creds q) w1) as Hin. cbn in Hin, Hs0.
    fold st in Hin. rewrite Hs0 in Hin. by destruct_or! Hin. }
  set (r := DeviceStore.row_of (stored d) (seq (w_devices w2) + 1) (clock_text (S (w_tick w2)))) in *.
  assert (Hscan : exists got, scanDevice r = Ok got /\ created_from q st (r_id r) got /\
    r_status r = VText (Status got)).
  { unfold r. rewrite scanDevice_row_of, Hst. eexists. split; [done|]. by split_and!. }
  destruct Hscan as (got & Hscan & Hfrom & Hrst).
  assert (Hans : w_devices w' = w_devices (grown d w2) /\ status resp <> 400 /\ created_answer got resp w').
  { destruct (DeviceStore.Get _ (grown d w2)) as [[d'|e] w4]; injection Hrun as <- <-.
    - destruct Hg as [Hd ->]. split_and!; [done..|left]. congruence.
    - destruct Hg as [-> Hf]. split_and!; [done..|right]. split; [done|]. by eexists. }
  destruct Hans as (Hdev & Hne & Hans). split; [by split|right].
  exists q, r, got. rewrite <- Hw2, Hs. by split_and!.
Qed.

(** C14.  [POST /devices] stores what was asked or nothing.  A body that is no device request,
    or that has no address, is answered 400, and nothing else is.  Otherwise either the
    devices are as before and the answer is 500, or exactly one row has been added, under an
    id not in use, and the others are as they were.  That row reads back as the request; each
    credential decrypts to the plaintext sent; the public flag is computed from the address
    whatever the client says; the status is pending without an SNMP version, else active if
    the device answers a probe with the credentials of the request, made when they have been
    encrypted, and failed if it does not.  The answer is then 201 with that row's public
    view, except when the statement that reads the row back fails: 500, with the row stored. *)
Theorem create_device_spec (request_body : string) (w w' : world) (resp : response) :
  key_ok (h_Key h) -> db_ok w -> DeviceApi.Create h request_body w = (resp, w') ->
  (status resp = 400 <-> bad_request request_body) /\
  ((w_devices w' = w_devices w /\ (status resp = 400 \/ status resp = 500)) \/
   exists q id r d,
    (j <-? parse_first request_body;; decode_deviceRequest j) = Ok q /\
    abs (w_devices w) !! id = None /\
    abs (w_devices w') = <[id := r]> (abs (w_devices w)) /\
    scanDevice r = Ok d /\ created_from q (first_status q w) id d /\ created_answer d resp w').
Proof.
  intros Hk Hok Hrun. destruct (create_run _ _ _ _ Hk Hok Hrun) as [H400 [Hno|Hyes]].
  { split; [done|by left]. }
  split; [done|right]. destruct Hyes as (q & r & d & Hq & Hid & Hdev & _ & Hscan & Hc & Hans).
  pose proof (fresh_id _ Hok) as Hfresh. rewrite <- Hid in Hfresh.
  exists q, (r_id r), r, d. split_and!; try done.
  - rewrite lookup_abs. by apply find_none_ids.
  - rewrite Hdev. by apply abs_snoc.
Qed.
End create.

(** * Patching a device *)

Section patch.
Context `{DbEnv, SnmpEnv, RandEnv, !FullReads} (h : DeviceHandler).

Lemma plain_updates_elem order req k v :
  (k, v) ∈ DeviceApi.plain_updates order req <-> k ∈ order /\ map_get req k = Some v.
Proof.
  unfold DeviceApi.plain_updates. rewrite list_elem_of_omap. split.
  - intros (k' & Hin & Hk). destruct (map_get req k') eqn:E; [|done]. by injection Hk as -> ->.
  - intros [Hin Hk]. exists k. by rewrite Hk.
Qed.

Lemma plain_updates_NoDup order req :
  NoDup order -> NoDup (DeviceApi.plain_updates order req).*1.
Proof.
  unfold DeviceApi.plain_updates. induction 1 as [|k order Hk _ IH]; cbn; [constructor|].
  destruct (map_get req k) as [v|]; cbn; [|done]. apply NoDup_cons. split; [|done].
  intros ([k' v'] & -> & Hin)%list_elem_of_fmap. apply plain_updates_elem in Hin as [Hin _]. done.
Qed.

(** A key of the request's credentials with its ciphertext. *)
Definition encrypted_for (req : list (string * any)) (k : string) (v : any) : Prop :=
  exists v0 e, map_get req k = Some v0 /\ v = AStr e /\
    Decrypt (h_Key h) e = Ok (default "" (as_string v0)).

Lemma secret_updates_frames R `{!PreOrder R, !Ticks R} order req :
  io_steps R (DeviceApi.secret_updates h order req).
Proof.
  induction order as [|k order IH]; cbn; [done|]. destruct (map_get req k); [|done].
  apply steps_bind; [by apply steps_Encrypt|]. intros [e|]; [|by apply steps_ret].
  apply steps_bind; [done|]. intros []; by apply steps_ret.
Qed.

Lemma secret_updates_Ok order req w secrets w1 :
  key_ok (h_Key h) -> DeviceApi.secret_updates h order req w = (Ok secrets, w1) ->
  Forall (fun kv => encrypted_for req kv.1 kv.2) secrets /\
  secrets.*1 = List.filter (fun k => match map_get req k with Some _ => true | None => false end) order.
Proof.
  intros Hk. revert w secrets w1. induction order as [|k order IH]; intros w secrets w1; cbn.
  { intros [= <- <-]. split; [constructor|done]. }
  destruct (map_get req k) as [v|] eqn:Hv; [|by apply IH].
  intros Hrun. apply bind_inv in Hrun as ([e|e] & w2 & He & Hrun); [|done].
  apply bind_inv in Hrun as ([rest|e'] & w3 & Hrest & Hrun); [|done].
  injection Hrun as <- <-. destruct (IH _ _ _ Hrest) as [Hf Hkeys].
  apply Decrypt_Encrypt in He as [He _]; [|done]. split; [|cbn; by rewrite Hkeys].
  constructor; [|done]. exists v, e. by split_and!.
Qed.

(** What a PATCH does to a column that is not recomputed. *)
Definition patched (req : list (string * any)) (c : column) (old new : sqlval) : Prop :=
  match map_get req (column_name c) with
  | None => new = old
  | Some v =>
      if bool_decide (column_name c ∈ plain_keys) then
        exists b, bind_arg v = Ok b /\ new = affinity c b
      else if bool_decide (column_name c ∈ secret_keys) then
        exists e, new = VText e /\ Decrypt (h_Key h) e = Ok (default "" (as_string v))
      else new = old
  end.

Lemma secret_affinity c e : column_name c ∈ secret_keys -> affinity c (VText e) = VText e.
Proof. destruct c; try done. intros Hin. by pose proof (bool_decide_eq_true_2 _ Hin). Qed.

(** The keys a PATCH acts on, whatever the order. *)
Lemma patch_keys plain secret req secrets w w1 :
  Permutation plain plain_keys -> Permutation secret secret_keys -> key_ok (h_Key h) ->
  DeviceApi.secret_updates h secret req w = (Ok secrets, w1) ->
  let u := DeviceApi.plain_updates plain req ++ secrets in
  NoDup u.*1 /\
  (forall k, k ∈ u.*1 <-> (k ∈ plain_keys \/ k ∈ secret_keys) /\ is_Some (map_get req k)) /\
  (forall k v, (k, v) ∈ u -> (k ∈ plain_keys /\ map_get req k = Some v) \/
     (k ∈ secret_keys /\ encrypted_for req k v)).
Proof.
  intros Hp Hs Hk Hrun. cbn zeta. destruct (secret_updates_Ok _ _ _ _ _ Hk Hrun) as [Hf Hkeys].
  assert (Hpk : forall k, k ∈ (DeviceApi.plain_updates plain req).*1 <->
    k ∈ plain_keys /\ is_Some (map_get req k)).
  { intros k. rewrite list_elem_of_fmap. split.
    - intros ([k' v] & -> & [Hin Hv]%plain_updates_elem). rewrite Hp in Hin. cbn. by rewrite Hv.
    - intros [Hin [v Hv]]. exists (k, v). split; [done|]. apply plain_updates_elem. by rewrite Hp. }
  assert (Hsk : forall k, k ∈ secrets.*1 <-> k ∈ secret_keys /\ is_Some (map_get req k)).
  { intros k. rewrite Hkeys, list_elem_of_In, filter_In, <- list_elem_of_In, Hs.
    destruct (map_get req k); [by split; intros []|]. split; intros [? Hx]; [done|by destruct Hx]. }
  rewrite fmap_app. split_and!.
  - apply NoDup_app. split_and!.
    + apply plain_updates_NoDup. rewrite Hp. by apply (bool_decide_unpack _).
    + intros k [Ha _]%Hpk [Hb _]%Hsk. unfold plain_keys in Ha.
      repeat (apply elem_of_cons in Ha as [->|Ha]; [by pose proof (bool_decide_eq_true_2 _ Hb)|]).
      by apply not_elem_of_nil in Ha.
    + rewrite Hkeys. apply NoDup_ListNoDup, List.NoDup_filter, NoDup_ListNoDup. rewrite Hs.
      by apply (bool_decide_unpack _).
  - intros k. rewrite elem_of_app, Hpk, Hsk. tauto.
  - intros k v [Hin|Hin]%elem_of_app; [left|right].
    + apply plain_updates_elem in Hin as [Hin Hv]. by rewrite Hp in Hin.
    + split; [|rewrite Forall_forall in Hf; by apply (Hf (k, v))].
      apply (Hsk k). apply list_elem_of_fmap. by exists (k, v).
Qed.

(** The row the first update of a PATCH leaves. *)
Lemma patch_row plain secret req secrets w w1 sets vals r c :
  Permutation plain plain_keys -> Permutation secret secret_keys -> key_ok (h_Key h) ->
  DeviceApi.secret_updates h secret req w = (Ok secrets, w1) ->
  DeviceStore.set_clause (DeviceApi.plain_updates plain req ++ secrets) = Ok sets ->
  DeviceStore.bind_all sets = Ok vals ->
  patched req c (get_col c r) (get_col c (DeviceStore.assign vals r)).
Proof.
  intros Hp Hs Hk Hrun Hsets Hvals.
  destruct (patch_keys _ _ _ _ _ _ Hp Hs Hk Hrun) as (Hnd & Hkeys & Helem).
  destruct (assign_update _ _ _ r c Hnd Hsets Hvals) as [Hin Hout]. unfold patched.
  destruct (map_get req (column_name c)) as [v|] eqn:Hv.
  - case_bool_decide as Hpl; [|case_bool_decide as Hse].
    + apply Hin, elem_of_app. left. apply plain_updates_elem. by rewrite Hp.
    + assert (Hu : column_name c ∈ (DeviceApi.plain_updates plain req ++ secrets).*1)
        by (apply Hkeys; split; [by right|by eexists]).
      apply list_elem_of_fmap in Hu as ([k x] & Heq & Hu). cbn in Heq. subst k.
      destruct (Helem _ _ Hu) as [[? _]|[_ (v0 & e & Hv0 & -> & Hd)]]; [done|].
      destruct (Hin _ Hu) as (b & [= <-] & ->). exists e. split; [by apply secret_affinity|].
      rewrite Hv in Hv0. by injection Hv0 as <-.
    + apply Hout. rewrite Hkeys. tauto.
  - apply Hout. rewrite Hkeys, Hv. intros [_ Hn]. by destruct Hn.
Qed.
(** Nothing to set: no key of the request names a column. *)
Lemma patched_nothing plain secret req secrets w w1 c v :
  Permutation plain plain_keys -> Permutation secret secret_keys -> key_ok (h_Key h) ->
  DeviceApi.secret_updates h secret req w = (Ok secrets, w1) ->
  DeviceApi.plain_updates plain req ++ secrets = [] -> patched req c v v.
Proof.
  intros Hp Hs Hk Hrun Hnil. destruct (patch_keys _ _ _ _ _ _ Hp Hs Hk Hrun) as (_ & Hkeys & _).
  rewrite Hnil in Hkeys. unfold patched. destruct (map_get req (column_name c)) as [x|] eqn:Hx; [|done].
  assert (Hno : ~ (column_name c ∈ plain_keys \/ column_name c ∈ secret_keys)).
  { intros Hin. apply (not_elem_of_nil (column_name c)), Hkeys. by rewrite Hx. }
  rewrite !bool_decide_false; tauto.
Qed.

Lemma reprobe_frames R `{!PreOrder R, !Ticks R, !AllowsEvents (fun _ => True) R} d :
  io_steps R (DeviceApi.reprobe h d).
Proof.
  unfold DeviceApi.reprobe.
  destruct (Decrypt _ (Community d)); [|by apply steps_ret].
  destruct (Decrypt _ (V3AuthKey d)); [|by apply steps_ret].
  destruct (Decrypt _ (V3PrivKey d)); [|by apply steps_ret].
  apply steps_bind; [by apply probeStatus_steps|]. intros. by apply steps_ret.
Qed.

(** The credentials stored for a device, in the clear. *)
Record stored_creds (d : Device) (creds : Credentials) : Prop := {
  sc_version : cVersion creds = SNMPVersion d;
  sc_user : cV3User creds = V3User d;
  sc_auth_protocol : cV3AuthProtocol creds = V3AuthProtocol d;
  sc_priv_protocol : cV3PrivProtocol creds = V3PrivProtocol d;
  sc_community : Decrypt (h_Key h) (Community d) = Ok (cCommunity creds);
  sc_auth_key : Decrypt (h_Key h) (V3AuthKey d) = Ok (cV3AuthKey creds);
  sc_priv_key : Decrypt (h_Key h) (V3PrivKey d) = Ok (cV3PrivKey creds)
}.

Lemma reprobe_result d w st w1 :
  DeviceApi.reprobe h d w = (Ok st, w1) ->
  exists creds, stored_creds d creds /\ st = probe_outcome h (IPAddress d) creds w.
Proof.
  unfold DeviceApi.reprobe. destruct (Decrypt _ (Community d)) as [c|] eqn:Hc; [|done].
  destruct (Decrypt _ (V3AuthKey d)) as [a|] eqn:Ha; [|done].
  destruct (Decrypt _ (V3PrivKey d)) as [p|] eqn:Hp; [|done]. intros Hrun.
  apply bind_inv in Hrun as (s & w2 & Hs & Hrun). injection Hrun as <- <-.
  match type of Hs with run (DeviceApi.probeStatus _ ?ip ?c) ?w = _ =>
    pose proof (probeStatus_result h ip c w) as Hr; exists c end.
  rewrite Hs in Hr. by split; [split|].
Qed.

(** What a PATCH does before it may probe: it encrypts, updates and reads back. *)
Definition patching (plain secret : list string) (id : Z) (req : list (string * any)) : IO (result Device) :=
  try* secrets := DeviceApi.secret_updates h secret req catch e => ret (Err e) in
  try* u := DeviceStore.Update id (DeviceApi.plain_updates plain req ++ secrets) catch e => ret (Err e) in
  DeviceStore.Get id.

(** A PATCH probes if it touches the SNMP settings and leaves the status to it. *)
Definition probes (req : list (string * any)) : bool :=
  snmpFieldsChanged req && (match map_get req "status" with None => true | Some _ => false end).

(** The steps of a PATCH that answers 200. *)
Lemma Update_200 plain secret path_id request_body w w' resp :
  DeviceApi.Update h plain secret path_id request_body w = (resp, w') -> status resp = 200 ->
  exists id req d w1,
    ParseInt path_id = Ok id /\ (j <-? parse_first request_body;; decode_map j) = Ok req /\
    patching plain secret id req w = (Ok d, w1) /\
    if probes req
    then exists st w2, DeviceApi.reprobe h d w1 = (Ok st, w2) /\
      DeviceStore.Update id [("status", AStr st)] w2 = (Ok tt, w') /\
      resp = writeJSON 200 (toDeviceResponse (with_device_status d st))
    else w' = w1 /\ resp = writeJSON 200 (toDeviceResponse d).
Proof.
  intros Hrun H200. unfold DeviceApi.Update in Hrun.
  destruct (ParseInt path_id) as [id|e]; [|by injection Hrun as <- <-].
  destruct (j <-? parse_first request_body;; decode_map j) as [req|e];
    [|by injection Hrun as <- <-].
  apply bind_inv in Hrun as ([secrets|e] & w1 & Hsec & Hrun); [|by injection Hrun as <- <-].
  apply bind_inv in Hrun as ([[]|e] & w2 & Hu & Hrun);
    [|injection Hrun as <- <-; revert H200; by case_match].
  apply bind_inv in Hrun as ([d|e] & w3 & Hg & Hrun); [|by injection Hrun as <- <-].
  exists id, req, d, w3. split_and!; [done..| |].
  { unfold patching. rewrite bind_eq, Hsec. cbn [fst snd]. by rewrite bind_eq, Hu. }
  unfold probes. destruct (snmpFieldsChanged req && _); [|by injection Hrun as <- <-].
  apply bind_inv in Hrun as ([st|e] & w4 & Hre & Hrun); [|by injection Hrun as <- <-].
  apply bind_inv in Hrun as ([[]|e] & w5 & Hu2 & Hrun); [|by injection Hrun as <- <-].
  injection Hrun as <- <-. by exists st, w4.
Qed.

(** The first update of a PATCH, with or without something to set. *)
Lemma patch_update plain secret req secrets w w1 id w2 r0 :
  Permutation plain plain_keys -> Permutation secret secret_keys -> key_ok (h_Key h) ->
  DeviceApi.secret_updates h secret req w = (Ok secrets, w1) -> db_ok w1 ->
  DeviceStore.Update id (DeviceApi.plain_updates plain req ++ secrets) w1 = (Ok tt, w2) ->
  abs (w_devices w2) !! id = Some r0 ->
  exists r, abs (w_devices w1) !! id = Some r /\
    abs (w_devices w2) = <[id := r0]> (abs (w_devices w1)) /\
    r_id r0 = r_id r /\ r_ip_address r0 = r_ip_address r /\ r_created_at r0 = r_created_at r /\
    forall c, patched req c (get_col c r) (get_col c r0).
Proof.
  intros Hp Hs Hk Hrun Hok Hu Hr0. set (u := _ ++ _) in Hu.
  destruct (decide (u = [])) as [Hnil|Hne].
  - rewrite Hnil in Hu. injection Hu as <-. exists r0. split_and!; try done.
    + by rewrite insert_id.
    + intros c. by eapply patched_nothing.
  - destruct (Update_Ok _ _ _ _ Hok Hne Hu) as (sets & vals & r & Hsets & Hvals & Hr & Habs).
    exists r. rewrite Habs, lookup_insert_eq in Hr0. injection Hr0 as <-. split_and!; try done.
    + apply assign_id.
    + apply assign_ip.
    + apply assign_created.
    + intros c. by eapply patch_row.
Qed.

(** The row a PATCH has left when it has read it back. *)
Lemma patching_Ok plain secret id req w d w1 :
  Permutation plain plain_keys -> Permutation secret secret_keys -> key_ok (h_Key h) -> db_ok w ->
  patching plain secret id req w = (Ok d, w1) ->
  db_ok w1 /\ exists r r1, abs (w_devices w) !! id = Some r /\
    abs (w_devices w1) = <[id := r1]> (abs (w_devices w)) /\ scanDevice r1 = Ok d /\
    r_id r1 = r_id r /\ r_ip_address r1 = r_ip_address r /\ r_created_at r1 = r_created_at r /\
    forall c, patched req c (get_col c r) (get_col c r1).
Proof.
  intros Hp Hs Hk Hok Hrun. unfold patching in Hrun.
  apply bind_inv in Hrun as ([secrets|e] & wa & Hsec & Hrun); [|done].
  apply bind_inv in Hrun as ([[]|e] & wb & Hu & Hg); [|done].
  assert (Hfr : w_devices wa = w_devices w).
  { eapply (frames_run w_devices); [|exact Hsec]. apply secret_updates_frames; apply _. }
  assert (Hoka : db_ok wa) by (unfold db_ok; by rewrite Hfr).
  destruct (Get_Ok _ _ _ _ Hg) as (r1 & Hr1 & Hd & ->). split.
  { pose proof (steps_run _ _ wa (db_ok_Update id (DeviceApi.plain_updates plain req ++ secrets)) Hoka) as Hk2.
    by rewrite Hu in Hk2. }
  destruct (patch_update _ _ _ _ _ _ _ _ _ Hp Hs Hk Hsec Hoka Hu Hr1) as (r & Hr & Habs & Hi & Hip & Hcr & Hc).
  rewrite Hfr in Hr, Habs. exists r, r1. by split_and!.
Qed.

End patch.

(** * Two ways a PATCH goes wrong *)

(** While a stored row holds a NULL, [GET /devices] answers 500. *)
Lemma null_row_listing `{DbEnv} w i r c :
  abs (w_devices w) !! i = Some r -> get_col c r = VNull ->
  forall w2, abs (w_devices w2) = abs (w_devices w) -> status (DeviceApi.List w2).1 = 500.
Proof.
  intros Hr Hnull w2 Hw2. unfold DeviceApi.List, DeviceStore.List, DeviceStore.select_rows.
  rewrite !bind_eq, stmt_run. destruct (db_fault (w_tick w2)); [done|]. cbn [fst snd ret run].
  rewrite filter_all. change (w_devices (bump w2)) with (w_devices w2).
  rewrite <- Hw2, lookup_abs in Hr. apply find_some in Hr as [Hin _].
  pose proof (scan_all_null (rows (w_devices w2)) r c) as Hs.
  destruct (DeviceStore.scan_all (rows (w_devices w2))); [|done].
  discriminate Hs; [by apply list_elem_of_In|done].
Qed.

Lemma Get_null `{DbEnv} id w r c :
  abs (w_devices w) !! id = Some r -> get_col c r = VNull ->
  exists e, DeviceStore.Get id w = (Err e, bump w).
Proof.
  intros Hr Hnull. destruct (scanDevice_null c r Hnull) as [e He].
  unfold DeviceStore.Get, DeviceStore.query_row. rewrite bind_eq, stmt_run.
  destruct (db_fault (w_tick w)); [by eexists|]. cbn. rewrite <- lookup_abs, Hr, He. by eexists.
Qed.

Lemma plain_column key : key ∈ plain_keys -> exists c, column_of key = Some c /\ column_name c = key.
Proof.
  intros Hin%list_elem_of_In. cbn in Hin. destruct_or! Hin; subst; eexists; by split.
Qed.

Section patch_defects.
Context `{DbEnv, SnmpEnv, RandEnv} (h : DeviceHandler).

Lemma secret_updates_none order req w :
  (forall k, k ∈ order -> map_get req k = None) -> DeviceApi.secret_updates h order req w = (Ok [], w).
Proof.
  induction order as [|k order IH]; intros Hn; [done|]. cbn. rewrite (Hn k) by (by left).
  apply IH. intros k' Hk'. apply Hn. by right.
Qed.

Lemma plain_updates_none order req :
  (forall k, k ∈ order -> map_get req k = None) -> DeviceApi.plain_updates order req = [].
Proof.
  induction order as [|k order IH]; intros Hn; [done|]. cbn. rewrite (Hn k) by (by left).
  apply IH. intros k' Hk'. apply Hn. by right.
Qed.

(** Setting one nullable column to NULL passes every CHECK. *)
Lemma null_update key c id w r :
  column_of key = Some c -> db_ok w -> db_fault (w_tick w) = None ->
  abs (w_devices w) !! id = Some r ->
  exists r' w1, DeviceStore.Update id [(key, ANil)] w = (Ok tt, w1) /\
    abs (w_devices w1) !! id = Some r' /\ get_col c r' = VNull.
Proof.
  intros Hc Hok Hf Hr. unfold DeviceStore.Update, DeviceStore.exec_update.
  cbn [DeviceStore.set_clause]. unfold allowedDeviceColumn. rewrite Hc. cbn [negb result_bind].
  rewrite bind_eq, stmt_run, Hf. cbn [DeviceStore.bind_all result_map bind_arg result_bind].
  pose proof (update_device_spec id [(c, VNull)] (bump w) Hok) as Hu. cbn zeta in Hu.
  change (w_devices (bump w)) with (w_devices w) in Hu. rewrite Hr in Hu.
  assert (Haff : affinity c VNull = VNull) by (by destruct c).
  assert (Hchk : check_row (set_updated (now_text (bump w)) (DeviceStore.assign [(c, VNull)] r)) = true).
  { pose proof (ok_checks _ Hok) as Hcs. rewrite Forall_forall in Hcs.
    assert (Hrc : check_row r = true).
    { apply Hcs. rewrite lookup_abs in Hr. apply find_some in Hr as [Hin _]. by apply list_elem_of_In. }
    revert Hrc. unfold check_row, DeviceStore.assign. cbn [foldl]. rewrite Haff.
    rewrite !andb_true_iff. intros [Ha Hb]. by destruct c; split. }
  rewrite Hchk in Hu. destruct Hu as (w1 & Hu & Habs & _). unfold DeviceStore.bind_all.
  cbn [result_map bind_arg result_bind]. rewrite Hu. cbn. eexists _, w1. split; [done|].
  rewrite Habs, lookup_insert_eq. split; [done|]. unfold DeviceStore.assign. cbn [foldl].
  change (get_col c (set_col c (affinity c VNull) r) = VNull). rewrite get_set_col, Haff.
  by rewrite decide_True.
Qed.

(** A request whose only member is a null. *)
Lemma null_alone plain secret key path_id request_body id r w c :
  Permutation plain plain_keys -> Permutation secret secret_keys ->
  key ∈ plain_keys -> column_of key = Some c -> ParseInt path_id = Ok id ->
  (j <-? parse_first request_body;; decode_map j) = Ok [(key, ANil)] ->
  db_ok w -> db_fault (w_tick w) = None -> abs (w_devices w) !! id = Some r ->
  exists resp w' r', DeviceApi.Update h plain secret path_id request_body w = (resp, w') /\
    status resp = 500 /\ abs (w_devices w') !! id = Some r' /\ get_col c r' = VNull.
Proof.
  intros Hp Hs Hkey Hc Hid Hreq Hok Hf Hr. unfold DeviceApi.Update. rewrite Hid, Hreq.
  assert (Hnone : DeviceApi.secret_updates h secret [(key, ANil)] w = (Ok [], w)).
  { apply secret_updates_none. intros k Hk. cbn. destruct (String.eqb_spec key k) as [->|]; [|done]. rewrite Hs in Hk.
    apply list_elem_of_In in Hkey, Hk. cbn in Hkey, Hk. by destruct_or! Hkey; destruct_or! Hk; subst. }
  assert (Hplain : DeviceApi.plain_updates plain [(key, ANil)] = [(key, ANil)]).
  { apply Permutation_singleton_r. unfold DeviceApi.plain_updates. rewrite Hp.
    apply list_elem_of_In in Hkey. cbn in Hkey. destruct_or! Hkey; subst; reflexivity. }
  destruct (null_update key c id w r Hc Hok Hf Hr) as (r' & w1 & Hu & Hr' & Hnull).
  rewrite bind_eq, Hnone. cbn [fst snd]. rewrite Hplain. cbn [app].
  rewrite bind_eq, Hu. cbn [fst snd]. rewrite bind_eq.
  destruct (Get_null id w1 r' c Hr' Hnull) as [e ->]. by eexists _, _, r'.
Qed.

(** C16.  A PATCH with a JSON null for a plain column never answers 200, whatever else it
    carries and in whatever order Go ranges over its tables.  Either it has changed no device,
    or it has stored the NULL, which no read can scan: then it is answered 500, and so is
    every [GET /devices] from then on, as long as the devices stay as they are.  The latter is
    what happens when the device exists, the null is alone in the body and no statement
    fails.  (A null for a credential does no such harm: see C15.) *)
Theorem patch_null_breaks_listing `{!FullReads} (plain secret : list string)
    (key path_id request_body : string) (req : list (string * any)) (w w' : world) (resp : response) :
  Permutation plain plain_keys -> Permutation secret secret_keys -> key_ok (h_Key h) -> db_ok w ->
  key ∈ plain_keys -> (j <-? parse_first request_body;; decode_map j) = Ok req ->
  map_get req key = Some ANil ->
  DeviceApi.Update h plain secret path_id request_body w = (resp, w') ->
  status resp <> 200 /\
  (abs (w_devices w') = abs (w_devices w) \/
   (status resp = 500 /\ forall w2, abs (w_devices w2) = abs (w_devices w') -> status (DeviceApi.List w2).1 = 500)) /\
  forall id r, ParseInt path_id = Ok id -> abs (w_devices w) !! id = Some r ->
    db_fault (w_tick w) = None -> req = [(key, ANil)] ->
    status resp = 500 /\ forall w2, abs (w_devices w2) = abs (w_devices w') -> status (DeviceApi.List w2).1 = 500.
Proof.
  intros Hp Hs Hk Hok Hkey Hreq Hnil Hrun. destruct (plain_column key Hkey) as (c & Hc & Hname).
  match goal with |- ?A /\ ?B /\ ?C => cut ((A /\ B) /\ C); [tauto|] end. split.
  2:{ intros id r Hid Hr Hf ->.
      destruct (null_alone plain secret key path_id request_body id r w c) as (resp' & w1 & r' & Hrun' & H500 & Hr' & Hnull);
        [done..|]. rewrite Hrun in Hrun'. injection Hrun' as <- <-.
      split; [done|]. by eapply null_row_listing. }
  unfold DeviceApi.Update in Hrun. rewrite Hreq in Hrun.
  destruct (ParseInt path_id) as [id|e]; [|injection Hrun as <- <-; by auto].
  apply bind_inv in Hrun as (r0 & w1 & Hsec & Hrun).
  assert (Hfr : w_devices w1 = w_devices w).
  { eapply (frames_run w_devices); [|exact Hsec]. apply secret_updates_frames; apply _. }
  destruct r0 as [secrets|e]; [|injection Hrun as <- <-; rewrite Hfr; by auto].
  assert (Hok1 : db_ok w1) by (unfold db_ok; by rewrite Hfr).
  apply bind_inv in Hrun as ([[]|e] & w2 & Hu & Hrun).
  2:{ pose proof (Update_Err _ _ _ _ _ Hok1 Hu) as Habs. rewrite Hfr in Habs.
      assert (Hst : status resp <> 200 /\ w' = w2).
      { by destruct (errors_is _ _); injection Hrun as <- <-. }
      destruct Hst as [Hst ->]. split; [exact Hst|by left]. }
  set (u := _ ++ _) in Hu.
  assert (Hu0 : (key, ANil) ∈ u) by (apply elem_of_app; left; apply plain_updates_elem; by rewrite Hp).
  destruct (Update_Ok _ u _ _ Hok1 (ltac:(intros Hnil'; rewrite Hnil' in Hu0; by apply not_elem_of_nil in Hu0)) Hu)
    as (sets & vals & r & Hsets & Hvals & Hr & Habs).
  pose proof (patch_row h _ _ _ _ _ _ _ _ r c Hp Hs Hk Hsec Hsets Hvals) as Hpat.
  unfold patched in Hpat. rewrite Hname, Hnil, bool_decide_true in Hpat by done.
  destruct Hpat as (b & [= <-] & Hcol).
  assert (Hnull : get_col c (set_updated (clock_text (S (w_tick w1))) (DeviceStore.assign vals r)) = VNull).
  { transitivity (get_col c (DeviceStore.assign vals r)); [by destruct c|]. rewrite Hcol. by destruct c. }
  assert (Hr' : abs (w_devices w2) !! id = Some (set_updated (clock_text (S (w_tick w1)))
    (DeviceStore.assign vals r))) by (rewrite Habs; apply lookup_insert_eq).
  destruct (Get_null id w2 _ c Hr' Hnull) as [e He].
  rewrite bind_eq, He in Hrun. injection Hrun as <- <-. split; [done|right]. split; [done|].
  intros w3 Hw3. by eapply (null_row_listing w2).
Qed.

(** A PATCH of a device that does not exist is answered 500 rather than 404 when the
    request names none of the columns: nothing is updated, so nothing is found missing, and
    the read that follows is not checked for it.  [GET] of the same path answers 404. *)
Theorem patch_missing_device_500 (path_id request_body : string) (id : Z)
    (req : list (string * any)) (w : world) :
  ParseInt path_id = Ok id -> (j <-? parse_first request_body;; decode_map j) = Ok req ->
  (forall k, k ∈ plain_keys ++ secret_keys -> map_get req k = None) ->
  db_fault (w_tick w) = None -> abs (w_devices w) !! id = None ->
  status (DeviceApi.Update h plain_keys secret_keys path_id request_body w).1 = 500 /\
  status (DeviceApi.Get path_id w).1 = 404.
Proof.
  intros Hid Hreq Hn Hf Hr. unfold DeviceApi.Update, DeviceApi.Get. rewrite Hid, Hreq.
  assert (Hget : DeviceStore.Get id w = (Err ErrNotFound, bump w)).
  { unfold DeviceStore.Get, DeviceStore.query_row. rewrite bind_eq, stmt_run, Hf. cbn.
    by rewrite <- lookup_abs, Hr. }
  rewrite !bind_eq, Hget. cbn [fst snd].
  rewrite secret_updates_none by (intros k Hk; apply Hn, elem_of_app; by right).
  rewrite plain_updates_none by (intros k Hk; apply Hn, elem_of_app; by left).
  cbn [fst snd app]. rewrite bind_eq. cbn [DeviceStore.Update ret run fst snd].
  rewrite bind_eq, Hget. done.
Qed.
End patch_defects.

(** * Witnesses *)

Definition sample_key : Key :=
  match NewKey zero_key_hex with Ok k => k | Err _ => {| gcm := [] |} end.

Lemma sample_key_ok : key_ok sample_key.
Proof. apply (NewKey_ok zero_key_hex). vm_compute. reflexivity. Qed.

Definition sample_handler : DeviceHandler := {| h_Key := sample_key; h_ProbeTimeout := 0 |}.

(** A JSON object with string members, as a request body. *)
Definition object_body (l : list (string * string)) : string :=
  print (JObj (map (fun '(k, v) => (k, JStr v)) l)).

(** Nobody answers the probe of the new device. *)
Lemma create_device_spec_witness :
  let body := object_body [("ip_address", "10.0.0.7"); ("snmp_version", "v2c"); ("community", "c0")] in
  let run := DeviceApi.Create (H := quiet_db) (H0 := quiet_snmp) (H1 := counting_rand)
    sample_handler body empty_world in
  exists d, Decrypt sample_key (Community d) = Ok "c0" /\ IsPublicIP d = false /\ Status d = "failed" /\
    run.1 = writeJSON 201 (toDeviceResponse d).
Proof.
  cbv zeta.
  destruct (create_device_spec (H := quiet_db) (H0 := quiet_snmp) (H1 := counting_rand) sample_handler
    (object_body [("ip_address", "10.0.0.7"); ("snmp_version", "v2c"); ("community", "c0")]) empty_world
    _ _ sample_key_ok empty_table_ok (surjective_pairing _)) as [_ [[_ Hno]|Hyes]].
  { exfalso. vm_compute in Hno. destruct Hno as [Hno|Hno]; discriminate Hno. }
  destruct Hyes as (q & id & r & d & Hq & _ & _ & _ & Hd & Hans).
  vm_compute in Hq. injection Hq as <-. exists d.
  destruct Hd as (_ & _ & _ & _ & _ & _ & _ & _ & Hc & _ & _ & Hpub & _ & Hst).
  split_and!; [exact Hc|rewrite Hpub; vm_compute; reflexivity|rewrite Hst; vm_compute; reflexivity|].
  destruct Hans as [Hans|[Hans _]]; [exact Hans|]. vm_compute in Hans. discriminate Hans.
Defined.


(** A null with a new name and community beside it, and one alone. *)
Lemma patch_null_breaks_listing_witness :
  let body := print (JObj [("hostname", JStr "R9"); ("group_name", JNull); ("community", JNull)]) in
  let run := DeviceApi.Update (H := quiet_db) (H0 := quiet_snmp) (H1 := counting_rand)
    sample_handler plain_keys secret_keys "1" body one_router in
  let run1 := DeviceApi.Update (H := quiet_db) (H0 := quiet_snmp) (H1 := counting_rand)
    sample_handler plain_keys secret_keys "1" (print (JObj [("hostname", JNull)])) one_router in
  status run.1 <> 200 /\ status run1.1 = 500 /\ status (DeviceApi.List (H := quiet_db) run1.2).1 = 500.
Proof.
  cbv zeta. split.
  - refine (proj1 (patch_null_breaks_listing (H := quiet_db) (H0 := quiet_snmp) (H1 := counting_rand)
      sample_handler plain_keys secret_keys "group_name" "1"
      (print (JObj [("hostname", JStr "R9"); ("group_name", JNull); ("community", JNull)])) _ one_router
      _ _ (Permutation_refl _) (Permutation_refl _) sample_key_ok one_router_ok _ eq_refl eq_refl
      (surjective_pairing _))).
    by apply (bool_decide_unpack _).
  - destruct (proj2 (proj2 (patch_null_breaks_listing (H := quiet_db) (H0 := quiet_snmp) (H1 := counting_rand)
      sample_handler plain_keys secret_keys "hostname" "1" (print (JObj [("hostname", JNull)])) _ one_router
      _ _ (Permutation_refl _) (Permutation_refl _) sample_key_ok one_router_ok
      ltac:(by apply (bool_decide_unpack _)) eq_refl eq_refl (surjective_pairing _))) 1
      (match rows (w_devices one_router) with r :: _ => r | [] => DeviceStore.row_of (new_row
         (Build_deviceRequest "" "" "" "" "" "" "" "" "" "" "") "" "" "" "") 0 "" end))
      as [H500 Hlist].
    + reflexivity.
    + rewrite lookup_abs. vm_compute. reflexivity.
    + reflexivity.
    + reflexivity.
    + split; [exact H500|by apply Hlist].
Defined.

Lemma patch_missing_device_500_witness :
  status (DeviceApi.Update (H := quiet_db) (H0 := quiet_snmp) (H1 := counting_rand)
    sample_handler plain_keys secret_keys "7" "{}" one_router).1 = 500.
Proof.
  refine (proj1 (patch_missing_device_500 (H := quiet_db) (H0 := quiet_snmp) (H1 := counting_rand)
    sample_handler "7" "{}" 7 [] one_router eq_refl _ _ eq_refl _)).
  - vm_compute. reflexivity.
  - reflexivity.
  - rewrite lookup_abs. vm_compute. reflexivity.
Defined.
