(* ===== verification/ConfigSettings.v ===== *)
(** The settings handlers of config-api ([config-api/handlers/settings.go]), the invariant
    they keep on the settings table, and what a client reads after writing. *)

From S2P Require Import Prelude Float64 Json JsonFacts World Store StoreFacts ConfigApi.
Open Scope Z_scope.

Definition pollingIntervalKey : string := "polling_interval_seconds".
Definition credentialDuplicationKey : string := "credential_duplication_enabled".

Definition allowedPollingIntervals (n : Z) : bool := existsb (Z.eqb n) [30; 60; 120; 300; 600].

Module SettingsApi.
Section settings_api.
Context `{DbEnv}.

Definition polling_response (seconds : Z) : response :=
  writeJSON 200 (JObj [(pollingIntervalKey, jint seconds)]).

Definition GetPollingInterval : IO response :=
  try* value := SettingsStore.Get pollingIntervalKey catch e => ret (writeError 500 e) in
  match Atoi value with
  | Err e => ret (writeError 500 e)
  | Ok seconds => ret (polling_response seconds)
  end.

Definition decode_polling (j : json) : result Z :=
  l <-? decode_members j;; decode_int 0 (field_values [pollingIntervalKey] l pollingIntervalKey).

Definition SetPollingInterval (request_body : string) : IO response :=
  match (j <-? parse_first request_body;; decode_polling j) with
  | Err e => ret (writeError 400 e)
  | Ok seconds =>
      if negb (allowedPollingIntervals seconds) then
        ret (writeError 400
          (ENew [FStr "polling_interval_seconds must be one of 30, 60, 120, 300, 600"]))
      else
        try* u := SettingsStore.Set_ pollingIntervalKey (Itoa seconds) catch e =>
          ret (writeError 500 e) in
        ret (polling_response seconds)
  end.

Definition duplication_response (b : bool) : response :=
  writeJSON 200 (JObj [(credentialDuplicationKey, JBool b)]).

Definition GetCredentialDuplication : IO response :=
  try* value := SettingsStore.Get credentialDuplicationKey catch e => ret (writeError 500 e) in
  ret (duplication_response (String.eqb value "1")).

Definition decode_duplication (j : json) : result bool :=
  l <-? decode_members j;;
  decode_bool false (field_values [credentialDuplicationKey] l credentialDuplicationKey).

Definition SetCredentialDuplication (request_body : string) : IO response :=
  match (j <-? parse_first request_body;; decode_duplication j) with
  | Err e => ret (writeError 400 e)
  | Ok enabled =>
      let value := if enabled : bool then "1" else "0" in
      try* u := SettingsStore.Set_ credentialDuplicationKey value catch e =>
        ret (writeError 500 e) in
      ret (duplication_response enabled)
  end.
End settings_api.
End SettingsApi.

(** * The invariant *)

(** Both settings are there; the interval is one of the allowed ones. *)
Record settings_ok (w : world) : Prop := {
  so_polling : exists n, allowedPollingIntervals n = true /\
    w_settings w !! pollingIntervalKey = Some (Itoa n);
  so_duplication : exists v, w_settings w !! credentialDuplicationKey = Some v /\ (v = "0" \/ v = "1")
}.

Lemma allowed_range n : allowedPollingIntervals n = true -> min_int64 <= n <= max_int64.
Proof.
  unfold allowedPollingIntervals. cbn. rewrite !orb_true_iff, !Z.eqb_eq. unfold min_int64, max_int64. lia.
Qed.

#[export] Instance settings_ok_ticks : Ticks (keeps settings_ok).
Proof. intros w [Hp Hd]. by split. Qed.

Section settings_facts.
Context `{DbEnv}.

Lemma Set_run key value w :
  SettingsStore.Set_ key value w =
    match db_fault (w_tick w) with
    | Some e => (Err (EWrap [FStr "store: setting "; FQuote key; FStr ": "] e []), bump w)
    | None => (Ok tt, set_settings (<[key := value]> (w_settings w)) (bump w))
    end.
Proof. unfold SettingsStore.Set_. rewrite bind_eq, stmt_run. by destruct (db_fault _). Qed.

Lemma Get_run key w v :
  db_fault (w_tick w) = None -> w_settings w !! key = Some v ->
  SettingsStore.Get key w = (Ok v, bump w).
Proof.
  intros Hf Hk. unfold SettingsStore.Get. rewrite bind_eq, stmt_run, Hf. cbn.
  change (w_settings (bump w)) with (w_settings w). by rewrite Hk.
Qed.

(** Opening the configuration database establishes it, for a new database and for one that
    has it. *)
Lemma open_settings_ok w w1 :
  w_settings w = ∅ \/ settings_ok w -> OpenConfigDB w = (Ok tt, w1) -> settings_ok w1.
Proof.
  intros Hw (Hs & _ & _)%OpenConfigDB_Ok. destruct Hw as [Hw|[(n & Hn & Hp) (v & Hd & Hv)]].
  - rewrite Hw in Hs. split; rewrite Hs; cbn.
    + exists 60. by split.
    + exists "0". split; [done|by left].
  - unfold insert_or_ignore in Hs. unfold pollingIntervalKey in Hp. unfold credentialDuplicationKey in Hd.
    rewrite Hp, Hd in Hs. split; rewrite Hs; [by exists n|by exists v].
Qed.

(** The settings handlers, for a relation the values they store respect. *)
Section steps.
Context (R : relation world) `{!PreOrder R, !Ticks R}.

Lemma steps_SetPollingInterval body :
  (forall n w, allowedPollingIntervals n = true ->
     R w (set_settings (<[pollingIntervalKey := Itoa n]> (w_settings w)) w)) ->
  io_steps R (SettingsApi.SetPollingInterval body).
Proof.
  intros HR. unfold SettingsApi.SetPollingInterval. destruct (result_bind _ _) as [n|]; [|by apply steps_ret].
  destruct (allowedPollingIntervals n) eqn:Hn; cbn [negb]; [|by apply steps_ret].
  apply steps_bind; [apply steps_Set; auto|intros; io_walk].
Qed.

Lemma steps_SetCredentialDuplication body :
  (forall (b : bool) w,
     R w (set_settings (<[credentialDuplicationKey := if b then "1" else "0"]> (w_settings w)) w)) ->
  io_steps R (SettingsApi.SetCredentialDuplication body).
Proof.
  intros HR. unfold SettingsApi.SetCredentialDuplication.
  destruct (result_bind _ _) as [b|]; [|by apply steps_ret]. cbv zeta.
  apply steps_bind; [apply steps_Set; auto|intros; io_walk].
Qed.

End steps.

Lemma settings_api_keeps request_body :
  io_steps (keeps settings_ok) SettingsApi.GetPollingInterval /\
  io_steps (keeps settings_ok) (SettingsApi.SetPollingInterval request_body) /\
  io_steps (keeps settings_ok) SettingsApi.GetCredentialDuplication /\
  io_steps (keeps settings_ok) (SettingsApi.SetCredentialDuplication request_body).
Proof.
  split_and!; [unfold SettingsApi.GetPollingInterval; io_walk| |
    unfold SettingsApi.GetCredentialDuplication; io_walk|].
  - apply steps_SetPollingInterval; try apply _. intros n w Hn [_ (v & Hd & Hv)]. split; cbn.
    + exists n. split; [done|]. apply lookup_insert_eq.
    + exists v. split; [|done]. by rewrite lookup_insert_ne.
  - apply steps_SetCredentialDuplication; try apply _. intros b w [(n & Hn & Hp) _]. split; cbn.
    + exists n. split; [done|]. by rewrite lookup_insert_ne.
    + exists (if b then "1" else "0"). split; [apply lookup_insert_eq|]. destruct b; auto.
Qed.
End settings_facts.

(** * Properties *)

(** The settings requests, to speak of sequences of them. *)
Inductive settings_request :=
| GetPolling
| SetPolling (request_body : string)
| GetDuplication
| SetDuplication (request_body : string).

Definition settings_handle `{DbEnv} (q : settings_request) : IO response :=
  match q with
  | GetPolling => SettingsApi.GetPollingInterval
  | SetPolling b => SettingsApi.SetPollingInterval b
  | GetDuplication => SettingsApi.GetCredentialDuplication
  | SetDuplication b => SettingsApi.SetCredentialDuplication b
  end.

(** C18.  The polling interval Telegraf is configured with is always one of the five allowed
    ones: after opening a new database, and any sequence of settings requests with any
    bodies, [GET /settings/polling-interval] answers 200 with 30, 60, 120, 300 or 600 (or 500
    if the statement fails), and credential duplication reads as a boolean; a database that
    has just been created polls every 60 seconds and does not duplicate credentials. *)
Theorem polling_interval_always_allowed `{DbEnv} (requests : list settings_request) (w0 w1 : world) :
  w_settings w0 = ∅ -> OpenConfigDB w0 = (Ok tt, w1) ->
  let w := (map_io settings_handle requests w1).2 in
  (db_fault (w_tick w) = None ->
   (exists n, In n [30; 60; 120; 300; 600] /\
      (SettingsApi.GetPollingInterval w).1 = SettingsApi.polling_response n /\
      (requests = [] -> n = 60)) /\
   (exists b, (SettingsApi.GetCredentialDuplication w).1 = SettingsApi.duplication_response b /\
      (requests = [] -> b = false))).
Proof.
  intros Hw0 Hopen. cbn zeta. intros Hf.
  assert (Hok1 : settings_ok w1) by (eapply open_settings_ok; [by left|done]).
  assert (Hinit : w_settings w1 !! pollingIntervalKey = Some "60" /\
    w_settings w1 !! credentialDuplicationKey = Some "0").
  { apply OpenConfigDB_Ok in Hopen as (-> & _ & _). by rewrite Hw0. }
  assert (Hok : settings_ok (map_io settings_handle requests w1).2).
  { revert Hok1. refine (steps_run (keeps settings_ok) _ _ _). apply steps_map_io. intros q _.
    destruct (settings_api_keeps
      (match q with SetPolling b | SetDuplication b => b | _ => "" end)) as (?&?&?&?). by destruct q. }
  destruct Hok as [(n & Hn & Hp) (v & Hd & Hv)]. split.
  - exists n. split_and!.
    + unfold allowedPollingIntervals in Hn. apply existsb_exists in Hn as (m & Hm & ->%Z.eqb_eq). done.
    + unfold SettingsApi.GetPollingInterval. rewrite bind_eq, (Get_run _ _ _ Hf Hp). cbn [fst snd].
      by rewrite Atoi_Itoa by (by apply allowed_range).
    + intros ->. cbn in Hp. destruct Hinit as [Hi _]. rewrite Hi in Hp. injection Hp as Hp.
      by apply (Itoa_inj n 60).
  - exists (String.eqb v "1"). split.
    + unfold SettingsApi.GetCredentialDuplication. by rewrite bind_eq, (Get_run _ _ _ Hf Hd).
    + intros ->. cbn in Hd. destruct Hinit as [_ Hi]. rewrite Hi in Hd. by injection Hd as <-.
Qed.

Lemma polling_interval_always_allowed_witness :
  exists n, In n [30; 60; 120; 300; 600] /\
    (SettingsApi.GetPollingInterval (H := quiet_db)
      (map_io (settings_handle (H := quiet_db))
        [SetPolling (print (JObj [("polling_interval_seconds", jint 120)]))]
        (OpenConfigDB (H := quiet_db) empty_world).2).2).1 = SettingsApi.polling_response n.
Proof.
  destruct (polling_interval_always_allowed (H := quiet_db)
    [SetPolling (print (JObj [("polling_interval_seconds", jint 120)]))] empty_world
    (OpenConfigDB (H := quiet_db) empty_world).2 eq_refl eq_refl eq_refl) as [(n & Hin & Hget & _) _].
  exists n. exact (conj Hin Hget).
Defined.

(** Settings are read back as written: after a POST of an allowed interval, written as
    the JSON object the form sends, or of a boolean for credential duplication, the GET of
    the same setting answers exactly what the POST answered, and the other setting is as
    before. *)
Theorem settings_write_read `{DbEnv} (n : Z) (b : bool) (w : world) :
  allowedPollingIntervals n = true ->
  db_fault (w_tick w) = None -> db_fault (S (w_tick w)) = None ->
  let set_n := SettingsApi.SetPollingInterval (print (JObj [(pollingIntervalKey, jint n)])) w in
  let set_b := SettingsApi.SetCredentialDuplication (print (JObj [(credentialDuplicationKey, JBool b)])) w in
  (set_n.1 = SettingsApi.polling_response n /\
   (SettingsApi.GetPollingInterval set_n.2).1 = set_n.1 /\
   w_settings set_n.2 !! credentialDuplicationKey = w_settings w !! credentialDuplicationKey) /\
  (set_b.1 = SettingsApi.duplication_response b /\
   (SettingsApi.GetCredentialDuplication set_b.2).1 = set_b.1 /\
   w_settings set_b.2 !! pollingIntervalKey = w_settings w !! pollingIntervalKey).
Proof.
  intros Hn Hf Hf2. cbn zeta.
  unfold SettingsApi.SetPollingInterval, SettingsApi.SetCredentialDuplication.
  rewrite !parse_first_print_bare;
    [|done|cbn; by rewrite (bool_decide_eq_true_2 _ (num_lit_Itoa n))].
  change (norm (JObj [(pollingIntervalKey, jint n)])) with (JObj [(pollingIntervalKey, jint n)]).
  change (norm (JObj [(credentialDuplicationKey, JBool b)]))
    with (JObj [(credentialDuplicationKey, JBool b)]).
  cbn [result_bind]. change (SettingsApi.decode_duplication (JObj [(credentialDuplicationKey, JBool b)])) with (Ok b).
  assert (SettingsApi.decode_polling (JObj [(pollingIntervalKey, jint n)]) = Ok n) as ->.
  { change (match parse_int (Itoa n) with inl z => Ok z | inr _ => Err json_type_error end = Ok n).
    by rewrite parse_int_Itoa by (by apply allowed_range). }
  rewrite Hn. cbn [negb]. rewrite !bind_eq, !Set_run, Hf. cbn [fst snd ret run].
  split; (split; [done|]; split; [|cbn; by rewrite lookup_insert_ne]).
  - unfold SettingsApi.GetPollingInterval. rewrite bind_eq.
    rewrite (Get_run _ _ (Itoa n)); [|exact Hf2|cbn; apply lookup_insert_eq].
    cbn [fst snd]. by rewrite Atoi_Itoa by (by apply allowed_range).
  - unfold SettingsApi.GetCredentialDuplication. rewrite bind_eq.
    rewrite (Get_run _ _ (if b then "1" else "0")); [|exact Hf2|cbn; apply lookup_insert_eq].
    by destruct b.
Qed.

Lemma settings_write_read_witness :
  let w1 := (SettingsApi.SetPollingInterval (H := quiet_db)
    (print (JObj [(pollingIntervalKey, jint 300)])) empty_world).2 in
  (SettingsApi.GetPollingInterval (H := quiet_db) w1).1 = SettingsApi.polling_response 300.
Proof.
  cbv zeta.
  destruct (settings_write_read (H := quiet_db) 300 true empty_world eq_refl eq_refl eq_refl)
    as [(Hs & Hg & _) _].
  rewrite Hg. exact Hs.
Defined.
