(* ===== verification/ConfigTraps.v ===== *)
(** The traps handlers of config-api ([config-api/handlers/traps.go]): listing, and what is
    added to a trap to make it readable: its name, the device that sent it, and the interface
    it is about, taken from the payload trap-receiver stored. *)

From S2P Require Import Prelude Float64 Encoding Json JsonFacts Decimal World Store StoreFacts StoreSpec.
From S2P Require Import Gcm Crypto Snmp TrapReceiver ConfigApi ConfigApiFacts.
Open Scope Z_scope.

(** [Devices] and [Key] may be nil. *)
Record TrapsHandler := { t_Devices : bool; t_Key : option Key }.

(** The query parameter, empty when absent. *)
Definition limitFromQuery (v : string) : Z :=
  let limit := 100 in
  if negb (String.eqb v "") then
    match Atoi v with
    | Ok parsed => if 0 <? parsed then parsed else limit
    | Err _ => limit
    end
  else limit.

(** [fmt.Sprint] of one decoded value: floats as %g, maps sorted by key. *)
Fixpoint sprint (v : any) : string :=
  match v with
  | ANil => "<nil>"
  | ABool b => if b then "true" else "false"
  | AInt z => Itoa z
  | AFloat f => fmt_g f
  | AStr s => s
  | ABytes b => "[" +:+ join " " (map (fun c => Itoa (byte_val c)) (String.list_ascii_of_string b)) +:+ "]"
  | AList l => "[" +:+ join " " (map sprint l) +:+ "]"
  | AMap m =>
      "map[" +:+ join " " (map (fun '(k, s) => k +:+ ":" +:+ s)
        (sort_keys (map (fun '(k, v) => (k, sprint v)) m))) +:+ "]"
  end.

Definition ifDescrPrefix : string := ".1.3.6.1.2.1.2.2.1.2.".
Definition ifIndexPrefix : string := ".1.3.6.1.2.1.2.2.1.1.".

Record trapVarbind := { vb_OID : string; vb_Type : string; vb_Value : any }.

Definition decode_varbind (j : json) : result trapVarbind :=
  l <-? decode_members j;;
  let fields := ["oid"; "type"; "value"]%string in
  oid <-? decode_string "" (field_values fields l "oid");;
  ty <-? decode_string "" (field_values fields l "type");;
  value <-? decode_any ANil (field_values fields l "value");;
  Ok {| vb_OID := oid; vb_Type := ty; vb_Value := value |}.

Fixpoint scan_interface (ifIndex : string) (vars : list trapVarbind) : string :=
  match vars with
  | [] => if negb (String.eqb ifIndex "") then "ifIndex " +:+ ifIndex else ""
  | v :: vars' =>
      if HasPrefix (vb_OID v) ifDescrPrefix then
        match as_string (vb_Value v) with
        | Some s => if negb (String.eqb s "") then s else scan_interface ifIndex vars'
        | None => scan_interface ifIndex vars'
        end
      else if HasPrefix (vb_OID v) ifIndexPrefix then scan_interface (sprint (vb_Value v)) vars'
      else scan_interface ifIndex vars'
  end.

Definition extractInterface (payload : string) : string :=
  match (j <-? parse_all payload;; decode_slice decode_varbind j) with
  | Err _ => ""
  | Ok vars => scan_interface "" vars
  end.

Definition trap_json (t : Trap) : json :=
  JObj [("ID", jint (TID t)); ("SourceIP", JStr (SourceIP t)); ("OID", JStr (OID t));
        ("Payload", JStr (Payload t)); ("Community", JStr (TCommunity t));
        ("AgentAddress", JStr (AgentAddress t)); ("ReceivedAt", JStr (ReceivedAt t))].

Definition readable_json (t : Trap) (dev : string) : json :=
  JObj [("ID", jint (TID t)); ("SourceIP", JStr (SourceIP t)); ("OID", JStr (OID t));
        ("Name", JStr (TrapName (OID t))); ("Device", JStr dev);
        ("Interface", JStr (extractInterface (Payload t)));
        ("Payload", JStr (Payload t)); ("ReceivedAt", JStr (ReceivedAt t))].

Module TrapsApi.
Section traps_api.
Context `{DbEnv} (h : TrapsHandler).

(** The store's nil slice of no rows is encoded as null. *)
Definition List (limit : string) : IO response :=
  try* traps := TrapStore.List (limitFromQuery limit) catch e => ret (writeError 500 e) in
  ret (writeJSON 200 (match traps with [] => JNull | _ => JArr (map trap_json traps) end)).

(** The loop that compares communities. *)
Fixpoint match_community (k : Key) (community : string) (devices : list Device) : string :=
  match devices with
  | [] => ""
  | d :: devices' =>
      if String.eqb (Community d) "" then match_community k community devices'
      else
        match Decrypt k (Community d) with
        | Err _ => match_community k community devices'
        | Ok plain =>
            if String.eqb plain "" then match_community k community devices'
            else if String.eqb plain community then Hostname d
            else match_community k community devices'
        end
  end.

Definition by_community (community : string) : IO string :=
  if String.eqb community "" then ret ""
  else
    match t_Key h with
    | None => ret ""
    | Some k =>
        try* devices := DeviceStore.List catch e => ret "" in
        ret (match_community k community devices)
    end.

Definition resolveDevice (agentAddress community : string) : IO string :=
  if negb (t_Devices h) then ret ""
  else if negb (String.eqb agentAddress "") then
    try* d := DeviceStore.GetByIP agentAddress catch e => by_community community in
    ret (Hostname d)
  else by_community community.

Definition ListReadable (limit : string) : IO response :=
  try* traps := TrapStore.List (limitFromQuery limit) catch e => ret (writeError 500 e) in
  let* readable := map_io (fun t =>
    let* dev := resolveDevice (AgentAddress t) (TCommunity t) in ret (readable_json t dev)) traps in
  ret (writeJSON 200 (JArr readable)).
End traps_api.
End TrapsApi.

(** * The interface, from the packet to the response *)

(** The text of a varbind, as the receiver stores it. *)
Definition text_of (v : any) : option string :=
  match v with
  | AStr s => Some s
  | ABytes b => Some (if utf8_Valid b then b else hex_encode b)
  | _ => None
  end.

(** A scalar after its round trip through JSON. *)
Definition decoded (v : any) : any :=
  match v with
  | ABool b => ABool b
  | AInt z => match lit_float (Itoa z) with Some f => AFloat f | None => ANil end
  | AStr _ | ABytes _ => AStr (default "" (text_of v))
  | _ => ANil
  end.

(** Varbinds as gosnmp delivers them: a scalar, an OID and strings that are valid UTF-8, and
    an integer that a float can approximate. *)
Definition readable_value (v : any) : bool :=
  scalar v &&
  match v with
  | AStr s => utf8_Valid s
  | AInt z => match lit_float (Itoa z) with Some _ => true | None => false end
  | _ => true
  end.

Definition readable_pdu `{TypeNames} (p : SnmpPDU) : bool :=
  utf8_Valid (Name p) && utf8_Valid (type_name (Type_ p)) && readable_value (Value p).

(** The interface a trap is about, on the packet itself: the first non-empty ifDescr, else the
    last ifIndex. *)
Fixpoint interface_of (ifIndex : string) (vars : list SnmpPDU) : string :=
  match vars with
  | [] => if negb (String.eqb ifIndex "") then "ifIndex " +:+ ifIndex else ""
  | p :: vars' =>
      if HasPrefix (Name p) ifDescrPrefix then
        match text_of (Value p) with
        | Some s => if negb (String.eqb s "") then s else interface_of ifIndex vars'
        | None => interface_of ifIndex vars'
        end
      else if HasPrefix (Name p) ifIndexPrefix then interface_of (sprint (decoded (Value p))) vars'
      else interface_of ifIndex vars'
  end.

Lemma hex_encode_valid b : utf8_Valid (hex_encode b) = true.
Proof.
  apply utf8_Valid_ascii. unfold is_ascii. induction b as [|c b IH]; [done|]. cbn.
  destruct (byte_nibbles c) as [x y]. cbn [str_forallb]. rewrite IH, andb_true_r.
  assert (Hc : forall n, (byte_val (hex_char n) <? 128) = true) by (by intros [[[[] []] []] []]).
  by rewrite !Hc.
Qed.

Section interface.
Context `{TypeNames}.

Lemma stored_varbind_valid p : readable_pdu p = true -> json_valid (stored_varbind p) = true.
Proof.
  unfold readable_pdu, readable_value. intros [[Hn Ht]%andb_prop [_ Hv]%andb_prop]%andb_prop.
  unfold stored_varbind, varbind. cbn [json_valid forallb]. rewrite Hn, Ht. cbn [andb].
  destruct (Value p); try reflexivity.
  - cbn [value_json json_valid]. by rewrite Hv.
  - cbn [value_json json_valid]. destruct (utf8_Valid b) eqn:Hb; [by rewrite Hb|].
    by rewrite hex_encode_valid.
Qed.

Lemma decode_stored p : readable_pdu p = true ->
  decode_varbind (stored_varbind p) =
    Ok {| vb_OID := Name p; vb_Type := type_name (Type_ p); vb_Value := decoded (Value p) |}.
Proof.
  unfold readable_pdu, readable_value. intros [_ [Hs Hv]%andb_prop]%andb_prop.
  unfold stored_varbind, varbind, decode_varbind. cbn [decode_members result_bind].
  set (fields := ["oid"; "type"; "value"]%string). set (l := [(_, _); _; _]).
  change (field_values fields l "oid") with [JStr (Name p)].
  change (field_values fields l "type") with [JStr (type_name (Type_ p))].
  change (field_values fields l "value") with [value_json (Value p)].
  cbn [decode_string result_bind decode_any].
  destruct (Value p); try discriminate Hs; try reflexivity. cbn.
  destruct (lit_float (Itoa z)); [done|discriminate Hv].
Qed.

Lemma scan_interface_stored idx vars :
  scan_interface idx (map (fun p => {| vb_OID := Name p; vb_Type := type_name (Type_ p);
    vb_Value := decoded (Value p) |}) vars) = interface_of idx vars.
Proof.
  revert idx. induction vars as [|p vars IH]; intros idx; [done|].
  cbn [map scan_interface interface_of vb_OID vb_Value].
  destruct (HasPrefix (Name p) ifDescrPrefix); [|destruct (HasPrefix _ ifIndexPrefix); apply IH].
  destruct (Value p); cbn; try apply IH; try (by destruct (String.eqb _ _); [apply IH|]).
  destruct (lit_float _); apply IH.
Qed.
End interface.

(** * Properties *)

(** The number an integer varbind is shown as: the float64 it was stored as, by fmt.Sprint. *)
Lemma sprint_int z : 0 <= z < 2 ^ 52 -> sprint (decoded (AInt z)) = fmt_g (F_of_Z z).
Proof. intros Hz. cbn [decoded]. by rewrite lit_float_Itoa. Qed.

(** C20.  The interface shown for a trap is the one in the packet: whatever scalar varbinds a
    trap carries, as gosnmp delivers them ([readable_pdu] above), [extractInterface] of the payload the receiver stores is the first non-empty
    ifDescr of the packet (as text, or hex if it is not UTF-8), else the last ifIndex behind
    the words ifIndex, else nothing.  An ifIndex is shown as fmt.Sprint prints the float64 it
    is stored as: every one below a million in decimal, every one from there to [2^52] with an
    exponent, which is one less than its number of digits. *)
Theorem interface_end_to_end `{TypeNames} (vars : list SnmpPDU) :
  forallb readable_pdu vars = true ->
  (exists payload, encodeVarbinds vars = Ok payload /\ extractInterface payload = interface_of "" vars) /\
  (forall z, 0 <= z < 1000000 -> sprint (decoded (AInt z)) = Itoa z) /\
  (forall z, 1000000 <= z < 2 ^ 52 -> exists digits, sprint (decoded (AInt z)) =
     digits +:+ "e+" +:+ zeros (2 - String.length (Itoa (Z.of_nat (String.length (Itoa z)) - 1))) +:+
       Itoa (Z.of_nat (String.length (Itoa z)) - 1)).
Proof.
  intros Hr. split_and!.
  - exists (print (JArr (map stored_varbind vars))). split.
    + apply encodeVarbinds_scalar. rewrite forallb_forall in Hr |- *. intros p Hp.
      specialize (Hr p Hp). unfold readable_pdu, readable_value in Hr.
      by apply andb_prop in Hr as [_ [Hs _]%andb_prop].
    + unfold extractInterface. rewrite payload_reads_back, norm_valid.
      * cbn [result_bind decode_slice].
        assert (result_map decode_varbind (map stored_varbind vars) =
          Ok (map (fun p => {| vb_OID := Name p; vb_Type := type_name (Type_ p);
            vb_Value := decoded (Value p) |}) vars)) as ->; [|apply scan_interface_stored].
        induction vars as [|p vars IH]; [done|]. cbn in Hr. apply andb_prop in Hr as [Hp Hr].
        cbn [map result_map]. rewrite decode_stored by done. cbn [result_bind]. by rewrite IH.
      * cbn. apply forallb_forall. intros j (p & <- & Hp)%in_map_iff.
        apply stored_varbind_valid. rewrite forallb_forall in Hr. by apply Hr.
  - intros z Hz. rewrite sprint_int by lia. by apply fmt_g_int.
  - intros z Hz. rewrite sprint_int by lia. by apply fmt_g_large.
Qed.

Definition link_varbinds : list SnmpPDU :=
  [{| Name := ".1.3.6.1.2.1.2.2.1.1.2"; Type_ := 2; Value := AInt 2 |};
   {| Name := ".1.3.6.1.2.1.2.2.1.2.2"; Type_ := 4; Value := ABytes "GigabitEthernet0/1" |}].

Lemma interface_end_to_end_witness :
  exists payload, encodeVarbinds (H := sample_types) link_varbinds = Ok payload /\
    extractInterface payload = "GigabitEthernet0/1".
Proof.
  exact (proj1 (interface_end_to_end (H := sample_types) link_varbinds eq_refl)).
Defined.

(** The interface numbers of large devices. *)
Example large_ifindex :
  interface_of "" [{| Name := ".1.3.6.1.2.1.2.2.1.1.7"; Type_ := 2; Value := AInt 436207616 |}] =
    "ifIndex 4.36207616e+08".
Proof. vm_compute. reflexivity. Qed.

(** ** The device *)

Section resolve.
Context `{DbEnv} (h : TrapsHandler).

Lemma match_community_sound k community ds :
  TrapsApi.match_community k community ds = "" \/
  exists d, d ∈ ds /\ TrapsApi.match_community k community ds = Hostname d /\
    Community d <> "" /\ Decrypt k (Community d) = Ok community.
Proof.
  induction ds as [|d ds IH]; [by left|]. cbn [TrapsApi.match_community].
  assert (Hrec : forall s, TrapsApi.match_community k community ds = s -> s = "" \/
    exists d', d' ∈ d :: ds /\ s = Hostname d' /\ Community d' <> "" /\
      Decrypt k (Community d') = Ok community).
  { intros s <-. destruct IH as [->|(d' & Hd & Hs & Hne & Hc)]; [by left|right].
    exists d'. split_and!; [by right|done..]. }
  destruct (String.eqb_spec (Community d) ""); [by apply Hrec|].
  destruct (Decrypt k (Community d)) as [plain|] eqn:Hdec; [|by apply Hrec].
  destruct (String.eqb_spec plain ""); [by apply Hrec|].
  destruct (String.eqb_spec plain community) as [->|]; [|by apply Hrec].
  right. exists d. split_and!; [by left|done..].
Qed.

Lemma match_community_first k community before d after plain :
  (forall d', d' ∈ before -> Decrypt k (Community d') <> Ok community) ->
  Community d <> "" -> Decrypt k (Community d) = Ok plain -> plain <> "" -> community = plain ->
  TrapsApi.match_community k community (before ++ d :: after) = Hostname d.
Proof.
  intros Hb Hne Hd Hp ->. induction before as [|d' before IH]; cbn.
  - rewrite (proj2 (String.eqb_neq _ _) Hne), Hd, (proj2 (String.eqb_neq _ _) Hp).
    by rewrite String.eqb_refl.
  - rewrite IH by (intros d'' Hin; apply Hb; by right).
    destruct (String.eqb _ _); [done|]. destruct (Decrypt k (Community d')) as [p|] eqn:E; [|done].
    destruct (String.eqb_spec p ""); [done|]. destruct (String.eqb_spec p plain) as [->|]; [|done].
    destruct (Hb d'); [by left|done].
Qed.

(** A device the handler may name for a trap. *)
Definition attributable (agentAddress community : string) (rs : list device_row) (name : string) : Prop :=
  name = "" \/ exists r d, In r rs /\ scanDevice r = Ok d /\ name = Hostname d /\
    ((agentAddress <> "" /\ IPAddress d = agentAddress) \/
     (community <> "" /\ exists k, t_Key h = Some k /\ Decrypt k (Community d) = Ok community)).

Lemma by_community_sound agentAddress community w :
  attributable agentAddress community (rows (w_devices w)) (TrapsApi.by_community h community w).1.
Proof.
  unfold TrapsApi.by_community. destruct (String.eqb_spec community ""); [by left|].
  destruct (t_Key h) as [k|] eqn:Hk; [|by left]. rewrite bind_eq.
  destruct (DeviceStore.List w) as [[ds|e] w2] eqn:Hl; [|by left]. cbn [fst snd ret run].
  destruct (match_community_sound k community ds) as [->|(d & Hd & -> & _ & Hc)]; [by left|right].
  revert Hl. unfold DeviceStore.List, DeviceStore.select_rows. rewrite bind_eq, stmt_run.
  destruct (db_fault (w_tick w)); [done|]. cbn. rewrite filter_all.
  unfold DeviceStore.scan_all.
  destruct (result_map scanDevice (rows (w_devices w))) as [ds'|] eqn:Hm; [|done].
  cbn. intros [= <- <-]. apply result_map_Ok in Hm. apply list_elem_of_lookup in Hd as [i Hi].
  destruct (Forall2_lookup_r _ _ _ _ _ Hm Hi) as (r & Hr & Hs).
  exists r, d. split_and!; [apply list_elem_of_In; by eapply list_elem_of_lookup_2|done..|].
  right. split; [done|]. by exists k.
Qed.

Lemma by_ip_sound agentAddress community d w w1 :
  agentAddress <> "" -> DeviceStore.GetByIP agentAddress w = (Ok d, w1) ->
  attributable agentAddress community (rows (w_devices w)) (Hostname d).
Proof.
  intros Hne. unfold DeviceStore.GetByIP, DeviceStore.query_row. rewrite bind_eq, stmt_run.
  destruct (db_fault _); [done|]. cbn.
  destruct (List.find _ (rows (w_devices w))) as [r|] eqn:Hf; [|done].
  destruct (scanDevice r) as [d'|] eqn:Hs; [|done]. cbn. intros [= <- <-].
  apply find_some in Hf as [Hin Hip%String.eqb_eq]. right. exists r, d'. split_and!; [done..|].
  left. split; [done|]. rewrite <- Hip. by apply scanDevice_ip.
Qed.

(** C21.  A trap is attributed to a registered device or to none, never by a guess: a
    non-empty answer is the hostname of a stored device whose address is the trap's agent
    address or whose community decrypts to the trap's; a device with the agent address takes
    precedence, and among communities the first device in id order does. *)
Theorem resolve_device_sound (agentAddress community : string) (w : world) :
  let name := (TrapsApi.resolveDevice h agentAddress community w).1 in
  attributable agentAddress community (rows (w_devices w)) name /\
  (t_Devices h = true -> db_fault (w_tick w) = None -> agentAddress <> "" ->
   forall r d, List.find (fun r => String.eqb (r_ip_address r) agentAddress) (rows (w_devices w)) = Some r ->
     scanDevice r = Ok d -> name = Hostname d) /\
  (t_Devices h = true -> db_fault (w_tick w) = None -> agentAddress = "" -> community <> "" ->
   forall k before d after, t_Key h = Some k ->
     result_map scanDevice (rows (w_devices w)) = Ok (before ++ d :: after) ->
     (forall d', d' ∈ before -> Decrypt k (Community d') <> Ok community) ->
     Community d <> "" -> Decrypt k (Community d) = Ok community -> name = Hostname d).
Proof.
  cbn zeta. unfold TrapsApi.resolveDevice. split_and!.
  - destruct (t_Devices h); [cbn [negb]|by left].
    destruct (String.eqb_spec agentAddress ""); cbn [negb]; [by apply by_community_sound|].
    rewrite bind_eq. pose proof (steps_run _ _ w (steps_GetByIP (frames w_devices) agentAddress)) as Hst.
    destruct (DeviceStore.GetByIP agentAddress w) as [[d|e] w1] eqn:Hg; cbn [fst snd ret run].
    + by eapply by_ip_sound.
    + unfold frames in Hst. cbn [snd] in Hst. rewrite <- Hst. by apply by_community_sound.
  - intros -> Hf Hne r d Hr Hd. cbn [negb]. rewrite (proj2 (String.eqb_neq _ _) Hne). cbn [negb].
    rewrite bind_eq. unfold DeviceStore.GetByIP, DeviceStore.query_row. rewrite bind_eq, stmt_run, Hf.
    cbn. by rewrite Hr, Hd.
  - intros -> Hf -> Hne k before d after Hk Hm Hb Hc Hd. cbn [negb String.eqb].
    unfold TrapsApi.by_community. rewrite (proj2 (String.eqb_neq _ _) Hne), Hk, bind_eq.
    unfold DeviceStore.List, DeviceStore.select_rows. rewrite bind_eq, stmt_run, Hf. cbn.
    rewrite filter_all. unfold DeviceStore.scan_all. rewrite Hm. cbn.
    by apply (match_community_first k community before d after community).
Qed.
End resolve.
