(* ===== verification/Watcher.v ===== *)
(** [config-watcher], the part that keeps the devices table: gateway discovery at startup, the
    routing-table sweep and the health check.  Log lines are left out; everything else a
    function does to the database or sends to the network is here. *)

From S2P Require Import Prelude Float64 Json World Store Gcm Crypto Netutil Snmp.
Open Scope Z_scope.

Definition discovery_probeTimeout : Z := 2 * second.      (* discovery.go: probeTimeout *)
Definition routeSweepTimeout : Z := 3 * second.
Definition healthCheckTimeout : Z := 3 * second.
Definition maxNewDevicesPerSweep : nat := 10.

Definition decryptCredentials (d : Device) (key : Key) : result Credentials :=
  community <-? Decrypt key (Community d);;
  authKey <-? Decrypt key (V3AuthKey d);;
  privKey <-? Decrypt key (V3PrivKey d);;
  Ok {| cVersion := SNMPVersion d; cCommunity := community; cV3User := V3User d;
        cV3AuthKey := authKey; cV3PrivKey := privKey; cV3AuthProtocol := V3AuthProtocol d;
        cV3PrivProtocol := V3PrivProtocol d |}.

(** A device as the watcher builds it. *)
Definition discovered (ip via version community st : string) (public : bool) : Device :=
  Build_Device 0 ip "" version community "" "" "" "" "" "" st public via "" "".

Section watcher.
Context `{DbEnv, SnmpEnv, RandEnv, HostEnv} (key : Key).

(** * discovery.go *)

Definition probeAndUpdate (id : Z) (ip : string) : IO unit :=
  try* creds := ProbeDefaults ip discovery_probeTimeout catch e =>
    (let* _ := DeviceStore.Update id [("status", AStr "failed")] in ret tt) in
  try* encryptedCommunity := Encrypt key (cCommunity creds) catch e => ret tt in
  let* _ := DeviceStore.Update id
    [("snmp_version", AStr (cVersion creds)); ("community", AStr encryptedCommunity);
     ("status", AStr "active")] in
  ret tt.

Definition DiscoverGateway : IO (result string) :=
  let* t := next_tick in ret (discover_gateway t).

Definition discoverGatewayDevice : IO unit :=
  try* ip := DiscoverGateway catch e => ret tt in
  let* r := DeviceStore.GetByIP ip in
  match r with
  | Ok _ => ret tt
  | Err e =>
      if negb (bool_decide (e = ErrNotFound)) then ret tt
      else
        let d := discovered ip "gateway" "" "" "pending" (IsPublic ip) in
        try* id := DeviceStore.Create d catch e => ret tt in
        probeAndUpdate id ip
  end.

(** * discovery_sweep.go *)

Definition shouldConsiderDiscoveredIP (ip parentIP : string) : IO bool :=
  if String.eqb ip parentIP then ret false
  else if IsPublic ip then ret false
  else
    let* r := DeviceStore.GetByIP ip in
    match r with
    | Ok _ => ret false
    | Err e => if negb (bool_decide (e = ErrNotFound)) then ret false else ret true
    end.

Definition insertDiscoveredDevice (ip : string) (parentCreds : Credentials) (dupEnabled : bool)
    : IO bool :=
  let* d :=
    (if dupEnabled then
       let* enc := Encrypt key (cCommunity parentCreds) in
       let '(version, community) :=
         match enc with Err _ => ("", "") | Ok c => (cVersion parentCreds, c) end in
       let* v := Verify ip parentCreds routeSweepTimeout in
       ret (discovered ip "routing_table_sweep" version community
         (if is_ok v then "active" else "failed") false)
     else ret (discovered ip "routing_table_sweep" "" "" "pending" false)) in
  let* r := DeviceStore.Create d in
  ret (is_ok r).

(** The loop over the hops of one parent, and the number of devices inserted so far. *)
Fixpoint sweep_hops (parentIP : string) (parentCreds : Credentials) (dup : bool)
    (newCount : nat) (hops : list string) : IO nat :=
  match hops with
  | [] => ret newCount
  | hopIP :: hops' =>
      if (maxNewDevicesPerSweep <=? newCount)%nat then ret newCount
      else
        let* ok := shouldConsiderDiscoveredIP hopIP parentIP in
        if negb ok then sweep_hops parentIP parentCreds dup newCount hops'
        else
          let* inserted := insertDiscoveredDevice hopIP parentCreds dup in
          sweep_hops parentIP parentCreds dup
            (if inserted : bool then S newCount else newCount) hops'
  end.

Fixpoint sweep_parents (dup : bool) (newCount : nat) (parents : list Device) : IO unit :=
  match parents with
  | [] => ret tt
  | parent :: parents' =>
      if (maxNewDevicesPerSweep <=? newCount)%nat then ret tt
      else
        match decryptCredentials parent key with
        | Err _ => sweep_parents dup newCount parents'
        | Ok parentCreds =>
            try* hops := WalkRouteNextHops (IPAddress parent) parentCreds routeSweepTimeout
              catch e => sweep_parents dup newCount parents' in
            let* newCount := sweep_hops (IPAddress parent) parentCreds dup newCount hops in
            sweep_parents dup newCount parents'
        end
  end.

Definition runDiscoverySweep : IO unit :=
  try* dupEnabled := SettingsStore.Get "credential_duplication_enabled" catch e => ret tt in
  try* activeDevices := DeviceStore.ListByStatus "active" catch e => ret tt in
  sweep_parents (String.eqb dupEnabled "1") 0 activeDevices.

(** * healthcheck.go *)

(** [ipv4.ICMPTypeEchoReply]. *)
Definition ICMPTypeEchoReply : Z := 0.

(** The first message that arrives decides, whoever sent it. *)
Definition pingHost (ip : string) (timeout : Z) : IO bool :=
  let* t := next_tick in
  match icmp_listen t with
  | Some _ => ret false
  | None =>
      emit (EvPing ip) ;;;
      let* t := next_tick in
      match icmp_write t ip with
      | Some _ => ret false
      | None =>
          let* t := next_tick in
          match icmp_deadline t timeout with
          | Some _ => ret false
          | None =>
              let* t := next_tick in
              match icmp_read t 512 with
              | Err _ => ret false
              | Ok rb =>
                  match icmp_parse rb with
                  | Err _ => ret false
                  | Ok ty => ret (ty =? ICMPTypeEchoReply)
                  end
              end
          end
      end
  end.

Definition check_one (d : Device) : IO unit :=
  if String.eqb (SNMPVersion d) "" then ret tt
  else
    let* pingOK := pingHost (IPAddress d) healthCheckTimeout in
    match decryptCredentials d key with
    | Err _ => ret tt
    | Ok creds =>
        let* v := Verify (IPAddress d) creds healthCheckTimeout in
        let newStatus := if is_ok v then "active" else "failed" in
        if String.eqb newStatus (Status d) then ret tt
        else let* _ := DeviceStore.Update (ID d) [("status", AStr newStatus)] in ret tt
    end.

Definition checkDeviceHealth : IO unit :=
  try* all := DeviceStore.List catch e => ret tt in
  for_each all check_one.
End watcher.
