(* ===== verification/WatcherFacts.v ===== *)
(** What the background jobs of config-watcher may and may not do: bounds on a discovery
    sweep, where credentials travel, and what the health check decides a status by. *)

From S2P Require Import Prelude Float64 Json World Store StoreFacts StoreSpec Gcm Crypto Netutil.
From S2P Require Import Snmp ConfigApi ConfigApiFacts Watcher.
Open Scope Z_scope.

(** * Rows added at the end of the table *)

(** [n] rows satisfying [P] were added, and nothing else happened to the table's rows. *)
Definition extends (P : device_row -> Prop) (n : nat) (w w' : world) : Prop :=
  exists new, rows (w_devices w') = rows (w_devices w) ++ new /\ length new = n /\ Forall P new.

Lemma extends_refl P w w' : w_devices w' = w_devices w -> extends P 0 w w'.
Proof. intros Hd. exists []. by rewrite Hd, app_nil_r. Qed.

Lemma extends_trans P n m w1 w2 w3 :
  extends P n w1 w2 -> extends P m w2 w3 -> extends P (n + m) w1 w3.
Proof.
  intros (l1 & H1 & L1 & F1) (l2 & H2 & L2 & F2). exists (l1 ++ l2).
  rewrite H2, H1, app_assoc, length_app. split_and!; [done|lia|by apply Forall_app].
Qed.

Section sweep.
Context `{DbEnv, SnmpEnv, RandEnv, HostEnv} (key : Key).

(** What a row found by a sweep looks like. *)
Record swept (dup : bool) (r : device_row) : Prop := {
  sw_private : IsPrivate (r_ip_address r) = true;
  sw_via : r_discovered_via r = VText "routing_table_sweep";
  sw_public : r_is_public_ip r = VInt 0;
  sw_no_v3 : r_v3_user r = VText "" /\ r_v3_auth_key r = VText "" /\ r_v3_priv_key r = VText "";
  sw_plain : dup = false ->
    r_snmp_version r = VText "" /\ r_community r = VText "" /\ r_status r = VText "pending";
  sw_probed : dup = true -> r_status r = VText "active" \/ r_status r = VText "failed"
}.

Lemma Create_extends P d w w' r :
  DeviceStore.Create d w = (r, w') ->
  (forall id now, P (DeviceStore.row_of (stored d) id now)) ->
  extends P (if is_ok r then 1 else 0) w w'.
Proof.
  intros Hrun HP. destruct (Create_cases d w) as [[e He]|(He & _)]; rewrite He in Hrun;
    injection Hrun as <- <-.
  - by apply extends_refl.
  - eexists. split_and!; [done..|]. by constructor.
Qed.

Lemma shouldConsider_frames R `{!PreOrder R, !Ticks R} ip parent :
  io_steps R (shouldConsiderDiscoveredIP ip parent).
Proof. unfold shouldConsiderDiscoveredIP. io_walk. Qed.

Lemma shouldConsider_public ip parent :
  IsPublic ip = true -> shouldConsiderDiscoveredIP ip parent = ret false.
Proof. intros Hp. unfold shouldConsiderDiscoveredIP. rewrite Hp. by destruct (String.eqb _ _). Qed.

Lemma insert_extends ip creds dup w b w' :
  IsPrivate ip = true -> insertDiscoveredDevice key ip creds dup w = (b, w') ->
  extends (swept dup) (if b : bool then 1 else 0) w w'.
Proof.
  intros Hip Hrun. unfold insertDiscoveredDevice in Hrun.
  apply bind_inv in Hrun as (d & w1 & Hd & Hrun).
  apply bind_inv in Hrun as (r & w2 & Hc & Hrun). injection Hrun as <- <-.
  assert (Hgo : w_devices w1 = w_devices w /\ forall id now, swept dup (DeviceStore.row_of (stored d) id now)).
  { destruct dup; [|injection Hd as <- <-; split; [done|]; by split].
    apply bind_inv in Hd as (enc & w3 & He & Hd).
    destruct (match enc with Err _ => ("", "") | Ok c => (cVersion creds, c) end) as [version community].
    apply bind_inv in Hd as (v & w4 & Hv & Hd). injection Hd as <- <-. split.
    - etransitivity; [eapply (frames_run w_devices); [|exact Hv]|eapply (frames_run w_devices); [|exact He]].
      + by apply (steps_Verify (fun _ => True)); try apply _.
      + apply steps_Encrypt; apply _.
    - intros id now. destruct (is_ok v); (split; cbn; auto; done). }
  destruct Hgo as [Hdev HP]. pose proof (Create_extends _ _ _ _ _ Hc HP) as (l & H1' & H2' & H3').
  exists l. by rewrite <- Hdev.
Qed.

Lemma sweep_hops_extends parentIP creds dup c hops w c' w' :
  (c <= maxNewDevicesPerSweep)%nat -> sweep_hops key parentIP creds dup c hops w = (c', w') ->
  exists n, extends (swept dup) n w w' /\ c' = (c + n)%nat /\ (c' <= maxNewDevicesPerSweep)%nat.
Proof.
  revert c w. induction hops as [|hop hops IH]; intros c w Hc; cbn [sweep_hops].
  { intros [= <- <-]. exists O. split_and!; [by apply extends_refl|lia|done]. }
  destruct (Nat.leb_spec maxNewDevicesPerSweep c).
  { intros [= <- <-]. exists O. split_and!; [by apply extends_refl|lia|done]. }
  intros Hrun. apply bind_inv in Hrun as (ok & w1 & Hok & Hrun).
  assert (Hdev : w_devices w1 = w_devices w).
  { eapply (frames_run w_devices); [|exact Hok]. apply shouldConsider_frames; apply _. }
  assert (Hskip : forall n, extends (swept dup) n w1 w' -> extends (swept dup) n w w').
  { intros n (l & Hl & ?). exists l. by rewrite <- Hdev. }
  destruct ok; cbn [negb] in Hrun.
  - destruct (IsPublic hop) eqn:Hpub; [rewrite shouldConsider_public in Hok by done; done|].
    apply negb_false_iff in Hpub. apply bind_inv in Hrun as (ins & w2 & Hins & Hrun).
    apply insert_extends in Hins; [|done].
    destruct (IH (if ins then S c else c) w2) as (n & Hn & -> & Hle); [destruct ins; lia|done|].
    exists ((if ins then 1 else 0) + n)%nat. split_and!; [|destruct ins; lia|done].
    apply Hskip. by eapply extends_trans.
  - destruct (IH c w1 Hc Hrun) as (n & Hn & -> & Hle). exists n. split_and!; [by apply Hskip|done..].
Qed.

Lemma sweep_parents_extends dup c parents w w' u :
  (c <= maxNewDevicesPerSweep)%nat -> sweep_parents key dup c parents w = (u, w') ->
  exists n, extends (swept dup) n w w' /\ (c + n <= maxNewDevicesPerSweep)%nat.
Proof.
  revert c w. induction parents as [|p parents IH]; intros c w Hc; cbn [sweep_parents].
  { intros [= _ <-]. exists O. split; [by apply extends_refl|lia]. }
  destruct (Nat.leb_spec maxNewDevicesPerSweep c).
  { intros [= _ <-]. exists O. split; [by apply extends_refl|lia]. }
  destruct (decryptCredentials p key) as [creds|]; [|by apply IH].
  intros Hrun. apply bind_inv in Hrun as (hops & w1 & Hw & Hrun).
  assert (Hdev : w_devices w1 = w_devices w).
  { eapply (frames_run w_devices); [|exact Hw]. by apply (steps_Walk (fun _ => True)); try apply _. }
  assert (Hskip : forall n, extends (swept dup) n w1 w' -> extends (swept dup) n w w').
  { intros n (l & Hl & ?). exists l. by rewrite <- Hdev. }
  destruct hops as [hops|e].
  - apply bind_inv in Hrun as (c' & w2 & Hh & Hrun).
    destruct (sweep_hops_extends _ _ _ _ _ _ _ _ Hc Hh) as (n & Hn & -> & Hle).
    destruct (IH _ _ Hle Hrun) as (m & Hm & Hle2). exists (n + m)%nat.
    split; [|lia]. apply Hskip. by eapply extends_trans.
  - destruct (IH _ _ Hc Hrun) as (n & Hn & Hle). exists n. split; [by apply Hskip|done].
Qed.

(** ** Where requests go *)

(** The requests of a sweep over [parents]: walks of the parents with their own credentials,
    and, if duplication is on, GETs to private addresses with a parent's credentials. *)
Definition sweep_event (dup : bool) (parents : list Device) (e : event) : Prop :=
  exists p creds c, p ∈ parents /\ decryptCredentials p key = Ok creds /\
    ((e = EvWalk c /\ buildClient (IPAddress p) creds routeSweepTimeout = Ok c) \/
     (dup = true /\ exists ip, IsPrivate ip = true /\
        e = EvGet c /\ buildClient ip creds routeSweepTimeout = Ok c)).

(** The sweep stores only credentials that it encrypted. *)
Context (R : relation world) `{!PreOrder R, !Ticks R}.
Context (creates : forall d, Forall (encryption key) [Community d; V3AuthKey d; V3PrivKey d] ->
  io_steps R (DeviceStore.Create d)).

Lemma steps_insert P `{!AllowsEvents P R} ip creds dup :
  (forall c, dup = true -> buildClient ip creds routeSweepTimeout = Ok c -> P (EvGet c)) ->
  io_steps R (insertDiscoveredDevice key ip creds dup).
Proof.
  intros HP. unfold insertDiscoveredDevice. pose proof (encryption_empty key) as H0'.
  apply (steps_bind_post R (fun d => Forall (encryption key) [Community d; V3AuthKey d; V3PrivKey d])).
  - destruct dup; [|by repeat constructor].
    apply (returns_bind (encryption_result key)); [apply Encrypt_result|].
    intros [c|] He; (eapply returns_bind; [apply returns_any|]; by repeat constructor).
  - destruct dup; [|by apply steps_ret]. apply steps_bind; [by apply steps_Encrypt|intros enc].
    destruct (match enc with Err _ => ("", "") | Ok c => (cVersion creds, c) end).
    apply steps_bind; [ |intros; by apply steps_ret].
    apply (steps_Verify P); [done..|]. intros c. by apply HP.
  - intros d Hd. apply steps_bind; [by apply creates|intros; by apply steps_ret].
Qed.

Lemma steps_sweep_hops P `{!AllowsEvents P R} parentIP creds dup c hops :
  (forall ip c, dup = true -> IsPrivate ip = true -> buildClient ip creds routeSweepTimeout = Ok c ->
     P (EvGet c)) ->
  io_steps R (sweep_hops key parentIP creds dup c hops).
Proof.
  intros HP. revert c. induction hops as [|hop hops IH]; intros c; cbn [sweep_hops]; [by apply steps_ret|].
  destruct (_ <=? c)%nat; [by apply steps_ret|]. destruct (IsPublic hop) eqn:Hpub.
  - rewrite shouldConsider_public by done. apply IH.
  - apply negb_false_iff in Hpub. apply steps_bind; [by apply shouldConsider_frames|].
    intros []; cbn [negb]; [|apply IH].
    apply steps_bind; [apply (steps_insert P)|intros; apply IH]. intros c' Hd. by apply HP.
Qed.

Lemma steps_sweep_parents dup c parents :
  AllowsEvents (sweep_event dup parents) R -> io_steps R (sweep_parents key dup c parents).
Proof.
  intros HA. enough (Hall : forall l c, l ⊆ parents -> io_steps R (sweep_parents key dup c l)) by by apply Hall.
  clear c. induction l as [|p l IH]; intros c Hl; cbn [sweep_parents]; [by apply steps_ret|].
  assert (Hp : p ∈ parents) by (apply Hl; by left).
  assert (Hl' : l ⊆ parents) by (intros x Hx; apply Hl; by right).
  destruct (_ <=? c)%nat; [by apply steps_ret|].
  destruct (decryptCredentials p key) as [creds|] eqn:Hd; [|by apply IH].
  apply steps_bind; [ |intros [hops|e]; [|by apply IH]].
  - apply (steps_Walk (sweep_event dup parents)); [done..|]. intros cl Hcl.
    exists p, creds, cl. split_and!; [done..|by left].
  - apply steps_bind; [ |intros; by apply IH].
    apply (steps_sweep_hops (sweep_event dup parents)). intros ip cl Hdup Hip Hcl.
    exists p, creds, cl. split_and!; [done..|right]. eauto.
Qed.
End sweep.

(** * Properties of the sweep *)

Section sweep_properties.
Context `{DbEnv, SnmpEnv, RandEnv, HostEnv} (key : Key).

(** Whether the setting allows credentials to be tried on new devices. *)
Definition duplication_on (w : world) : bool :=
  match w_settings w !! "credential_duplication_enabled" with
  | Some v => String.eqb v "1"
  | None => false
  end.

(** The devices [ListByStatus] gives the sweep; none if a row cannot be read. *)
Definition active_devices (w : world) : list Device :=
  match DeviceStore.scan_all
    (List.filter (fun r => DeviceStore.text_is "active" (r_status r)) (rows (w_devices w))) with
  | Ok ds => ds
  | Err _ => []
  end.

(** The sweep is nothing but its two reads, or those and its loop. *)
Lemma sweep_shape w :
  (exists w1, (runDiscoverySweep key w).2 = w1 /\ (w1 = bump w \/ w1 = bump (bump w))) \/
  (runDiscoverySweep key w).2 =
    (sweep_parents key (duplication_on w) 0 (active_devices w) (bump (bump w))).2.
Proof.
  unfold runDiscoverySweep, duplication_on, active_devices. rewrite bind_eq.
  destruct (SettingsStore.Get _ w) as [[v|e] w1] eqn:Hg; apply settings_Get_run in Hg as [-> Hv];
    cbn [fst snd]; [|left; eexists; split; [reflexivity|by left]].
  rewrite Hv, bind_eq. destruct (DeviceStore.ListByStatus _ (bump w)) as [[ds|e] w2] eqn:Hl;
    apply ListByStatus_run in Hl as [-> Hds]; cbn [fst snd];
    [|left; eexists; split; [reflexivity|by right]].
  right. change (w_devices (bump w)) with (w_devices w) in Hds. by rewrite Hds.
Qed.

Lemma sweep_keeps R `{!PreOrder R, !Ticks R, !IgnoresDevices R} w
    `{!AllowsEvents (sweep_event key (duplication_on w) (active_devices w)) R} :
  R (bump (bump w)) (sweep_parents key (duplication_on w) 0 (active_devices w) (bump (bump w))).2.
Proof.
  apply (steps_run R), steps_sweep_parents; try apply _. intros d _. by apply ignored_Create.
Qed.

(** C22.  A discovery sweep is bounded and private.  It leaves every row of the devices table
    as it is and appends at most ten, each with a private address, marked as found by the
    sweep and not public; when duplication is off these carry no credentials and are pending;
    when it is on, the stored status is the outcome of a probe.  What it sends are walks of
    active devices with their own credentials and, only when duplication is on, reads of
    private addresses with the credentials of an active device.  It changes no setting, no
    trap and no configuration file. *)
Theorem sweep_bounded_and_private (w : world) :
  let w' := (runDiscoverySweep key w).2 in
  (exists n, extends (swept (duplication_on w)) n w w' /\ (n <= 10)%nat) /\
  traces (sweep_event key (duplication_on w) (active_devices w)) w w' /\
  w_settings w' = w_settings w /\ w_traps w' = w_traps w /\ w_conf w' = w_conf w.
Proof.
  cbn zeta. destruct (sweep_shape w) as [(w1 & -> & Hw1)| ->].
  - assert (w_devices w1 = w_devices w /\ w_trace w1 = w_trace w /\ w_settings w1 = w_settings w /\
      w_traps w1 = w_traps w /\ w_conf w1 = w_conf w) as (Hd & Ht & ?) by (by destruct Hw1 as [->| ->]).
    split; [exists O; split; [by apply extends_refl|lia]|]. split; [|done].
    exists []. by rewrite Ht.
  - split; [|split; [|split_and!]].
    + destruct (sweep_parents key _ 0 _ _) as [u w'] eqn:Hr. cbn [snd].
      apply sweep_parents_extends in Hr as (n & (l & Hl & ?) & Hn); [|lia].
      exists n. split; [by exists l|done].
    + exact (sweep_keeps (traces _) w).
    + exact (sweep_keeps (frames w_settings) w).
    + exact (sweep_keeps (frames w_traps) w).
    + exact (sweep_keeps (frames w_conf) w).
Qed.

(** C23.  What a sweep stores for a neighbour of an SNMPv3 device is not enough to poll it:
    with duplication on the neighbour is probed with all of the parent's credentials, but the
    row keeps the version and the community only, so a health check of the row, which reads
    the credentials back, asks with an empty user and no keys. *)
Theorem swept_v3_device_loses_credentials (ip : string) (creds got : Credentials) (w w' : world)
    (d : Device) (r : device_row) (b : bool) :
  insertDiscoveredDevice key ip creds true w = (b, w') -> db_ok w ->
  abs (w_devices w) !! r_id r = None -> abs (w_devices w') !! r_id r = Some r ->
  scanDevice r = Ok d -> decryptCredentials d key = Ok got ->
  cV3User got = "" /\ cV3AuthKey got = "" /\ cV3PrivKey got = "".
Proof.
  intros Hrun Hok Hnew Hr Hd Hg.
  assert (Hno : V3User d = "" /\ V3AuthKey d = "" /\ V3PrivKey d = "").
  { unfold insertDiscoveredDevice in Hrun. apply bind_inv in Hrun as (d0 & w1 & Hd0 & Hrun).
    apply bind_inv in Hrun as (res & w2 & Hc & Hrun). injection Hrun as <- <-.
    apply bind_inv in Hd0 as (enc & w3 & He & Hd0).
    destruct (match enc with Err _ => ("", "") | Ok c => (cVersion creds, c) end) as [version community].
    apply bind_inv in Hd0 as (v & w4 & Hv & Hd0). injection Hd0 as <- <-.
    assert (Hdev : w_devices w4 = w_devices w).
    { etransitivity; [eapply (frames_run w_devices); [|exact Hv]|eapply (frames_run w_devices); [|exact He]].
      + by apply (steps_Verify (fun _ => True)); try apply _.
      + apply steps_Encrypt; apply _. }
    assert (Hok4 : db_ok w4) by (unfold db_ok; by rewrite Hdev).
    destruct (Create_cases (discovered ip "routing_table_sweep" version community
      (if is_ok v then "active" else "failed") false) w4) as [[e Hce]|(Hce & _)];
      rewrite Hce in Hc; injection Hc as <- <-.
    - change (w_devices (bump w4)) with (w_devices w4) in Hr. rewrite Hdev in Hr. congruence.
    - rewrite abs_grown in Hr by done. rewrite lookup_insert in Hr.
      destruct (decide _) as [Hi|Hi]; [|rewrite Hdev in Hr; congruence].
      injection Hr as <-. rewrite scanDevice_row_of in Hd. injection Hd as <-.
      by destruct (is_ok v). }
  destruct Hno as (Hu & Ha & Hp). unfold decryptCredentials in Hg.
  destruct (Decrypt key (Community d)); [|done]. cbn [result_bind] in Hg.
  rewrite Ha, Hp, Hu in Hg. cbn in Hg. by injection Hg as <-.
Qed.
End sweep_properties.

(** * The jobs as steps of one relation *)

(** An assignment that puts a value with [V] into a plain column, or a ciphertext into one of the
    credentials. *)
Definition harmless `{RandEnv} (V : any -> Prop) (k : Key) (kv : string * any) : Prop :=
  (kv.1 ∈ plain_keys /\ V kv.2) \/ (kv.1 ∈ secret_keys /\ exists e, kv.2 = AStr e /\ encryption k e).

Lemma harmless_plain `{RandEnv} (V : any -> Prop) k c v :
  bool_decide (c ∈ plain_keys) = true -> V v -> harmless V k (c, v).
Proof. intros Hc%bool_decide_eq_true_1 Hv. by left. Qed.

Section jobs.
Context `{DbEnv, SnmpEnv, RandEnv, HostEnv} (key : Key).
Context (R : relation world) `{!PreOrder R, !Ticks R, !AllowsEvents (fun _ => True) R}.
Context (creates : forall d, Forall (encryption key) [Community d; V3AuthKey d; V3PrivKey d] ->
  io_steps R (DeviceStore.Create d)).
Context (V : any -> Prop) (text : forall s, V (AStr s)).
Context (updates : forall id u, Forall (harmless V key) u -> io_steps R (DeviceStore.Update id u)).

Lemma steps_runDiscoverySweep : io_steps R (runDiscoverySweep key).
Proof.
  unfold runDiscoverySweep. apply steps_bind; [by apply steps_settings_Get|].
  intros [dup|]; [|by apply steps_ret]. apply steps_bind; [by apply steps_ListByStatus|].
  intros [ds|]; [|by apply steps_ret]. apply steps_sweep_parents; try done. by apply allows_any.
Qed.

Lemma steps_probeAndUpdate id ip : io_steps R (probeAndUpdate key id ip).
Proof.
  unfold probeAndUpdate. apply steps_bind; [ |intros [creds|]].
  - apply (steps_ProbeDefaults (fun _ => True)); done.
  - apply (steps_bind_post R (encryption_result key)); [apply Encrypt_result|by apply steps_Encrypt|].
    intros [e|] He; [|by apply steps_ret]. apply steps_bind; [ |intros; by apply steps_ret].
    apply updates. rewrite !Forall_cons. split_and!; [by apply harmless_plain| |by apply harmless_plain|constructor].
    right. split; [by apply (bool_decide_unpack _)|by exists e].
  - apply steps_bind; [ |intros; by apply steps_ret]. apply updates.
    rewrite Forall_cons. split; [by apply harmless_plain|constructor].
Qed.

Lemma steps_discoverGatewayDevice : io_steps R (discoverGatewayDevice key).
Proof.
  unfold discoverGatewayDevice, DiscoverGateway. apply steps_bind; [by io_walk|].
  intros [ip|]; [|by apply steps_ret]. apply steps_bind; [by apply steps_GetByIP|].
  intros [d|e]; [by apply steps_ret|]. destruct (negb _); [by apply steps_ret|]. cbv zeta.
  apply steps_bind; [ |intros [id|]; [apply steps_probeAndUpdate|by apply steps_ret]].
  apply creates. pose proof (encryption_empty key). by repeat constructor.
Qed.
End jobs.

(** * The health check *)

(** Nothing but the status, and the time of the last update, differs. *)
Definition same_but_status (r r' : device_row) : Prop :=
  r_id r' = r_id r /\ r_ip_address r' = r_ip_address r /\ r_created_at r' = r_created_at r /\
  (forall c, c <> c_status -> get_col c r' = get_col c r) /\
  (r_status r' = r_status r \/ r_status r' = VText "active" \/ r_status r' = VText "failed").

Definition only_statuses (w w' : world) : Prop :=
  Forall2 same_but_status (rows (w_devices w)) (rows (w_devices w')) /\
  seq (w_devices w') = seq (w_devices w).

#[export] Instance same_but_status_refl : Reflexive same_but_status.
Proof. intros r. by split_and!; [..|left]. Qed.

#[export] Instance same_but_status_trans : Transitive same_but_status.
Proof.
  intros r1 r2 r3 (A1 & A2 & A3 & A4 & A5) (B1 & B2 & B3 & B4 & B5). split_and!; try congruence.
  - intros c Hc. rewrite B4, A4; done.
  - destruct B5 as [->|?]; [done|by right].
Qed.

#[export] Instance only_statuses_preorder : PreOrder only_statuses.
Proof.
  split.
  - intros w. split; [|done]. apply Forall2_same_length_lookup_2; [done|].
    intros i x y Hx Hy. simplify_eq. reflexivity.
  - intros w1 w2 w3 [F1 S1] [F2 S2]. split; [|congruence].
    by transitivity (rows (w_devices w2)).
Qed.

#[export] Instance only_statuses_ticks : Ticks only_statuses.
Proof. intros w. change (only_statuses w w). reflexivity. Qed.

#[export] Instance only_statuses_allow P : AllowsEvents P only_statuses.
Proof. intros e w _. change (only_statuses w w). reflexivity. Qed.

Section health.
Context `{DbEnv, SnmpEnv, HostEnv} (key : Key).

Lemma status_update_steps id (b : bool) :
  io_steps only_statuses (DeviceStore.Update id [("status", AStr (if b then "active" else "failed"))]).
Proof.
  apply steps_Update; try apply _. intros sets vals w Hs Hv.
  change (Ok [(c_status, AStr (if b then "active" else "failed"))] = Ok sets) in Hs. injection Hs as <-.
  change (Ok [(c_status, VText (if b then "active" else "failed"))] = Ok vals) in Hv. injection Hv as <-.
  unfold DeviceStore.update_device. cbn zeta. destruct (forallb _ _); [|reflexivity].
  split; [|done]. cbn. unfold DeviceStore.update_rows. apply Forall2_fmap_r.
  apply Forall2_same_length_lookup_2; [done|]. intros i x y Hx Hy. simplify_eq.
  unfold compose. destruct (r_id x =? id); [|reflexivity]. split_and!; try done.
  - intros c Hc. by destruct c.
  - right. cbn. destruct b; auto.
Qed.

(** The requests of a health check: each device is pinged and read at its own address, the
    read with its own credentials. *)
Definition health_event (ds : list Device) (e : event) : Prop :=
  exists d, d ∈ ds /\ SNMPVersion d <> "" /\
    (e = EvPing (IPAddress d) \/
     exists creds c, decryptCredentials d key = Ok creds /\ e = EvGet c /\
       buildClient (IPAddress d) creds healthCheckTimeout = Ok c).

Lemma steps_pingHost P R `{!PreOrder R, !Ticks R, !AllowsEvents P R} ip timeout :
  P (EvPing ip) -> io_steps R (pingHost ip timeout).
Proof. intros HP. unfold pingHost. io_walk. by apply (steps_emit P). Qed.

Lemma steps_check_one R `{!PreOrder R, !Ticks R} ds d :
  AllowsEvents (health_event ds) R ->
  (forall id (b : bool), io_steps R (DeviceStore.Update id [("status", AStr (if b then "active" else "failed"))])) ->
  d ∈ ds -> io_steps R (check_one key d).
Proof.
  intros HA Hu Hd. unfold check_one. destruct (String.eqb_spec (SNMPVersion d) ""); [by apply steps_ret|].
  assert (Hping : io_steps R (pingHost (IPAddress d) healthCheckTimeout)).
  { apply (steps_pingHost (health_event ds)); [done..|]. exists d. split_and!; [done..|by left]. }
  apply steps_bind; [exact Hping|intros _].
  destruct (decryptCredentials d key) as [creds|] eqn:Hc; [|by apply steps_ret].
  apply steps_bind; [ |intros v].
  - apply (steps_Verify (health_event ds)); [done..|]. intros c Hb.
    exists d. split_and!; [done..|right]. eauto.
  - cbv zeta. destruct (String.eqb _ _); [by apply steps_ret|].
    apply steps_bind; [apply Hu|intros; by apply steps_ret].
Qed.

Lemma steps_checkDeviceHealth R `{!PreOrder R, !Ticks R, !AllowsEvents (fun _ => True) R} :
  (forall id (b : bool), io_steps R (DeviceStore.Update id [("status", AStr (if b then "active" else "failed"))])) ->
  io_steps R (checkDeviceHealth key).
Proof.
  intros Hu. unfold checkDeviceHealth. apply steps_bind; [by apply steps_List|].
  intros [ds|]; [|by apply steps_ret]. apply steps_for_each. intros d Hd.
  apply (steps_check_one R ds); [by apply allows_any|done..].
Qed.

(** Run on its own, it contacts only the devices there are. *)
Lemma steps_health R `{!PreOrder R, !Ticks R} w :
  AllowsEvents (health_event (match DeviceStore.scan_all (rows (w_devices w)) with Ok ds => ds | Err _ => [] end)) R ->
  (forall id (b : bool), io_steps R (DeviceStore.Update id [("status", AStr (if b then "active" else "failed"))])) ->
  R w (checkDeviceHealth key w).2.
Proof.
  intros HA Hu. unfold checkDeviceHealth. rewrite bind_eq.
  destruct (DeviceStore.List w) as [[ds|e] w1] eqn:Hl; apply List_run in Hl as [-> Hds]; cbn [fst snd].
  - etransitivity; [apply ticks|]. rewrite Hds in HA.
    apply (steps_run R), steps_for_each. intros d Hd. by eapply steps_check_one.
  - apply ticks.
Qed.
End health.

(** ** The status it decides *)

(** A network that answers the same way at any time, for a while. *)
Class SteadySnmp `{SnmpEnv} : Prop := {
  steady_connect : forall t c, snmp_connect t c = snmp_connect 0 c;
  steady_get : forall t c oid, snmp_get t c oid = snmp_get 0 c oid
}.

Section decision.
Context `{DbEnv, SnmpEnv, HostEnv, !SteadySnmp} (key : Key).
Context (no_faults : forall t, db_fault t = None).

(** Whether the device answers SNMP with these credentials. *)
Definition answers (ip : string) (creds : Credentials) : bool :=
  match buildClient ip creds healthCheckTimeout with
  | Err _ => false
  | Ok c =>
      match snmp_connect 0 c, snmp_get 0 c sysDescr0 with None, None => true | _, _ => false end
  end.

Lemma Verify_answers ip creds w : is_ok (Verify ip creds healthCheckTimeout w).1 = answers ip creds.
Proof.
  unfold Verify, answers. destruct (buildClient _ _ _) as [c|]; [|done].
  unfold connect, get_oid. io_run.
  rewrite steady_connect. destruct (snmp_connect 0 c); [done|]. io_run.
  rewrite steady_get. by destruct (snmp_get 0 c sysDescr0).
Qed.

(** The status a check leaves a device with. *)
Definition checked_status (d : Device) : string :=
  if String.eqb (SNMPVersion d) "" then Status d
  else
    match decryptCredentials d key with
    | Err _ => Status d
    | Ok creds => if answers (IPAddress d) creds then "active" else "failed"
    end.

(** One device: its row ends up with the status, the other rows as they were; nothing is
    written when the status is already right. *)
Lemma check_one_spec d w r :
  db_ok w -> abs (w_devices w) !! ID d = Some r -> r_status r = VText (Status d) ->
  let w' := (check_one key d w).2 in
  db_ok w' /\
  (exists r', abs (w_devices w') = <[ID d := r']> (abs (w_devices w)) /\
     r_status r' = VText (checked_status d)) /\
  (checked_status d = Status d -> w_devices w' = w_devices w).
Proof.
  intros Hok Hr Hst. cbn zeta.
  assert (Hsame : forall w', w_devices w' = w_devices w -> checked_status d = Status d ->
    db_ok w' /\ (exists r', abs (w_devices w') = <[ID d := r']> (abs (w_devices w)) /\
      r_status r' = VText (checked_status d)) /\
    (checked_status d = Status d -> w_devices w' = w_devices w)).
  { intros w' Hw Hc. split_and!; [unfold db_ok; by rewrite Hw| |done]. exists r. split; [|by rewrite Hc].
    rewrite Hw. symmetry. by apply insert_id. }
  unfold check_one, checked_status in *. destruct (String.eqb (SNMPVersion d) ""); [by apply Hsame|].
  rewrite bind_eq. set (w1 := (pingHost (IPAddress d) healthCheckTimeout w).2).
  assert (Hd1 : w_devices w1 = w_devices w).
  { by apply (steps_run (frames w_devices)), (steps_pingHost (fun _ => True)); try apply _. }
  destruct (decryptCredentials d key) as [creds|]; [|by apply Hsame].
  rewrite bind_eq, Verify_answers. set (w2 := (Verify _ _ _ w1).2).
  assert (Hd2 : w_devices w2 = w_devices w).
  { rewrite <- Hd1. by apply (steps_run (frames w_devices)), (steps_Verify (fun _ => True)); try apply _. }
  cbv zeta. destruct (String.eqb_spec (if answers (IPAddress d) creds then "active" else "failed")
    (Status d)) as [He|He]; [by apply Hsame|].
  assert (Hok2 : db_ok w2) by (unfold db_ok; by rewrite Hd2).
  destruct (update_status (ID d) (if answers (IPAddress d) creds then "active" else "failed") r w2)
    as (w3 & Hu & Habs); [done|by rewrite no_faults|by rewrite Hd2|by destruct (answers _ _); cbn; auto|].
  rewrite bind_eq, Hu. cbn [fst snd ret run]. rewrite Hd2 in Habs. split_and!; [|by eexists|done].
  pose proof (steps_run _ _ w2 (db_ok_Update (ID d)
    [("status", AStr (if answers (IPAddress d) creds then "active" else "failed"))]) Hok2) as Hk. by rewrite Hu in Hk.
Qed.

Lemma check_all_spec ds w :
  db_ok w -> NoDup (map ID ds) ->
  (forall d, d ∈ ds -> exists r, abs (w_devices w) !! ID d = Some r /\ r_status r = VText (Status d)) ->
  let w' := (for_each ds (check_one key) w).2 in
  (forall d, d ∈ ds -> exists r', abs (w_devices w') !! ID d = Some r' /\
     r_status r' = VText (checked_status d)) /\
  (forall i, i ∉ map ID ds -> abs (w_devices w') !! i = abs (w_devices w) !! i) /\
  ((forall d, d ∈ ds -> checked_status d = Status d) -> w_devices w' = w_devices w).
Proof.
  revert w. induction ds as [|d ds IH]; intros w Hok Hnd Hds; cbn zeta.
  { split_and!; [|done|done]. by intros d Hd%not_elem_of_nil. }
  cbn [map] in Hnd. apply NoDup_cons in Hnd as [Hnot Hnd].
  destruct (Hds d) as (r & Hr & Hst); [by left|].
  destruct (check_one_spec d w r Hok Hr Hst) as (Hok1 & (r1 & Habs & Hst1) & Hno).
  cbn [for_each]. rewrite bind_eq. set (w1 := (check_one key d w).2) in *.
  assert (Hne : forall d', d' ∈ ds -> ID d' <> ID d).
  { intros d' Hd' Heq. apply Hnot. rewrite <- Heq. apply list_elem_of_In, in_map. by apply list_elem_of_In. }
  destruct (IH w1 Hok1 Hnd) as (Hall & Hout & Hnone).
  { intros d' Hd'. destruct (Hds d') as (r' & Hr' & ?); [by right|]. exists r'.
    rewrite Habs, lookup_insert_ne; [done|]. intros Heq. by apply (Hne d' Hd'). }
  split_and!.
  - intros d' [->|Hd']%elem_of_cons; [|by apply Hall]. exists r1.
    rewrite Hout by done. by rewrite Habs, lookup_insert_eq.
  - intros i [Hi Hi']%not_elem_of_cons. rewrite Hout by done.
    rewrite Habs, lookup_insert_ne; [done|]. by intros <-.
  - intros Hall'. rewrite Hnone; [apply Hno, Hall'; by left|]. intros d' Hd'. apply Hall'. by right.
Qed.
End decision.

(** * Properties of the health check *)

(** The devices a listing gives: every row is there, in order, under its own id. *)
Lemma scan_all_rows rs ds :
  DeviceStore.scan_all rs = Ok ds -> Forall2 (fun r d => scanDevice r = Ok d) rs ds.
Proof.
  unfold DeviceStore.scan_all. destruct (result_map scanDevice rs) as [l|e] eqn:E; [|done].
  intros [= <-]. by apply result_map_Ok.
Qed.

Lemma scanDevice_keys r d : scanDevice r = Ok d -> check_row r = true ->
  ID d = r_id r /\ r_status r = VText (Status d).
Proof.
  unfold check_row. intros Hd [_ Hst]%andb_true_iff. revert Hd. unfold scanDevice, result_bind.
  destruct (scan_text 2 _ r); [|done]. destruct (scan_text 3 _ r); [|done].
  destruct (scan_text 4 _ r); [|done]. destruct (scan_text 5 _ r); [|done].
  destruct (scan_text 6 _ r); [|done]. destruct (scan_text 7 _ r); [|done].
  destruct (scan_text 8 _ r); [|done]. destruct (scan_text 9 _ r); [|done].
  destruct (scan_text 10 _ r); [|done]. destruct (scan_text 11 _ r) eqn:Hs; [|done].
  destruct (scan_bool 12 _ r); [|done]. destruct (scan_text 13 _ r); [|done].
  intros [= <-]. split; [done|]. cbn. unfold scan_text in Hs. cbn in Hs.
  by destruct (r_status r); simplify_eq.
Qed.

Section health_properties.
Context `{DbEnv, SnmpEnv, HostEnv, !SteadySnmp} (key : Key).

Lemma listed_rows w ds : db_ok w -> DeviceStore.scan_all (rows (w_devices w)) = Ok ds ->
  map ID ds = map r_id (rows (w_devices w)) /\
  (forall d, d ∈ ds -> exists r, abs (w_devices w) !! ID d = Some r /\ r_status r = VText (Status d)).
Proof.
  intros Hok Hs%scan_all_rows. pose proof (ok_checks _ Hok) as Hc.
  pose proof (sorted_NoDup _ (ok_sorted _ Hok)) as Hnd. split.
  - clear Hok Hnd. induction Hs as [|r d rs ds Hd Hs IH]; [done|].
    apply Forall_cons in Hc as [Hr Hc]. cbn. rewrite IH by done. f_equal. by apply scanDevice_keys.
  - intros d [i Hi]%list_elem_of_lookup. destruct (Forall2_lookup_r _ _ _ _ _ Hs Hi) as (r & Hr & Hd).
    rewrite Forall_forall in Hc.
    destruct (scanDevice_keys r d Hd) as [Hid Hst]; [by apply Hc, list_elem_of_lookup_2 with i|].
    exists r. split; [|done]. rewrite Hid. apply elem_of_list_to_map.
    + by rewrite <- list_fmap_compose.
    + apply list_elem_of_fmap. exists r. split; [done|]. by apply list_elem_of_lookup_2 with i.
Qed.

(** C24.  After a health check every listed device has the status its own credentials earn it:
    one with no SNMP version or with credentials that do not decrypt keeps the one it had,
    every other is active if its SNMP agent answers and failed if not; the ping is sent but
    decides nothing.  Only statuses change, in whatever environment; when every status is
    already right nothing is written, and only listed devices are contacted, at their own
    addresses. *)
Theorem health_check_decides (w : world) (ds : list Device) :
  db_ok w -> (forall t, db_fault t = None) -> DeviceStore.scan_all (rows (w_devices w)) = Ok ds ->
  let w' := (checkDeviceHealth key w).2 in
  only_statuses w w' /\ traces (health_event key ds) w w' /\
  (forall d, d ∈ ds -> exists r', abs (w_devices w') !! ID d = Some r' /\
     r_status r' = VText (checked_status key d)) /\
  ((forall d, d ∈ ds -> checked_status key d = Status d) -> w_devices w' = w_devices w).
Proof.
  intros Hok Hno Hds. cbn zeta. destruct (listed_rows w ds Hok Hds) as [Hids Hrows].
  pose proof (steps_health key only_statuses w _ status_update_steps) as Honly.
  pose proof (steps_health key (traces (health_event key ds)) w) as Htr. rewrite Hds in Htr.
  assert (Hnd : NoDup (map ID ds)) by (rewrite Hids; apply sorted_NoDup, Hok).
  destruct (check_all_spec key Hno ds (bump w) Hok Hnd Hrows) as (Hall & _ & Hsame).
  assert (Hrun : checkDeviceHealth key w = for_each ds (check_one key) (bump w)).
  { unfold checkDeviceHealth, DeviceStore.List, DeviceStore.select_rows.
    rewrite bind_eq, bind_eq, stmt_run, Hno. cbn. by rewrite filter_all, Hds. }
  split; [exact Honly|]. rewrite Hrun in *. split_and!; [|exact Hall|exact Hsame].
  apply Htr; [apply _|]. intros id b. apply ignored_Update; apply _.
Qed.
End health_properties.

(** * Witnesses *)

(** A network where every agent answers. *)
Lemma answering_steady : @SteadySnmp answering_snmp.
Proof. by split. Qed.

(** A host without a gateway, where nothing answers a ping and files and Docker work. *)
Definition plain_host : HostEnv :=
  {| discover_gateway _ := Err (ENew [FStr "no gateway"]); icmp_listen _ := None; icmp_write _ _ := None;
     icmp_deadline _ _ := None; icmp_read _ _ := Err (ENew [FStr "i/o timeout"]); icmp_parse _ := Ok 0;
     read_fault _ := None; write_fault _ := None; docker_exec _ _ := None |}.

Definition v3_creds : Credentials :=
  {| cVersion := "v3"; cCommunity := ""; cV3User := "ops"; cV3AuthKey := "a-passphrase";
     cV3PrivKey := ""; cV3AuthProtocol := "SHA"; cV3PrivProtocol := "" |}.

Lemma swept_v3_device_loses_credentials_witness :
  exists d got, decryptCredentials d sample_key = Ok got /\ cVersion got = "v3" /\
    cV3User got = "" /\ cV3AuthKey got = "".
Proof.
  destruct (insertDiscoveredDevice (H := quiet_db) (H0 := answering_snmp) (H1 := counting_rand) sample_key
    "10.0.0.9" v3_creds true one_router) as [b w'] eqn:Hrun.
  assert (Hrows : exists r, abs (w_devices w') !! 2 = Some r /\ r_id r = 2 /\
    exists d got, scanDevice r = Ok d /\ decryptCredentials d sample_key = Ok got /\ cVersion got = "v3").
  { pose proof (f_equal snd Hrun) as Hw. cbn [snd] in Hw. rewrite <- Hw.
    eexists. split; [rewrite lookup_abs; vm_compute; reflexivity|]. split; [reflexivity|].
    eexists _, _. split; [vm_compute; reflexivity|]. split; [vm_compute; reflexivity|reflexivity]. }
  destruct Hrows as (r & Hr & Hid & d & got & Hd & Hg & Hv). exists d, got.
  destruct (swept_v3_device_loses_credentials (H := quiet_db) (H0 := answering_snmp) (H1 := counting_rand)
    sample_key "10.0.0.9" v3_creds got one_router w' d r b Hrun one_router_ok) as (Hu & Ha & _).
  - rewrite Hid, lookup_abs. vm_compute. reflexivity.
  - by rewrite Hid.
  - exact Hd.
  - exact Hg.
  - by split_and!.
Defined.

Lemma health_check_decides_witness :
  exists r', abs (w_devices (checkDeviceHealth (H := quiet_db) (H0 := answering_snmp) (H2 := plain_host)
    sample_key one_router).2) !! 1 = Some r' /\ r_status r' = VText "active".
Proof.
  destruct (DeviceStore.scan_all (rows (w_devices one_router))) as [ds|] eqn:Hds; [|by vm_compute in Hds].
  destruct (health_check_decides (H := quiet_db) (H0 := answering_snmp) (H1 := plain_host) (H2 := answering_steady)
    sample_key one_router ds one_router_ok (fun _ => eq_refl) Hds)
    as (_ & _ & Hall & _).
  vm_compute in Hds. injection Hds as <-. destruct (Hall _ (list_elem_of_here _ _)) as (r' & Hr & Hst).
  exists r'. split; [exact Hr|]. rewrite Hst. vm_compute. reflexivity.
Defined.
