(* ===== verification/Telegraf.v ===== *)
(** [config-watcher], telegraf_gen.go, reload.go and the reconcile loop of main.go: the
    Telegraf configuration rendered from the active devices and the polling interval, written
    when it differs from the file, and the reload that follows a write.

    [text/template] is modelled for the actions the shipped template is made of: fields of the
    data, [range], [if eq] against a number with [else], and [end]; anything else does not
    parse.  The template itself is [telegraf_conf_tmpl]. *)

From S2P Require Import Prelude Float64 Json World Store Gcm Crypto Watcher.
Open Scope Z_scope.

(** * The data a template sees *)

Record deviceTemplateData := {
  t_IPAddress : string;
  t_VersionNumber : Z;
  t_Community : string;
  t_V3User : string;
  t_V3SecLevel : string;
  t_V3AuthProtocol : string;
  t_V3AuthPassword : string;
  t_V3PrivProtocol : string;
  t_V3PrivPassword : string
}.

Record telegrafTemplateData := {
  t_PollingIntervalSeconds : Z;
  t_InfluxURL : string;
  t_InfluxToken : string;
  t_InfluxDatabase : string;
  t_Devices : list deviceTemplateData
}.

Definition versionNumber (snmpVersion : string) : Z :=
  if String.eqb snmpVersion "v1" then 1
  else if String.eqb snmpVersion "v3" then 3
  else 2.

Definition v3SecLevel (authKey privKey : string) : string :=
  if negb (String.eqb privKey "") then "authPriv"
  else if negb (String.eqb authKey "") then "authNoPriv"
  else "noAuthNoPriv".

Definition gen_error (what : string) (id : Z) : list frag :=
  [FStr "telegraf_gen: decrypting "; FStr what; FStr " for device "; FInt id; FStr ": "].

(** The body of the loop of [buildDeviceConfigs]. *)
Definition device_config (key : Key) (d : Device) : result deviceTemplateData :=
  community <-? wrap (gen_error "community" (ID d)) (Decrypt key (Community d));;
  authKey <-? wrap (gen_error "v3 auth key" (ID d)) (Decrypt key (V3AuthKey d));;
  privKey <-? wrap (gen_error "v3 priv key" (ID d)) (Decrypt key (V3PrivKey d));;
  Ok {| t_IPAddress := IPAddress d;
        t_VersionNumber := versionNumber (SNMPVersion d);
        t_Community := community;
        t_V3User := V3User d;
        t_V3SecLevel := v3SecLevel authKey privKey;
        t_V3AuthProtocol := V3AuthProtocol d;
        t_V3AuthPassword := authKey;
        t_V3PrivProtocol := V3PrivProtocol d;
        t_V3PrivPassword := privKey |}.

Definition buildDeviceConfigs (devices : list Device) (key : Key) : result (list deviceTemplateData) :=
  result_map (device_config key) devices.

(** * Templates *)

Module Template.

Inductive token := TText (s : string) | TAction (words : list string).

(** Fields of an action, separated by blanks. *)
Fixpoint words (acc : string) (s : string) : list string :=
  let flush l := if String.eqb acc "" then l else str_rev acc :: l in
  match s with
  | "" => flush []
  | String " " s' => flush (words "" s')
  | String c s' => words (String c acc) s'
  end.

Definition text_token (acc : string) (l : list token) : list token :=
  if String.eqb acc "" then l else TText (str_rev acc) :: l.

(** [in_action] says whether the characters in [acc], reversed, are an action's. *)
Fixpoint lex (in_action : bool) (acc : string) (s : string) : option (list token) :=
  match s with
  | "" => if in_action then None else Some (text_token acc [])
  | String c s' =>
      match in_action, c, s' with
      | false, "{"%char, String "{" s'' => text_token acc <$> lex true "" s''
      | true, "}"%char, String "}" s'' => cons (TAction (words "" (str_rev acc))) <$> lex false "" s''
      | _, _, _ => lex in_action (String c acc) s'
      end
  end.

#[warnings="-register-all"]
Inductive node :=
| NText (s : string)
| NField (f : string)
| NRange (f : string) (body : list node)
| NIfEq (f : string) (n : Z) (then_ else_ : list node).

(** The blocks open at a point of the text, the innermost first; lists are reversed. *)
Inductive frame :=
| FRange (f : string) (outer : list node)
| FIf (f : string) (n : Z) (outer : list node)
| FElse (f : string) (n : Z) (then_ outer : list node).

Definition field_name (w : string) : option string := strip_prefix "." w.

Fixpoint parse (stack : list frame) (acc : list node) (ts : list token) : option (list node) :=
  match ts with
  | [] => match stack with [] => Some (rev acc) | _ => None end
  | TText s :: ts' => parse stack (NText s :: acc) ts'
  | TAction ws :: ts' =>
      match ws with
      | ["range"; w] => f ← field_name w; parse (FRange f acc :: stack) [] ts'
      | ["if"; "eq"; w; n] =>
          f ← field_name w;
          match Atoi n with
          | Ok n => parse (FIf f n acc :: stack) [] ts'
          | Err _ => None
          end
      | ["else"] =>
          match stack with
          | FIf f n outer :: stack' => parse (FElse f n (rev acc) outer :: stack') [] ts'
          | _ => None
          end
      | ["end"] =>
          match stack with
          | FRange f outer :: stack' => parse stack' (NRange f (rev acc) :: outer) ts'
          | FIf f n outer :: stack' => parse stack' (NIfEq f n (rev acc) [] :: outer) ts'
          | FElse f n then_ outer :: stack' => parse stack' (NIfEq f n then_ (rev acc) :: outer) ts'
          | [] => None
          end
      | [w] => f ← field_name w; parse stack (NField f :: acc) ts'
      | _ => None
      end
  end.

Definition Parse (s : string) : option (list node) :=
  ts ← lex false "" s; parse [] [] ts.

(** What a field of the data holds, and the data [.] is. *)
Inductive tval := TStr (s : string) | TInt (z : Z) | TList (l : list deviceTemplateData).
Inductive dot := DTop (d : telegrafTemplateData) | DDevice (d : deviceTemplateData).

Definition field (d : dot) (f : string) : option tval :=
  let get l := snd <$> List.find (fun p => String.eqb p.1 f) l in
  match d with
  | DTop d => get
      [("PollingIntervalSeconds", TInt (t_PollingIntervalSeconds d)); ("InfluxURL", TStr (t_InfluxURL d));
       ("InfluxToken", TStr (t_InfluxToken d)); ("InfluxDatabase", TStr (t_InfluxDatabase d));
       ("Devices", TList (t_Devices d))]
  | DDevice d => get
      [("IPAddress", TStr (t_IPAddress d)); ("VersionNumber", TInt (t_VersionNumber d));
       ("Community", TStr (t_Community d)); ("V3User", TStr (t_V3User d));
       ("V3SecLevel", TStr (t_V3SecLevel d)); ("V3AuthProtocol", TStr (t_V3AuthProtocol d));
       ("V3AuthPassword", TStr (t_V3AuthPassword d)); ("V3PrivProtocol", TStr (t_V3PrivProtocol d));
       ("V3PrivPassword", TStr (t_V3PrivPassword d))]
  end%string.

(** The outputs one after the other. *)
Definition exec_list (ex : node -> option string) : list node -> option string :=
  fix go l :=
    match l with
    | [] => Some ""
    | n :: l' => s ← ex n; s' ← go l'; Some (s +:+ s')
    end.

(** [None] is an execution error. *)
Fixpoint exec (d : dot) (n : node) {struct n} : option string :=
  match n with
  | NText s => Some s
  | NField f =>
      match field d f with
      | Some (TStr s) => Some s
      | Some (TInt z) => Some (Itoa z)
      | _ => None
      end
  | NRange f body =>
      match field d f with
      | Some (TList l) => concat_str <$> mapM (fun x => exec_list (exec (DDevice x)) body) l
      | _ => None
      end
  | NIfEq f n then_ else_ =>
      match field d f with
      | Some (TInt z) => if z =? n then exec_list (exec d) then_ else exec_list (exec d) else_
      | _ => None
      end
  end.

Definition Execute (l : list node) (d : telegrafTemplateData) : option string :=
  exec_list (exec (DTop d)) l.
End Template.

(** ** The shipped template, telegraf/telegraf.conf.tmpl *)

Definition tmpl_agent : string := text [
    "[agent]";
    "  interval = `{{.PollingIntervalSeconds}}s`";
    "  round_interval = true";
    "  metric_batch_size = 1000";
    "  metric_buffer_limit = 10000";
    "  flush_interval = `{{.PollingIntervalSeconds}}s`";
    "";
    "[[outputs.influxdb_v2]]";
    "  urls = [`{{.InfluxURL}}`]";
    "  token = `{{.InfluxToken}}`";
    "  organization = ``";
    "  bucket = `{{.InfluxDatabase}}`";
    "{{range .Devices}}"].

Definition tmpl_device : string := text [
    "";
    "[[inputs.snmp]]";
    "  # No name_override here: it overrides the measurement name for every metric";
    "  # this plugin instance emits, including nested tables -- with it set, all of";
    "  # interface/hrStorage/hrProcessor's data collapsed into one `snmp` measurement";
    "  # instead of their own. Ad-hoc top-level fields (hostname, uptime) default to";
    "  # `snmp` on their own; each [[inputs.snmp.table]] below keeps its own name.";
    "  agents = [`udp://{{.IPAddress}}:161`]";
    "  version = {{.VersionNumber}}";
    "  timeout = `5s`";
    ""].

Definition tmpl_credentials : string := text [
    "{{if eq .VersionNumber 3}}";
    "  sec_name = `{{.V3User}}`";
    "  sec_level = `{{.V3SecLevel}}`";
    "  auth_protocol = `{{.V3AuthProtocol}}`";
    "  auth_password = `{{.V3AuthPassword}}`";
    "  priv_protocol = `{{.V3PrivProtocol}}`";
    "  priv_password = `{{.V3PrivPassword}}`";
    "{{else}}";
    "  community = `{{.Community}}`";
    "{{end}}"].

Definition tmpl_tables : string := text [
    "";
    "  [[inputs.snmp.field]]";
    "    name = `hostname`";
    "    oid = `.1.3.6.1.2.1.1.5.0`";
    "    is_tag = true";
    "";
    "  [[inputs.snmp.field]]";
    "    name = `uptime`";
    "    oid = `.1.3.6.1.2.1.1.3.0`";
    "";
    "  # IF-MIB: per-interface traffic/error counters. Universally supported by";
    "  # SNMP-enabled network gear, unlike the CPU/memory tables below.";
    "  [[inputs.snmp.table]]";
    "    name = `interface`";
    "    inherit_tags = [`hostname`]";
    "    oid = `.1.3.6.1.2.1.2.2`";
    "";
    "    # Not marked is_tag: Telegraf 1.32.3 has been observed emitting is_tag";
    "    # fields in *both* the tag-set and the field-set of the same line";
    "    # (contrary to its own docs), which InfluxDB 3's per-column schema rejects";
    "    # outright (`expected iox::column_type::tag, got iox::column_type::field`).";
    "    # A plain field works fine for our purposes (still queryable, still shows";
    "    # up as a column) without hitting that conflict.";
    "    [[inputs.snmp.table.field]]";
    "      name = `ifDescr`";
    "      oid = `.1.3.6.1.2.1.2.2.1.2`";
    "";
    "    [[inputs.snmp.table.field]]";
    "      name = `ifInOctets`";
    "      oid = `.1.3.6.1.2.1.2.2.1.10`";
    "";
    "    [[inputs.snmp.table.field]]";
    "      name = `ifOutOctets`";
    "      oid = `.1.3.6.1.2.1.2.2.1.16`";
    "";
    "    [[inputs.snmp.table.field]]";
    "      name = `ifInErrors`";
    "      oid = `.1.3.6.1.2.1.2.2.1.14`";
    "";
    "    [[inputs.snmp.table.field]]";
    "      name = `ifOutErrors`";
    "      oid = `.1.3.6.1.2.1.2.2.1.20`";
    "";
    "  # IP-MIB ipAddrTable: maps IP addresses to interfaces. Indexed by the IP";
    "  # itself (not ifIndex), so Telegraf auto-tags each row with ipAdEntAddr;";
    "  # join to the interface table on (hostname, ifIndex = ipAdEntIfIndex) to";
    "  # get an interface's IP alongside its name/status/MAC.";
    "  [[inputs.snmp.table]]";
    "    name = `ipAddr`";
    "    inherit_tags = [`hostname`]";
    "    oid = `.1.3.6.1.2.1.4.20`";
    "";
    "    [[inputs.snmp.table.field]]";
    "      name = `ipAdEntIfIndex`";
    "      oid = `.1.3.6.1.2.1.4.20.1.2`";
    "";
    "    [[inputs.snmp.table.field]]";
    "      name = `ipAdEntNetMask`";
    "      oid = `.1.3.6.1.2.1.4.20.1.3`";
    "";
    "  # CISCO-PROCESS-MIB: CPU utilization. Cisco-proprietary (not part of any";
    "  # standard/IETF MIB), confirmed against real Cisco IOS routers in this";
    "  # deployment. Requires CISCO-SMI/CISCO-TC/CISCO-PROCESS-MIB bundled in";
    "  # telegraf/mibs/ (sourced from https://github.com/cisco/cisco-mibs, the";
    "  # official replacement for the decommissioned ftp.cisco.com MIB server) --";
    "  # without them Telegraf can't initialize this table at all. Best-effort like";
    "  # the HOST-RESOURCES-MIB tables below: non-Cisco gear just won't populate it.";
    "  [[inputs.snmp.table]]";
    "    name = `cpu`";
    "    inherit_tags = [`hostname`]";
    "    oid = `.1.3.6.1.4.1.9.9.109.1.1.1`";
    "";
    "    [[inputs.snmp.table.field]]";
    "      name = `cpu5sec`";
    "      oid = `.1.3.6.1.4.1.9.9.109.1.1.1.1.6`";
    "";
    "    [[inputs.snmp.table.field]]";
    "      name = `cpu1min`";
    "      oid = `.1.3.6.1.4.1.9.9.109.1.1.1.1.7`";
    "";
    "    [[inputs.snmp.table.field]]";
    "      name = `cpu5min`";
    "      oid = `.1.3.6.1.4.1.9.9.109.1.1.1.1.8`";
    "";
    "  # CISCO-MEMORY-POOL-MIB: memory pool usage. Cisco-proprietary, same";
    "  # rationale/sourcing as the cpu table above (needs CISCO-SMI/CISCO-TC/";
    "  # CISCO-MEMORY-POOL-MIB bundled in telegraf/mibs/). Confirmed against real";
    "  # Cisco IOS routers: reports one row per memory pool (typically `Processor`";
    "  # and `I/O`); ciscoMemoryPoolUsed + ciscoMemoryPoolFree = total pool size.";
    "  [[inputs.snmp.table]]";
    "    name = `memory`";
    "    inherit_tags = [`hostname`]";
    "    oid = `.1.3.6.1.4.1.9.9.48.1.1`";
    "";
    "    # See the ifDescr comment above re: table fields + is_tag on this Telegraf version.";
    "    [[inputs.snmp.table.field]]";
    "      name = `ciscoMemoryPoolName`";
    "      oid = `.1.3.6.1.4.1.9.9.48.1.1.1.2`";
    "";
    "    [[inputs.snmp.table.field]]";
    "      name = `ciscoMemoryPoolUsed`";
    "      oid = `.1.3.6.1.4.1.9.9.48.1.1.1.5`";
    "";
    "    [[inputs.snmp.table.field]]";
    "      name = `ciscoMemoryPoolFree`";
    "      oid = `.1.3.6.1.4.1.9.9.48.1.1.1.6`";
    "";
    "    [[inputs.snmp.table.field]]";
    "      name = `ciscoMemoryPoolLargestFree`";
    "      oid = `.1.3.6.1.4.1.9.9.48.1.1.1.7`";
    "";
    "  # HOST-RESOURCES-MIB: memory/CPU. Best-effort — routers/switches without an";
    "  # embedded host-resources agent simply won't populate these fields; Telegraf";
    "  # logs a per-field warning rather than failing the whole plugin.";
    "  [[inputs.snmp.table]]";
    "    name = `hrStorage`";
    "    inherit_tags = [`hostname`]";
    "    oid = `.1.3.6.1.2.1.25.2.3`";
    "";
    "    # See the ifDescr comment above re: table fields + is_tag on this Telegraf version.";
    "    [[inputs.snmp.table.field]]";
    "      name = `hrStorageDescr`";
    "      oid = `.1.3.6.1.2.1.25.2.3.1.3`";
    "";
    "    [[inputs.snmp.table.field]]";
    "      name = `hrStorageUsed`";
    "      oid = `.1.3.6.1.2.1.25.2.3.1.6`";
    "";
    "    [[inputs.snmp.table.field]]";
    "      name = `hrStorageSize`";
    "      oid = `.1.3.6.1.2.1.25.2.3.1.5`";
    "";
    "  [[inputs.snmp.table]]";
    "    name = `hrProcessor`";
    "    inherit_tags = [`hostname`]";
    "    oid = `.1.3.6.1.2.1.25.3.3`";
    "";
    "    [[inputs.snmp.table.field]]";
    "      name = `hrProcessorLoad`";
    "      oid = `.1.3.6.1.2.1.25.3.3.1.2`";
    ""].

Definition tmpl_last : string := text [
    "{{end}}";
    ""].

Definition telegraf_conf_tmpl : string :=
  tmpl_agent +:+ tmpl_device +:+ tmpl_credentials +:+ tmpl_tables +:+ tmpl_last.

(** * Rendering *)

(** [tmpl_file] is what [template.ParseFiles] reads at [tmplPath]. *)
Definition renderTelegrafConfig (tmplPath : string) (tmpl_file : result string)
    (pollingIntervalSeconds : Z) (influxURL influxToken influxDatabase : string)
    (devices : list Device) (key : Key) : result string :=
  tmpl <-? wrap [FStr "telegraf_gen: parsing template "; FStr tmplPath; FStr ": "]
    (s <-? tmpl_file;; of_option (Template.Parse s) (ENew [FStr "template: "; FStr tmplPath]));;
  deviceConfigs <-? buildDeviceConfigs devices key;;
  let data := {| t_PollingIntervalSeconds := pollingIntervalSeconds; t_InfluxURL := influxURL;
    t_InfluxToken := influxToken; t_InfluxDatabase := influxDatabase; t_Devices := deviceConfigs |} in
  wrap [FStr "telegraf_gen: executing template: "]
    (of_option (Template.Execute tmpl data) (ENew [FStr "template: "; FStr tmplPath])).

(** * The file and the reload *)

Section files.
Context `{HostEnv}.

(** [os.WriteFile], and what a failed one leaves. *)
Definition write_file (content : string) : IO (result unit) :=
  let* t := next_tick in
  emit (EvWriteConf content) ;;;
  atomically (fun w =>
    match write_fault t with
    | Some (e, leaves) => (Err e, set_conf (leaves (w_conf w)) w)
    | None => (Ok tt, set_conf (Some content) w)
    end).

Definition writeIfChanged (path content : string) : IO (result bool) :=
  let* t := next_tick in
  let* existing := atomically (fun w => (w_conf w, w)) in
  match read_fault t with
  | Some e => ret (Err (EWrap [FStr "telegraf_gen: reading existing config "; FStr path; FStr ": "] e []))
  | None =>
      if bool_decide (existing = Some content) then ret (Ok false)
      else
        try* u := write_file content catch e =>
          ret (Err (EWrap [FStr "telegraf_gen: writing config "; FStr path; FStr ": "] e [])) in
        ret (Ok true)
  end.

Definition reloadTelegraf (containerName : string) : IO (result unit) :=
  let* t := next_tick in
  emit (EvReload containerName) ;;;
  match docker_exec t containerName with
  | Some (e, out) =>
      ret (Err (EWrap [FStr "reload: docker exec "; FStr containerName; FStr " kill -SIGHUP 1: "] e
        [FStr " (output: "; FStr out; FStr ")"]))
  | None => ret (Ok tt)
  end.
End files.

(** * main.go *)

Record watcherConfig := {
  templatePath : string;
  configPath : string;
  containerName : string;
  influxURL : string;
  influxToken : string;
  influxDatabase : string
}.

Section reconcile.
Context `{DbEnv, HostEnv} (key : Key) (cfg : watcherConfig) (tmpl_file : result string).

Definition reconcileTelegrafConfig : IO unit :=
  try* pollingIntervalStr := SettingsStore.Get "polling_interval_seconds" catch e => ret tt in
  match Atoi pollingIntervalStr with
  | Err _ => ret tt
  | Ok pollingInterval =>
      try* activeDevices := DeviceStore.ListByStatus "active" catch e => ret tt in
      match renderTelegrafConfig (templatePath cfg) tmpl_file pollingInterval (influxURL cfg)
              (influxToken cfg) (influxDatabase cfg) activeDevices key with
      | Err _ => ret tt
      | Ok rendered =>
          try* changed := writeIfChanged (configPath cfg) rendered catch e => ret tt in
          if negb changed then ret tt
          else
            let* _ := reloadTelegraf (containerName cfg) in
            ret tt
      end
  end.
End reconcile.
