(* ===== verification/TelegrafFacts.v ===== *)
(** What config-watcher writes for Telegraf and when: the text the shipped template gives, whose
    credentials are in it, and that a write and a reload happen exactly when the configuration
    changed. *)

From S2P Require Import Prelude Float64 Json World Store StoreFacts StoreSpec Gcm Crypto Netutil.
From S2P Require Import Snmp ConfigApiFacts Watcher WatcherFacts Telegraf.
Open Scope Z_scope.

(** * The text of the shipped template *)

Definition agent_section (d : telegrafTemplateData) : string :=
  text ["[agent]"; "  interval = `"] +:+ Itoa (t_PollingIntervalSeconds d) +:+
  text ["s`"; "  round_interval = true"; "  metric_batch_size = 1000"; "  metric_buffer_limit = 10000";
        "  flush_interval = `"] +:+ Itoa (t_PollingIntervalSeconds d) +:+
  text ["s`"; ""; "[[outputs.influxdb_v2]]"; "  urls = [`"] +:+ t_InfluxURL d +:+
  text ["`]"; "  token = `"] +:+ t_InfluxToken d +:+
  text ["`"; "  organization = ``"; "  bucket = `"] +:+ t_InfluxDatabase d +:+ text ["`"; ""].

(** SNMPv3 devices get the user and the keys, the others the community. *)
Definition credentials_section (d : deviceTemplateData) : string :=
  if t_VersionNumber d =? 3 then
    text [""; "  sec_name = `"] +:+ t_V3User d +:+
    text ["`"; "  sec_level = `"] +:+ t_V3SecLevel d +:+
    text ["`"; "  auth_protocol = `"] +:+ t_V3AuthProtocol d +:+
    text ["`"; "  auth_password = `"] +:+ t_V3AuthPassword d +:+
    text ["`"; "  priv_protocol = `"] +:+ t_V3PrivProtocol d +:+
    text ["`"; "  priv_password = `"] +:+ t_V3PrivPassword d +:+ text ["`"; ""]
  else text [""; "  community = `"] +:+ t_Community d +:+ text ["`"; ""].

Definition device_intro : string := text
  [""; "[[inputs.snmp]]";
   "  # No name_override here: it overrides the measurement name for every metric";
   "  # this plugin instance emits, including nested tables -- with it set, all of";
   "  # interface/hrStorage/hrProcessor's data collapsed into one `snmp` measurement";
   "  # instead of their own. Ad-hoc top-level fields (hostname, uptime) default to";
   "  # `snmp` on their own; each [[inputs.snmp.table]] below keeps its own name.";
   "  agents = [`udp://"].

Definition device_section (d : deviceTemplateData) : string :=
  device_intro +:+ t_IPAddress d +:+ text [":161`]"; "  version = "] +:+ Itoa (t_VersionNumber d) +:+
  text [""; "  timeout = `5s`"; ""] +:+ credentials_section d +:+ tmpl_tables.

Module shipped.
Import Template.

Definition v3_nodes : list node :=
  [NText (text [""; "  sec_name = `"]); NField "V3User";
   NText (text ["`"; "  sec_level = `"]); NField "V3SecLevel";
   NText (text ["`"; "  auth_protocol = `"]); NField "V3AuthProtocol";
   NText (text ["`"; "  auth_password = `"]); NField "V3AuthPassword";
   NText (text ["`"; "  priv_protocol = `"]); NField "V3PrivProtocol";
   NText (text ["`"; "  priv_password = `"]); NField "V3PrivPassword"; NText (text ["`"; ""])].

Definition community_nodes : list node :=
  [NText (text [""; "  community = `"]); NField "Community"; NText (text ["`"; ""])].

Definition device_nodes : list node :=
  [NText device_intro; NField "IPAddress"; NText (text [":161`]"; "  version = "]);
   NField "VersionNumber"; NText (text [""; "  timeout = `5s`"; ""]);
   NIfEq "VersionNumber" 3 v3_nodes community_nodes; NText tmpl_tables].

Definition nodes : list node :=
  [NText (text ["[agent]"; "  interval = `"]); NField "PollingIntervalSeconds";
   NText (text ["s`"; "  round_interval = true"; "  metric_batch_size = 1000";
     "  metric_buffer_limit = 10000"; "  flush_interval = `"]); NField "PollingIntervalSeconds";
   NText (text ["s`"; ""; "[[outputs.influxdb_v2]]"; "  urls = [`"]); NField "InfluxURL";
   NText (text ["`]"; "  token = `"]); NField "InfluxToken";
   NText (text ["`"; "  organization = ``"; "  bucket = `"]); NField "InfluxDatabase";
   NText (text ["`"; ""]); NRange "Devices" device_nodes; NText nl].
End shipped.

Lemma shipped_Parse : Template.Parse telegraf_conf_tmpl = Some shipped.nodes.
Proof. vm_compute. reflexivity. Qed.

Lemma exec_device d :
  Template.exec_list (Template.exec (Template.DDevice d)) shipped.device_nodes = Some (device_section d).
Proof.
  unfold shipped.device_nodes, device_section, credentials_section.
  destruct (Z.eqb_spec (t_VersionNumber d) 3) as [Hv|Hv];
    cbn -[Itoa text device_intro tmpl_tables String.append];
    [rewrite Hv|rewrite (proj2 (Z.eqb_neq _ _) Hv)];
    cbn -[Itoa text device_intro tmpl_tables String.append]; by autorewrite with go_str.
Qed.

Lemma exec_devices ds :
  mapM (fun x => Template.exec_list (Template.exec (Template.DDevice x)) shipped.device_nodes) ds =
    Some (map device_section ds).
Proof. apply mapM_Some_2. induction ds as [|d ds IH]; constructor; [apply exec_device|done]. Qed.

Lemma Execute_shipped d :
  Template.Execute shipped.nodes d =
    Some (agent_section d +:+ concat_str (map device_section (t_Devices d)) +:+ nl).
Proof.
  unfold Template.Execute, shipped.nodes, agent_section.
  set (body := shipped.device_nodes). pose proof (exec_devices (t_Devices d)) as Hd. fold body in Hd.
  cbn -[Itoa text String.append body nl Template.exec_list].
  unfold Template.exec_list at 1. cbn -[Itoa text String.append body nl Template.exec_list concat_str].
  rewrite Hd. cbn -[Itoa text String.append body nl concat_str]. by autorewrite with go_str.
Qed.

(** * Credentials *)

(** What the template is told about a device: the credentials the health check uses, with the
    security level they allow. *)
Definition shown (d : Device) (c : Credentials) : deviceTemplateData :=
  {| t_IPAddress := IPAddress d; t_VersionNumber := versionNumber (cVersion c);
     t_Community := cCommunity c; t_V3User := cV3User c;
     t_V3SecLevel := v3SecLevel (cV3AuthKey c) (cV3PrivKey c);
     t_V3AuthProtocol := cV3AuthProtocol c; t_V3AuthPassword := cV3AuthKey c;
     t_V3PrivProtocol := cV3PrivProtocol c; t_V3PrivPassword := cV3PrivKey c |}.

Lemma device_config_decrypts key d t :
  device_config key d = Ok t <-> exists c, decryptCredentials d key = Ok c /\ t = shown d c.
Proof.
  unfold device_config, decryptCredentials.
  destruct (Decrypt key (Community d)); cbn; [|split; [done|by intros (? & ? & _)]].
  destruct (Decrypt key (V3AuthKey d)); cbn; [|split; [done|by intros (? & ? & _)]].
  destruct (Decrypt key (V3PrivKey d)); cbn; [|split; [done|by intros (? & ? & _)]].
  split; [intros [= <-]; eauto|]. by intros (c & [= <-] & ->).
Qed.

(** Rendering with the shipped template, every way it can go. *)
Lemma render_shipped path url token database poll devices key out :
  renderTelegrafConfig path (Ok telegraf_conf_tmpl) poll url token database devices key = Ok out <->
  exists creds, Forall2 (fun d c => decryptCredentials d key = Ok c) devices creds /\
    let shown_all := zip_with shown devices creds in
    out = agent_section (Build_telegrafTemplateData poll url token database shown_all) +:+
      concat_str (map device_section shown_all) +:+ nl.
Proof.
  unfold renderTelegrafConfig. cbn [result_bind]. rewrite shipped_Parse. cbn [of_option wrap result_bind].
  assert (Hb : forall l, buildDeviceConfigs devices key = Ok l <->
    exists creds, Forall2 (fun d c => decryptCredentials d key = Ok c) devices creds /\
      l = zip_with shown devices creds).
  { intros l. unfold buildDeviceConfigs. rewrite result_map_Ok. split.
    - induction 1 as [|d t ds ts Ht _ (cs & Hcs & ->)]; [by exists []|].
      apply device_config_decrypts in Ht as (c & Hc & ->). exists (c :: cs). by repeat constructor.
    - intros (cs & Hcs & ->). induction Hcs as [|d c ds cs Hc _ IH]; constructor; [|done].
      apply device_config_decrypts. eauto. }
  destruct (buildDeviceConfigs devices key) as [l|e]; cbn [result_bind].
  + rewrite Execute_shipped. cbn [of_option wrap t_Devices].
    destruct (Hb l) as [(cs & Hcs & ->) _]; [done|]. cbn zeta. split.
    * intros [= <-]. by exists cs.
    * intros (cs' & Hcs' & ->). destruct (Hb (zip_with shown devices cs')) as [_ Heq].
      pose proof (Heq ltac:(eauto)) as [= ->]. done.
  + split; [done|]. intros (cs & Hcs & _). destruct (Hb (zip_with shown devices cs)) as [_ Heq].
    pose proof (Heq ltac:(eauto)). done.
Qed.

(** C25.  The rendered configuration.  With the shipped template, rendering succeeds exactly
    when every active device's credentials decrypt; the text is the agent section with the
    polling interval and the InfluxDB coordinates, then one section per device in order, each
    with the device's address and version and the credentials that the health check would use,
    then a newline.  A section shows a community only for v1 and v2c and a user and keys only
    for v3: it does not depend on the credentials of the other kind. *)
Theorem rendered_config_spec (path url token database : string) (poll : Z) (devices : list Device)
    (key : Key) :
  (forall out, renderTelegrafConfig path (Ok telegraf_conf_tmpl) poll url token database devices key = Ok out <->
     exists creds, Forall2 (fun d c => decryptCredentials d key = Ok c) devices creds /\
       let shown_all := zip_with shown devices creds in
       out = agent_section (Build_telegrafTemplateData poll url token database shown_all) +:+
         concat_str (map device_section shown_all) +:+ nl) /\
  (forall d c c', SNMPVersion d <> "v3" -> cVersion c = SNMPVersion d -> cVersion c' = SNMPVersion d ->
     cCommunity c = cCommunity c' -> device_section (shown d c) = device_section (shown d c')) /\
  (forall d c community, cVersion c = "v3" ->
     device_section (shown d c) =
       device_section (shown d (Build_Credentials (cVersion c) community (cV3User c) (cV3AuthKey c)
         (cV3PrivKey c) (cV3AuthProtocol c) (cV3PrivProtocol c)))).
Proof.
  split_and!.
  - intros out. apply render_shipped.
  - intros d c c' Hd Hv Hv' Hc. unfold device_section, credentials_section, shown. cbn -[Itoa text device_intro tmpl_tables].
    rewrite Hv, Hv', Hc. unfold versionNumber. destruct (String.eqb _ "v1"); [done|].
    by rewrite (proj2 (String.eqb_neq _ _) Hd).
  - intros d c community Hc. unfold device_section, credentials_section, shown. cbn -[Itoa text device_intro tmpl_tables].
    by rewrite Hc.
Qed.

(** * Writing and reloading *)

Section reconcile.
Context `{DbEnv, HostEnv} (key : Key) (cfg : watcherConfig) (tmpl_file : result string).

(** The configuration the tables ask for. *)
Definition desired (w : world) : option string :=
  match w_settings w !! "polling_interval_seconds" with
  | None => None
  | Some v =>
      match Atoi v, DeviceStore.scan_all
              (List.filter (fun r => DeviceStore.text_is "active" (r_status r)) (rows (w_devices w))) with
      | Ok poll, Ok ds =>
          match renderTelegrafConfig (templatePath cfg) tmpl_file poll (influxURL cfg)
                  (influxToken cfg) (influxDatabase cfg) ds key with
          | Ok out => Some out
          | Err _ => None
          end
      | _, _ => None
      end
  end.

(** The three ways a reconcile can end for telegraf.conf, and what it sent. *)
Definition untouched (w w' : world) : Prop := w_conf w' = w_conf w /\ w_trace w' = w_trace w.

Definition rewritten (out : string) (w w' : world) : Prop :=
  w_conf w' = Some out /\ w_trace w' = EvReload (containerName cfg) :: EvWriteConf out :: w_trace w.

Definition write_failed (out : string) (w w' : world) : Prop :=
  exists t e leaves, write_fault t = Some (e, leaves) /\ w_conf w' = leaves (w_conf w) /\
    w_trace w' = EvWriteConf out :: w_trace w.

Lemma write_step out w :
  (read_fault (w_tick w) <> None \/ w_conf w = Some out) /\
    (exists r, writeIfChanged (configPath cfg) out w = (r, bump w) /\ r <> Ok true) \/
  read_fault (w_tick w) = None /\ w_conf w <> Some out /\
    match write_fault (S (w_tick w)) with
    | Some (e, leaves) => exists e', writeIfChanged (configPath cfg) out w =
        (Err e', set_conf (leaves (w_conf w)) (log_event (EvWriteConf out) (bump (bump w))))
    | None => writeIfChanged (configPath cfg) out w =
        (Ok true, set_conf (Some out) (log_event (EvWriteConf out) (bump (bump w))))
    end.
Proof.
  unfold writeIfChanged. io_run.
  destruct (read_fault (w_tick w)) as [e|]; [left; split; [by left|]; by eexists|].
  case_bool_decide; [left; split; [by right|]; by eexists|]. right. split; [done|]. split; [done|].
  unfold write_file. io_run.
  destruct (write_fault _) as [[e leaves]|]; [by eexists|done].
Qed.

Lemma reload_step w : exists r, reloadTelegraf (containerName cfg) w =
  (r, log_event (EvReload (containerName cfg)) (bump w)).
Proof. unfold reloadTelegraf. io_run. destruct (docker_exec _ _) as [[]|]; by eexists. Qed.

(** A reconcile is its two reads and, if they and the rendering succeed, the write. *)
Lemma reconcile_shape w :
  (exists w1, (reconcileTelegrafConfig key cfg tmpl_file w).2 = w1 /\
     (w1 = bump w \/ w1 = bump (bump w)) /\
     (db_fault (w_tick w) = None -> db_fault (S (w_tick w)) = None -> desired w = None)) \/
  exists out, desired w = Some out /\
    (reconcileTelegrafConfig key cfg tmpl_file w).2 =
      ((try* changed := writeIfChanged (configPath cfg) out catch e => ret tt in
        if negb changed then ret tt
        else let* _ := reloadTelegraf (containerName cfg) in ret tt) (bump (bump w))).2.
Proof.
  unfold reconcileTelegrafConfig, desired. rewrite bind_eq.
  destruct (SettingsStore.Get _ w) as [[v|e] w1] eqn:Hg; cbn [fst snd].
  2:{ left. apply settings_Get_run in Hg as Hw. destruct Hw as [-> _]. eexists. split; [reflexivity|].
      split; [by left|]. intros Hf _. revert Hg. unfold SettingsStore.Get. rewrite bind_eq, stmt_run, Hf. cbn.
      by destruct (w_settings w !! _). }
  apply settings_Get_run in Hg as [-> ->]. destruct (Atoi v) as [poll|]; [|left; eexists; split; [reflexivity|]; by eauto].
  rewrite bind_eq. destruct (DeviceStore.ListByStatus _ (bump w)) as [[ds|e] w2] eqn:Hl; cbn [fst snd].
  2:{ left. apply ListByStatus_run in Hl as Hw. destruct Hw as [-> _]. eexists. split; [reflexivity|].
      split; [by right|]. intros _ Hf. revert Hl. unfold DeviceStore.ListByStatus, DeviceStore.select_rows.
      rewrite bind_eq, stmt_run. change (w_tick (bump w)) with (S (w_tick w)). rewrite Hf. cbn.
      by intros [= ->]. }
  apply ListByStatus_run in Hl as [-> Hds]. change (w_devices (bump w)) with (w_devices w) in Hds. rewrite Hds.
  destruct (renderTelegrafConfig _ _ _ _ _ _ _ _) as [out|]; [|left; eexists; split; [reflexivity|]; by eauto].
  right. by exists out.
Qed.

(** A reconcile makes the steps of any relation that allows writes of the file. *)
Lemma steps_reconcile R `{!PreOrder R, !Ticks R, !AllowsEvents (fun _ => True) R} :
  (forall c w, R w (set_conf c w)) -> io_steps R (reconcileTelegrafConfig key cfg tmpl_file).
Proof.
  intros HR. unfold reconcileTelegrafConfig.
  apply steps_bind; [by apply steps_settings_Get|intros [v|]; [|by apply steps_ret]].
  destruct (Atoi v) as [poll|]; [|by apply steps_ret].
  apply steps_bind; [by apply steps_ListByStatus|intros [ds|]; [|by apply steps_ret]].
  destruct (renderTelegrafConfig _ _ _ _ _ _ _ _) as [out|]; [|by apply steps_ret].
  apply steps_bind; [ |intros [changed|]; [|by apply steps_ret]].
  - unfold writeIfChanged, write_file. apply steps_bind; [by apply steps_next_tick|intros t].
    apply steps_bind; [by apply steps_atomically|intros existing].
    destruct (read_fault t); [by apply steps_ret|]. case_bool_decide; [by apply steps_ret|].
    apply steps_bind; [ |intros []; by apply steps_ret].
    apply steps_bind; [by apply steps_next_tick|intros t'].
    apply steps_bind; [by apply (steps_emit (fun _ => True))|intros _].
    apply steps_atomically. intros w. destruct (write_fault t') as [[]|]; apply HR.
  - destruct (negb changed); [by apply steps_ret|]. apply steps_bind; [ |intros; by apply steps_ret].
    unfold reloadTelegraf. apply steps_bind; [by apply steps_next_tick|intros t].
    apply steps_bind; [by apply (steps_emit (fun _ => True))|intros _].
    destruct (docker_exec _ _) as [[]|]; by apply steps_ret.
Qed.

(** C26.  A reconcile rewrites telegraf.conf and reloads Telegraf exactly when the configuration
    the tables ask for is not the one on disk.  Whatever the environment does it changes no
    row, and either it leaves the file and sends nothing, or it writes that configuration,
    once, and then reloads, once, or the write fails, which is never followed by a reload. *)
Theorem reconcile_reloads_iff_changed (w : world) :
  let w' := (reconcileTelegrafConfig key cfg tmpl_file w).2 in
  w_devices w' = w_devices w /\ w_settings w' = w_settings w /\ w_traps w' = w_traps w /\
  (untouched w w' \/
   exists out, desired w = Some out /\ w_conf w <> Some out /\
     (rewritten out w w' \/ write_failed out w w')) /\
  ((forall t, db_fault t = None /\ read_fault t = None /\ write_fault t = None) ->
     forall out, desired w = Some out -> w_conf w <> Some out -> rewritten out w w').
Proof.
  cbn zeta. destruct (reconcile_shape w) as [(w1 & -> & Hw & Hnone)|(out & Hout & ->)].
  - assert (Hd : w_devices w1 = w_devices w /\ w_settings w1 = w_settings w /\ w_traps w1 = w_traps w /\
      untouched w w1) by (by destruct Hw as [->| ->]).
    destruct Hd as (-> & -> & -> & Hu). split_and!; [done..|by left|]. intros Hf out Hout _.
    destruct (Hf (w_tick w)) as [H1 _], (Hf (S (w_tick w))) as [H2 _]. by rewrite (Hnone H1 H2) in Hout.
  - rewrite bind_eq.
    destruct (write_step out (bump (bump w))) as [(Hwhy & r & -> & Hr)|(Hrf & Hne & Hw)]; cbn [fst snd].
    + destruct r as [[]|]; try done; (split_and!; [done..|by left|]);
        (intros Hf out' Hout' Hne; exfalso; destruct Hwhy as [Hwhy|Hwhy];
          [by destruct (Hf (w_tick (bump (bump w)))) as (_ & Hrf & _)|cbn in Hwhy; congruence]).
    + change (w_conf (bump (bump w))) with (w_conf w) in *.
      destruct (write_fault _) as [[e leaves]|] eqn:Hwf.
      * destruct Hw as (e' & ->). cbn [fst snd ret run]. split_and!; [done..| |].
        -- right. exists out. split_and!; [done..|]. right. eexists _, _, _. split_and!; [exact Hwf|done..].
        -- intros Hf. destruct (Hf (S (w_tick (bump (bump w))))) as (_ & _ & Hc). congruence.
      * rewrite Hw. cbn [fst snd negb]. rewrite bind_eq.
        destruct (reload_step (set_conf (Some out) (log_event (EvWriteConf out) (bump (bump (bump (bump w)))))))
          as (r & ->). cbn [fst snd ret run]. split_and!; [done..| |].
        -- right. exists out. split_and!; [done..|]. by left.
        -- intros _ out' Hout' _. rewrite Hout in Hout'. by injection Hout' as ->.
Qed.

(** A reconcile where the databases and the file work. *)
Lemma reconcile_works w out :
  (forall t, db_fault t = None /\ read_fault t = None /\ write_fault t = None) ->
  desired w = Some out ->
  let w1 := (reconcileTelegrafConfig key cfg tmpl_file w).2 in
  w_conf w1 = Some out /\ (w_conf w = Some out -> untouched w w1).
Proof.
  intros Hf Hout. cbn zeta. destruct (reconcile_shape w) as [(v1 & _ & _ & Hn)|(o & Ho & ->)].
  { destruct (Hf (w_tick w)) as [H1 _], (Hf (S (w_tick w))) as [H2 _]. by rewrite (Hn H1 H2) in Hout. }
  rewrite Hout in Ho. injection Ho as <-. rewrite bind_eq.
  destruct (write_step out (bump (bump w))) as [([Hwhy|Hwhy] & r & -> & Hr)|(Hrf & Hne & Hw)].
  - by destruct (Hf (w_tick (bump (bump w)))) as (_ & ? & _).
  - by destruct r as [[]|].
  - destruct (Hf (S (w_tick (bump (bump w))))) as (_ & _ & Hn). rewrite Hn in Hw. rewrite Hw.
    cbn [fst snd negb]. rewrite bind_eq.
    by destruct (reload_step (set_conf (Some out) (log_event (EvWriteConf out) (bump (bump (bump (bump w)))))))
      as (r & ->).
Qed.

(** C27.  Reconciling converges, and it does not retry a reload.  When nothing fails but, perhaps,
    the reload itself, one reconcile brings the file to the configuration asked for, and every
    later one that asks for the same configuration writes nothing and reloads nothing: not
    even after [docker exec] failed, so Telegraf then keeps running with the old one. *)
Theorem reconcile_converges (w w2 : world) (out : string) :
  (forall t, db_fault t = None /\ read_fault t = None /\ write_fault t = None) ->
  desired w = Some out -> desired w2 = Some out ->
  let w1 := (reconcileTelegrafConfig key cfg tmpl_file w).2 in
  w_conf w1 = Some out /\ (w_conf w2 = w_conf w1 ->
    untouched w2 (reconcileTelegrafConfig key cfg tmpl_file w2).2).
Proof.
  intros Hf Hout Hout2. cbn zeta. destruct (reconcile_works w out Hf Hout) as [Hc _]. split; [done|].
  intros Hsame. destruct (reconcile_works w2 out Hf Hout2) as [_ Hu]. apply Hu. congruence.
Qed.
End reconcile.

(** * Witness *)

(** One active SNMPv2c device, no configuration yet, and a Docker that always fails. *)
Definition active_router : world :=
  set_settings {["polling_interval_seconds" := "30"]}
    (DeviceStore.Update (H := quiet_db) 1 [("status", AStr "active")] one_router).2.

Definition broken_docker : HostEnv :=
  {| discover_gateway _ := Err (ENew [FStr "no gateway"]); icmp_listen _ := None; icmp_write _ _ := None;
     icmp_deadline _ _ := None; icmp_read _ _ := Err (ENew [FStr "i/o timeout"]); icmp_parse _ := Ok 0;
     read_fault _ := None; write_fault _ := None;
     docker_exec _ _ := Some (ENew [FStr "exit status 1"], "No such container") |}.

Definition sample_config : watcherConfig :=
  {| templatePath := "/telegraf.conf.tmpl"; configPath := "/etc/telegraf/telegraf.conf";
     containerName := "telegraf"; influxURL := "http://influxdb:8181"; influxToken := "t";
     influxDatabase := "network_monitor" |}.

Lemma reconcile_converges_witness :
  let run := reconcileTelegrafConfig (H := quiet_db) (H0 := broken_docker) sample_key sample_config
    (Ok telegraf_conf_tmpl) in
  let w1 := (run active_router).2 in
  is_Some (w_conf w1) /\ hd_error (w_trace w1) = Some (EvReload "telegraf") /\ untouched w1 (run w1).2.
Proof.
  cbv zeta.
  set (run := reconcileTelegrafConfig (H := quiet_db) (H0 := broken_docker) sample_key sample_config
    (Ok telegraf_conf_tmpl)).
  destruct (desired sample_key sample_config (Ok telegraf_conf_tmpl) active_router) as [out|] eqn:Hd;
    [|by vm_compute in Hd].
  destruct (reconcile_converges (H := quiet_db) (H0 := broken_docker) sample_key sample_config
    (Ok telegraf_conf_tmpl) active_router (run active_router).2 out) as [Hc Hu].
  - intros t. split_and!; reflexivity.
  - exact Hd.
  - assert (Hs : w_settings (run active_router).2 = w_settings active_router) by (vm_compute; reflexivity).
    assert (Hw : w_devices (run active_router).2 = w_devices active_router) by (vm_compute; reflexivity).
    revert Hd. unfold desired. by rewrite Hs, Hw.
  - split_and!; [by exists out|vm_compute; reflexivity|apply Hu; reflexivity].
Defined.
