(* ===== verification/RateLimit.v ===== *)
(** [chat-api/ratelimit.go]: the limiter that caps the paid calls each client can cause.  The
    mutex makes [allow] one step; the clock is an argument of it. *)

From Stdlib Require Import Sorting.Sorted.
From S2P Require Import Prelude.
Open Scope Z_scope.

(** Times and durations in nanoseconds. *)
Record rateLimiter := { window : Z; limit : Z; requests : gmap string (list Z) }.

Definition newRateLimiter (limit window : Z) : rateLimiter :=
  {| window := window; limit := limit; requests := ∅ |}.

(** [rl.requests[ip]]: a missing key is the nil slice. *)
Definition logged (rl : rateLimiter) (ip : string) : list Z := default [] (requests rl !! ip).

Definition log_requests (rl : rateLimiter) (ip : string) (l : list Z) : rateLimiter :=
  {| window := window rl; limit := limit rl; requests := <[ip := l]> (requests rl) |}.

Definition allow (rl : rateLimiter) (now : Z) (ip : string) : bool * rateLimiter :=
  let cutoff := now - window rl in
  let recent := List.filter (fun t => cutoff <? t) (logged rl ip) in
  if limit rl <=? Z.of_nat (length recent) then (false, log_requests rl ip recent)
  else (true, log_requests rl ip (recent ++ [now])).

(** A sequence of requests: when each came, and from whom. *)
Fixpoint serve (rl : rateLimiter) (calls : list (Z * string)) : list bool :=
  match calls with
  | [] => []
  | (now, ip) :: calls' => let '(b, rl') := allow rl now ip in b :: serve rl' calls'
  end.

(** * Specification

    No state but the history of the requests let through: a request passes if fewer than
    [limit] requests of the same client passed less than [window] before it. *)

(** How many of a client's requests in a history lie after [c] and not after [t]. *)
Definition passed (c t : Z) (ip : string) (h : list (Z * string)) : Z :=
  Z.of_nat (length (List.filter (fun '(s, i) => String.eqb i ip && (c <? s) && (s <=? t)) h)).

Definition may_pass (limit window : Z) (h : list (Z * string)) (now : Z) (ip : string) : bool :=
  passed (now - window) now ip h <? limit.

Fixpoint admit_all (limit window : Z) (h calls : list (Z * string)) : list bool * list (Z * string) :=
  match calls with
  | [] => ([], h)
  | (now, ip) :: calls' =>
      let b := may_pass limit window h now ip in
      let '(bs, h') := admit_all limit window (if b then h ++ [(now, ip)] else h) calls' in
      (b :: bs, h')
  end.

(** The requests of one client, and the answers to them. *)
Definition of_client (ip : string) (calls : list (Z * string)) : list (Z * string) :=
  List.filter (fun c => String.eqb c.2 ip) calls.

Fixpoint answers_to (ip : string) (calls : list (Z * string)) (bs : list bool) : list bool :=
  match calls, bs with
  | c :: calls', b :: bs' =>
      if String.eqb c.2 ip then b :: answers_to ip calls' bs' else answers_to ip calls' bs'
  | _, _ => []
  end.

(** The clock does not go back: Go compares monotonic readings. *)
Definition in_order (calls : list (Z * string)) : Prop := StronglySorted Z.le (map fst calls).

(** * Facts *)

Lemma filter_filter {A} (p q : A -> bool) l :
  List.filter p (List.filter q l) = List.filter (fun x => q x && p x) l.
Proof.
  induction l as [|x l IH]; [done|]. cbn. destruct (q x); cbn; [|done]. destruct (p x); by rewrite IH.
Qed.

Lemma filter_ext_in {A} (p q : A -> bool) l :
  (forall x, x ∈ l -> p x = q x) -> List.filter p l = List.filter q l.
Proof.
  intros H. induction l as [|x l IH]; [done|]. cbn. rewrite (H x) by by left.
  rewrite IH; [done|]. intros y Hy. apply H. by right.
Qed.

(** The times of a client's requests in a history. *)
Definition times (ip : string) (h : list (Z * string)) : list Z := map fst (of_client ip h).

Lemma times_app ip h1 h2 : times ip (h1 ++ h2) = times ip h1 ++ times ip h2.
Proof. unfold times, of_client. by rewrite List.filter_app, map_app. Qed.

Lemma passed_times c t ip h :
  passed c t ip h = Z.of_nat (length (List.filter (fun s => (c <? s) && (s <=? t)) (times ip h))).
Proof.
  unfold passed, times, of_client. f_equal. induction h as [|[s i] h IH]; [done|]. cbn.
  destruct (String.eqb i ip); cbn; [|done]. destruct (c <? s), (s <=? t); cbn; lia.
Qed.

(** What the limiter has stored agrees with the history as far as anything at or after [now]
    can ask. *)
Definition agrees (rl : rateLimiter) (h : list (Z * string)) (now : Z) : Prop :=
  (forall ip c, now - window rl <= c ->
    List.filter (fun s => c <? s) (logged rl ip) = List.filter (fun s => c <? s) (times ip h)) /\
  Forall (fun s => s <= now) (map fst h).

Lemma times_le ip h now : Forall (fun s => s <= now) (map fst h) -> Forall (fun s => s <= now) (times ip h).
Proof.
  unfold times, of_client. rewrite !Forall_forall. intros H s [[s' i] [<- Hin]]%list_elem_of_In%in_map_iff.
  apply List.filter_In in Hin as [Hin _]. apply H, list_elem_of_In, in_map_iff. by exists (s', i).
Qed.

Lemma logged_log rl ip l i :
  logged (log_requests rl ip l) i = if String.eqb ip i then l else logged rl i.
Proof.
  unfold logged, log_requests. cbn. destruct (String.eqb_spec ip i) as [->|Hne].
  - by rewrite lookup_insert_eq.
  - by rewrite lookup_insert_ne.
Qed.

Lemma times_snoc ip h now i :
  times i (h ++ [(now, ip)]) = times i h ++ (if String.eqb ip i then [now] else []).
Proof. rewrite times_app. f_equal. unfold times, of_client. cbn. by destruct (String.eqb ip i). Qed.

Lemma agrees_step rl h last now ip :
  agrees rl h last -> last <= now ->
  let b := may_pass (limit rl) (window rl) h now ip in
  (allow rl now ip).1 = b /\
  agrees (allow rl now ip).2 (if b then h ++ [(now, ip)] else h) now.
Proof.
  intros [Hag Hle] Hnow. cbn zeta.
  assert (Hle' : Forall (fun s => s <= now) (map fst h)) by (eapply Forall_impl; [exact Hle|cbn; lia]).
  set (recent := List.filter (fun t => now - window rl <? t) (logged rl ip)).
  assert (Hrec : recent = List.filter (fun t => now - window rl <? t) (times ip h)) by (apply Hag; lia).
  assert (Hb : may_pass (limit rl) (window rl) h now ip = negb (limit rl <=? Z.of_nat (length recent))).
  { unfold may_pass. rewrite passed_times, Hrec, (filter_ext_in _ (fun t => now - window rl <? t)).
    - destruct (Z.leb_spec (limit rl) (Z.of_nat (length (List.filter (fun t => now - window rl <? t) (times ip h)))));
        cbn; by apply Z.ltb_ge || apply Z.ltb_lt.
    - intros s Hs. pose proof (times_le ip h now Hle') as Ht. rewrite Forall_forall in Ht.
      specialize (Ht s Hs). cbn in Ht. rewrite (proj2 (Z.leb_le s now)) by lia. apply andb_true_r. }
  assert (Hold : forall i c, now - window rl <= c ->
    List.filter (fun s => c <? s) (if String.eqb ip i then recent else logged rl i) =
      List.filter (fun s => c <? s) (times i h)).
  { intros i c Hc. destruct (String.eqb_spec ip i) as [->|_]; [|apply Hag; lia].
    rewrite Hrec, filter_filter. apply filter_ext_in. intros s _.
    destruct (Z.ltb_spec c s); [|by rewrite andb_false_r]. by rewrite (proj2 (Z.ltb_lt _ _)) by lia. }
  unfold allow. fold recent. rewrite Hb. destruct (limit rl <=? _); cbn; (split; [done|]); split; try done.
  - intros i c Hc. rewrite logged_log. by apply Hold.
  - intros i c Hc. cbn in Hc. rewrite logged_log, times_snoc. specialize (Hold i c Hc).
    destruct (String.eqb ip i); [|by rewrite app_nil_r]. by rewrite !List.filter_app, Hold.
  - rewrite map_app. apply Forall_app. split; [done|]. constructor; [cbn; lia|constructor].
Qed.

Lemma allow_params rl now ip :
  window (allow rl now ip).2 = window rl /\ limit (allow rl now ip).2 = limit rl.
Proof. unfold allow. by destruct (limit rl <=? _). Qed.

Lemma serve_spec rl h last calls :
  agrees rl h last -> StronglySorted Z.le (last :: map fst calls) ->
  serve rl calls = (admit_all (limit rl) (window rl) h calls).1.
Proof.
  revert rl h last. induction calls as [|[now ip] calls IH]; intros rl h last Hag Hs; [done|].
  apply StronglySorted_inv in Hs as [Hs Hall]. cbn in Hall. apply Forall_cons in Hall as [Hnow _].
  destruct (agrees_step rl h last now ip Hag Hnow) as [Hb Hag']. cbn [serve admit_all].
  destruct (allow_params rl now ip) as [Hw Hl].
  destruct (allow rl now ip) as [b rl'] eqn:Ha. cbn [fst snd] in *. subst b.
  rewrite (IH rl' _ now Hag') by exact Hs. rewrite Hw, Hl. by destruct (admit_all _ _ _ calls).
Qed.

Lemma passed_snoc c t ip h now i :
  passed c t ip (h ++ [(now, i)]) =
    passed c t ip h + (if String.eqb i ip && (c <? now) && (now <=? t) then 1 else 0).
Proof.
  unfold passed. rewrite List.filter_app, length_app. cbn. destruct (_ && _ && _); cbn; lia.
Qed.

(** A window that ends at or after all of the history holds no more of it if it ends later. *)
Lemma passed_later win now t ip h :
  Forall (fun s => s <= now) (map fst h) -> now <= t ->
  passed (t - win) t ip h <= passed (now - win) now ip h.
Proof.
  intros Hle Ht. rewrite !passed_times. apply (times_le ip) in Hle.
  induction (times ip h) as [|s l IH]; [done|]. apply Forall_cons in Hle as [Hs Hle].
  specialize (IH Hle). cbn [List.filter]. rewrite (proj2 (Z.leb_le s now)) by lia.
  destruct (Z.ltb_spec (t - win) s); [|destruct (Z.ltb_spec (now - win) s); cbn; lia].
  rewrite (proj2 (Z.ltb_lt (now - win) s)) by lia. destruct (s <=? t); cbn; lia.
Qed.

(** Never more than [limit] of a client's requests within one window. *)
Lemma passed_bound lim win h last calls :
  Forall (fun s => s <= last) (map fst h) -> StronglySorted Z.le (last :: map fst calls) ->
  (forall ip t, passed (t - win) t ip h <= lim) ->
  forall ip t, passed (t - win) t ip (admit_all lim win h calls).2 <= lim.
Proof.
  revert h last. induction calls as [|[now i] calls IH]; intros h last Hle Hs Hh; [done|].
  apply StronglySorted_inv in Hs as [Hs Hall]. cbn in Hall. apply Forall_cons in Hall as [Hnow _].
  assert (Hle' : Forall (fun s => s <= now) (map fst h)) by (eapply Forall_impl; [exact Hle|cbn; lia]).
  specialize (IH (if may_pass lim win h now i then h ++ [(now, i)] else h) now). cbn [admit_all].
  destruct (admit_all _ _ _ calls) as [bs h']. apply IH; [|exact Hs|].
  - destruct (may_pass _ _ _ _ _); [|done]. rewrite map_app. apply Forall_app. by repeat constructor.
  - destruct (may_pass lim win h now i) eqn:Hb; [|done]. intros ip t. rewrite passed_snoc.
    specialize (Hh ip t). unfold may_pass in Hb. apply Z.ltb_lt in Hb.
    destruct (String.eqb_spec i ip) as [->|_]; cbn; [|lia]. destruct (_ <? now); cbn; [|lia].
    destruct (Z.leb_spec now t); [|lia]. pose proof (passed_later win now t ip h Hle'). lia.
Qed.

Lemma passed_client c t ip h : passed c t ip (of_client ip h) = passed c t ip h.
Proof.
  unfold passed, of_client. rewrite filter_filter. do 2 f_equal.
  induction h as [|[s i] h IH]; [done|]. cbn. destruct (String.eqb i ip); cbn; [|done].
  destruct (c <? s), (s <=? t); cbn; by rewrite IH.
Qed.

Lemma of_client_snoc ip h now i :
  of_client ip (h ++ [(now, i)]) = of_client ip h ++ (if String.eqb i ip then [(now, i)] else []).
Proof. unfold of_client. rewrite List.filter_app. cbn. by destruct (String.eqb i ip). Qed.

Lemma of_client_cons ip now i calls :
  of_client ip ((now, i) :: calls) =
    if String.eqb i ip then (now, i) :: of_client ip calls else of_client ip calls.
Proof. done. Qed.

(** A client's answers are those it would get alone. *)
Lemma admit_client lim win ip h calls :
  answers_to ip calls (admit_all lim win h calls).1 =
    (admit_all lim win (of_client ip h) (of_client ip calls)).1.
Proof.
  revert h. induction calls as [|[now i] calls IH]; intros h; [done|]. rewrite of_client_cons. cbn [admit_all].
  specialize (IH (if may_pass lim win h now i then h ++ [(now, i)] else h)).
  destruct (admit_all lim win (if may_pass _ _ _ _ _ then _ else _) calls) as [bs h']. cbn [fst] in *.
  cbn [answers_to snd]. destruct (String.eqb_spec i ip) as [->|Hne]; rewrite IH.
  - cbn [admit_all]. assert (Hm : may_pass lim win (of_client ip h) now ip = may_pass lim win h now ip)
      by (unfold may_pass; by rewrite passed_client).
    rewrite Hm. destruct (may_pass lim win h now ip).
    + rewrite of_client_snoc, String.eqb_refl. destruct (admit_all _ _ (_ ++ _) _); reflexivity.
    + by destruct (admit_all _ _ _ _).
  - destruct (may_pass lim win h now i); [|done].
    by rewrite of_client_snoc, (proj2 (String.eqb_neq i ip) Hne), app_nil_r.
Qed.

Lemma in_order_from last calls : in_order calls -> (forall t, t ∈ map fst calls -> last <= t) ->
  StronglySorted Z.le (last :: map fst calls).
Proof. intros Hs Hl. constructor; [exact Hs|]. by apply Forall_forall. Qed.

(** C28.  The limiter keeps its promise although it forgets: with a clock that does not go
    back, its answers are those of the specification that remembers every request, so a
    request is refused only when [limit] of the same client's requests were let through
    within the window before it; in any window, wherever it ends, at most [limit] requests of
    a client are let through; and a client's answers do not depend on the others'. *)
Theorem rate_limit_spec (limit window : Z) (calls : list (Z * string)) :
  0 <= limit -> in_order calls ->
  let rl := newRateLimiter limit window in
  let '(answers, history) := admit_all limit window [] calls in
  serve rl calls = answers /\
  (forall ip t, passed (t - window) t ip history <= limit) /\
  (forall ip, answers_to ip calls (serve rl calls) = serve rl (of_client ip calls)).
Proof.
  intros Hlim Hord. cbn zeta.
  assert (Hserve : forall l, in_order l -> serve (newRateLimiter limit window) l = (admit_all limit window [] l).1).
  { intros [|[t i] l] Hl; [done|]. apply (serve_spec (newRateLimiter limit window) [] t).
    - split; [|constructor]. intros ip c _. unfold logged. cbn. by rewrite lookup_empty.
    - apply in_order_from; [exact Hl|]. intros s Hs. cbn in Hs. apply elem_of_cons in Hs as [->|Hs]; [lia|].
      apply StronglySorted_inv in Hl as [_ Hl]. rewrite Forall_forall in Hl. by apply Hl. }
  destruct (admit_all limit window [] calls) as [bs h] eqn:He. split_and!.
  - by rewrite Hserve, He.
  - replace h with (admit_all limit window [] calls).2 by by rewrite He.
    destruct calls as [|[t i] calls]; [by intros; cbn|]. apply (passed_bound _ _ _ t); [constructor| |by intros].
    apply in_order_from; [exact Hord|]. intros s Hs. cbn in Hs. apply elem_of_cons in Hs as [->|Hs]; [lia|].
    apply StronglySorted_inv in Hord as [_ Hl]. rewrite Forall_forall in Hl. by apply Hl.
  - intros ip. rewrite (Hserve calls Hord), Hserve, admit_client; [done|].
    unfold in_order, of_client. clear He. induction calls as [|[t i] calls IH]; [constructor|].
    apply StronglySorted_inv in Hord as [Hord Hall]. specialize (IH Hord). cbn.
    destruct (String.eqb i ip); [|done]. constructor; [done|]. rewrite Forall_forall in Hall |- *.
    intros s [c [<- Hc]]%list_elem_of_In%in_map_iff. apply Hall, list_elem_of_In, in_map_iff.
    exists c. apply List.filter_In in Hc as [Hc _]. done.
Qed.

Lemma rate_limit_spec_witness :
  serve (newRateLimiter 2 60) [(0, "a"); (1, "a"); (2, "b"); (3, "a"); (60, "a"); (61, "a"); (61, "a")] =
    [true; true; true; false; true; true; false].
Proof.
  pose proof (rate_limit_spec 2 60
    [(0, "a"); (1, "a"); (2, "b"); (3, "a"); (60, "a"); (61, "a"); (61, "a")]) as H.
  destruct H as [H _]; [lia| |etransitivity; [exact H|vm_compute; reflexivity]].
  unfold in_order. cbn. repeat constructor; lia.
Defined.
