(* ===== verification/Text.v ===== *)
(** [strings] functions that look at letters: [ToLower], [EqualFold], [TrimSpace],
    [ReplaceAll].  What they do to ASCII is defined here; for the other runes the case
    tables of [unicode] are a parameter. *)

From S2P Require Import Prelude Encoding Json.
Open Scope Z_scope.

(** [unicode.ToLower] and equality up to [unicode.SimpleFold] on encoded runes outside ASCII. *)
Class CaseTables := {
  lower_rune : string -> string;
  same_fold : string -> string -> bool
}.

(** Tables under which only ASCII letters have a case. *)
Definition ascii_tables : CaseTables := {| lower_rune s := s; same_fold := String.eqb |}.

Section text.
Context `{CaseTables}.

(** A stray byte is read as U+FFFD. *)
Definition rune_bytes (ch : chunk) : string :=
  match ch with Rune bs => bs | Bad _ => replacement end.

Definition lower_chunk (ch : chunk) : string :=
  match rune_bytes ch with
  | String c "" => String (ascii_lower c) ""
  | bs => lower_rune bs
  end.

Definition ToLower (s : string) : string := concat_str (map lower_chunk (runes s)).

Definition fold_eq (a b : chunk) : bool :=
  let x := rune_bytes a in
  let y := rune_bytes b in
  match x, y with
  | String c "", String d "" => Ascii.eqb (ascii_lower c) (ascii_lower d)
  | _, _ => String.eqb x y || same_fold x y
  end.

Fixpoint all2 {A} (p : A -> A -> bool) (l m : list A) : bool :=
  match l, m with
  | [], [] => true
  | x :: l', y :: m' => p x y && all2 p l' m'
  | _, _ => false
  end.

Definition EqualFold (s t : string) : bool := all2 fold_eq (runes s) (runes t).

Lemma EqualFold_refl s : EqualFold s s = true.
Proof.
  unfold EqualFold. induction (runes s) as [|ch l IH]; [done|]. cbn [all2]. rewrite IH, andb_true_r.
  unfold fold_eq. destruct (rune_bytes ch) as [|c [|d t]]; [done|by rewrite Ascii.eqb_refl|].
  by rewrite String.eqb_refl.
Qed.

Lemma EqualFold_empty s : s <> "" -> EqualFold s "" = false.
Proof.
  intros Hs. unfold EqualFold. change (runes "") with (@nil chunk).
  destruct (runes s) eqn:Hr; [|done]. destruct Hs. by rewrite <- (concat_runes s), Hr.
Qed.
End text.

(** [unicode.IsSpace]. *)
Definition is_space_rune (ch : chunk) : bool :=
  match ch with
  | Rune bs =>
      match map byte_val (String.list_ascii_of_string bs) with
      | [b] => (b =? 32) || ((9 <=? b) && (b <=? 13))
      | [194; b] => (b =? 133) || (b =? 160)                    (* U+0085, U+00A0 *)
      | [225; 154; b] => b =? 128                               (* U+1680 *)
      | [226; 128; b] => ((128 <=? b) && (b <=? 138)) || (b =? 168) || (b =? 169) || (b =? 175)
      | [226; 129; b] => b =? 159                               (* U+205F *)
      | [227; 128; b] => b =? 128                               (* U+3000 *)
      | _ => false
      end
  | Bad _ => false
  end.

Fixpoint drop_while {A} (p : A -> bool) (l : list A) : list A :=
  match l with
  | x :: l' => if p x then drop_while p l' else l
  | [] => []
  end.

Definition TrimSpace (s : string) : string :=
  let l := drop_while is_space_rune (runes s) in
  concat_str (map chunk_bytes (rev (drop_while is_space_rune (rev l)))).

(** [strings.ReplaceAll s old new] for a one-byte [old]. *)
Fixpoint ReplaceAll (s : string) (old : ascii) (new : string) : string :=
  match s with
  | "" => ""
  | String c s' => if Ascii.eqb c old then new +:+ ReplaceAll s' old new
                   else String c (ReplaceAll s' old new)
  end.

Example trim_examples :
  TrimSpace (" R1" +:+ nl +:+ " ") = "R1" /\ TrimSpace "R 1" = "R 1" /\ TrimSpace "  " = "".
Proof. vm_compute. done. Qed.
