(* ===== verification/ChatSql.v ===== *)
(** [chat-api], schema.go and the query building of tools.go and influx.go: which metrics can be
    asked for, and the SQL that asks for them. *)

From S2P Require Import Prelude Float64 Encoding Json Text.
Open Scope Z_scope.

(** * schema.go *)

Inductive columnKind := kindGauge | kindCounter.

#[export] Instance columnKind_eq_dec : EqDecision columnKind.
Proof. solve_decision. Defined.

Record metricColumn := {
  Kind : columnKind;
  Description : string;
  SubDimension : string;
  SubDimensionDefault : string
}.

Definition metric (k : columnKind) (desc sub def : string) : metricColumn :=
  {| Kind := k; Description := desc; SubDimension := sub; SubDimensionDefault := def |}.

Definition metricWhitelist : list (string * list (string * metricColumn)) :=
  [("cpu",
    [("cpu5sec", metric kindGauge
       ("CPU utilization over the last 5 seconds (%). Spiky/noisy -- use " +:+
       "cpu1min for a stable reading.") "" "");
     ("cpu1min", metric kindGauge
       (unquote ("CPU utilization over the last 1 minute (%). The standard `current " +:+
       "load` metric.")) "" "");
     ("cpu5min", metric kindGauge
       ("CPU utilization over the last 5 minutes (%). Use for " +:+
       "trend/sustained-load questions.") "" "")]);
   ("memory",
    [("ciscoMemoryPoolUsed", metric kindGauge
       "Bytes used in this memory pool." "ciscoMemoryPoolName" "Processor");
     ("ciscoMemoryPoolFree", metric kindGauge
       "Bytes free in this memory pool." "ciscoMemoryPoolName" "Processor");
     ("ciscoMemoryPoolLargestFree", metric kindGauge
       ("Largest contiguous free block in this memory pool (bytes) -- a " +:+
       "fragmentation signal.") "ciscoMemoryPoolName" "Processor")]);
   ("interface",
    [("ifOperStatus", metric kindGauge
       "Interface operational status: 1=up, 2=down, others rarer." "ifDescr" "");
     ("ifAdminStatus", metric kindGauge
       "Interface administrative status: 1=up, 2=down." "ifDescr" "");
     ("ifSpeed", metric kindGauge
       "Interface negotiated speed in bits/sec." "ifDescr" "");
     ("ifInOctets", metric kindCounter
       ("Cumulative inbound bytes since boot (32-bit counter). Use " +:+
       ("aggregation=rate for a Mbps throughput figure, not " +:+
       "current/avg/max/min.")) "ifDescr" "");
     ("ifOutOctets", metric kindCounter
       ("Cumulative outbound bytes since boot (32-bit counter). Use " +:+
       ("aggregation=rate for a Mbps throughput figure, not " +:+
       "current/avg/max/min.")) "ifDescr" "");
     ("ifInErrors", metric kindCounter
       "Cumulative inbound error count since boot." "ifDescr" "");
     ("ifOutErrors", metric kindCounter
       "Cumulative outbound error count since boot." "ifDescr" "")])].

Definition lookupColumn (table column : string) : result metricColumn :=
  match map_get metricWhitelist table with
  | None => Err (ENew [FStr "unknown table "; FQuote table; FStr ": known tables are cpu, memory, interface"])
  | Some cols =>
      match map_get cols column with
      | None => Err (ENew [FStr "unknown column "; FQuote column; FStr " on table "; FQuote table])
      | Some mc => Ok mc
      end
  end.

(** * tools.go: arguments of a tool call *)

Definition maxQueryHours : Z := 72.

Definition clampHours (h : float64) : result float64 :=
  if Fleb h F0 then Err (ENew [FStr "hours must be positive"])
  else if Fltb (F_of_Z maxQueryHours) h then
    Err (ENew [FStr "hours capped at "; FInt maxQueryHours;
      FStr " to stay within InfluxDB's query limits -- ask a narrower question or make multiple calls"])
  else Ok h.

Definition inputString (input : list (string * any)) (key : string) : string :=
  match map_get input key with Some (AStr s) => s | _ => "" end.

Definition inputFloat (input : list (string * any)) (key : string) : option float64 :=
  match map_get input key with Some (AFloat f) => Some f | _ => None end.

(** * SQL *)

Definition sqlQuote (s : string) : string := "'" +:+ ReplaceAll s "'" "''" +:+ "'".

(** A name between double quotes. *)
Definition ident (s : string) : string := dq +:+ s +:+ dq.

(** The WHERE clause [buildMetricQuery] and [toolRankDevices] build alike. *)
Definition metric_where (mc : metricColumn) (agentHost subFilter : string) (hours : float64) : string :=
  "agent_host = " +:+ sqlQuote agentHost +:+ " AND time >= now() - INTERVAL '" +:+ fmt_g hours +:+ " hours'"
  +:+ (if String.eqb subFilter "" then ""
       else " AND " +:+ ident (SubDimension mc) +:+ " = " +:+ sqlQuote subFilter).

Definition rateQuery (table column where_ : string) : string :=
  nl +:+ "WITH deltas AS (" +:+ nl +:+
  "  SELECT time, " +:+ ident column +:+ " - LAG(" +:+ ident column +:+ ") OVER (ORDER BY time) AS delta"
  +:+ nl +:+ "  FROM " +:+ table +:+ " WHERE " +:+ where_ +:+ nl +:+ ")" +:+ nl +:+ "SELECT" +:+ nl +:+
  "  SUM(CASE WHEN delta < 0 THEN delta + 4294967296 ELSE delta END) AS total_bytes," +:+ nl +:+
  "  EXTRACT(EPOCH FROM (MAX(time) - MIN(time))) AS span_seconds" +:+ nl +:+
  "FROM deltas WHERE delta IS NOT NULL".

Definition averageQuery (table column where_ : string) : string :=
  "SELECT AVG(" +:+ ident column +:+ ") AS result FROM " +:+ table +:+ " WHERE " +:+ where_.

Definition aggregate_fn (aggregation : string) : option string :=
  if String.eqb aggregation "avg" then Some "AVG"
  else if String.eqb aggregation "max" then Some "MAX"
  else if String.eqb aggregation "min" then Some "MIN"
  else None.

Definition buildMetricQuery (table column : string) (mc : metricColumn)
    (agentHost subFilter aggregation : string) (hours : float64) (input : list (string * any))
    : result string :=
  let where_ := metric_where mc agentHost subFilter hours in
  let series order limit := "SELECT time, " +:+ ident column +:+ " FROM " +:+ table +:+ " WHERE "
    +:+ where_ +:+ " ORDER BY time " +:+ order +:+ " LIMIT " +:+ limit in
  if String.eqb aggregation "current" then Ok (series "DESC" "1")
  else if String.eqb aggregation "history" then Ok (series "ASC" "500")
  else match aggregate_fn aggregation with
  | Some fn =>
      if bool_decide (Kind mc = kindCounter) then
        Err (ENew [FStr column; FStr " is a cumulative counter, "; FStr aggregation;
          FStr " doesn't apply -- use aggregation=rate for a throughput figure, or aggregation=history to see raw values"])
      else Ok ("SELECT " +:+ fn +:+ "(" +:+ ident column +:+ ") AS result FROM " +:+ table +:+ " WHERE " +:+ where_)
  | None =>
      if String.eqb aggregation "count_above_threshold" then
        if bool_decide (Kind mc = kindCounter) then
          Err (ENew [FStr column; FStr " is a cumulative counter, count_above_threshold doesn't apply to it directly -- use aggregation=rate to check throughput instead"])
        else
          match inputFloat input "threshold" with
          | None => Err (ENew [FStr "threshold is required for aggregation=count_above_threshold"])
          | Some threshold =>
              Ok ("SELECT COUNT(*) AS result FROM " +:+ table +:+ " WHERE " +:+ where_ +:+ " AND "
                +:+ ident column +:+ " > " +:+ fmt_g threshold)
          end
      else if String.eqb aggregation "rate" then
        if negb (bool_decide (Kind mc = kindCounter)) then
          Err (ENew [FStr column; FStr " is not a counter -- aggregation=rate only applies to cumulative byte/error counters like ifInOctets/ifOutOctets"])
        else Ok (rateQuery table column where_)
      else Err (ENew [FStr "unknown aggregation "; FQuote aggregation])
  end.

(** The lookup of [resolveSubFilter]. *)
Definition distinctQuery (mc : metricColumn) (table agentHost : string) : string :=
  "SELECT DISTINCT " +:+ ident (SubDimension mc) +:+ " AS v FROM " +:+ table +:+ " WHERE agent_host = "
  +:+ sqlQuote agentHost +:+ " AND time >= now() - INTERVAL '" +:+ Itoa maxQueryHours +:+ " hours'".

(** What the database computes for [rateQuery]: [LAG] pairs each sample with the one before it
    in time, and [total_bytes] is the SUM of the differences, a negative one taken as the
    wrap of a 32-bit counter; it is NULL when there is no difference to add. *)
Definition delta_bytes (previous current : Z) : Z :=
  let delta := current - previous in
  if delta <? 0 then delta + 4294967296 else delta.

Fixpoint deltas (samples : list Z) : list Z :=
  match samples with
  | a :: ((b :: _) as rest) => delta_bytes a b :: deltas rest
  | _ => []
  end.

Definition total_bytes (samples : list Z) : option Z :=
  match deltas samples with [] => None | ds => Some (foldr Z.add 0 ds) end.
