(* ===== verification/ChatSqlFacts.v ===== *)
(** What reaches the SQL of chat-api: a lexer of SQL quotation shows that whatever a model or a
    user supplies stays inside its literals, and the meaning of the throughput query is the
    true increment of a wrapping counter. *)

From S2P Require Import Prelude Float64 Encoding Json Text ChatSql.
Open Scope Z_scope.

(** * A lexer for quotation

    String literals between single quotes and identifiers between double quotes, a doubled
    quote standing for itself.  The result is the text with each literal replaced by [?], and
    the literals' values. *)

Inductive lex_state := Plain | InLit (acc : string) | InIdent.

Definition out (c : ascii) (r : option (string * list string)) : option (string * list string) :=
  '(sk, ls) ← r; Some (String c sk, ls).

Definition literal (v : string) (r : option (string * list string)) : option (string * list string) :=
  '(sk, ls) ← r; Some (String "?" sk, v :: ls).

Fixpoint sql_lex (st : lex_state) (s : string) : option (string * list string) :=
  match st, s with
  | Plain, "" => Some ("", [])
  | _, "" => None
  | Plain, String c s' =>
      if Ascii.eqb c "'" then sql_lex (InLit "") s'
      else if Ascii.eqb c "034" then out c (sql_lex InIdent s')
      else out c (sql_lex Plain s')
  | InLit acc, String c s' =>
      if Ascii.eqb c "'" then
        match s' with
        | String "'" s'' => sql_lex (InLit (String "'" acc)) s''
        | _ => literal (str_rev acc) (sql_lex Plain s')
        end
      else sql_lex (InLit (String c acc)) s'
  | InIdent, String c s' =>
      if Ascii.eqb c "034" then out c (sql_lex Plain s') else out c (sql_lex InIdent s')
  end.

(** A rest that does not go on with a quote, so that the quote before it closes a literal. *)
Definition closes (rest : string) : bool :=
  match rest with String c _ => negb (Ascii.eqb c "'") | "" => true end.

Lemma lex_in_literal v acc rest : closes rest = true ->
  sql_lex (InLit acc) (ReplaceAll v "'" "''" +:+ "'" +:+ rest) =
    literal (str_rev acc +:+ v) (sql_lex Plain rest).
Proof.
  intros Hr. revert acc. induction v as [|c v IH]; intros acc.
  - rewrite str_app_nil. cbn. destruct rest as [|d rest]; [done|]. cbn in Hr.
    destruct d as [[] [] [] [] [] [] [] []]; done.
  - cbn [ReplaceAll]. destruct (Ascii.eqb_spec c "'") as [->|Hc].
    + rewrite str_app_assoc. change (sql_lex (InLit acc) ("''" +:+ ReplaceAll v "'" "''" +:+ "'" +:+ rest))
        with (sql_lex (InLit (String "'" acc)) (ReplaceAll v "'" "''" +:+ "'" +:+ rest)).
      rewrite IH. by rewrite str_rev_cons, str_app_assoc.
    + rewrite str_cons_app. cbn [sql_lex]. rewrite (proj2 (Ascii.eqb_neq c "'") Hc), IH.
      by rewrite str_rev_cons, str_app_assoc.
Qed.

Lemma lex_quote v rest : closes rest = true ->
  sql_lex Plain (sqlQuote v +:+ rest) = literal v (sql_lex Plain rest).
Proof. intros Hr. unfold sqlQuote. rewrite !str_app_assoc. by apply (lex_in_literal v ""). Qed.

(** Text before what is lexed. *)
Definition before (s : string) (r : option (string * list string)) : option (string * list string) :=
  '(sk, ls) ← r; Some (s +:+ sk, ls).

Definition no_quote (c : ascii) : bool := negb (Ascii.eqb c "'") && negb (Ascii.eqb c "034").

Lemma before_cons c s r : out c (before s r) = before (String c s) r.
Proof. by destruct r as [[sk ls]|]. Qed.

Lemma before_app s t r : before s (before t r) = before (s +:+ t) r.
Proof. destruct r as [[sk ls]|]; [|done]. cbn. by rewrite str_app_assoc. Qed.

Lemma before_nil r r' : r = r' -> r = before "" r'.
Proof. intros ->. by destruct r' as [[sk ls]|]. Qed.

Lemma lex_plain s rest : str_forallb no_quote s = true ->
  sql_lex Plain (s +:+ rest) = before s (sql_lex Plain rest).
Proof.
  induction s as [|c s IH]; cbn [str_forallb]; [intros _; by apply before_nil|].
  intros [[H1%negb_true_iff H2%negb_true_iff]%andb_prop Hs]%andb_prop. rewrite str_cons_app.
  cbn [sql_lex]. rewrite H1, H2, IH by done. apply before_cons.
Qed.

Lemma lex_in_ident s rest : str_forallb no_quote s = true ->
  sql_lex InIdent (s +:+ dq +:+ rest) = before (s +:+ dq) (sql_lex Plain rest).
Proof.
  induction s as [|c s IH]; cbn [str_forallb].
  - intros _. change (sql_lex InIdent ("" +:+ dq +:+ rest)) with (out "034" (sql_lex Plain rest)).
    unfold out, before. destruct (sql_lex Plain rest) as [[sk ls]|]; reflexivity.
  - intros [[H1%negb_true_iff H2%negb_true_iff]%andb_prop Hs]%andb_prop. rewrite !str_cons_app.
    cbn [sql_lex]. rewrite H2, IH by done. apply before_cons.
Qed.

Lemma lex_ident s rest : str_forallb no_quote s = true ->
  sql_lex Plain (ident s +:+ rest) = before (ident s) (sql_lex Plain rest).
Proof.
  intros Hs. unfold ident. rewrite !str_app_assoc. change (dq +:+ s +:+ dq +:+ rest) with (String "034" (s +:+ dq +:+ rest)).
  cbn [sql_lex]. change (Ascii.eqb "034" "'") with false. rewrite lex_in_ident by done. apply before_cons.
Qed.

(** ** Numbers hold no quote *)

Lemma forallb_app p s t : str_forallb p (s +:+ t) = str_forallb p s && str_forallb p t.
Proof.
  induction s as [|c s IH]; [done|]. rewrite str_cons_app. cbn [str_forallb]. by rewrite IH, andb_assoc.
Qed.

Lemma forallb_rev p s : str_forallb p (str_rev s) = str_forallb p s.
Proof.
  induction s as [|c s IH]; [done|]. rewrite str_rev_cons, forallb_app, IH. cbn [str_forallb].
  by rewrite andb_true_r, andb_comm.
Qed.

Lemma forallb_substring p n m s : str_forallb p s = true -> str_forallb p (String.substring n m s) = true.
Proof.
  revert n m. induction s as [|c s IH]; intros [|n] [|m]; cbn; try done.
  - intros [-> Hs]%andb_prop. cbn. by apply IH.
  - intros [_ Hs]%andb_prop. by apply IH.
  - intros [_ Hs]%andb_prop. by apply IH.
Qed.

Lemma strip_zeros_forallb p s : str_forallb p s = true -> str_forallb p (strip_zeros s) = true.
Proof.
  induction s as [|c s IH]; [done|]. intros Hs. assert (Hs' : str_forallb p s = true) by by cbn in Hs; apply andb_prop in Hs as [_ ?].
  specialize (IH Hs'). destruct c as [[] [] [] [] [] [] [] []]; exact Hs || exact IH.
Qed.

Lemma zeros_forallb n : str_forallb no_quote (zeros n) = true.
Proof. by induction n. Qed.

Lemma pretty_go_forallb x s : str_forallb no_quote s = true -> str_forallb no_quote (pretty_N_go x s) = true.
Proof.
  revert s. induction x as [x IH] using (well_founded_induction N.lt_wf_0). intros s Hs.
  destruct (decide (x = 0)%N) as [->|Hx]; [done|]. rewrite pretty_N_go_step by lia.
  apply IH; [apply N.div_lt; lia|]. cbn [str_forallb]. rewrite Hs, andb_true_r.
  pose proof (N.mod_lt x 10 ltac:(lia)) as Hm. revert Hm. generalize (x mod 10)%N. intros y Hy.
  assert (y = 0 \/ y = 1 \/ y = 2 \/ y = 3 \/ y = 4 \/ y = 5 \/ y = 6 \/ y = 7 \/ y = 8 \/ y = 9)%N as Hc by lia.
  by destruct_or! Hc; subst.
Qed.

Lemma Itoa_forallb z : str_forallb no_quote (Itoa z) = true.
Proof.
  assert (Hp : forall n : N, str_forallb no_quote (pretty n) = true).
  { intros n. unfold pretty, pretty_N. case_decide; [done|]. by apply pretty_go_forallb. }
  destruct z as [|p|p]; [done|apply (Hp (N.pos p))|].
  change (Itoa (Z.neg p)) with (String "-" (pretty (N.pos p))). cbn [str_forallb]. by rewrite Hp.
Qed.

Lemma fmt_g_forallb f : str_forallb no_quote (fmt_g f) = true.
Proof.
  assert (Hsign : forall s, str_forallb no_quote (sign_str s) = true) by by intros [].
  destruct f as [s|s| |s m e]; cbn [fmt_g].
  - by rewrite forallb_app, Hsign.
  - by destruct s.
  - done.
  - assert (Hd : str_forallb no_quote (dec_digits (shortest m e)) = true).
    { unfold shortest. destruct (search_digits _ _ _ _ _ _ _ _) as [c n]. cbn [dec_digits].
      rewrite forallb_rev. apply strip_zeros_forallb. rewrite forallb_rev. apply Itoa_forallb. }
    cbn zeta. rewrite forallb_app, Hsign. cbn [andb]. destruct (_ || _); unfold fmt_e, fmt_f.
    + destruct (dec_digits (shortest m e)) as [|c rest]; [done|]. cbn [str_forallb] in Hd.
      apply andb_prop in Hd as [Hc Hr]. rewrite !forallb_app, zeros_forallb, Itoa_forallb. cbn [str_forallb].
      rewrite Hc. destruct rest; destruct (_ <? 0); cbn [str_forallb andb]; rewrite ?forallb_app;
        cbn in Hr |- *; by rewrite ?Hr.
    + repeat case_match; rewrite ?forallb_app, ?zeros_forallb, ?Hd; [done..|].
      rewrite !forallb_substring by done. done.
Qed.

Lemma ReplaceAll_none s : str_forallb no_quote s = true -> ReplaceAll s "'" "''" = s.
Proof.
  induction s as [|c s IH]; [done|]. cbn [str_forallb ReplaceAll].
  intros [[H1%negb_true_iff _]%andb_prop Hs]%andb_prop. by rewrite H1, IH.
Qed.

(** The interval of a query is a literal too. *)
Lemma interval_literal n rest : str_forallb no_quote n = true ->
  "'" +:+ n +:+ " hours'" +:+ rest = sqlQuote (n +:+ " hours") +:+ rest.
Proof.
  intros Hn. unfold sqlQuote. rewrite ReplaceAll_none by by rewrite forallb_app, Hn.
  by rewrite !str_app_assoc.
Qed.

(** * Queries as text and literals *)

Inductive part := Txt (s : string) | Lit (v : string).

Definition render (l : list part) : string :=
  concat_str (map (fun p => match p with Txt s => s | Lit v => sqlQuote v end) l).

Definition skeleton (l : list part) : string :=
  concat_str (map (fun p => match p with Txt s => s | Lit _ => "?" end) l).

Definition literals (l : list part) : list string :=
  omap (fun p => match p with Txt _ => None | Lit v => Some v end) l.

(** Text that opens no quotation it does not close. *)
Definition transparent (s : string) : Prop :=
  forall rest, sql_lex Plain (s +:+ rest) = before s (sql_lex Plain rest).

Lemma transparent_plain s : str_forallb no_quote s = true -> transparent s.
Proof. intros Hs rest. by apply lex_plain. Qed.

Lemma transparent_ident s : str_forallb no_quote s = true -> transparent (ident s).
Proof. intros Hs rest. by apply lex_ident. Qed.

Lemma transparent_app s t : transparent s -> transparent t -> transparent (s +:+ t).
Proof. intros Hs Ht rest. by rewrite str_app_assoc, Hs, Ht, before_app. Qed.

Fixpoint well_formed (l : list part) : Prop :=
  match l with
  | [] => True
  | Txt s :: l' => transparent s /\ well_formed l'
  | Lit _ :: l' => closes (render l') = true /\ well_formed l'
  end.

Lemma lex_parts l : well_formed l -> sql_lex Plain (render l) = Some (skeleton l, literals l).
Proof.
  induction l as [|[s|v] l IH]; cbn [well_formed]; [done|..]; intros [Hp Hl].
  - change (render (Txt s :: l)) with (s +:+ render l). by rewrite Hp, IH.
  - change (render (Lit v :: l)) with (sqlQuote v +:+ render l). by rewrite lex_quote, IH.
Qed.

Ltac transparent :=
  repeat match goal with
  | |- transparent (_ +:+ _) => apply transparent_app
  | |- transparent (ident _) => apply transparent_ident; assumption
  | |- transparent _ =>
      apply transparent_plain; first [assumption|apply fmt_g_forallb|vm_compute; reflexivity]
  end.

(** ** Names of the whitelist *)

Definition plain_names (t : string * list (string * metricColumn)) : bool :=
  str_forallb no_quote t.1 &&
  forallb (fun c => str_forallb no_quote c.1 && str_forallb no_quote (SubDimension c.2)) t.2.

Lemma whitelist_plain table column mc : lookupColumn table column = Ok mc ->
  str_forallb no_quote table = true /\ str_forallb no_quote column = true /\
  str_forallb no_quote (SubDimension mc) = true.
Proof.
  unfold lookupColumn. destruct (map_get metricWhitelist table) as [cols|] eqn:Ht; [|done].
  destruct (map_get cols column) as [mc'|] eqn:Hc; [|done]. intros [= ->].
  apply map_get_In, list_elem_of_In in Ht. apply map_get_In, list_elem_of_In in Hc.
  assert (Hall : forallb plain_names metricWhitelist = true) by (vm_compute; reflexivity).
  rewrite forallb_forall in Hall. apply Hall in Ht. apply andb_prop in Ht as [Ht Hcols].
  cbn in Hcols. rewrite forallb_forall in Hcols. apply Hcols in Hc. apply andb_prop in Hc. by destruct Hc.
Qed.

(** ** The WHERE clause *)

Definition where_parts (mc : metricColumn) (agentHost subFilter : string) (hours : float64) : list part :=
  [Txt "agent_host = "; Lit agentHost; Txt " AND time >= now() - INTERVAL "; Lit (fmt_g hours +:+ " hours")]
  ++ (if String.eqb subFilter "" then []
      else [Txt (" AND " +:+ ident (SubDimension mc) +:+ " = "); Lit subFilter]).

Lemma render_app l1 l2 : render (l1 ++ l2) = render l1 +:+ render l2.
Proof. unfold render. by rewrite map_app, concat_str_app. Qed.

Lemma skeleton_app l1 l2 : skeleton (l1 ++ l2) = skeleton l1 +:+ skeleton l2.
Proof. unfold skeleton. by rewrite map_app, concat_str_app. Qed.

Lemma where_rendered mc h s hours : metric_where mc h s hours = render (where_parts mc h s hours).
Proof.
  unfold metric_where, where_parts. pose proof (fmt_g_forallb hours) as Hn.
  assert (Hi : forall x, " AND time >= now() - INTERVAL '" +:+ x = " AND time >= now() - INTERVAL " +:+ "'" +:+ x)
    by reflexivity.
  rewrite Hi, interval_literal, render_app by done. unfold render.
  destruct (String.eqb s ""); cbn [map concat_str]; by autorewrite with go_str.
Qed.

Lemma render_framed pre mc h s hours post :
  pre +:+ metric_where mc h s hours +:+ post = render (Txt pre :: where_parts mc h s hours ++ [Txt post]).
Proof.
  rewrite where_rendered. change (Txt pre :: ?l) with ([Txt pre] ++ l). rewrite !render_app.
  unfold render at 2 4. cbn. by rewrite !str_app_nil.
Qed.

(** A query around a WHERE clause, and what its lexing gives: only the literals depend on the
    values, and whether there is a second filter on [subFilter]. *)
Lemma lex_framed pre post mc h s hours :
  str_forallb no_quote (SubDimension mc) = true -> transparent pre -> transparent post -> closes post = true ->
  sql_lex Plain (pre +:+ metric_where mc h s hours +:+ post) =
    Some (skeleton (Txt pre :: where_parts mc "" (if String.eqb s "" then "" else "x") F0 ++ [Txt post]),
          h :: (fmt_g hours +:+ " hours") :: (if String.eqb s "" then [] else [s])).
Proof.
  intros Hmc Hpre Hpost Hcl. rewrite render_framed, lex_parts.
  - f_equal. f_equal.
    + change (Txt pre :: ?l) with ([Txt pre] ++ l). rewrite !skeleton_app. f_equal. f_equal.
      unfold where_parts. by destruct (String.eqb s "").
    + unfold where_parts. by destruct (String.eqb s "").
  - cbn [well_formed app]. split; [done|]. unfold where_parts. cbn [well_formed app].
    assert (Hand : transparent (" AND " +:+ ident (SubDimension mc) +:+ " = ")) by transparent.
    assert (Hpost' : render [Txt post] = post) by (unfold render; cbn; apply str_app_nil).
    split; [transparent|]. split; [done|]. split; [transparent|].
    destruct (String.eqb s ""); cbn [well_formed app].
    + rewrite Hpost'. by split_and!.
    + split; [done|]. split; [done|]. rewrite Hpost'. by split_and!.
Qed.

(** A family of queries with two fixed texts, one per shape of the filter, in which the values
    are literals. *)
Definition confined (q : string -> string -> float64 -> string) : Prop :=
  exists skel filtered, forall h s hours,
    sql_lex Plain (q h s hours) =
      Some (if String.eqb s "" then skel else filtered,
            h :: (fmt_g hours +:+ " hours") :: (if String.eqb s "" then [] else [s])).

Lemma framed_confined pre post mc q :
  str_forallb no_quote (SubDimension mc) = true -> transparent pre -> transparent post -> closes post = true ->
  (forall h s hours, q h s hours = pre +:+ metric_where mc h s hours +:+ post) -> confined q.
Proof.
  intros Hmc Hpre Hpost Hcl Hq.
  exists (skeleton (Txt pre :: where_parts mc "" "" F0 ++ [Txt post])),
    (skeleton (Txt pre :: where_parts mc "" "x" F0 ++ [Txt post])).
  intros h s hours. rewrite Hq, lex_framed by done. by destruct (String.eqb s "").
Qed.

Section whitelisted.
Context (table column : string) (mc : metricColumn).
Context (Ht : str_forallb no_quote table = true) (Hc : str_forallb no_quote column = true).
Context (Hmc : str_forallb no_quote (SubDimension mc) = true).

(** A query that ends with the WHERE clause or goes on after it, with the names around it. *)
Ltac confine pre post :=
  apply (framed_confined pre post mc); [done|transparent|transparent|reflexivity|
    intros; rewrite ?str_app_assoc, ?str_app_nil; reflexivity].

Lemma average_confined fn : str_forallb no_quote fn = true ->
  confined (fun h s hours => "SELECT " +:+ fn +:+ "(" +:+ ident column +:+ ") AS result FROM " +:+ table
    +:+ " WHERE " +:+ metric_where mc h s hours).
Proof.
  intros Hfn.
  confine ("SELECT " +:+ fn +:+ "(" +:+ ident column +:+ ") AS result FROM " +:+ table +:+ " WHERE ") "".
Qed.

Lemma series_confined order limit : str_forallb no_quote order = true -> str_forallb no_quote limit = true ->
  confined (fun h s hours => "SELECT time, " +:+ ident column +:+ " FROM " +:+ table +:+ " WHERE "
    +:+ metric_where mc h s hours +:+ " ORDER BY time " +:+ order +:+ " LIMIT " +:+ limit).
Proof.
  intros Ho Hl. confine ("SELECT time, " +:+ ident column +:+ " FROM " +:+ table +:+ " WHERE ")
    (" ORDER BY time " +:+ order +:+ " LIMIT " +:+ limit).
Qed.

Lemma count_confined threshold :
  confined (fun h s hours => "SELECT COUNT(*) AS result FROM " +:+ table +:+ " WHERE "
    +:+ metric_where mc h s hours +:+ " AND " +:+ ident column +:+ " > " +:+ fmt_g threshold).
Proof.
  confine ("SELECT COUNT(*) AS result FROM " +:+ table +:+ " WHERE ")
    (" AND " +:+ ident column +:+ " > " +:+ fmt_g threshold).
Qed.

Lemma rate_confined : confined (fun h s hours => rateQuery table column (metric_where mc h s hours)).
Proof.
  unfold rateQuery.
  confine (nl +:+ "WITH deltas AS (" +:+ nl +:+ "  SELECT time, " +:+ ident column +:+ " - LAG("
    +:+ ident column +:+ ") OVER (ORDER BY time) AS delta" +:+ nl +:+ "  FROM " +:+ table +:+ " WHERE ")
    (nl +:+ ")" +:+ nl +:+ "SELECT" +:+ nl +:+
     "  SUM(CASE WHEN delta < 0 THEN delta + 4294967296 ELSE delta END) AS total_bytes," +:+ nl +:+
     "  EXTRACT(EPOCH FROM (MAX(time) - MIN(time))) AS span_seconds" +:+ nl +:+
     "FROM deltas WHERE delta IS NOT NULL").
Qed.

Lemma distinct_lexed : exists skel, forall h,
  sql_lex Plain (distinctQuery mc table h) = Some (skel, [h; "72 hours"]).
Proof.
  set (l h := [Txt ("SELECT DISTINCT " +:+ ident (SubDimension mc) +:+ " AS v FROM " +:+ table +:+ " WHERE agent_host = ");
    Lit h; Txt " AND time >= now() - INTERVAL "; Lit "72 hours"]).
  exists (skeleton (l "")). intros h.
  assert (Hq : distinctQuery mc table h = render (l h)).
  { unfold distinctQuery, l, render. cbn [map concat_str]. rewrite !str_app_assoc, !str_app_nil.
    reflexivity. }
  rewrite Hq, lex_parts; [done|]. unfold l. cbn [well_formed].
  split; [transparent|]. split; [done|]. split; [transparent|]. done.
Qed.
End whitelisted.

(** The queries of the tools, for a whitelisted column. *)
Lemma build_confined table column mc aggregation input : lookupColumn table column = Ok mc ->
  (exists e, forall h s hours, buildMetricQuery table column mc h s aggregation hours input = Err e) \/
  (exists q, confined q /\
     forall h s hours, buildMetricQuery table column mc h s aggregation hours input = Ok (q h s hours)).
Proof.
  intros Hl. destruct (whitelist_plain _ _ _ Hl) as (Ht & Hc & Hmc). unfold buildMetricQuery. cbv zeta.
  destruct (String.eqb aggregation "current"); [right; eexists; split; [|done]; by apply series_confined|].
  destruct (String.eqb aggregation "history"); [right; eexists; split; [|done]; by apply series_confined|].
  destruct (aggregate_fn aggregation) as [fn|] eqn:Hfn.
  { case_bool_decide; [left; by eexists|]. right. eexists. split; [|done]. apply average_confined; [done..|].
    unfold aggregate_fn in Hfn. by repeat case_match; simplify_eq. }
  destruct (String.eqb aggregation "count_above_threshold").
  { case_bool_decide; [left; by eexists|]. destruct (inputFloat input "threshold"); [|left; by eexists].
    right. eexists. split; [|done]. by apply count_confined. }
  destruct (String.eqb aggregation "rate"); [|left; by eexists].
  case_bool_decide; cbn [negb]; [|left; by eexists]. right. eexists. split; [|done]. by apply rate_confined.
Qed.

Lemma ranking_confined table column mc : lookupColumn table column = Ok mc ->
  confined (fun h s hours => averageQuery table column (metric_where mc h s hours)) /\
  confined (fun h s hours => rateQuery table column (metric_where mc h s hours)).
Proof.
  intros Hl. destruct (whitelist_plain _ _ _ Hl) as (Ht & Hc & Hmc). split; [|by apply rate_confined].
  by apply (average_confined table column mc Ht Hc Hmc "AVG").
Qed.

Lemma distinct_confined table column mc : lookupColumn table column = Ok mc ->
  exists skel, forall h, sql_lex Plain (distinctQuery mc table h) = Some (skel, [h; "72 hours"]).
Proof. intros Hl. destruct (whitelist_plain _ _ _ Hl) as (Ht & Hc & Hmc). by apply distinct_lexed. Qed.

(** C29.  No SQL injection.  For a table and column of the whitelist, whatever aggregation is
    asked for, the query is refused with an error that does not depend on the values, or its
    text outside string literals is fixed before the device address, the sub-filter, the hours
    are known: these are its literals, unescaped to exactly what they were.  The same holds of
    the two ranking queries and of the lookup of known sub-filters. *)
Theorem metric_query_safe (table column aggregation : string) (mc : metricColumn)
    (input : list (string * any)) :
  lookupColumn table column = Ok mc ->
  ((exists e, forall h s hours, buildMetricQuery table column mc h s aggregation hours input = Err e) \/
   (exists q, confined q /\
      forall h s hours, buildMetricQuery table column mc h s aggregation hours input = Ok (q h s hours))) /\
  confined (fun h s hours => averageQuery table column (metric_where mc h s hours)) /\
  confined (fun h s hours => rateQuery table column (metric_where mc h s hours)) /\
  (exists skel, forall h, sql_lex Plain (distinctQuery mc table h) = Some (skel, [h; "72 hours"])).
Proof.
  intros Hl. split; [by apply build_confined|].
  destruct (ranking_confined _ _ _ Hl) as [Ha Hr]. split_and!; [done..|by eapply distinct_confined].
Qed.

Lemma metric_query_safe_witness :
  exists mc, lookupColumn "cpu" "cpu1min" = Ok mc /\
    confined (fun h s hours => averageQuery "cpu" "cpu1min" (metric_where mc h s hours)).
Proof.
  eexists. split; [reflexivity|].
  refine (proj1 (proj2 (metric_query_safe "cpu" "cpu1min" "current" _ [] _))). reflexivity.
Defined.

(** * The throughput figure *)

(** The values an ever growing count takes after each of its increments. *)
Fixpoint counts (start : Z) (steps : list Z) : list Z :=
  start :: match steps with [] => [] | s :: steps' => counts (start + s) steps' end.

Lemma delta_step c s : 0 <= s < 2 ^ 32 -> delta_bytes (c mod 2 ^ 32) ((c + s) mod 2 ^ 32) = s.
Proof.
  intros Hs. unfold delta_bytes. change 4294967296 with (2 ^ 32).
  pose proof (Z.mod_pos_bound c (2 ^ 32) ltac:(lia)) as Hc.
  rewrite <- Zplus_mod_idemp_l. set (r := c mod 2 ^ 32) in *.
  destruct (Z.lt_ge_cases (r + s) (2 ^ 32)) as [Hlt|Hge].
  - rewrite Z.mod_small by lia. rewrite (proj2 (Z.ltb_ge _ _)); lia.
  - rewrite <- (Z.mod_unique (r + s) (2 ^ 32) 1 (r + s - 2 ^ 32)) by lia.
    rewrite (proj2 (Z.ltb_lt _ _)); lia.
Qed.

(** The differences of the readings are the growth between the polls, modulo 2^32. *)
Lemma deltas_counts start steps :
  deltas (map (fun c => c mod 2 ^ 32) (counts start steps)) = map (fun s => s mod 2 ^ 32) steps.
Proof.
  revert start. induction steps as [|s steps IH]; intros start; [done|].
  assert (Hcons : deltas (map (fun c => c mod 2 ^ 32) (counts start (s :: steps))) =
    delta_bytes (start mod 2 ^ 32) ((start + s) mod 2 ^ 32) ::
      deltas (map (fun c => c mod 2 ^ 32) (counts (start + s) steps))) by by destruct steps.
  rewrite Hcons, IH. cbn [map]. f_equal.
  pose proof (delta_step start (s mod 2 ^ 32) ltac:(apply Z.mod_pos_bound; lia)) as Hs.
  by rewrite Zplus_mod_idemp_r in Hs.
Qed.

(** C30.  The throughput figure survives counter wrap-around.  If the device's true count grows
    by less than 2^32 between consecutive polls, then the total that the query computes from
    its 32-bit readings is the true growth over the window, however often the counter wrapped
    in it; and without that bound it is still right modulo 2^32, and not negative.  With a
    single reading there is no total. *)
Theorem rate_total_correct (start : Z) (steps : list Z) :
  let readings := map (fun c => c mod 2 ^ 32) (counts start steps) in
  (steps = [] -> total_bytes readings = None) /\
  (steps <> [] -> exists total, total_bytes readings = Some total /\
     (Forall (fun s => 0 <= s < 2 ^ 32) steps -> total = foldr Z.add 0 steps) /\
     total mod 2 ^ 32 = foldr Z.add 0 steps mod 2 ^ 32 /\ 0 <= total).
Proof.
  cbn zeta. unfold total_bytes. rewrite deltas_counts. split; [by intros ->|]. intros Hne.
  exists (foldr Z.add 0 (map (fun s => s mod 2 ^ 32) steps)). split; [by destruct steps|]. clear Hne.
  split_and!; (induction steps as [|s steps IH]; [done|]); cbn [map foldr].
  - intros [Hs Hsteps]%Forall_cons. rewrite IH, Z.mod_small; done.
  - rewrite Zplus_mod, Zmod_mod, IH, <- Zplus_mod. done.
  - pose proof (Z.mod_pos_bound s (2 ^ 32) ltac:(lia)). lia.
Qed.
