(* ===== verification/Clock.v ===== *)
(** [time], as chat-api uses it: the wall clock and [time.Parse] with the RFC 3339 layout. *)

From S2P Require Import Prelude Json.
Open Scope Z_scope.

(** [time.Now], in nanoseconds since 1970, at an interaction number. *)
Class ClockEnv := { time_now : nat -> Z }.


Definition hour_ns : Z := 3600 * 10 ^ 9.

(** [isDigit] and the two-digit [getnum], which takes one digit unless [fixed]. *)
Definition digit (s : string) : option (Z * string) :=
  match s with
  | String c s' => d ← digit_val c; Some (d, s')
  | "" => None
  end.

Definition getnum (fixed : bool) (s : string) : option (Z * string) :=
  '(a, s1) ← digit s;
  match digit s1 with
  | Some (b, s2) => Some (10 * a + b, s2)
  | None => if fixed then None else Some (a, s1)
  end.

Definition within (lo hi : Z) (r : option (Z * string)) : option (Z * string) :=
  '(v, s) ← r; if (lo <=? v) && (v <=? hi) then Some (v, s) else None.

(** A number in some range followed by a literal. *)
Definition then_lit (lit : string) (r : option (Z * string)) : option (Z * string) :=
  '(v, s) ← r; s' ← strip_prefix lit s; Some (v, s').

Definition year4 (s : string) : option (Z * string) :=
  '(a, s) ← getnum true s; '(b, s) ← getnum true s; Some (100 * a + b, s).

(** A fraction after the seconds, with a period or a comma: nine digits count. *)
Definition nanos (s : string) : Z * string :=
  match s with
  | String c s' =>
      if Ascii.eqb c "." || Ascii.eqb c "," then
        let '(ds, rest) := span_digits s' in
        match ds with
        | "" => (0, s)
        | _ =>
            let ds := String.substring 0 9 ds in
            (digits_value 0 ds * 10 ^ (9 - Z.of_nat (String.length ds)), rest)
        end
      else (0, s)
  | "" => (0, s)
  end.

(** The offset east of UTC in seconds; 24 hours and 60 minutes are let through. *)
Definition zone (s : string) : option Z :=
  match s with
  | String "Z" "" => Some 0
  | String sg s' =>
      '(h, s') ← then_lit ":" (within 0 24 (getnum true s'));
      '(m, s') ← within 0 60 (getnum true s');
      let off := (h * 60 + m) * 60 in
      match s' with
      | "" => if Ascii.eqb sg "+" then Some off else if Ascii.eqb sg "-" then Some (- off) else None
      | _ => None
      end
  | "" => None
  end.

Definition is_leap (y : Z) : bool := (y mod 4 =? 0) && (negb (y mod 100 =? 0) || (y mod 400 =? 0)).

Definition days_in (m y : Z) : Z :=
  if m =? 2 then if is_leap y then 29 else 28
  else if (m =? 4) || (m =? 6) || (m =? 9) || (m =? 11) then 30
  else 31.

(** Days since 1970-01-01 in the proleptic Gregorian calendar. *)
Definition days_from_civil (y m d : Z) : Z :=
  let y' := if m <=? 2 then y - 1 else y in
  let era := y' / 400 in
  let yoe := y' - era * 400 in
  let doy := (153 * (if 2 <? m then m - 3 else m + 9) + 2) / 5 + d - 1 in
  let doe := yoe * 365 + yoe / 4 - yoe / 100 + doy in
  era * 146097 + doe - 719468.

(** [time.Parse(time.RFC3339, s)], in nanoseconds since 1970. *)
Definition parse_rfc3339 (s : string) : option Z :=
  '(y, s) ← then_lit "-" (year4 s);
  '(mo, s) ← then_lit "-" (within 1 12 (getnum true s));
  '(d, s) ← then_lit "T" (getnum true s);
  '(h, s) ← then_lit ":" (within 0 23 (getnum false s));
  '(mi, s) ← then_lit ":" (within 0 59 (getnum true s));
  '(sec, s) ← within 0 59 (getnum true s);
  let '(ns, s) := nanos s in
  off ← zone s;
  if (1 <=? d) && (d <=? days_in mo y) then
    Some (((days_from_civil y mo d * 24 + h) * 60 + mi) * 60 * 10 ^ 9 + (sec - off) * 10 ^ 9 + ns)
  else None.

Example rfc3339_examples :
  parse_rfc3339 "1970-01-01T00:00:00Z" = Some 0 /\
  parse_rfc3339 "2024-02-29T12:30:45.5+02:00" = Some 1709202645500000000 /\
  parse_rfc3339 "2023-02-29T00:00:00Z" = None /\
  parse_rfc3339 "2024-01-02 03:04:05" = None.
Proof. vm_compute. done. Qed.
