(* ===== verification/ChatClients.v ===== *)
(** [chat-api], devices.go and influx.go: the HTTP clients of config-api and of InfluxDB, and the
    resolution of what a user calls a device. *)

From S2P Require Import Prelude Float64 Encoding Json World Text Clock ConfigApi.
Open Scope Z_scope.

(** * HTTP *)

Section http.
Context `{HttpEnv}.

Definition exchange (r : http_request) : IO (result (Z * result string)) :=
  let* t := next_tick in
  emit (EvHttp r) ;;;
  ret (http_do t r).

(** [http.Client.Get]. *)
Definition http_get (url : string) : IO (result (Z * result string)) :=
  match http_new "GET" url with
  | Some e => ret (Err e)
  | None => exchange {| http_method := "GET"; http_url := url; http_headers := []; http_body := "" |}
  end.
End http.

(** * devices.go *)

Record readableTrap := {
  rt_ID : Z; rt_SourceIP : string; rt_OID : string; rt_Name : string; rt_ReceivedAt : string
}.

Record device := {
  dv_Hostname : string; dv_IPAddress : string; dv_Status : string; dv_GroupName : string
}.

Definition decode_device (j : json) : result device :=
  l <-? decode_members j;;
  let get f := decode_string "" (field_values ["hostname"; "ip_address"; "status"; "group_name"] l f) in
  hostname <-? get "hostname";;
  ip <-? get "ip_address";;
  st <-? get "status";;
  group <-? get "group_name";;
  Ok {| dv_Hostname := hostname; dv_IPAddress := ip; dv_Status := st; dv_GroupName := group |}.

Definition device_json (d : device) : json :=
  JObj [("hostname", JStr (dv_Hostname d)); ("ip_address", JStr (dv_IPAddress d));
        ("status", JStr (dv_Status d)); ("group_name", JStr (dv_GroupName d))].

Definition trap_fields : list string := ["ID"; "SourceIP"; "OID"; "Name"; "ReceivedAt"].

Definition decode_trap (j : json) : result readableTrap :=
  l <-? decode_members j;;
  let get f := decode_string "" (field_values trap_fields l f) in
  id <-? decode_int 0 (field_values trap_fields l "ID");;
  src <-? get "SourceIP";;
  oid <-? get "OID";;
  name <-? get "Name";;
  at_ <-? get "ReceivedAt";;
  Ok {| rt_ID := id; rt_SourceIP := src; rt_OID := oid; rt_Name := name; rt_ReceivedAt := at_ |}.

Definition readable_trap_json (t : readableTrap) : json :=
  JObj [("ID", jint (rt_ID t)); ("SourceIP", JStr (rt_SourceIP t)); ("OID", JStr (rt_OID t));
        ("Name", JStr (rt_Name t)); ("ReceivedAt", JStr (rt_ReceivedAt t))].

(** A slice that may be nil, as JSON. *)
Definition slice_json {A} (f : A -> json) (l : option (list A)) : json :=
  match l with Some l => JArr (map f l) | None => JNull end.

Record configAPIClient := { baseURL : string }.

Definition newConfigAPIClient (url : string) : configAPIClient := {| baseURL := TrimSuffix url "/" |}.

Section config_api.
Context `{HttpEnv, ClockEnv} (c : configAPIClient).

(** The first half of both calls: a GET whose answer is decoded as a slice. *)
Definition get_slice {A} (elem : json -> result A) (path : string) : IO (result (option (list A))) :=
  try* resp := http_get (baseURL c +:+ path) catch e =>
    ret (Err (EWrap [FStr "calling config-api: "] e [])) in
  let '(code, body) := resp in
  match body with
  | Err e => ret (Err e)
  | Ok body =>
      if negb (code =? 200) then
        ret (Err (ENew [FStr "config-api returned "; FInt code; FStr ": "; FStr (TrimSpace body)]))
      else
        ret (wrap [FStr "decoding config-api response: "] (j <-? parse_all body;; decode_nil_slice elem j))
  end.

Definition listDevices : IO (result (option (list device))) := get_slice decode_device "/devices".

(** The traps of the last [hours]; one whose time cannot be read is kept. *)
Definition recent_trap (cutoff : Z) (t : readableTrap) : bool :=
  match parse_rfc3339 (rt_ReceivedAt t) with
  | None => true
  | Some receivedAt => cutoff <? receivedAt
  end.

Definition getRecentTraps (hours : float64) : IO (result (list readableTrap)) :=
  try* traps := get_slice decode_trap "/traps/readable?limit=500" catch e => ret (Err e) in
  let* t := next_tick in
  let cutoff := time_now t - F_trunc (Fmul hours (F_of_Z hour_ns)) in
  ret (Ok (List.filter (recent_trap cutoff) (default [] traps))).
End config_api.

Section resolve.
Context `{CaseTables}.

Definition resolveDevice (devices : list device) (ref : string) : result device :=
  let ref := TrimSpace ref in
  let lower := ToLower ref in
  match List.find (fun d => String.eqb (dv_IPAddress d) ref) devices with
  | Some d => Ok d
  | None =>
      match List.find (fun d => EqualFold (dv_Hostname d) ref) devices with
      | Some d => Ok d
      | None =>
          match List.filter (fun d => HasPrefix (ToLower (dv_Hostname d)) lower) devices with
          | [d] => Ok d
          | _ :: _ :: _ => Err (ENew [FQuote ref; FStr " matches more than one device, be more specific"])
          | [] => Err (ENew [FStr "no known device matches "; FQuote ref;
                             FStr " -- call list_devices to see what's monitored"])
          end
      end
  end.
End resolve.

(** * influx.go *)

Record influxClient := { influx_url : string; influx_token : string; influx_database : string }.

Definition newInfluxClient (url token database : string) : influxClient :=
  {| influx_url := TrimSuffix url "/"; influx_token := token; influx_database := database |}.

(** A row: a map that may be nil. *)
Definition row : Type := option (list (string * any)).

Definition row_get (r : row) (key : string) : option any := map_get (default [] r) key.

Definition decode_row (j : json) : result row :=
  match j with
  | JNull => Ok None
  | _ => m <-? decode_map j;; Ok (Some m)
  end.

Definition query_request (c : influxClient) (sql : string) : http_request :=
  {| http_method := "POST"; http_url := influx_url c +:+ "/api/v3/query_sql";
     http_headers := [("Content-Type", "application/json"); ("Authorization", "Bearer " +:+ influx_token c)];
     http_body := print (JObj [("db", JStr (influx_database c)); ("format", JStr "json"); ("q", JStr sql)]) |}.

Definition influx_query `{HttpEnv} (c : influxClient) (sql : string) : IO (result (option (list row))) :=
  let req := query_request c sql in
  match http_new "POST" (http_url req) with
  | Some e => ret (Err e)
  | None =>
      try* resp := exchange req catch e => ret (Err (EWrap [FStr "querying influxdb: "] e [])) in
      let '(code, body) := resp in
      match body with
      | Err e => ret (Err (EWrap [FStr "reading influxdb response: "] e []))
      | Ok body =>
          if negb (code =? 200) then
            ret (Err (ENew [FStr "influxdb query failed: "; FStr (TrimSpace body)]))
          else
            ret (wrap [FStr "decoding influxdb response: "]
              (j <-? parse_all body;; decode_nil_slice decode_row j))
      end
  end.

(** * Facts *)

Section client_facts.
Context `{HttpEnv}.

(** The only requests the clients make: a GET of [path] from config-api, a query of InfluxDB. *)
Definition is_get (url : string) (e : event) : Prop :=
  e = EvHttp {| http_method := "GET"; http_url := url; http_headers := []; http_body := "" |}.

Context (P : event -> Prop) (R : relation world) `{!PreOrder R, !Ticks R, !AllowsEvents P R}.

Lemma steps_exchange (r : http_request) : P (EvHttp r) -> io_steps R (exchange r).
Proof.
  intros Hr. unfold exchange. apply steps_bind; [apply steps_next_tick; apply _|intros t].
  apply steps_bind; [ |intros []; by apply steps_ret].
  by apply (steps_emit P).
Qed.

Lemma steps_get_slice {A} (c : configAPIClient) (elem : json -> result A) path :
  (forall e, is_get (baseURL c +:+ path) e -> P e) -> io_steps R (get_slice c elem path).
Proof.
  intros HP. unfold get_slice. apply steps_bind; [ |].
  - unfold http_get. destruct (http_new _ _); [by apply steps_ret|].
    apply steps_exchange. by apply HP.
  - intros [[code body]|e]; [|by apply steps_ret].
    destruct body; [|by apply steps_ret]. destruct (negb _); by apply steps_ret.
Qed.

Lemma steps_listDevices (c : configAPIClient) :
  (forall e, is_get (baseURL c +:+ "/devices") e -> P e) -> io_steps R (listDevices c).
Proof. apply steps_get_slice. Qed.

Lemma steps_getRecentTraps `{ClockEnv} (c : configAPIClient) hours :
  (forall e, is_get (baseURL c +:+ "/traps/readable?limit=500") e -> P e) ->
  io_steps R (getRecentTraps c hours).
Proof.
  intros HP. unfold getRecentTraps. apply steps_bind; [by apply steps_get_slice|].
  intros [traps|e]; [|by apply steps_ret].
  apply steps_bind; [apply steps_next_tick; apply _|intros; by apply steps_ret].
Qed.

Lemma steps_influx_query (c : influxClient) sql :
  P (EvHttp (query_request c sql)) -> io_steps R (influx_query c sql).
Proof.
  intros HP. unfold influx_query. cbv zeta. destruct (http_new _ _); [by apply steps_ret|].
  apply steps_bind; [by apply steps_exchange|].
  intros [[code body]|e]; [|by apply steps_ret].
  destruct body; [|by apply steps_ret]. destruct (negb _); by apply steps_ret.
Qed.
End client_facts.

Section resolve_facts.
Context `{CaseTables}.

Lemma find_Some_elem {A} (p : A -> bool) l x : List.find p l = Some x -> x ∈ l /\ p x = true.
Proof. intros Hf. apply List.find_some in Hf as [Hin Hp]. split; [by apply list_elem_of_In|done]. Qed.

Lemma find_None_all {A} (p : A -> bool) l : List.find p l = None -> forall x, x ∈ l -> p x = false.
Proof. intros Hf x Hx. apply (List.find_none p l Hf). by apply list_elem_of_In. Qed.

Lemma resolveDevice_elem devices ref d : resolveDevice devices ref = Ok d -> d ∈ devices.
Proof.
  unfold resolveDevice. cbv zeta.
  destruct (List.find (fun d => String.eqb (dv_IPAddress d) _) devices) as [d1|] eqn:Hip.
  { intros [= ->]. by apply find_Some_elem in Hip as [Hin _]. }
  destruct (List.find (fun d => EqualFold _ _) devices) as [d2|] eqn:Hname.
  { intros [= ->]. by apply find_Some_elem in Hname as [Hin _]. }
  destruct (List.filter _ devices) as [|d3 [|d4 l]] eqn:Hf; [done| |done]. intros [= ->].
  apply list_elem_of_In. eapply List.filter_In. rewrite Hf. by left.
Qed.

(** The first two ways a reference can match a device. *)
Definition by_address (r : string) (d : device) : bool := String.eqb (dv_IPAddress d) r.
Definition by_name (r : string) (d : device) : bool := EqualFold (dv_Hostname d) r.
Definition by_prefix (r : string) (d : device) : bool := HasPrefix (ToLower (dv_Hostname d)) (ToLower r).

(** C31.  A device reference only ever resolves to a device of the list, so only addresses from
    it reach a query.  An address wins over any name and a full name over prefixes; a prefix
    resolves only if exactly one device's name has it, and an error means there was no
    address, no name and not exactly one prefix.  Every device is found by its own address
    when addresses are distinct.  An empty reference, which is what a tool call without a
    device gives, resolves to the first device without a name if no address is empty. *)
Theorem resolve_device_spec (devices : list device) (ref : string) :
  let r := TrimSpace ref in
  match resolveDevice devices ref with
  | Ok d =>
      d ∈ devices /\
      (by_address r d = true \/
       (forall d', d' ∈ devices -> by_address r d' = false) /\
       (by_name r d = true \/
        (forall d', d' ∈ devices -> by_name r d' = false) /\ List.filter (by_prefix r) devices = [d]))
  | Err _ =>
      (forall d', d' ∈ devices -> by_address r d' = false /\ by_name r d' = false) /\
      length (List.filter (by_prefix r) devices) <> 1%nat
  end /\
  (forall d, d ∈ devices -> NoDup (map dv_IPAddress devices) -> dv_IPAddress d = r ->
     resolveDevice devices ref = Ok d) /\
  (forall pre d rest, devices = pre ++ d :: rest -> r = "" -> dv_Hostname d = "" ->
     (forall d', d' ∈ pre -> dv_Hostname d' <> "") -> (forall d', d' ∈ devices -> dv_IPAddress d' <> "") ->
     resolveDevice devices ref = Ok d).
Proof.
  cbn zeta. set (r := TrimSpace ref). split_and!.
  - unfold resolveDevice. fold r. cbv zeta.
    destruct (List.find _ devices) as [d|] eqn:H1.
    { apply find_Some_elem in H1 as [Hin Hp]. split; [done|by left]. }
    pose proof (find_None_all _ _ H1) as Hno. clear H1.
    destruct (List.find _ devices) as [d|] eqn:H2.
    { apply find_Some_elem in H2 as [Hin Hp]. split; [done|right]. split; [done|by left]. }
    pose proof (find_None_all _ _ H2) as Hno2. clear H2.
    change (fun d => HasPrefix (ToLower (dv_Hostname d)) (ToLower r)) with (by_prefix r).
    destruct (List.filter (by_prefix r) devices) as [|d [|d2 l]] eqn:Hf.
    + split; [|done]. intros d' Hd'. split; [by apply Hno|by apply Hno2].
    + assert (Hin : d ∈ devices).
      { apply list_elem_of_In. eapply List.filter_In. rewrite Hf. by left. }
      split; [done|right]. split; [done|right]. by split.
    + split; [|done]. intros d' Hd'. split; [by apply Hno|by apply Hno2].
  - intros d Hd Hnd Hip. unfold resolveDevice. fold r. cbv zeta.
    assert (Hf : List.find (fun d => String.eqb (dv_IPAddress d) r) devices = Some d); [|by rewrite Hf].
    clear -Hd Hnd Hip. induction devices as [|x l IH]; [by apply not_elem_of_nil in Hd|]. cbn.
    cbn in Hnd. apply NoDup_cons in Hnd as [Hx Hnd]. apply elem_of_cons in Hd as [->|Hd].
    + by rewrite (proj2 (String.eqb_eq _ _) Hip).
    + destruct (String.eqb_spec (dv_IPAddress x) r) as [Heq|_]; [|by apply IH].
      exfalso. apply Hx. rewrite Heq, <- Hip. apply list_elem_of_In, in_map. by apply list_elem_of_In.
  - intros pre d rest -> Hr Hname Hpre Hips. unfold resolveDevice. fold r. cbv zeta. rewrite Hr.
    destruct (List.find _ (pre ++ d :: rest)) as [d'|] eqn:H1.
    { apply find_Some_elem in H1 as [Hin He%String.eqb_eq]. by apply Hips in Hin. }
    assert (Hf : List.find (fun d => EqualFold (dv_Hostname d) "") (pre ++ d :: rest) = Some d); [|by rewrite Hf].
    clear -Hname Hpre. induction pre as [|x pre IH]; cbn [app List.find].
    + by rewrite Hname, EqualFold_refl.
    + rewrite EqualFold_empty by (apply Hpre; by left). apply IH. intros d' Hd'. apply Hpre. by right.
Qed.
End resolve_facts.
