(* ===== verification/ChatTools.v ===== *)
(** [chat-api], tools.go: the four tools a model can call.  Every answer is the text of a JSON
    document or an error. *)

From S2P Require Import Prelude Float64 Encoding Json World Text Clock ChatSql ChatClients.
Open Scope Z_scope.

Record toolContext := { influx : influxClient; configAPI : configAPIClient }.

(** [string(b), err] after [json.Marshal]. *)
Definition marshal (v : any) : result string := j <-? json_of_any v;; Ok (print j).

(** Slices and rows as dynamic values; a nil one is null. *)
Definition row_any (r : row) : any := match r with Some m => AMap m | None => ANil end.
Definition rows_any (rows : option (list row)) : any :=
  match rows with Some l => AList (map row_any l) | None => ANil end.

(** A slice built by appending to a nil one. *)
Definition appended {A} (f : A -> any) (l : list A) : any :=
  match l with [] => ANil | _ => AList (map f l) end.

(** * The ranking loop of [toolRankDevices] *)

Record ranked := { rk_Device : string; rk_Value : float64 }.

Definition ranked_any (r : ranked) : any :=
  AMap [("device", AStr (rk_Device r)); ("value", AFloat (rk_Value r))].

Definition swap {A} (i j : nat) (l : list A) : list A :=
  match l !! i, l !! j with
  | Some a, Some b => <[i := b]> (<[j := a]> l)
  | _, _ => l
  end.

(** [results[j].Value > results[i].Value]. *)
Definition greater_at (l : list ranked) (j i : nat) : bool :=
  match l !! j, l !! i with
  | Some b, Some a => Fltb (rk_Value a) (rk_Value b)
  | _, _ => false
  end.

(** The loop over [j], with [k] steps left: [j = len - k]. *)
Fixpoint rank_inner (k i : nat) (l : list ranked) : list ranked :=
  match k with
  | O => l
  | S k' =>
      let j := (length l - k)%nat in
      rank_inner k' i (if greater_at l j i then swap i j l else l)
  end.

(** The loop over [i], with [k] steps left: [i = len - k], and [j] starts at [i + 1]. *)
Fixpoint rank_outer (k : nat) (l : list ranked) : list ranked :=
  match k with
  | O => l
  | S k' =>
      let i := (length l - k)%nat in
      rank_outer k' (rank_inner (length l - (i + 1)) i l)
  end.

Definition rank_sort (l : list ranked) : list ranked := rank_outer (length l) l.

(** * The tools *)

Section tools.
Context `{HttpEnv, ClockEnv, CaseTables} (tc : toolContext).

Definition toolListDevices : IO (result string) :=
  try* devices := listDevices (configAPI tc) catch e => ret (Err e) in
  ret (Ok (print (slice_json device_json devices))).

(** The names among the values of a lookup. *)
Definition known_values (rows : option (list row)) : list string :=
  omap (fun r => match row_get r "v" with
                 | Some (AStr v) => if String.eqb v "" then None else Some v
                 | _ => None
                 end) (default [] rows).

(** The rest of [resolveSubFilter], on the names known. *)
Definition match_known (table : string) (mc : metricColumn) (known : list string) (requested : string)
    : result string :=
  let lower := ToLower requested in
  match List.find (fun v => EqualFold v requested) known with
  | Some v => Ok v
  | None =>
      match List.filter (fun v => Contains (ToLower v) lower) known with
      | [v] => Ok v
      | _ =>
          Err (ENew [FQuote requested; FStr " does not match a known "; FStr (SubDimension mc); FStr " (";
            FStr table; FStr ") for this device; known values: "; FStr (join ", " known)])
      end
  end.

Definition resolveSubFilter (table : string) (mc : metricColumn) (agentHost requested : string)
    : IO (result string) :=
  if String.eqb (SubDimension mc) "" then ret (Ok "")
  else if String.eqb requested "" then
    if negb (String.eqb (SubDimensionDefault mc) "") then ret (Ok (SubDimensionDefault mc))
    else ret (Err (ENew [FStr "sub_filter is required for table "; FQuote table; FStr " (";
                         FStr (SubDimension mc); FStr ")"]))
  else
    try* rows := influx_query (influx tc) (distinctQuery mc table agentHost) catch e =>
      ret (Err (EWrap [FStr "looking up valid "; FStr (SubDimension mc); FStr " values: "] e [])) in
    ret (match_known table mc (known_values rows) requested).

Definition hours_arg (input : list (string * any)) : result float64 :=
  match inputFloat input "hours" with
  | None => Err (ENew [FStr "hours is required"])
  | Some h => clampHours h
  end.

Definition toolQueryMetric (input : list (string * any)) : IO (result string) :=
  let table := inputString input "table" in
  let column := inputString input "column" in
  let aggregation := inputString input "aggregation" in
  let deviceRef := inputString input "device" in
  let subFilter := inputString input "sub_filter" in
  match hours_arg input with
  | Err e => ret (Err e)
  | Ok hours =>
      match lookupColumn table column with
      | Err e => ret (Err e)
      | Ok mc =>
          try* devices := listDevices (configAPI tc) catch e => ret (Err e) in
          match resolveDevice (default [] devices) deviceRef with
          | Err e => ret (Err e)
          | Ok dev =>
              try* subFilter := resolveSubFilter table mc (dv_IPAddress dev) subFilter catch e =>
                ret (Err e) in
              match buildMetricQuery table column mc (dv_IPAddress dev) subFilter aggregation hours input with
              | Err e => ret (Err e)
              | Ok sql =>
                  try* rows := influx_query (influx tc) sql catch e => ret (Err e) in
                  ret (marshal (AMap [("device", AStr (dv_Hostname dev)); ("table", AStr table);
                                      ("column", AStr column); ("rows", rows_any rows)]))
              end
          end
      end
  end.

(** The value a device is ranked by, read from the first row of its query. *)
Definition rank_value (mc : metricColumn) (r : row) : float64 :=
  let num key := match row_get r key with Some (AFloat f) => f | _ => F0 end in
  if bool_decide (Kind mc = kindCounter) then
    let totalBytes := num "total_bytes" in
    let spanSeconds := num "span_seconds" in
    if Fltb F0 spanSeconds
    then Fdiv (Fdiv (Fmul totalBytes (F_of_Z 8)) (F_of_Z 1000000)) spanSeconds
    else F0
  else num "result".

(** One device of the loop: a result, or none when it is skipped. *)
Definition rank_device (table column : string) (mc : metricColumn) (hours : float64) (d : device)
    : IO (option ranked) :=
  try* subFilter :=
    (if String.eqb (SubDimension mc) "" then ret (Ok "")
     else resolveSubFilter table mc (dv_IPAddress d) "") catch e => ret None in
  let where_ := metric_where mc (dv_IPAddress d) subFilter hours in
  let sql := if bool_decide (Kind mc = kindCounter) then rateQuery table column where_
             else averageQuery table column where_ in
  try* rows := influx_query (influx tc) sql catch e => ret None in
  match default [] rows with
  | [] => ret None
  | r :: _ => ret (Some {| rk_Device := dv_Hostname d; rk_Value := rank_value mc r |})
  end.

Definition toolRankDevices (input : list (string * any)) : IO (result string) :=
  let table := inputString input "table" in
  let column := inputString input "column" in
  match hours_arg input with
  | Err e => ret (Err e)
  | Ok hours =>
      match lookupColumn table column with
      | Err e => ret (Err e)
      | Ok mc =>
          try* devices := listDevices (configAPI tc) catch e => ret (Err e) in
          let* results := map_io (rank_device table column mc hours) (default [] devices) in
          let ranking := rank_sort (omap id results) in
          let unit_ := if bool_decide (Kind mc = kindCounter) then "avg Mbps" else "avg value" in
          ret (marshal (AMap [("table", AStr table); ("column", AStr column); ("unit", AStr unit_);
                              ("ranking", appended ranked_any ranking)]))
      end
  end.

Definition traps_note : string :=
  "source device attribution is not reliable for these traps, see tool description".

Definition toolGetRecentTraps (input : list (string * any)) : IO (result string) :=
  match hours_arg input with
  | Err e => ret (Err e)
  | Ok hours =>
      try* traps := getRecentTraps (configAPI tc) hours catch e => ret (Err e) in
      ret (Ok (print (JObj [("note", JStr traps_note);
        ("traps", match traps with [] => JNull | _ => JArr (map readable_trap_json traps) end)])))
  end.

Definition executeTool (name : string) (input : list (string * any)) : IO (result string) :=
  if String.eqb name "list_devices" then toolListDevices
  else if String.eqb name "query_metric" then toolQueryMetric input
  else if String.eqb name "rank_devices" then toolRankDevices input
  else if String.eqb name "get_recent_traps" then toolGetRecentTraps input
  else ret (Err (ENew [FStr "unknown tool "; FQuote name])).
End tools.
