(* ===== verification/ChatToolsFacts.v ===== *)
(** What the tools of chat-api can send and how they rank. *)

From Stdlib Require Import Sorting.Sorted Permutation.
From S2P Require Import Prelude Float64 Encoding Json World Text Clock ChatSql ChatSqlFacts.
From S2P Require Import ChatClients ChatTools.
Open Scope Z_scope.

(** * The order of floats *)

Lemma Fltb_irrefl f : Fltb f f = false.
Proof.
  unfold Fltb, SFltb, SFcompare. destruct f as [[]|[]| |[] m e]; try done;
    rewrite Z.compare_refl; unfold CompOpp; by rewrite Pos.compare_cont_refl.
Qed.

(** Finite floats of one sign compare by exponent, then mantissa. *)
Definition finite_lt (m1 : positive) (e1 : Z) (m2 : positive) (e2 : Z) : Prop :=
  e1 < e2 \/ e1 = e2 /\ (m1 < m2)%positive.

Lemma positive_lt m1 e1 m2 e2 :
  Fltb (S754_finite false m1 e1) (S754_finite false m2 e2) = true <-> finite_lt m1 e1 m2 e2.
Proof.
  unfold Fltb, SFltb, SFcompare, finite_lt.
  destruct (Z.compare_spec e1 e2) as [->|H|H]; [|split; auto|split; [done|lia]].
  change (Pos.compare_cont Eq m1 m2) with (Pos.compare m1 m2).
  destruct (Pos.compare_spec m1 m2); split; try done; lia.
Qed.

Lemma negative_lt m1 e1 m2 e2 :
  Fltb (S754_finite true m1 e1) (S754_finite true m2 e2) = true <-> finite_lt m2 e2 m1 e1.
Proof.
  unfold Fltb, SFltb, SFcompare, finite_lt.
  destruct (Z.compare_spec e1 e2) as [->|H|H]; [|split; [done|lia]|split; auto].
  change (Pos.compare_cont Eq m1 m2) with (Pos.compare m1 m2).
  destruct (Pos.compare_spec m1 m2); cbn; split; try done; lia.
Qed.

Lemma Fltb_trans a b c : Fltb a b = true -> Fltb b c = true -> Fltb a c = true.
Proof.
  destruct a as [[]|[]| |[] m1 e1], b as [[]|[]| |[] m2 e2], c as [[]|[]| |[] m3 e3]; try done;
    rewrite ?positive_lt, ?negative_lt; unfold finite_lt; lia.
Qed.

Lemma Fltb_asym a b : Fltb a b = true -> Fltb b a = false.
Proof.
  intros Hab. destruct (Fltb b a) eqn:Hba; [|done].
  pose proof (Fltb_irrefl a) as Hi. by rewrite (Fltb_trans a b a Hab Hba) in Hi.
Qed.

(** * The ranking *)

(** [y] is not ranked above [x] by its value. *)
Definition not_above (x y : ranked) : Prop := Fltb (rk_Value x) (rk_Value y) = false.

Lemma lookup_split {A} (pre mid tail : list A) x y :
  (pre ++ x :: mid ++ y :: tail) !! length pre = Some x /\
  (pre ++ x :: mid ++ y :: tail) !! (length pre + S (length mid))%nat = Some y.
Proof.
  split; [by apply list_lookup_middle|]. rewrite lookup_app_r by lia.
  replace (length pre + S (length mid) - length pre)%nat with (S (length mid)) by lia.
  simpl. by apply list_lookup_middle.
Qed.

Lemma swap_split {A} (pre mid tail : list A) x y :
  swap (length pre) (length pre + S (length mid)) (pre ++ x :: mid ++ y :: tail) =
    pre ++ y :: mid ++ x :: tail.
Proof.
  unfold swap. destruct (lookup_split pre mid tail x y) as [-> ->].
  rewrite insert_app_r. simpl. rewrite insert_app_r_alt, Nat.sub_diag by done.
  simpl. by rewrite insert_app_r_alt, Nat.sub_diag by done.
Qed.

Lemma greater_at_split (pre mid tail : list ranked) x y :
  greater_at (pre ++ x :: mid ++ y :: tail) (length pre + S (length mid)) (length pre) =
    Fltb (rk_Value x) (rk_Value y).
Proof. unfold greater_at. by destruct (lookup_split pre mid tail x y) as [-> ->]. Qed.

(** The inner loop brings the largest of the rest to its front. *)
Lemma rank_inner_spec (pre mid tail : list ranked) x :
  Forall (not_above x) mid ->
  exists x' mid', rank_inner (length tail) (length pre) (pre ++ x :: mid ++ tail) = pre ++ x' :: mid' /\
    Permutation (x' :: mid') (x :: mid ++ tail) /\ Forall (not_above x') mid'.
Proof.
  revert mid x. induction tail as [|y tail IH]; intros mid x Hmid.
  - exists x, mid. rewrite app_nil_r. by split_and!.
  - cbn [length rank_inner].
    assert (Hj : (length (pre ++ x :: mid ++ y :: tail) - S (length tail) = length pre + S (length mid))%nat)
      by (rewrite !length_app; cbn; rewrite length_app; cbn; lia).
    rewrite Hj, greater_at_split, swap_split. destruct (Fltb (rk_Value x) (rk_Value y)) eqn:Hxy.
    + replace (pre ++ y :: mid ++ x :: tail) with (pre ++ y :: (mid ++ [x]) ++ tail) by by rewrite <- app_assoc.
      destruct (IH (mid ++ [x]) y) as (x' & mid' & Hr & Hp & Hall).
      { apply Forall_app. split; [|constructor; [by apply Fltb_asym|constructor]].
        eapply Forall_impl; [exact Hmid|]. intros m Hm. unfold not_above in *.
        destruct (Fltb (rk_Value y) (rk_Value m)) eqn:E; [|done].
        by rewrite (Fltb_trans _ _ _ Hxy E) in Hm. }
      exists x', mid'. split_and!; [done| |done]. rewrite Hp. rewrite <- app_assoc. cbn.
      rewrite <- !Permutation_middle. apply perm_swap.
    + replace (pre ++ x :: mid ++ y :: tail) with (pre ++ x :: (mid ++ [y]) ++ tail) by by rewrite <- app_assoc.
      destruct (IH (mid ++ [y]) x) as (x' & mid' & Hr & Hp & Hall).
      { apply Forall_app. split; [done|]. by constructor. }
      exists x', mid'. split_and!; [done| |done]. rewrite Hp. by rewrite <- app_assoc.
Qed.

Lemma rank_outer_spec (pre rest : list ranked) :
  exists rest', rank_outer (length rest) (pre ++ rest) = pre ++ rest' /\
    Permutation rest' rest /\ StronglySorted not_above rest'.
Proof.
  remember (length rest) as n eqn:Hn. revert pre rest Hn.
  induction n as [|n IH]; intros pre rest Hn.
  - destruct rest; [|done]. exists []. rewrite app_nil_r. by split_and!; [..|constructor].
  - destruct rest as [|x tail]; [done|]. cbn in Hn. injection Hn as Hn. cbn [rank_outer].
    assert (Hi : (length (pre ++ x :: tail) - S n = length pre)%nat) by (rewrite length_app; cbn; lia).
    rewrite Hi.
    assert (Hk : (length (pre ++ x :: tail) - (length pre + 1) = length tail)%nat)
      by (rewrite length_app; cbn; lia).
    rewrite Hk. destruct (rank_inner_spec pre [] tail x) as (x' & mid' & Hr & Hp & Hall); [constructor|].
    change (x :: [] ++ tail) with (x :: tail) in *. rewrite Hr.
    assert (Hlen : length mid' = n) by (apply Permutation_length in Hp; cbn in Hp; lia).
    replace (pre ++ x' :: mid') with ((pre ++ [x']) ++ mid') by by rewrite <- app_assoc.
    destruct (IH (pre ++ [x']) mid') as (rest' & Hr' & Hp' & Hs); [done|].
    exists (x' :: rest'). rewrite Hr', <- app_assoc. split_and!; [done| |].
    + by rewrite Hp', Hp.
    + constructor; [done|]. rewrite Forall_forall in Hall |- *. intros y Hy. apply Hall. by rewrite <- Hp'.
Qed.

Lemma rank_sort_spec (l : list ranked) :
  Permutation (rank_sort l) l /\ StronglySorted not_above (rank_sort l).
Proof.
  destruct (rank_outer_spec [] l) as (l' & Hr & Hp & Hs). unfold rank_sort.
  change ([] ++ l) with l in Hr. by rewrite Hr.
Qed.

(** * What a tool call sends *)

(** The queries the tools can build, all for a column of the whitelist. *)
Definition known_query (sql : string) : Prop :=
  exists table column mc, lookupColumn table column = Ok mc /\
    ((exists aggregation input h s hours, buildMetricQuery table column mc h s aggregation hours input = Ok sql) \/
     (exists h s hours, sql = averageQuery table column (metric_where mc h s hours) \/
                        sql = rateQuery table column (metric_where mc h s hours)) \/
     (exists h, sql = distinctQuery mc table h)).

Definition tool_event (tc : toolContext) (e : event) : Prop :=
  is_get (baseURL (configAPI tc) +:+ "/devices") e \/
  is_get (baseURL (configAPI tc) +:+ "/traps/readable?limit=500") e \/
  exists sql, e = EvHttp (query_request (influx tc) sql) /\ known_query sql.

Section tool_steps.
Context `{HttpEnv, ClockEnv, CaseTables} (tc : toolContext).
Context (R : relation world) `{!PreOrder R, !Ticks R, !AllowsEvents (tool_event tc) R}.

Abbreviation steps := (io_steps R).

Lemma steps_tool_list : steps (listDevices (configAPI tc)).
Proof. apply (steps_listDevices (tool_event tc)); try apply _. intros e He. by left. Qed.

Lemma steps_tool_query sql : known_query sql -> steps (influx_query (influx tc) sql).
Proof. intros Hq. apply (steps_influx_query (tool_event tc)); try apply _. right. right. by exists sql. Qed.

Lemma steps_resolveSubFilter table column mc h requested : lookupColumn table column = Ok mc ->
  steps (resolveSubFilter tc table mc h requested).
Proof.
  intros Hl. unfold resolveSubFilter. destruct (String.eqb _ _); [apply steps_ret|].
  destruct (String.eqb _ _); [destruct (negb _); apply steps_ret|].
  apply steps_bind; [ |intros []; apply steps_ret].
  apply steps_tool_query. exists table, column, mc. split; [done|]. right. right. by exists h.
Qed.

Lemma steps_rank_device table column mc hours d : lookupColumn table column = Ok mc ->
  steps (rank_device tc table column mc hours d).
Proof.
  intros Hl. unfold rank_device. apply steps_bind; [ |].
  - destruct (String.eqb _ _); [apply steps_ret|by eapply steps_resolveSubFilter].
  - intros [s|e]; [|apply steps_ret]. cbv zeta. apply steps_bind; [ |].
    + apply steps_tool_query. exists table, column, mc. split; [done|]. right. left.
      exists (dv_IPAddress d), s, hours. case_bool_decide; auto.
    + intros [rows|e]; [|apply steps_ret]. destruct (default [] rows); apply steps_ret.
Qed.

Lemma steps_toolQueryMetric input : steps (toolQueryMetric tc input).
Proof.
  unfold toolQueryMetric. cbv zeta. destruct (hours_arg input) as [hours|]; [|apply steps_ret].
  destruct (lookupColumn _ _) as [mc|] eqn:Hl; [|apply steps_ret].
  apply steps_bind; [apply steps_tool_list|intros [devices|]; [|apply steps_ret]].
  destruct (resolveDevice _ _) as [dev|]; [|apply steps_ret].
  apply steps_bind; [by eapply steps_resolveSubFilter|intros [s|]; [|apply steps_ret]].
  destruct (buildMetricQuery _ _ _ _ _ _ _ _) as [sql|] eqn:Hb; [|apply steps_ret].
  apply steps_bind; [ |intros []; apply steps_ret].
  apply steps_tool_query. eexists _, _, mc. split; [exact Hl|]. left. by eexists _, _, _, _, _.
Qed.

Lemma steps_toolRankDevices input : steps (toolRankDevices tc input).
Proof.
  unfold toolRankDevices. cbv zeta. destruct (hours_arg input) as [hours|]; [|apply steps_ret].
  destruct (lookupColumn _ _) as [mc|] eqn:Hl; [|apply steps_ret].
  apply steps_bind; [apply steps_tool_list|intros [devices|]; [|apply steps_ret]].
  apply steps_bind; [ |intros; apply steps_ret].
  apply steps_map_io. intros d _. by eapply steps_rank_device.
Qed.

Lemma steps_executeTool name input : steps (executeTool tc name input).
Proof.
  unfold executeTool. repeat (destruct (String.eqb _ _)); try apply steps_ret.
  - unfold toolListDevices. apply steps_bind; [apply steps_tool_list|intros []; apply steps_ret].
  - apply steps_toolQueryMetric.
  - apply steps_toolRankDevices.
  - unfold toolGetRecentTraps. destruct (hours_arg input); [|apply steps_ret].
    apply steps_bind; [ |intros []; apply steps_ret].
    apply (steps_getRecentTraps (tool_event tc)); try apply _. intros e He. right. by left.
Qed.

End tool_steps.

Section tool_properties.
Context `{HttpEnv, ClockEnv, CaseTables} (tc : toolContext).

(** C32.  A tool call can do nothing but look.  Whatever tool a model names and whatever
    arguments it makes up, the databases and telegraf.conf stay as they are, and the requests
    sent are reads of two fixed config-api paths and queries of InfluxDB that were built from
    the whitelist; and a query so built, lexed, is a fixed text with the supplied values as
    its literals. *)
Theorem tools_only_look (name : string) (input : list (string * any)) (w : world) :
  traces (tool_event tc) w (executeTool tc name input w).2 /\
  stored_state (executeTool tc name input w).2 = stored_state w /\
  (forall sql, known_query sql ->
     (exists q h s hours, confined q /\ sql = q h s hours) \/
     exists skel h, sql_lex Plain sql = Some (skel, [h; "72 hours"])).
Proof.
  split; [by apply (steps_run _), (steps_executeTool tc (traces (tool_event tc))); apply _|].
  split; [by apply (steps_run (frames stored_state)), steps_executeTool; apply _|].
  intros sql (table & column & mc & Hl & [(agg & inp & h & s & hours & Hb)|[(h & s & hours & Hq)|[h ->]]]).
  - destruct (build_confined table column mc agg inp Hl) as [[e He]|(q & Hq & Hbq)]; [congruence|].
    left. exists q, h, s, hours. split; [done|]. rewrite Hbq in Hb. by injection Hb as ->.
  - destruct (ranking_confined table column mc Hl) as [Ha Hr].
    destruct Hq as [-> | ->]; left; [by exists (fun h s hours => averageQuery table column (metric_where mc h s hours)), h, s, hours|
      by exists (fun h s hours => rateQuery table column (metric_where mc h s hours)), h, s, hours].
  - destruct (distinct_confined table column mc Hl) as (skel & Hsk). right. by exists skel, h.
Qed.

(** * What a ranking shows *)

(** The devices a ranking has a value for, run one after the other. *)
Definition ranked_devices (table column : string) (mc : metricColumn) (hours : float64)
    (devices : list device) (w : world) : list ranked :=
  omap id (map_io (rank_device tc table column mc hours) devices w).1.

Lemma rank_device_name table column mc hours d w r :
  (rank_device tc table column mc hours d w).1 = Some r -> rk_Device r = dv_Hostname d.
Proof.
  unfold rank_device. rewrite bind_eq. destruct (run _ w) as [[s|e] w1]; cbn [fst snd]; [|done].
  cbv zeta. rewrite bind_eq. destruct (influx_query _ _ w1) as [[rows|e] w2]; cbn [fst snd]; [|done].
  destruct (default [] rows); [done|]. by intros [= <-].
Qed.

(** C33.  A ranking is complete and ordered: when [rank_devices] answers, its list holds every
    device a value was read for, once, under its name and with that value, and no entry is
    followed by one with a greater value. *)
Theorem rank_devices_sorted (input : list (string * any)) (w w' : world) (out : string) :
  toolRankDevices tc input w = (Ok out, w') ->
  exists mc hours devices w1 ranking,
    lookupColumn (inputString input "table") (inputString input "column") = Ok mc /\
    hours_arg input = Ok hours /\
    listDevices (configAPI tc) w = (Ok devices, w1) /\
    Permutation ranking (ranked_devices (inputString input "table") (inputString input "column") mc hours
      (default [] devices) w1) /\
    StronglySorted not_above ranking /\
    Forall (fun r => rk_Device r ∈ map dv_Hostname (default [] devices)) ranking /\
    marshal (AMap [("table", AStr (inputString input "table")); ("column", AStr (inputString input "column"));
      ("unit", AStr (if bool_decide (Kind mc = kindCounter) then "avg Mbps" else "avg value"));
      ("ranking", appended ranked_any ranking)]) = Ok out.
Proof.
  unfold toolRankDevices. cbv zeta. destruct (hours_arg input) as [hours|] eqn:Hh; [|done].
  destruct (lookupColumn _ _) as [mc|] eqn:Hl; [|done]. intros Hrun.
  apply bind_inv in Hrun as (devices & w1 & Hd & Hrun). destruct devices as [devices|]; [|done].
  apply bind_inv in Hrun as (results & w2 & Hr & Hrun). injection Hrun as Hout _.
  destruct (rank_sort_spec (omap id results)) as [Hp Hs].
  exists mc, hours, devices, w1, (rank_sort (omap id results)).
  assert (Hres : ranked_devices (inputString input "table") (inputString input "column") mc hours
    (default [] devices) w1 = omap id results) by (unfold ranked_devices; by rewrite Hr).
  split_and!; [done..|by rewrite Hres|done| |done].
  rewrite Hp. clear -Hr. revert w1 results w2 Hr.
  induction (default [] devices) as [|d l IH]; intros w1 results w2; cbn [map_io]; [by intros [= <- _]|].
  intros Hrun. apply bind_inv in Hrun as (o & w3 & Ho & Hrun). apply bind_inv in Hrun as (os & w4 & Hos & Hrun).
  injection Hrun as <- _. specialize (IH _ _ _ Hos).
  assert (Hrest : Forall (fun r => rk_Device r ∈ map dv_Hostname (d :: l)) (omap id os)).
  { eapply Forall_impl; [exact IH|]. intros r Hin. cbn. by right. }
  destruct o as [r|]; [|exact Hrest]. constructor; [|exact Hrest].
  rewrite (rank_device_name (inputString input "table") (inputString input "column") mc hours d w1 r);
    [cbn; by left|by rewrite Ho].
Qed.

(** Ranking by an interface metric never shows anything: every device is skipped, since
    the sub-filter a ranking leaves empty is required for that table, and no query is sent. *)
Theorem rank_interface_empty (column : string) (input : list (string * any)) (w w1 : world)
    (mc : metricColumn) (devices : option (list device)) (hours : float64) :
  inputString input "table" = "interface" -> inputString input "column" = column ->
  lookupColumn "interface" column = Ok mc -> hours_arg input = Ok hours ->
  listDevices (configAPI tc) w = (Ok devices, w1) ->
  toolRankDevices tc input w =
    (marshal (AMap [("table", AStr "interface"); ("column", AStr column);
       ("unit", AStr (if bool_decide (Kind mc = kindCounter) then "avg Mbps" else "avg value"));
       ("ranking", ANil)]), w1).
Proof.
  intros Ht Hc Hl Hh Hd. unfold toolRankDevices. cbv zeta. rewrite Ht, Hc, Hh, Hl, bind_eq, Hd. cbn [fst snd].
  assert (Hsub : SubDimension mc = "ifDescr" /\ SubDimensionDefault mc = "").
  { unfold lookupColumn in Hl. change (map_get metricWhitelist "interface") with
      (map_get metricWhitelist "interface") in Hl.
    destruct (map_get metricWhitelist "interface") as [cols|] eqn:Hm; [|done].
    destruct (map_get cols column) as [mc'|] eqn:Hcol; [|done]. injection Hl as ->.
    apply map_get_In, list_elem_of_In in Hcol. vm_compute in Hm. injection Hm as <-.
    cbn in Hcol. by destruct_or! Hcol; simplify_eq. }
  destruct Hsub as [Hs Hdef].
  assert (Hskip : forall d v, rank_device tc "interface" column mc hours d v = (None, v)).
  { intros d v. unfold rank_device, resolveSubFilter. rewrite Hs, Hdef. done. }
  assert (Hall : forall l v, map_io (rank_device tc "interface" column mc hours) l v = (map (fun _ => None) l, v)).
  { induction l as [|d l IH]; intros v; [done|]. cbn [map_io]. rewrite bind_eq, Hskip. cbn [fst snd].
    by rewrite bind_eq, IH. }
  rewrite bind_eq, Hall. cbn [fst snd ret run].
  assert (Hnone : omap id (map (fun _ => @None ranked) (default [] devices)) = []).
  { by induction (default [] devices). }
  by rewrite Hnone.
Qed.
End tool_properties.

(** * Witnesses *)

Definition sample_devices : string :=
  unquote "[{`hostname`:`R1`,`ip_address`:`10.0.0.1`,`status`:`active`},{`hostname`:`R2`,`ip_address`:`10.0.0.2`}]".

(** A config-api with two devices and an InfluxDB where the second has the greater average. *)
Definition sample_http : HttpEnv :=
  {| http_new _ _ := None;
     http_do _ r :=
       Ok (200, Ok (if String.eqb (http_method r) "GET" then sample_devices
                    else if Contains (http_body r) "10.0.0.2" then unquote "[{`result`:41.5}]"
                    else unquote "[{`result`:7}]")) |}.

Definition sample_clock : ClockEnv := {| time_now _ := 0 |}.

Definition sample_tools : toolContext :=
  {| influx := newInfluxClient "http://influxdb:8181/" "t" "network_monitor";
     configAPI := newConfigAPIClient "http://config-api:8080" |}.

Definition rank_args (table column : string) : list (string * any) :=
  [("table", AStr table); ("column", AStr column); ("hours", AFloat (F_of_Z 6))].

Lemma rank_devices_sorted_witness :
  exists ranking, StronglySorted not_above ranking /\ map rk_Device ranking = ["R2"; "R1"].
Proof.
  pose (res := toolRankDevices (H := sample_http) (H1 := ascii_tables) sample_tools
    (rank_args "cpu" "cpu1min") empty_world).
  destruct res as [[out|e] w'] eqn:Hrun; [|by vm_compute in Hrun].
  destruct (rank_devices_sorted (H := sample_http) (H1 := ascii_tables) sample_tools
    (rank_args "cpu" "cpu1min") empty_world w' out Hrun)
    as (mc & hours & devices & w1 & ranking & Hl & Hh & Hd & Hp & Hs & Hn & _).
  exists ranking. split; [exact Hs|].
  vm_compute in Hl. injection Hl as <-. vm_compute in Hh. injection Hh as <-.
  vm_compute in Hd. injection Hd as <- <-. vm_compute in Hp.
  symmetry in Hp. apply Permutation_length_2_inv in Hp as [-> | ->]; [|reflexivity].
  exfalso. apply StronglySorted_inv in Hs as [_ Hs]. apply Forall_cons in Hs as [Hs _].
  vm_compute in Hs. discriminate Hs.
Defined.

Lemma rank_interface_empty_witness :
  (toolRankDevices (H := sample_http) (H1 := ascii_tables) sample_tools
    (rank_args "interface" "ifInOctets") empty_world).1 =
    Ok (unquote "{`column`:`ifInOctets`,`ranking`:null,`table`:`interface`,`unit`:`avg Mbps`}").
Proof.
  destruct (listDevices (H := sample_http) (configAPI sample_tools) empty_world) as [[devices|e] w1] eqn:Hd;
    [|by vm_compute in Hd].
  destruct (lookupColumn "interface" "ifInOctets") as [mc|] eqn:Hl; [|by vm_compute in Hl].
  rewrite (rank_interface_empty (H := sample_http) (H1 := ascii_tables) sample_tools "ifInOctets"
    (rank_args "interface" "ifInOctets") empty_world w1 mc devices (F_of_Z 6)); [|reflexivity..|done|reflexivity|exact Hd].
  vm_compute in Hl. injection Hl as <-. vm_compute. reflexivity.
Defined.
