(* ===== verification/ChatToolDefs.v ===== *)
(** [chat-api], tools.go: the declarations of the tools, which every request to the model
    carries.  Go ranges over the columns of a table in no fixed order, so that order is an
    argument. *)

From S2P Require Import Prelude Float64 Json ChatSql.
Open Scope Z_scope.

Record geminiFunctionDeclaration := { fd_Name : string; fd_Description : string; fd_Parameters : any }.

Section definitions.
Context (order : string -> list (string * metricColumn)).

Definition describe_table (table : string) : string :=
  "- " +:+ table +:+ ": " +:+
  join ", " (map (fun '(col, mc) => col +:+ " (" +:+ Description mc +:+ ")") (order table)) +:+ nl.

Definition describeWhitelist : string := concat_str (map describe_table ["cpu"; "memory"; "interface"]).

Definition property (type : string) (rest : list (string * any)) : any :=
  AMap (("type", AStr type) :: rest).

Definition described (type description : string) : any :=
  property type [("description", AStr (unquote description))].

Definition one_of (l : list string) : any := property "string" [("enum", AList (map AStr l))].

Definition object_schema (properties : list (string * any)) (required : list string) : any :=
  AMap ([("type", AStr "object"); ("properties", AMap properties)] ++
    match required with [] => [] | _ => [("required", AList (map AStr required))] end).

Definition hours_description : string :=
  "How many hours back to look. Max " +:+ Itoa maxQueryHours +:+ ".".

Definition tables : list string := ["cpu"; "memory"; "interface"].

Definition toolDefinitions : list geminiFunctionDeclaration :=
  [{| fd_Name := "list_devices";
      fd_Description := unquote
        ("List every monitored device with its hostname, IP, status, and group. " +:+
         "Call this first to resolve a name like `R1` to a real device, or to answer " +:+
         "`what devices are being monitored`.");
      fd_Parameters := object_schema [] [] |};
   {| fd_Name := "query_metric";
      fd_Description := unquote
        ("Query a single metric for one device. Covers current value, historical " +:+
         "series, average/max/min over a time window, counting how many times a value crossed " +:+
         "a threshold (`spiked`), and throughput rate for byte counters. Available tables and " +:+
         "columns:") +:+ nl +:+ describeWhitelist +:+ nl +:+ unquote
        ("For the interface table, sub_filter is REQUIRED and must be an interface name (e.g. " +:+
         "`GigabitEthernet0/0`) -- call this tool once with aggregation=current on any interface " +:+
         "column first if you don't already know the device's interface names, or use rank_devices " +:+
         "style history to discover them. For the memory table, sub_filter is optional and defaults " +:+
         "to the `Processor` pool, which is the one that reflects actual device load.");
      fd_Parameters := object_schema
        [("device", described "string" "Device hostname, hostname prefix (e.g. `R1`), or IP.");
         ("table", one_of tables);
         ("column", described "string" "Column name, must be one of the columns listed for the chosen table.");
         ("aggregation", one_of ["current"; "history"; "avg"; "max"; "min"; "count_above_threshold"; "rate"]);
         ("hours", described "number" hours_description);
         ("threshold", described "number" "Required only for aggregation=count_above_threshold.");
         ("sub_filter", described "string"
            "Interface name (interface table) or pool name (memory table). Not used for cpu.")]
        ["device"; "table"; "column"; "aggregation"; "hours"] |};
   {| fd_Name := "rank_devices";
      fd_Description :=
        "Rank all devices by a metric over a time window, highest first -- answers " +:+
        unquote "questions like `what router has the highest CPU load`. Same table/column whitelist as " +:+
        "query_metric. Uses the average value over the window for gauge metrics (e.g. cpu1min), or " +:+
        "average throughput for counter metrics like ifInOctets/ifOutOctets (device-wide, summed " +:+
        "across interfaces).";
      fd_Parameters := object_schema
        [("table", one_of tables); ("column", property "string" []);
         ("hours", described "number" hours_description)]
        ["table"; "column"; "hours"] |};
   {| fd_Name := "get_recent_traps";
      fd_Description :=
        "List recent SNMP traps (LinkDown, ConfigChanged, etc.) across all devices in " +:+
        "the last N hours. IMPORTANT LIMITATION: traps currently cannot be reliably attributed to " +:+
        "a specific device -- their recorded source IP is masked by the network's port-forwarding " +:+
        "setup, not the real originating router. Always tell the user this when reporting trap " +:+
        "counts/history: you can say how many of a given trap type happened, but not confidently " +:+
        "say which router caused which one.";
      fd_Parameters := object_schema [("hours", described "number" hours_description)] ["hours"] |}].
End definitions.
