(* ===== verification/Gemini.v ===== *)
(** [chat-api], gemini.go: the wire format of the model's API and the loop that lets it call
    tools.  A JSON object that repeats a list-valued key is read as if only the last one were
    there. *)

From S2P Require Import Prelude Float64 Encoding Json World Text Clock ConfigApi.
From S2P Require Import ChatSql ChatClients ChatTools ChatToolDefs.
Open Scope Z_scope.

Definition geminiAPIBase : string := "https://generativelanguage.googleapis.com/v1beta/models".
Definition maxToolIterations : nat := 8.

Definition systemPrompt : string := text
  ["You answer questions about the posture of a small network being monitored:";
   "two Cisco routers polled via SNMP for CPU, memory, and interface metrics, plus SNMP traps";
   "(LinkDown, ConfigChanged, etc.).";
   "";
   "Use the provided tools to look up real data -- never guess or make up a number. If a question";
   "needs data you don't have a tool for, say so plainly rather than speculating.";
   "";
   "`Spiked` means a metric crossed a fixed threshold (e.g. cpu1min > 80), not a statistical";
   "anomaly -- when asked how many times something `spiked`, use query_metric with";
   "aggregation=count_above_threshold and a reasonable threshold for that metric (80 for CPU";
   "percentages is a sensible default unless the user specifies otherwise).";
   "";
   "Traps cannot currently be reliably attributed to a specific device -- their recorded source IP";
   "is masked by the network's own port-forwarding setup. If asked which device caused a trap,";
   "say that attribution isn't reliable right now rather than guessing from context.";
   "";
   "Give direct, concise answers. Include the actual numbers you looked up, not just a vague";
   "characterization."].

(** * Wire types *)

(** A Go map that may be nil. *)
Definition gomap : Type := option (list (string * any)).

Record geminiFunctionCall := { fc_Name : string; fc_Args : gomap }.
Record geminiFunctionResponse := { fr_Name : string; fr_Response : gomap }.
Record geminiPart := {
  p_Text : string;
  p_FunctionCall : option geminiFunctionCall;
  p_FunctionResponse : option geminiFunctionResponse
}.
Record geminiContent := { c_Role : string; c_Parts : option (list geminiPart) }.

Definition text_part (s : string) : geminiPart :=
  {| p_Text := s; p_FunctionCall := None; p_FunctionResponse := None |}.

(** ** Encoding *)

Definition gomap_json (m : gomap) : result json := json_of_any (row_any m).

Definition call_json (c : geminiFunctionCall) : result json :=
  args <-? gomap_json (fc_Args c);; Ok (JObj [("name", JStr (fc_Name c)); ("args", args)]).

Definition response_json (r : geminiFunctionResponse) : result json :=
  resp <-? gomap_json (fr_Response r);; Ok (JObj [("name", JStr (fr_Name r)); ("response", resp)]).

(** A pointer member with [omitempty]. *)
Definition opt_ptr {A} (key : string) (f : A -> result json) (o : option A)
    : result (list (string * json)) :=
  match o with
  | None => Ok []
  | Some a => j <-? f a;; Ok [(key, j)]
  end.

Definition part_json (p : geminiPart) : result json :=
  c <-? opt_ptr "functionCall" call_json (p_FunctionCall p);;
  r <-? opt_ptr "functionResponse" response_json (p_FunctionResponse p);;
  Ok (JObj (opt_member "text" (p_Text p) ++ c ++ r)).

Definition content_json (c : geminiContent) : result json :=
  parts <-? match c_Parts c with
            | None => Ok JNull
            | Some l => js <-? result_map part_json l;; Ok (JArr js)
            end;;
  Ok (JObj (opt_member "role" (c_Role c) ++ [("parts", parts)])).

Definition declaration_json (d : geminiFunctionDeclaration) : result json :=
  params <-? json_of_any (fd_Parameters d);;
  Ok (JObj [("name", JStr (fd_Name d)); ("description", JStr (fd_Description d)); ("parameters", params)]).

(** [geminiRequest], with its one tool group. *)
Definition request_json (contents : list geminiContent) (decls : list geminiFunctionDeclaration)
    : result json :=
  system <-? content_json {| c_Role := ""; c_Parts := Some [text_part systemPrompt] |};;
  cs <-? result_map content_json contents;;
  ds <-? result_map declaration_json decls;;
  Ok (JObj [("system_instruction", system); ("contents", JArr cs);
            ("tools", JArr [JObj [("functionDeclarations", JArr ds)]])]).

(** ** Decoding *)

(** The values a key is given, assigned in turn: to a map, a pointer, a struct, a slice. *)
Fixpoint decode_gomap (cur : gomap) (l : list json) : result gomap :=
  match l with
  | [] => Ok cur
  | JNull :: l' => decode_gomap None l'
  | j :: l' => m <-? decode_map j;; decode_gomap (Some (default [] cur ++ m)) l'
  end.

Fixpoint decode_ptr {A} (dec : A -> json -> result A) (zero : A) (cur : option A) (l : list json)
    : result (option A) :=
  match l with
  | [] => Ok cur
  | JNull :: l' => decode_ptr dec zero None l'
  | j :: l' => a <-? dec (default zero cur) j;; decode_ptr dec zero (Some a) l'
  end.

Fixpoint decode_struct {A} (dec : A -> json -> result A) (cur : A) (l : list json) : result A :=
  match l with
  | [] => Ok cur
  | j :: l' => a <-? dec cur j;; decode_struct dec a l'
  end.

Fixpoint decode_elems {A} (dec : A -> json -> result A) (zero : A) (cur : option (list A)) (l : list json)
    : result (option (list A)) :=
  match l with
  | [] => Ok cur
  | j :: l' => s <-? decode_nil_slice (dec zero) j;; decode_elems dec zero s l'
  end.

Definition decode_call (cur : geminiFunctionCall) (j : json) : result geminiFunctionCall :=
  l <-? decode_members j;;
  name <-? decode_string (fc_Name cur) (field_values ["name"; "args"] l "name");;
  args <-? decode_gomap (fc_Args cur) (field_values ["name"; "args"] l "args");;
  Ok {| fc_Name := name; fc_Args := args |}.

Definition decode_response (cur : geminiFunctionResponse) (j : json) : result geminiFunctionResponse :=
  l <-? decode_members j;;
  name <-? decode_string (fr_Name cur) (field_values ["name"; "response"] l "name");;
  resp <-? decode_gomap (fr_Response cur) (field_values ["name"; "response"] l "response");;
  Ok {| fr_Name := name; fr_Response := resp |}.

Definition no_call : geminiFunctionCall := {| fc_Name := ""; fc_Args := None |}.
Definition no_response : geminiFunctionResponse := {| fr_Name := ""; fr_Response := None |}.

Definition decode_part (cur : geminiPart) (j : json) : result geminiPart :=
  let fields := ["text"; "functionCall"; "functionResponse"] in
  l <-? decode_members j;;
  txt <-? decode_string (p_Text cur) (field_values fields l "text");;
  call <-? decode_ptr decode_call no_call (p_FunctionCall cur) (field_values fields l "functionCall");;
  resp <-? decode_ptr decode_response no_response (p_FunctionResponse cur)
    (field_values fields l "functionResponse");;
  Ok {| p_Text := txt; p_FunctionCall := call; p_FunctionResponse := resp |}.

Definition decode_content (cur : geminiContent) (j : json) : result geminiContent :=
  l <-? decode_members j;;
  role <-? decode_string (c_Role cur) (field_values ["role"; "parts"] l "role");;
  parts <-? decode_elems decode_part (text_part "") (c_Parts cur) (field_values ["role"; "parts"] l "parts");;
  Ok {| c_Role := role; c_Parts := parts |}.

Definition empty_content : geminiContent := {| c_Role := ""; c_Parts := None |}.

(** A candidate: its content; [finishReason] is read and not used. *)
Definition decode_candidate (cur : geminiContent * string) (j : json) : result (geminiContent * string) :=
  l <-? decode_members j;;
  content <-? decode_struct decode_content cur.1 (field_values ["content"; "finishReason"] l "content");;
  reason <-? decode_string cur.2 (field_values ["content"; "finishReason"] l "finishReason");;
  Ok (content, reason).

Definition decode_message (cur : string) (j : json) : result string :=
  l <-? decode_members j;; decode_string cur (field_values ["message"] l "message").

Record geminiResponse := { r_Candidates : list (geminiContent * string); r_Error : option string }.

Definition decode_geminiResponse (j : json) : result geminiResponse :=
  l <-? decode_members j;;
  cands <-? decode_elems decode_candidate (empty_content, "") None (field_values ["candidates"; "error"] l "candidates");;
  err <-? decode_ptr decode_message "" None (field_values ["candidates"; "error"] l "error");;
  Ok {| r_Candidates := default [] cands; r_Error := err |}.

(** * The client *)

Record geminiClient := { apiKey : string; model : string }.

Section client.
Context `{HttpEnv} (c : geminiClient).

Definition gemini_request (body : string) : http_request :=
  {| http_method := "POST"; http_url := geminiAPIBase +:+ "/" +:+ model c +:+ ":generateContent";
     http_headers := [("Content-Type", "application/json"); ("x-goog-api-key", apiKey c)];
     http_body := body |}.

(** The checks on an answer, in the order of the code. *)
Definition check_answer (code : Z) (body : string) : result (geminiContent * list (geminiContent * string)) :=
  parsed <-? wrap [FStr "decoding gemini response: "] (j <-? parse_all body;; decode_geminiResponse j);;
  match r_Error parsed with
  | Some msg => Err (ENew [FStr "gemini api error: "; FStr msg])
  | None =>
      if negb (code =? 200) then
        Err (ENew [FStr "gemini api returned "; FInt code; FStr ": "; FStr (TrimSpace body)])
      else
        match r_Candidates parsed with
        | [] => Err (ENew [FStr "gemini api returned no candidates: "; FStr (TrimSpace body)])
        | (content, _) :: rest => Ok (content, rest)
        end
  end.

(** [call]: the content of the first candidate. *)
Definition call (contents : list geminiContent) (decls : list geminiFunctionDeclaration)
    : IO (result geminiContent) :=
  match request_json contents decls with
  | Err e => ret (Err e)
  | Ok j =>
      let req := gemini_request (print j) in
      match http_new "POST" (http_url req) with
      | Some e => ret (Err e)
      | None =>
          try* resp := exchange req catch e => ret (Err (EWrap [FStr "calling gemini api: "] e [])) in
          match resp.2 with
          | Err e => ret (Err e)
          | Ok body =>
              match check_answer resp.1 body with
              | Err e => ret (Err e)
              | Ok (content, _) => ret (Ok content)
              end
          end
      end
  end.
End client.

(** * The loop *)

Record historyTurn := { h_Role : string; h_Text : string }.

Definition buildInitialContents (question : string) (history : list historyTurn) : list geminiContent :=
  map (fun turn =>
    {| c_Role := if String.eqb (h_Role turn) "user" then "user" else "model";
       c_Parts := Some [text_part (h_Text turn)] |}) history
  ++ [{| c_Role := "user"; c_Parts := Some [text_part question] |}].

(** The tools return the empty string with every error, so [toolErr <> nil] leaves no text. *)
Definition buildFunctionResponsePart (name : string) (toolResult : result string) : geminiPart :=
  let respObj : gomap :=
    match toolResult with
    | Err _ => Some [("error", AStr "")]
    | Ok result =>
        match (j <-? parse_all result;; decode_row j) with
        | Ok m => m
        | Err _ => Some [("result", AStr result)]
        end
    end in
  {| p_Text := ""; p_FunctionCall := None;
     p_FunctionResponse := Some {| fr_Name := name; fr_Response := respObj |} |}.

Definition extractText (parts : list geminiPart) : string := concat_str (map p_Text parts).

Definition function_calls (c : geminiContent) : list geminiFunctionCall :=
  omap p_FunctionCall (default [] (c_Parts c)).

Section chat.
Context `{HttpEnv, ClockEnv, CaseTables} (client : geminiClient) (tc : toolContext).
Context (decls : list geminiFunctionDeclaration).

Definition run_call (f : geminiFunctionCall) : IO geminiPart :=
  let* r := executeTool tc (fc_Name f) (default [] (fc_Args f)) in
  ret (buildFunctionResponsePart (fc_Name f) r).

(** The loop with [k] iterations left. *)
Fixpoint chat_loop (k : nat) (contents : list geminiContent) : IO (result string) :=
  match k with
  | O =>
      ret (Err (ENew [FStr "couldn't answer within "; FInt (Z.of_nat maxToolIterations);
                      FStr " tool calls -- try a narrower question"]))
  | S k' =>
      try* content := call client contents decls catch e => ret (Err e) in
      let modelContent := {| c_Role := "model"; c_Parts := c_Parts content |} in
      match function_calls modelContent with
      | [] => ret (Ok (extractText (default [] (c_Parts modelContent))))
      | functionCalls =>
          let* responseParts := map_io run_call functionCalls in
          chat_loop k' (contents ++ [modelContent; {| c_Role := "function"; c_Parts := Some responseParts |}])
      end
  end.

Definition runChat (question : string) (history : list historyTurn) : IO (result string) :=
  chat_loop maxToolIterations (buildInitialContents question history).
End chat.
