(* ===== verification/GeminiFacts.v ===== *)
(** The shape of a conversation with the model: how many requests it costs, what they carry, and
    what the tools add in between. *)

From S2P Require Import Prelude Float64 Encoding Json World Text Clock ConfigApi.
From S2P Require Import ChatSql ChatClients ChatTools ChatToolsFacts ChatToolDefs Gemini.
Open Scope Z_scope.

Section conversation.
Context `{HttpEnv, ClockEnv, CaseTables} (client : geminiClient) (tc : toolContext).
Context (decls : list geminiFunctionDeclaration).

(** The request that carries a conversation. *)
Definition asks (contents : list geminiContent) (e : event) : Prop :=
  exists j, request_json contents decls = Ok j /\ e = EvHttp (gemini_request client (print j)).

(** A part that answers a function call: under its name, and nothing else in it. *)
Definition answers (f : geminiFunctionCall) (p : geminiPart) : Prop :=
  exists resp, p = {| p_Text := ""; p_FunctionCall := None;
    p_FunctionResponse := Some {| fr_Name := fc_Name f; fr_Response := resp |} |}.

(** The model's turn and the answers to its calls, one each and in order. *)
Inductive exchange_turns : list geminiContent -> Prop :=
| turns m rs :
    c_Role m = "model" -> function_calls m <> [] -> Forall2 answers (function_calls m) rs ->
    exchange_turns [m; {| c_Role := "function"; c_Parts := Some rs |}].

(** A run of the loop from a conversation on: the number of requests to the model, and
    everything sent, oldest first. *)
Inductive chat_run : list geminiContent -> nat -> list event -> Prop :=
| run_end cs : chat_run cs 0 []
| run_last cs e : asks cs e -> chat_run cs 1 [e]
| run_tools cs e evs new n rest :
    asks cs e -> exchange_turns new -> Forall (tool_event tc) evs -> chat_run (cs ++ new) n rest ->
    chat_run cs (S n) (e :: evs ++ rest).

Lemma call_trace contents w r w1 : call client contents decls w = (r, w1) ->
  (w_trace w1 = w_trace w /\ is_ok r = false) \/
  (exists e, asks contents e /\ w_trace w1 = e :: w_trace w).
Proof.
  unfold call. destruct (request_json contents decls) as [j|e] eqn:Hj; [|intros [= <- <-]; by left].
  cbv zeta. destruct (http_new _ _); [intros [= <- <-]; by left|]. intros Hrun. right.
  exists (EvHttp (gemini_request client (print j))). split; [by exists j|].
  apply bind_inv in Hrun as (resp & w2 & Hx & Hrun).
  assert (Ht : w_trace w2 = EvHttp (gemini_request client (print j)) :: w_trace w).
  { revert Hx. unfold exchange. io_run. by intros [= <- <-]. }
  rewrite <- Ht. destruct resp as [[code [body|e]]|e]; cbn [fst snd] in Hrun; [|by injection Hrun as _ <-..].
  cbn [fst snd]. destruct (check_answer code body) as [[content rest]|e]; by injection Hrun as _ <-.
Qed.

Lemma run_calls_spec fs w rs w1 : map_io (run_call tc) fs w = (rs, w1) ->
  Forall2 answers fs rs /\ traces (tool_event tc) w w1.
Proof.
  intros Hrun. split.
  - revert w rs Hrun. induction fs as [|f fs IH]; intros w rs; cbn [map_io]; [by intros [= <- _]|].
    intros Hrun. apply bind_inv in Hrun as (p & w2 & Hp & Hrun). apply bind_inv in Hrun as (ps & w3 & Hps & Hrun).
    injection Hrun as <- <-. constructor; [|by eapply IH].
    unfold run_call in Hp. apply bind_inv in Hp as (r & w4 & _ & Hp). injection Hp as <- _. by eexists.
  - assert (Hs : io_steps (traces (tool_event tc)) (map_io (run_call tc) fs)).
    { apply steps_map_io. intros f _. unfold run_call.
      apply steps_bind; [by apply steps_executeTool; apply _|intros; by apply steps_ret]. }
    apply (steps_run _ _ w) in Hs. by rewrite Hrun in Hs.
Qed.

(** A chat makes the steps of its tools, and sends requests to the model. *)
Section chat_steps.
Context (P : event -> Prop) (R : relation world) `{!PreOrder R, !Ticks R, !AllowsEvents P R}.
Context (asking : forall body, P (EvHttp (gemini_request client body))).
Context (tool : forall name input, io_steps R (executeTool tc name input)).

Lemma steps_call contents : io_steps R (call client contents decls).
Proof.
  unfold call. destruct (request_json _ _); [|by apply steps_ret]. cbv zeta.
  destruct (http_new _ _); [by apply steps_ret|].
  apply steps_bind; [by apply (steps_exchange P)|].
  intros [[code [body|e]]|e]; try (by apply steps_ret).
  cbn [fst snd]. destruct (check_answer code body) as [[content rest]|e]; by apply steps_ret.
Qed.

Lemma steps_chat_loop k contents : io_steps R (chat_loop client tc decls k contents).
Proof.
  revert contents. induction k as [|k IH]; intros contents; cbn [chat_loop];
    [by apply steps_ret|].
  apply steps_bind; [apply steps_call|]. intros [content|e]; [|by apply steps_ret].
  cbv zeta. destruct (function_calls _); [by apply steps_ret|].
  apply steps_bind; [ |intros; apply IH]. apply steps_map_io. intros f' _.
  unfold run_call. apply steps_bind; [apply tool|intros; by apply steps_ret].
Qed.
End chat_steps.

Lemma chat_loop_run k cs w :
  exists n l, (n <= k)%nat /\ chat_run cs n l /\
    w_trace (chat_loop client tc decls k cs w).2 = rev l ++ w_trace w.
Proof.
  revert cs w. induction k as [|k IH]; intros cs w; cbn [chat_loop].
  { exists O, []. split_and!; [done|constructor|done]. }
  rewrite bind_eq. destruct (call client cs decls w) as [r w1] eqn:Hc. cbn [fst snd].
  apply call_trace in Hc as [[Ht Hr]|(e & He & Ht)].
  { destruct r; [done|]. exists O, []. split_and!; [lia|constructor|exact Ht]. }
  destruct r as [content|err].
  2:{ exists 1%nat, [e]. split_and!; [lia|by constructor|exact Ht]. }
  set (m := {| c_Role := "model"; c_Parts := c_Parts content |}).
  destruct (function_calls m) as [|f fs] eqn:Hf.
  { exists 1%nat, [e]. split_and!; [lia|by constructor|exact Ht]. }
  rewrite bind_eq. destruct (map_io (run_call tc) (f :: fs) w1) as [rs w2] eqn:Hrs. cbn [fst snd].
  apply run_calls_spec in Hrs as [Hans (evs & Hw2 & Hevs)].
  set (new := [m; {| c_Role := "function"; c_Parts := Some rs |}]).
  destruct (IH (cs ++ new) w2) as (n & rest & Hn & Hrun & Htr).
  exists (S n), (e :: rev evs ++ rest). split_and!; [lia| |].
  - eapply run_tools; [done| |by apply Forall_rev|exact Hrun]. constructor; [done|by rewrite Hf|by rewrite Hf].
  - rewrite Htr, Hw2, Ht. cbn [rev]. rewrite List.rev_app_distr, List.rev_involutive, <- !app_assoc. done.
Qed.

(** C35.  A chat costs at most eight requests to the model, and the conversation they carry is
    well formed.  The first carries the history and the question; each later one carries the
    conversation of the one before it with two turns more, the model's, which has function
    calls, and a function turn that answers each of them once, in order and under its name;
    between two requests there are only the requests of tools. *)
Theorem chat_protocol (question : string) (history : list historyTurn) (w : world) :
  exists n sent, (n <= 8)%nat /\ chat_run (buildInitialContents question history) n sent /\
    w_trace (runChat client tc decls question history w).2 = rev sent ++ w_trace w.
Proof. apply (chat_loop_run maxToolIterations). Qed.
End conversation.
