(* ===== verification/ChatHandler.v ===== *)
(** [chat-api], handler.go: one chat request, from the rate limit to the answer. *)

From S2P Require Import Prelude Float64 Encoding Json World Text Clock ConfigApi Netutil RateLimit.
From S2P Require Import ChatSql ChatClients ChatTools ChatToolDefs Gemini.
Open Scope Z_scope.

Definition maxHistoryTurns : nat := 20.

Record chatRequest := { question : string; history : list historyTurn }.

Definition decode_turn (j : json) : result historyTurn :=
  l <-? decode_members j;;
  role <-? decode_string "" (field_values ["role"; "text"] l "role");;
  txt <-? decode_string "" (field_values ["role"; "text"] l "text");;
  Ok {| h_Role := role; h_Text := txt |}.

Definition decode_chatRequest (j : json) : result chatRequest :=
  l <-? decode_members j;;
  q <-? decode_string "" (field_values ["question"; "history"] l "question");;
  h <-? decode_elems (fun _ => decode_turn) {| h_Role := ""; h_Text := "" |} None (field_values ["question"; "history"] l "history");;
  Ok {| question := q; history := default [] h |}.

Definition writeChatError (code : Z) (msg : string) : response :=
  writeJSON code (JObj [("error", JStr msg)]).

(** The part of a string before the last occurrence of a byte. *)
Fixpoint before_last (c : ascii) (s : string) : option string :=
  match s with
  | "" => None
  | String d s' =>
      match before_last c s' with
      | Some p => Some (String d p)
      | None => if Ascii.eqb d c then Some "" else None
      end
  end.

(** [net.SplitHostPort], the host. *)
Definition SplitHostPort (hostport : string) : option string :=
  match before_last ":" hostport with
  | None => None
  | Some host =>
      match hostport with
      | String "[" rest =>
          '(inner, after) ← cut "]" rest;
          match after with
          | String ":" port =>
              if has_char ":" port || has_char "[" inner || has_char "[" port || has_char "]" port
              then None else Some inner
          | _ => None
          end
      | _ =>
          if has_char ":" host || has_char "[" hostport || has_char "]" hostport
          then None else Some host
      end
  end.

Definition clientIP (remoteAddr : string) : string :=
  default remoteAddr (SplitHostPort remoteAddr).

Record chatHandler := {
  gemini : geminiClient;
  tools : toolContext;
  declared : list geminiFunctionDeclaration
}.

(** The last [maxHistoryTurns] turns. *)
Definition trim_history (h : list historyTurn) : list historyTurn :=
  if (maxHistoryTurns <? length h)%nat then drop (length h - maxHistoryTurns) h else h.

Section handler.
Context `{HttpEnv, ClockEnv, CaseTables} (h : chatHandler).

(** What follows the rate limit. *)
Definition answer_chat (request_body : string) : IO response :=
  match (j <-? parse_first request_body;; decode_chatRequest j) with
  | Err _ => ret (writeChatError 400 "invalid request body")
  | Ok req =>
      if String.eqb (question req) "" then ret (writeChatError 400 "question is required")
      else
        let* r := runChat (gemini h) (tools h) (declared h) (question req) (trim_history (history req)) in
        match r with
        | Err e => ret (writeError 500 (EWrap [FStr "couldn't answer that: "] e []))
        | Ok answer => ret (writeJSON 200 (JObj [("answer", JStr answer)]))
        end
  end.

(** [handle]: [now] is the limiter's clock. *)
Definition handle (rl : rateLimiter) (now : Z) (remoteAddr request_body : string)
    : IO (response * rateLimiter) :=
  let ip := clientIP remoteAddr in
  let '(ok, rl') := allow rl now ip in
  if negb ok then ret (writeChatError 429 "rate limit exceeded, try again shortly", rl')
  else let* resp := answer_chat request_body in ret (resp, rl').
End handler.

Example client_ips :
  map clientIP ["192.0.2.1:5000"; "[2001:db8::1]:443"; "192.0.2.1"; "::1:80"; "[::1]"; "[a]b:1"]%string =
    ["192.0.2.1"; "2001:db8::1"; "192.0.2.1"; "::1:80"; "[::1]"; "[a]b:1"]%string.
Proof. reflexivity. Qed.
