(* ===== verification/ChatHandlerFacts.v ===== *)
(** What a chat request can cost, alone and over time. *)

From Stdlib Require Import Sorting.Sorted.
From S2P Require Import Prelude Float64 Encoding Json World Text Clock ConfigApi RateLimit.
From S2P Require Import ChatSql ChatClients ChatTools ChatToolsFacts ChatToolDefs Gemini GeminiFacts.
From S2P Require Import ChatHandler.
Open Scope Z_scope.

(** * Counting paid requests *)

(** A request to the model's API: a POST that does not go to InfluxDB's query path. *)
Definition paid (e : event) : bool :=
  match e with
  | EvHttp r => String.eqb (http_method r) "POST" && negb (HasPrefix (str_rev (http_url r)) (str_rev "/api/v3/query_sql"))
  | _ => false
  end.

Definition paid_count (l : list event) : Z := Z.of_nat (length (List.filter paid l)).

Lemma paid_count_app l1 l2 : paid_count (l1 ++ l2) = paid_count l1 + paid_count l2.
Proof. unfold paid_count. rewrite List.filter_app, length_app. lia. Qed.

Lemma paid_count_rev l : paid_count (rev l) = paid_count l.
Proof. unfold paid_count. by rewrite List.filter_rev, length_rev. Qed.

Lemma rev_prefix s suf : HasPrefix (str_rev (s +:+ suf)) (str_rev suf) = true.
Proof. apply HasPrefix_spec. exists (str_rev s). by rewrite str_rev_append. Qed.

Lemma tool_event_free tc e : tool_event tc e -> paid e = false.
Proof.
  intros [->|[->|(sql & -> & _)]]; [done..|]. cbn [paid query_request http_method http_url].
  by rewrite rev_prefix.
Qed.

Lemma tool_events_free tc l : Forall (tool_event tc) l -> paid_count l = 0.
Proof.
  unfold paid_count. induction 1 as [|e l He _ IH]; [done|]. cbn [List.filter].
  by rewrite (tool_event_free tc e He).
Qed.

Lemma gemini_paid client body : paid (EvHttp (gemini_request client body)) = true.
Proof.
  cbn [paid gemini_request http_method http_url].
  destruct (HasPrefix (str_rev _) _) eqn:Hp; [|done]. exfalso.
  apply HasPrefix_spec in Hp as [t Ht]. rewrite <- !str_app_assoc, str_rev_append in Ht.
  vm_compute in Ht. discriminate Ht.
Qed.

Section cost.
Context `{HttpEnv, ClockEnv, CaseTables} (h : chatHandler).

Lemma chat_run_cost cs n l : chat_run (gemini h) (tools h) (declared h) cs n l -> paid_count l = Z.of_nat n.
Proof.
  induction 1 as [cs|cs e (j & _ & ->)|cs e evs new n rest (j & _ & ->) _ Hevs _ IH].
  - done.
  - unfold paid_count. cbn [List.filter]. by rewrite gemini_paid.
  - change (?e :: evs ++ rest) with ([e] ++ evs ++ rest). rewrite !paid_count_app, IH, (tool_events_free _ _ Hevs).
    unfold paid_count. cbn [List.filter]. rewrite gemini_paid. cbn. lia.
Qed.

Lemma steps_handle P R `{!PreOrder R, !Ticks R, !AllowsEvents P R} rl now remote body :
  (forall b, P (EvHttp (gemini_request (gemini h) b))) ->
  (forall name input, io_steps R (executeTool (tools h) name input)) ->
  io_steps R (handle h rl now remote body).
Proof.
  intros Hp Ht. unfold handle. cbv zeta. destruct (allow _ _ _) as [[] rl']; cbn [negb]; [|by apply steps_ret].
  apply steps_bind; [ |intros; by apply steps_ret].
  unfold answer_chat. destruct (result_bind _ _); [|by apply steps_ret].
  destruct (String.eqb _ _); [by apply steps_ret|].
  apply steps_bind; [by apply (steps_chat_loop (gemini h) (tools h) (declared h) P)|intros []; by apply steps_ret].
Qed.

(** A chat writes nothing: it makes the steps of any relation that allows requests. *)
Lemma steps_handle_any R `{!PreOrder R, !Ticks R, !AllowsEvents (fun _ => True) R} rl now remote body :
  io_steps R (handle h rl now remote body).
Proof.
  apply (steps_handle (fun _ => True)); try apply _; [done|]. intros name input. apply steps_executeTool; try apply _.
  by apply allows_any.
Qed.

(** What a step of the program added to the trace, in paid requests. *)
Definition cost (w w' : world) : Z := paid_count (w_trace w') - paid_count (w_trace w).

Lemma answer_chat_cost body w : 0 <= cost w (answer_chat h body w).2 <= 8.
Proof.
  unfold answer_chat. destruct (result_bind _ _) as [req|]; [|unfold cost; cbn; lia].
  destruct (String.eqb _ _); [unfold cost; cbn; lia|].
  rewrite bind_eq.
  destruct (chat_loop_run (gemini h) (tools h) (declared h) maxToolIterations
    (buildInitialContents (question req) (trim_history (history req))) w) as (n & l & Hn & Hrun & Htr).
  fold (runChat (gemini h) (tools h) (declared h) (question req) (trim_history (history req))) in Htr.
  assert (Hc : cost w (runChat (gemini h) (tools h) (declared h) (question req) (trim_history (history req)) w).2
    = Z.of_nat n).
  { unfold cost. rewrite Htr, paid_count_app, paid_count_rev, (chat_run_cost _ _ _ Hrun). lia. }
  change maxToolIterations with 8%nat in Hn. destruct (runChat _ _ _ _ _ w) as [[a|e] w'] in *;
    cbn [fst snd ret run] in *; lia.
Qed.

(** ** Over time *)

(** Requests in the order they were served: when, from which address, with what body. *)
Definition chat_call : Type := Z * string * string.

Definition limiter_view (c : chat_call) : Z * string := (c.1.1, clientIP c.1.2).

(** The cost of each request of a sequence. *)
Fixpoint serve_chats (rl : rateLimiter) (calls : list chat_call) (w : world) : list Z :=
  match calls with
  | [] => []
  | (now, remote, body) :: calls' =>
      let '((_, rl'), w') := handle h rl now remote body w in
      cost w w' :: serve_chats rl' calls' w'
  end.

(** The paid requests of one client whose chat came after [c] and not after [t]. *)
Fixpoint spent (c t : Z) (ip : string) (calls : list chat_call) (costs : list Z) : Z :=
  match calls, costs with
  | call :: calls', k :: costs' =>
      (if String.eqb (clientIP call.1.2) ip && (c <? call.1.1) && (call.1.1 <=? t) then k else 0)
      + spent c t ip calls' costs'
  | _, _ => 0
  end.

Lemma handle_cost rl now remote body w :
  let '((resp, rl'), w') := handle h rl now remote body w in
  rl' = (allow rl now (clientIP remote)).2 /\
  if (allow rl now (clientIP remote)).1 then 0 <= cost w w' <= 8
  else w' = w /\ status resp = 429.
Proof.
  unfold handle. cbv zeta. destruct (allow rl now (clientIP remote)) as [[|] rl'] eqn:Ha; cbn [negb fst snd].
  - rewrite bind_eq. pose proof (answer_chat_cost body w) as Hc.
    destruct (answer_chat h body w) as [resp w']. by split.
  - by split.
Qed.

Lemma spent_bound rl hist last calls w c t ip :
  agrees rl hist last -> StronglySorted Z.le (last :: map fst (map limiter_view calls)) ->
  spent c t ip calls (serve_chats rl calls w) + 8 * passed c t ip hist <=
    8 * passed c t ip (admit_all (limit rl) (window rl) hist (map limiter_view calls)).2.
Proof.
  revert rl hist last w. induction calls as [|[[now remote] body] calls IH]; intros rl hist last w Hag Hs.
  { cbn. lia. }
  apply StronglySorted_inv in Hs as [Hs Hall]. cbn in Hall. apply Forall_cons in Hall as [Hnow _].
  destruct (agrees_step rl hist last now (clientIP remote) Hag Hnow) as [Hb Hag'].
  destruct (allow_params rl now (clientIP remote)) as [Hwin Hlim].
  pose proof (handle_cost rl now remote body w) as Hh. cbn [serve_chats].
  destruct (handle h rl now remote body w) as [[resp rl'] w']. destruct Hh as [-> Hcost].
  cbn [map limiter_view fst snd admit_all spent].
  specialize (IH _ _ now w' Hag' Hs). rewrite Hwin, Hlim in IH. rewrite Hb in Hcost.
  destruct (may_pass (limit rl) (window rl) hist now (clientIP remote)).
  - destruct (admit_all _ _ (hist ++ _) _) as [bs h']. cbv iota in Hcost. cbn [snd] in *. rewrite passed_snoc in IH.
    destruct (String.eqb _ ip && (c <? now) && (now <=? t)); lia.
  - destruct Hcost as [-> _]. destruct (admit_all _ _ hist _) as [bs h']. cbn [snd] in *.
    assert (Hz : cost w w = 0) by (unfold cost; lia).
    destruct (String.eqb _ ip && (c <? now) && (now <=? t)); lia.
Qed.

(** C36.  The endpoint that costs money has a budget.  A refused request answers 429 and sends
    nothing at all; and whatever clients send, with a clock that does not go back, the chats
    of one client within any window cause at most eight requests to the model for each of
    the [limit] chats that window may hold. *)
Theorem chat_budget (limit window : Z) (calls : list chat_call) (w : world) :
  0 <= limit -> in_order (map limiter_view calls) ->
  let rl := newRateLimiter limit window in
  (forall ip t, spent (t - window) t ip calls (serve_chats rl calls w) <= 8 * limit) /\
  (forall rl now remote body, (allow rl now (clientIP remote)).1 = false ->
     exists resp, handle h rl now remote body w = ((resp, (allow rl now (clientIP remote)).2), w) /\
       status resp = 429).
Proof.
  intros Hlim Hord. cbn zeta. split.
  - intros ip t. destruct calls as [|[[now remote] body] calls]; [cbn; lia|].
    set (all := (now, remote, body) :: calls) in *.
    assert (Hs : StronglySorted Z.le (now :: map fst (map limiter_view all))).
    { apply in_order_from; [exact Hord|]. intros s Hin. cbn in Hin. apply elem_of_cons in Hin as [->|Hin]; [lia|].
      unfold in_order in Hord. cbn in Hord. apply StronglySorted_inv in Hord as [_ Hall].
      rewrite Forall_forall in Hall. by apply Hall. }
    assert (Hag : agrees (newRateLimiter limit window) [] now).
    { split; [|constructor]. intros i c _. unfold logged. cbn. by rewrite lookup_empty. }
    pose proof (spent_bound (newRateLimiter limit window) [] now all w (t - window) t ip Hag Hs) as Hb.
    pose proof (passed_bound limit window [] now (map limiter_view all)) as Hp.
    specialize (Hp ltac:(constructor) Hs ltac:(intros; exact Hlim) ip t).
    cbn [newRateLimiter RateLimit.limit RateLimit.window] in Hb.
    change (passed (t - window) t ip []) with 0 in Hb.
    change (spent (t - window) t ip all (serve_chats (newRateLimiter limit window) all w) <= 8 * limit). lia.
  - intros rl now remote body Hno. unfold handle. cbv zeta.
    destruct (allow rl now (clientIP remote)) as [[|] rl']; [done|]. eexists. by split.
Qed.
End cost.

(** * Witness *)

(** A model that always asks for the list of devices, and the rest of [sample_http]. *)
Definition asking_http : HttpEnv :=
  {| http_new _ _ := None;
     http_do _ r :=
       Ok (200, Ok (if String.eqb (http_method r) "GET" then sample_devices
                    else unquote "{`candidates`:[{`content`:{`parts`:[{`functionCall`:{`name`:`list_devices`}}]}}]}")) |}.

Definition sample_chat : chatHandler :=
  {| gemini := {| apiKey := "k"; model := "m" |}; tools := sample_tools; declared := [] |}.

Definition ask : string := unquote "{`question`:`what is up?`}".

Definition three_asks : list chat_call :=
  [(0, "192.0.2.1:5000", ask); (1, "192.0.2.1:5001", ask); (2, "192.0.2.1:5002", ask)]%string.

Lemma chat_budget_witness :
  serve_chats (H := asking_http) (H0 := sample_clock) (H1 := ascii_tables) sample_chat (newRateLimiter 2 60) three_asks
    empty_world = [8; 8; 0] /\
  (spent (2 - 60) 2 "192.0.2.1" three_asks [8; 8; 0] <= 16).
Proof.
  assert (Hc : serve_chats (H := asking_http) (H0 := sample_clock) (H1 := ascii_tables) sample_chat (newRateLimiter 2 60)
    three_asks empty_world = [8; 8; 0]) by (vm_compute; reflexivity).
  split; [exact Hc|]. rewrite <- Hc.
  refine (proj1 (chat_budget (H := asking_http) (H0 := sample_clock) (H1 := ascii_tables) sample_chat 2 60 three_asks empty_world
    _ _) "192.0.2.1" 2).
  - lia.
  - unfold in_order. cbn. repeat constructor; lia.
Defined.
