(* ===== verification/Mux.v ===== *)
(** What the main functions use of net/http and os: requests, the ServeMux with its method
    patterns and wildcards, the CORS middleware both APIs share, and [envOrDefault]. *)

From S2P Require Import Prelude Encoding Float64 Json Netutil World ConfigApi.
Open Scope Z_scope.

(** A request as the middleware sees it: the escaped path of its URL, what
    [URL.Query().Get("limit")] gives, the remote address and the body. *)
Record request := {
  rq_method : string;
  rq_path : string;
  rq_limit : string;
  rq_remote : string;
  rq_body : string
}.

(** A handler's response, a text of the mux or of a health check (with the Allow header of a
    405), or the mux's redirect to a cleaned path, whose status is net/http's. *)
Inductive reply :=
| Answer (r : response)
| Plain (code : Z) (allow : option string) (text : string)
| Redirect (location : string).

Definition ok_text : reply := Plain 200 None "ok".

(** * Paths *)

Fixpoint split_char (sep : ascii) (s : string) : list string :=
  match s with
  | "" => [""]
  | String c s' =>
      if Ascii.eqb c sep then "" :: split_char sep s'
      else match split_char sep s' with
           | p :: l => String c p :: l
           | [] => [String c ""]
           end
  end.

Definition slash : ascii := "/".

(** [path.Clean] of a rooted path, as the stack of its elements, the last one first. *)
Fixpoint clean_elems (stack elems : list string) : list string :=
  match elems with
  | [] => stack
  | e :: elems' =>
      if String.eqb e "" || String.eqb e "." then clean_elems stack elems'
      else if String.eqb e ".." then clean_elems (tail stack) elems'
      else clean_elems (e :: stack) elems'
  end.

(** [cleanPath]: rooted, cleaned, with its trailing slash put back. *)
Definition cleanPath (p : string) : string :=
  let p := if HasPrefix p "/" then p else "/" +:+ p in
  let np := "/" +:+ join "/" (rev (clean_elems [] (split_char slash p))) in
  if HasPrefix (str_rev p) "/" && negb (String.eqb np "/") then np +:+ "/" else np.

(** [url.PathUnescape]; the mux keeps a segment that is not well escaped as it is. *)
Fixpoint unescape (s : string) : option string :=
  match s with
  | "" => Some ""
  | String "%" (String a (String b s')) =>
      match hex_val a, hex_val b with
      | Some x, Some y => String (byte_of (16 * x + y)) <$> unescape s'
      | _, _ => None
      end
  | String "%" _ => None
  | String c s' => String c <$> unescape s'
  end.

Definition pathUnescape (s : string) : string := default s (unescape s).

(** The segments [firstSegment] cuts off one after the other; a trailing slash is the segment
    ["/"]. *)
Fixpoint close_path (segs : list string) : list string :=
  match segs with
  | [] => []
  | [""] => ["/"]
  | s :: segs' => pathUnescape s :: close_path segs'
  end.

Definition path_segments (p : string) : list string :=
  match p with
  | "" => []
  | String _ p' => close_path (split_char slash p')
  end.

(** * Patterns *)

Inductive seg := Lit (s : string) | Wild.

Record pattern := { pt_method : string; pt_segs : list seg }.

Definition seg_of (s : string) : seg :=
  match s with
  | String "{" _ => Wild
  | _ => Lit s
  end.

(** ["METHOD /path"]. *)
Definition pattern_of (s : string) : pattern :=
  match cut " " s with
  | Some (m, p) => {| pt_method := m; pt_segs := map seg_of (path_segments p) |}
  | None => {| pt_method := ""; pt_segs := map seg_of (path_segments s) |}
  end.

(** The values of the wildcards, if the path matches; a wildcard does not match a slash. *)
Fixpoint match_segs (ps : list seg) (ss : list string) : option (list string) :=
  match ps, ss with
  | [], [] => Some []
  | Lit l :: ps', s :: ss' => if String.eqb l s then match_segs ps' ss' else None
  | Wild :: ps', s :: ss' => if String.eqb s "/" then None else cons s <$> match_segs ps' ss'
  | _, _ => None
  end.

(** A GET pattern also serves HEAD. *)
Definition method_ok (pm m : string) : bool :=
  String.eqb pm m || (String.eqb pm "GET" && String.eqb m "HEAD").

Inductive found (A : Type) :=
| Found (route : A) (vals : list string)
| NotAllowed (allow : list string)
| NotFound.
Arguments Found {A}.
Arguments NotAllowed {A}.
Arguments NotFound {A}.

Section mux.
Context {A : Type} (routes : list (string * A)).

(** What a route makes of a method and the segments of a path. *)
Definition try_route (m : string) (ss : list string) (r : string * A) : option (A * list string) :=
  let p := pattern_of r.1 in
  if method_ok (pt_method p) m then pair r.2 <$> match_segs (pt_segs p) ss else None.

Definition allowed_methods (ss : list string) : list string :=
  let ms := omap (fun r => let p := pattern_of r.1 in
                           (fun _ => pt_method p) <$> match_segs (pt_segs p) ss) routes in
  let ms := if existsb (String.eqb "GET") ms then "HEAD" :: ms else ms in
  map fst (sort_keys (map (fun m => (m, tt)) (remove_dups ms))).

(** The patterns of one mux do not overlap, so the first match is the only one. *)
Definition find_route (m p : string) : found A :=
  let ss := path_segments p in
  match head (omap (try_route m ss) routes) with
  | Some (r, vals) => Found r vals
  | None => match allowed_methods ss with [] => NotFound | l => NotAllowed l end
  end.

(** [ServeMux.ServeHTTP]: a path that is not clean is redirected, whatever it names. *)
Definition serve_mux {B} (r : request) (other : reply -> B)
    (serve : A -> list string -> IO B) : IO B :=
  let p := rq_path r in
  if negb (String.eqb (rq_method r) "CONNECT") && negb (String.eqb (cleanPath p) p)
  then ret (other (Redirect (cleanPath p)))
  else
    match find_route (rq_method r) p with
    | Found route vals => serve route vals
    | NotAllowed l => ret (other (Plain 405 (Some (join ", " l)) ("Method Not Allowed" +:+ nl)))
    | NotFound => ret (other (Plain 404 None ("404 page not found" +:+ nl)))
    end.
End mux.

(** * Middleware and environment *)

(** [withCORS]: three headers on every reply, and an answer to preflight requests; the two
    services differ in the methods they name. *)
Definition cors_headers (methods : string) : list (string * string) :=
  [("Access-Control-Allow-Origin", "*"); ("Access-Control-Allow-Methods", methods);
   ("Access-Control-Allow-Headers", "Content-Type")].

Definition withCORS {B} (methods : string) (other : reply -> B) (next : IO B) (r : request)
    : IO (list (string * string) * B) :=
  if String.eqb (rq_method r) "OPTIONS" then ret (cors_headers methods, other (Plain 204 None ""))
  else let* b := next in ret (cors_headers methods, b).

(** [os.Getenv]: an unset variable reads as the empty string. *)
Definition environ : Type := string -> string.

Definition envOrDefault (env : environ) (key fallback : string) : string :=
  let v := env key in if negb (String.eqb v "") then v else fallback.

(** * Facts *)

(** Whatever the request, a mux does what one of its routes does, or nothing. *)
Lemma steps_serve_mux R {A B} (routes : list (string * A)) r (other : reply -> B) serve :
  (forall route vals, find_route routes (rq_method r) (rq_path r) = Found route vals ->
     io_steps R (serve route vals)) -> io_steps R (serve_mux routes r other serve).
Proof.
  intros Hs. unfold serve_mux. destruct (_ && _); [by apply steps_ret|].
  destruct (find_route _ _ _) as [route vals|l|]; [by apply Hs|by apply steps_ret..].
Qed.

Lemma steps_withCORS R {B} methods (other : reply -> B) next r :
  (rq_method r <> "OPTIONS" -> io_steps R next) -> io_steps R (withCORS methods other next r).
Proof.
  intros Hn. unfold withCORS. destruct (String.eqb_spec (rq_method r) "OPTIONS"); [by apply steps_ret|].
  apply steps_bind; [by apply Hn|intros; by apply steps_ret].
Qed.

(** The route found serves the method. *)
Lemma find_route_method {A} (routes : list (string * A)) m p route vals :
  find_route routes m p = Found route vals ->
  exists pat, (pat, route) ∈ routes /\ method_ok (pt_method (pattern_of pat)) m = true /\
    match_segs (pt_segs (pattern_of pat)) (path_segments p) = Some vals.
Proof.
  unfold find_route. destruct (head (omap _ routes)) as [[r vs]|] eqn:Hh.
  - intros [= -> ->]. assert (Hin : (route, vals) ∈ omap (try_route m (path_segments p)) routes).
    { destruct (omap _ routes); [done|]. injection Hh as ->. by left. }
    apply list_elem_of_omap in Hin as ([pat r] & Hin & Ht). unfold try_route in Ht. cbn in Ht.
    destruct (method_ok _ m) eqn:Hm; [|done].
    destruct (match_segs _ _) as [vs|] eqn:Hs; [|done]. injection Ht as -> ->. by exists pat.
  - by destruct (allowed_methods _ _).
Qed.

Example clean_paths :
  map cleanPath ["/devices"; "/devices/"; "//devices/./7"; "/devices/../traps"; "devices"; ""; "/.."]%string =
    ["/devices"; "/devices/"; "/devices/7"; "/traps"; "/devices"; "/"; "/"]%string.
Proof. reflexivity. Qed.

Example segments :
  map path_segments ["/"; "/devices/7"; "/devices/"; "/devices/a%20b"; "/devices/%2F"; "/devices/%2"]%string =
    [["/"]; ["devices"; "7"]; ["devices"; "/"]; ["devices"; "a b"]; ["devices"; "/"]; ["devices"; "%2"]]%string.
Proof. reflexivity. Qed.
