(* ===== verification/Services.v ===== *)
(** The four main functions: what each service reads from its environment, when it refuses to
    start, how config-api and chat-api route requests, and the order in which config-watcher
    runs its jobs.  Log lines, signals and sockets are left out: a service is the list of
    requests, packets or ticks it gets. *)

From S2P Require Import Prelude Float64 Encoding Json World Store Gcm Crypto Netutil Snmp.
From S2P Require Import TrapReceiver ConfigApi ConfigSettings ConfigTraps Watcher Telegraf Mux.
From S2P Require Import Clock Text RateLimit ChatSql ChatClients ChatTools ChatToolDefs Gemini.
From S2P Require Import ChatHandler.
Open Scope Z_scope.

(** How a main function ends: [os.Exit(1)], a panic, or after serving what it was given. *)
Inductive ending := Exit1 | Panic | Served.

(** * config-api *)

Module ConfigApiMain.

Record server := { deviceHandler : DeviceHandler; trapsHandler : TrapsHandler }.

Inductive route :=
| Healthz
| ListDevices | CreateDevice | GetDevice | UpdateDevice | DeleteDevice
| GetPolling | SetPolling | GetDuplication | SetDuplication
| ListTraps | ListReadableTraps.

Definition routes : list (string * route) :=
  [("GET /healthz", Healthz);
   ("GET /devices", ListDevices);
   ("POST /devices", CreateDevice);
   ("GET /devices/{id}", GetDevice);
   ("PATCH /devices/{id}", UpdateDevice);
   ("DELETE /devices/{id}", DeleteDevice);
   ("GET /settings/polling-interval", GetPolling);
   ("POST /settings/polling-interval", SetPolling);
   ("GET /settings/credential-duplication", GetDuplication);
   ("POST /settings/credential-duplication", SetDuplication);
   ("GET /traps", ListTraps);
   ("GET /traps/readable", ListReadableTraps)].

Definition cors_methods : string := "GET, POST, PATCH, DELETE, OPTIONS".

Section main.
Context `{DbEnv, SnmpEnv, RandEnv}.

(** What [main] does before it listens; [None] is [os.Exit(1)].  [fresh]: there is no traps
    database on the volume yet. *)
Definition start (env : environ) (fresh : bool) : IO (option server) :=
  try* db := OpenConfigDB catch e => ret None in
  try* trapsDB := OpenTrapsDB fresh catch e => ret None in
  match NewKey (env "ENCRYPTION_KEY") with
  | Err _ => ret None
  | Ok key =>
      ret (Some {| deviceHandler := {| h_Key := key; h_ProbeTimeout := 0 |};
                   trapsHandler := Build_TrapsHandler true (Some key) |})
  end.

(** The value of the wildcard [id]. *)
Definition path_id (vals : list string) : string := default "" (head vals).

(** [plain] and [secret]: the orders in which a PATCH ranges over its tables of columns. *)
Definition dispatch (s : server) (plain secret : list string) (r : request)
    (rt : route) (vals : list string) : IO reply :=
  let answer (m : IO response) : IO reply := let* resp := m in ret (Answer resp) in
  match rt with
  | Healthz => ret ok_text
  | ListDevices => answer DeviceApi.List
  | CreateDevice => answer (DeviceApi.Create (deviceHandler s) (rq_body r))
  | GetDevice => answer (DeviceApi.Get (path_id vals))
  | UpdateDevice => answer (DeviceApi.Update (deviceHandler s) plain secret (path_id vals) (rq_body r))
  | DeleteDevice => answer (DeviceApi.Delete (path_id vals))
  | GetPolling => answer SettingsApi.GetPollingInterval
  | SetPolling => answer (SettingsApi.SetPollingInterval (rq_body r))
  | GetDuplication => answer SettingsApi.GetCredentialDuplication
  | SetDuplication => answer (SettingsApi.SetCredentialDuplication (rq_body r))
  | ListTraps => answer (TrapsApi.List (rq_limit r))
  | ListReadableTraps => answer (TrapsApi.ListReadable (trapsHandler s) (rq_limit r))
  end.

Definition handle (s : server) (plain secret : list string) (r : request)
    : IO (list (string * string) * reply) :=
  withCORS cors_methods id (serve_mux routes r id (dispatch s plain secret r)) r.
End main.
End ConfigApiMain.

(** * config-watcher *)

Module WatcherMain.

Definition config_of (env : environ) : watcherConfig :=
  {| templatePath := envOrDefault env "TELEGRAF_TEMPLATE_PATH" "/telegraf.conf.tmpl";
     configPath := envOrDefault env "TELEGRAF_CONF_PATH" "/etc/telegraf/telegraf.conf";
     containerName := envOrDefault env "TELEGRAF_CONTAINER_NAME" "telegraf";
     influxURL := envOrDefault env "INFLUXDB_URL" "http://influxdb:8181";
     influxToken := env "INFLUXDB_TOKEN";
     influxDatabase := envOrDefault env "INFLUXDB_DATABASE" "network_monitor" |}.

(** A positive number of seconds, or the fallback. *)
Definition seconds_or (env : environ) (name fallback_text : string) (fallback : Z) : Z :=
  match Atoi (envOrDefault env name fallback_text) with
  | Err _ => fallback
  | Ok n => if n <=? 0 then fallback else n
  end.

Definition pollSeconds (env : environ) : Z := seconds_or env "CONFIG_WATCHER_POLL_SECONDS" "10" 10.
Definition sweepSeconds (env : environ) : Z :=
  seconds_or env "DISCOVERY_SWEEP_INTERVAL_SECONDS" "300" 300.

(** int64 arithmetic wraps around. *)
Definition wrap_int64 (z : Z) : Z := (z + 2 ^ 63) mod 2 ^ 64 - 2 ^ 63.

(** [time.Duration(n) * time.Second]. *)
Definition seconds (n : Z) : Z := wrap_int64 (n * second).

(** [time.NewTicker]: it panics unless the period is positive. *)
Definition NewTicker (d : Z) : option Z := if 0 <? d then Some d else None.

(** The three tickers, in the order they are made. *)
Definition tickers (env : environ) : option (Z * Z * Z) :=
  reconcile ← NewTicker (seconds (pollSeconds env));
  health ← NewTicker (seconds (pollSeconds env));
  sweep ← NewTicker (seconds (sweepSeconds env));
  Some (reconcile, health, sweep).

(** What the select loop can be woken by. *)
Inductive tick := ReconcileTick | HealthCheckTick | SweepTick.

Section main.
Context `{DbEnv, SnmpEnv, RandEnv, HostEnv}.

Definition on_tick (key : Key) (cfg : watcherConfig) (tmpl_file : result string) (t : tick) : IO unit :=
  match t with
  | ReconcileTick => reconcileTelegrafConfig key cfg tmpl_file
  | HealthCheckTick => checkDeviceHealth key
  | SweepTick => runDiscoverySweep key
  end.

(** [ticks]: what the loop is woken by until the signal that ends it. *)
Definition main (env : environ) (tmpl_file : result string) (ticks : list tick) : IO ending :=
  try* db := OpenConfigDB catch e => ret Exit1 in
  match NewKey (env "ENCRYPTION_KEY") with
  | Err _ => ret Exit1
  | Ok key =>
      let cfg := config_of env in
      discoverGatewayDevice key ;;;
      checkDeviceHealth key ;;;
      reconcileTelegrafConfig key cfg tmpl_file ;;;
      match tickers env with
      | None => ret Panic
      | Some _ => for_each ticks (on_tick key cfg tmpl_file) ;;; ret Served
      end
  end.
End main.
End WatcherMain.

(** * trap-receiver *)

Module TrapReceiverMain.
Section main.
Context `{TypeNames, DbEnv}.

(** [packets]: what arrives until the listener ends, each with its source; [listen]: how it
    ends, with an error or because a signal closed it. *)
Definition main (fresh : bool) (packets : list (SnmpPacket * string)) (listen : option error)
    : IO ending :=
  try* db := OpenTrapsDB fresh catch e => ret Exit1 in
  for_each packets (fun '(p, source) => handle_trap p source) ;;;
  match listen with
  | Some _ => ret Exit1
  | None => ret Served
  end.

(** The health server's only route. *)
Definition health (r : request) : IO reply :=
  serve_mux [("GET /healthz", tt)] r id (fun _ _ => ret ok_text).
End main.
End TrapReceiverMain.

(** * chat-api *)

Module ChatMain.

Record server := { sv_gemini : geminiClient; sv_tools : toolContext }.

Inductive route := Healthz | Chat.

Definition routes : list (string * route) := [("GET /healthz", Healthz); ("POST /chat", Chat)].

Definition cors_methods : string := "GET, POST, OPTIONS".

(** Ten chats a minute. *)
Definition new_limiter : rateLimiter := newRateLimiter 10 (60 * second).

Definition start (env : environ) : option server :=
  let apiKey := env "GEMINI_API_KEY" in
  if String.eqb apiKey "" then None
  else
    let model := envOrDefault env "GEMINI_MODEL" "gemini-2.5-flash" in
    let influxURL := envOrDefault env "INFLUXDB_URL" "http://influxdb:8181" in
    let influxDatabase := envOrDefault env "INFLUXDB_DATABASE" "network_monitor" in
    let configAPIURL := envOrDefault env "CONFIG_API_URL" "http://config-api:8080" in
    Some {| sv_gemini := {| apiKey := apiKey; model := model |};
            sv_tools := {| influx := newInfluxClient influxURL (env "INFLUXDB_TOKEN") influxDatabase;
                           configAPI := newConfigAPIClient configAPIURL |} |}.

Section main.
Context `{HttpEnv, ClockEnv, CaseTables}.

(** [order]: how [describeWhitelist] ranges over the columns of a table this time.  The
    limiter is the state that one request leaves to the next. *)
Definition handle (s : server) (order : string -> list (string * metricColumn)) (rl : rateLimiter)
    (now : Z) (r : request) : IO (list (string * string) * (reply * rateLimiter)) :=
  let h := {| gemini := sv_gemini s; tools := sv_tools s; declared := toolDefinitions order |} in
  withCORS cors_methods (fun p => (p, rl))
    (serve_mux routes r (fun p => (p, rl)) (fun rt _ =>
      match rt with
      | Healthz => ret (ok_text, rl)
      | Chat =>
          let* '(resp, rl') := ChatHandler.handle h rl now (rq_remote r) (rq_body r) in
          ret (Answer resp, rl')
      end)) r.
End main.
End ChatMain.
