(* ===== verification/ServicesFacts.v ===== *)
(** What the main functions guarantee: which requests to config-api can change what, and which
    tickers config-watcher runs with. *)

From S2P Require Import Prelude Float64 Encoding Json World Store StoreFacts Gcm Crypto Netutil.
From S2P Require Import Snmp TrapReceiver ConfigApi ConfigApiFacts ConfigSettings ConfigTraps Watcher.
From S2P Require Import Telegraf Mux Services.
Open Scope Z_scope.

(** * The steps of a request, by route *)

(** The routes that change something, and what. *)
Definition writes_devices (rt : ConfigApiMain.route) : bool :=
  match rt with
  | ConfigApiMain.CreateDevice | ConfigApiMain.UpdateDevice | ConfigApiMain.DeleteDevice => true
  | _ => false
  end.

Definition writes_settings (rt : ConfigApiMain.route) : bool :=
  match rt with
  | ConfigApiMain.SetPolling | ConfigApiMain.SetDuplication => true
  | _ => false
  end.

Section api_steps.
Context `{DbEnv, SnmpEnv, RandEnv} (R : relation world) `{!PreOrder R, !Ticks R}.

Lemma steps_resolveDevice h agent community : io_steps R (TrapsApi.resolveDevice h agent community).
Proof.
  assert (Hc : io_steps R (TrapsApi.by_community h community)).
  { unfold TrapsApi.by_community. io_walk. }
  unfold TrapsApi.resolveDevice. destruct (negb _); [by apply steps_ret|].
  destruct (negb _); [|exact Hc]. apply steps_bind; [by apply steps_GetByIP|].
  intros []; [by apply steps_ret|exact Hc].
Qed.

Lemma steps_ListReadable h limit : io_steps R (TrapsApi.ListReadable h limit).
Proof.
  unfold TrapsApi.ListReadable. apply steps_bind; [by apply steps_traps_List|].
  intros [traps|]; [|by apply steps_ret]. apply steps_bind; [ |intros; by apply steps_ret].
  apply steps_map_io. intros t _.
  apply steps_bind; [apply steps_resolveDevice|intros; by apply steps_ret].
Qed.

(** A route that writes nothing makes the steps of any relation. *)
Lemma steps_dispatch_read s plain secret r rt vals :
  writes_devices rt = false -> writes_settings rt = false ->
  io_steps R (ConfigApiMain.dispatch s plain secret r rt vals).
Proof.
  destruct rt; try done; intros _ _; unfold ConfigApiMain.dispatch; cbv zeta; try (by apply steps_ret);
    (apply steps_bind; [ |intros; by apply steps_ret]).
  - unfold DeviceApi.List. io_walk.
  - unfold DeviceApi.Get. io_walk.
  - unfold SettingsApi.GetPollingInterval. io_walk.
  - unfold SettingsApi.GetCredentialDuplication. io_walk.
  - unfold TrapsApi.List. io_walk.
  - apply steps_ListReadable.
Qed.

Lemma steps_dispatch_settings s plain secret r rt vals :
  (forall key value w, R w (set_settings (<[key := value]> (w_settings w)) w)) ->
  writes_settings rt = true -> io_steps R (ConfigApiMain.dispatch s plain secret r rt vals).
Proof.
  intros HR. destruct rt; try done; intros _; unfold ConfigApiMain.dispatch; cbv zeta;
    (apply steps_bind; [ |intros; by apply steps_ret]).
  - apply steps_SetPollingInterval; auto.
  - apply steps_SetCredentialDuplication; auto.
Qed.

Context `{!AllowsEvents (fun _ => True) R}.

(** The device handlers, for a relation their statements respect. *)
Lemma steps_DeviceApi_Create h body :
  (forall d w, Forall (encryption (h_Key h)) [Community d; V3AuthKey d; V3PrivKey d] ->
     R w (DeviceStore.insert_device (stored d) w).2) ->
  io_steps R (DeviceApi.Create h body).
Proof.
  intros HR. unfold DeviceApi.Create. destruct (result_bind _ _) as [q|]; [|by apply steps_ret].
  destruct (String.eqb _ _); [by apply steps_ret|].
  pose proof (fun p (k : result string -> IO response) =>
    steps_bind_post R (encryption_result (h_Key h)) (Encrypt (h_Key h) p) k) as Henc.
  apply Henc; [apply Encrypt_result|by apply steps_Encrypt|intros [c|] Hc; [|by apply steps_ret]].
  apply Henc; [apply Encrypt_result|by apply steps_Encrypt|intros [a|] Ha; [|by apply steps_ret]].
  apply Henc; [apply Encrypt_result|by apply steps_Encrypt|intros [p|] Hp; [|by apply steps_ret]].
  apply steps_bind; [by apply probeStatus_steps|intros st]. cbv zeta.
  apply steps_bind; [ |intros []; io_walk].
  match goal with |- io_steps R (DeviceStore.Create ?d) => change (io_steps R
    (try* id := stmt (DeviceStore.insert_device (stored d)) catch e =>
       ret (Err (EWrap [FStr "store: creating device: "] e [])) in ret (Ok id))) end.
  apply steps_bind; [ |intros; io_walk]. apply steps_stmt; [done..|]. intros w.
  apply HR. by repeat constructor.
Qed.

(** The updates a PATCH makes: plain columns by their names with values from the body, the
    status of a new probe, and encrypted credentials. *)
Definition patch_update_ok (plain secret : list string) (V : any -> Prop) (k : Key) (kv : string * any) : Prop :=
  (kv.1 ∈ "status" :: plain /\ V kv.2) \/ (kv.1 ∈ secret /\ exists e, kv.2 = AStr e /\ encryption k e).

(** What the body of a PATCH has for the plain columns. *)
Definition patch_values (V : any -> Prop) (plain : list string) (body : string) : Prop :=
  forall req k v, (j <-? parse_first body;; decode_map j) = Ok req -> k ∈ plain -> map_get req k = Some v -> V v.

Lemma secret_updates_result plain secret V h order req : (forall k, k ∈ order -> k ∈ secret) ->
  returns (fun r => match r with Ok l => Forall (patch_update_ok plain secret V (h_Key h)) l | Err _ => True end)
    (DeviceApi.secret_updates h order req).
Proof.
  induction order as [|k order IH]; cbn [DeviceApi.secret_updates]; intros Hin; [constructor|].
  assert (Hk : k ∈ secret) by (apply Hin; by left).
  specialize (IH (fun k' Hk' => Hin k' (list_elem_of_further _ _ _ Hk'))).
  destruct (map_get req k) as [v|]; [|exact IH].
  apply (returns_bind (encryption_result (h_Key h))); [apply Encrypt_result|].
  intros [e|] He; [|exact I]. eapply returns_bind; [exact IH|].
  intros [l|] Hl; [|exact I]. constructor; [|done]. right. split; [exact Hk|by exists e].
Qed.

Lemma steps_DeviceApi_Update (V : any -> Prop) h plain secret path_id body :
  (forall s, V (AStr s)) -> patch_values V plain body ->
  (forall id u, Forall (patch_update_ok plain secret V (h_Key h)) u -> io_steps R (DeviceStore.Update id u)) ->
  io_steps R (DeviceApi.Update h plain secret path_id body).
Proof.
  intros Htext Hbody HR. unfold DeviceApi.Update. destruct (ParseInt path_id) as [id|]; [|by apply steps_ret].
  destruct (result_bind _ _) as [req|] eqn:Hreq; [|by apply steps_ret].
  apply (steps_bind_post R (fun r => match r with
    | Ok l => Forall (patch_update_ok plain secret V (h_Key h)) l | Err _ => True end)).
  { by apply secret_updates_result. }
  { by apply secret_updates_frames. }
  intros [secrets|] Hsec; [|by apply steps_ret]. cbv zeta.
  assert (Hu : Forall (patch_update_ok plain secret V (h_Key h)) (DeviceApi.plain_updates plain req ++ secrets)).
  { apply Forall_app. split; [|done]. apply Forall_forall. intros [k v] Hin.
    apply plain_updates_elem in Hin as [Hin Hv]. left. split; [by right|by eapply Hbody]. }
  apply steps_bind; [by apply HR|intros []; [|by apply steps_ret]].
  apply steps_bind; [by apply steps_Get|intros [d|]; [|by apply steps_ret]].
  destruct (_ && _); [|by apply steps_ret].
  apply steps_bind; [by apply reprobe_frames|intros [st|]; [|by apply steps_ret]].
  apply steps_bind; [ |intros []; by apply steps_ret].
  apply HR. constructor; [|constructor]. left. split; [by left|apply Htext].
Qed.

Lemma steps_DeviceApi_Delete path_id :
  (forall id, io_steps R (DeviceStore.Delete id)) -> io_steps R (DeviceApi.Delete path_id).
Proof.
  intros HR. unfold DeviceApi.Delete. destruct (ParseInt path_id); [|by apply steps_ret].
  apply steps_bind; [apply HR|intros []; by apply steps_ret].
Qed.

(** A route of the devices, for a relation that does not look at their table. *)
Lemma steps_dispatch_devices `{!IgnoresDevices R} s plain secret r rt vals :
  writes_devices rt = true ->
  io_steps R (ConfigApiMain.dispatch s plain secret r rt vals).
Proof.
  destruct rt; try done; intros _; unfold ConfigApiMain.dispatch; cbv zeta;
    (apply steps_bind; [ |intros; by apply steps_ret]).
  - apply steps_DeviceApi_Create. intros. by apply insert_ignored.
  - apply (steps_DeviceApi_Update (fun _ => True)); [done..|]. intros. by apply ignored_Update.
  - apply steps_DeviceApi_Delete. intros. by apply ignored_Delete.
Qed.
End api_steps.

(** * Properties *)

Section requests.
Context `{DbEnv, SnmpEnv, RandEnv} (s : ConfigApiMain.server) (plain secret : list string).

Lemma handle_steps R r :
  (forall rt vals, find_route ConfigApiMain.routes (rq_method r) (rq_path r) = Found rt vals ->
     io_steps R (ConfigApiMain.dispatch s plain secret r rt vals)) ->
  io_steps R (ConfigApiMain.handle s plain secret r).
Proof.
  intros Hd. unfold ConfigApiMain.handle. apply steps_withCORS. intros _.
  by apply steps_serve_mux.
Qed.

Lemma route_methods m p rt vals :
  find_route ConfigApiMain.routes m p = Found rt vals ->
  writes_devices rt || writes_settings rt = true -> m ∈ ["POST"; "PATCH"; "DELETE"]%string.
Proof.
  intros (pat & Hin & Hm & _)%find_route_method Hw. unfold ConfigApiMain.routes in Hin.
  repeat (apply elem_of_cons in Hin as [[= -> ->]|Hin]; [
    first [discriminate Hw|revert Hm; unfold method_ok; cbn -[String.eqb];
      rewrite orb_false_r; intros <-%String.eqb_eq; by apply (bool_decide_unpack _)]|]).
  by apply not_elem_of_nil in Hin.
Qed.

(** A route that is left to the relation's caller: its writers by table, or nothing. *)
Lemma run_steps r w R `{!PreOrder R, !Ticks R} :
  (forall rt vals, find_route ConfigApiMain.routes (rq_method r) (rq_path r) = Found rt vals ->
     writes_devices rt || writes_settings rt = true ->
     io_steps R (ConfigApiMain.dispatch s plain secret r rt vals)) ->
  R w (ConfigApiMain.handle s plain secret r w).2.
Proof.
  intros Hd. apply (steps_run R), handle_steps. intros rt vals Hf.
  destruct (writes_devices rt || writes_settings rt) eqn:Hw; [by eapply Hd|].
  apply orb_false_iff in Hw as [Hd' Hs']. by apply steps_dispatch_read.
Qed.

Lemma handle_headers r w :
  (ConfigApiMain.handle s plain secret r w).1.1 = cors_headers ConfigApiMain.cors_methods.
Proof.
  unfold ConfigApiMain.handle, withCORS. destruct (String.eqb _ _); [done|]. by rewrite bind_eq.
Qed.

Lemma handle_unrouted r w :
  (forall rt vals, find_route ConfigApiMain.routes (rq_method r) (rq_path r) <> Found rt vals) ->
  (ConfigApiMain.handle s plain secret r w).2 = w.
Proof.
  intros Hn. unfold ConfigApiMain.handle, withCORS. destruct (String.eqb _ _); [done|]. rewrite bind_eq.
  unfold serve_mux. destruct (_ && _); [done|]. by destruct (find_route _ _ _); [edestruct Hn|..].
Qed.

Lemma handle_preflight r w : rq_method r = "OPTIONS" ->
  ConfigApiMain.handle s plain secret r w =
    ((cors_headers ConfigApiMain.cors_methods, Plain 204 None ""), w).
Proof. intros Hm. unfold ConfigApiMain.handle, withCORS. by rewrite Hm. Qed.

(** C37.  What a request to config-api can change is decided by its route.  Every reply carries
    the CORS headers.  No request touches the traps or telegraf.conf; only the three writing
    device routes touch the devices, and only the two settings POSTs the settings; a request
    with another method than POST, PATCH or DELETE, or that no route serves, leaves every
    table and sends nothing; and a preflight is answered 204 without any effect at all. *)
Theorem requests_change_what_they_name (r : request) (w : world) :
  let out := ConfigApiMain.handle s plain secret r w in
  let w' := out.2 in
  out.1.1 = cors_headers ConfigApiMain.cors_methods /\
  w_traps w' = w_traps w /\ w_conf w' = w_conf w /\
  match find_route ConfigApiMain.routes (rq_method r) (rq_path r) with
  | Found rt _ =>
      (writes_devices rt = false -> w_devices w' = w_devices w /\ w_trace w' = w_trace w) /\
      (writes_settings rt = false -> w_settings w' = w_settings w)
  | _ => w' = w
  end /\
  (rq_method r ∉ ["POST"; "PATCH"; "DELETE"]%string ->
     stored_state w' = stored_state w /\ w_trace w' = w_trace w) /\
  (rq_method r = "OPTIONS" -> out.1.2 = Plain 204 None "" /\ w' = w).
Proof.
  cbn zeta. split; [apply handle_headers|].
  split; [|split; [|split; [|split]]].
  - apply (run_steps r w (frames w_traps)). intros rt vals _ [Hw|Hw]%orb_true_iff;
      [by apply steps_dispatch_devices; try apply _|by apply steps_dispatch_settings; try apply _].
  - apply (run_steps r w (frames w_conf)). intros rt vals _ [Hw|Hw]%orb_true_iff;
      [by apply steps_dispatch_devices; try apply _|by apply steps_dispatch_settings; try apply _].
  - destruct (find_route _ _ _) as [rt vals|l|] eqn:Hf; [|by apply handle_unrouted; congruence..].
    split; [intros Hno; split|intros Hno].
    + apply (run_steps r w (frames w_devices)). rewrite Hf. intros rt' vals' [= <- <-].
      rewrite Hno. intros Hw. by apply steps_dispatch_settings; try apply _.
    + apply (run_steps r w (frames w_trace)). rewrite Hf. intros rt' vals' [= <- <-].
      rewrite Hno. intros Hw. by apply steps_dispatch_settings; try apply _.
    + apply (run_steps r w (frames w_settings)). rewrite Hf. intros rt' vals' [= <- <-].
      rewrite Hno, orb_false_r. intros Hw. by apply steps_dispatch_devices; try apply _.
  - intros Hm. split.
    + apply (run_steps r w (frames stored_state)). intros rt vals Hf Hw. by apply route_methods in Hf.
    + apply (run_steps r w (frames w_trace)). intros rt vals Hf Hw. by apply route_methods in Hf.
  - intros Hm. by rewrite handle_preflight.
Qed.
End requests.

(** * The tickers of config-watcher *)

Section tickers.
Import WatcherMain.

(** The largest whole number of seconds a [time.Duration] holds. *)
Definition max_seconds : Z := 9223372036.

Lemma wrap_int64_range z : min_int64 <= wrap_int64 z <= max_int64.
Proof.
  unfold wrap_int64, min_int64, max_int64. pose proof (Z.mod_pos_bound (z + 2 ^ 63) (2 ^ 64) ltac:(lia)). lia.
Qed.

Lemma wrap_int64_small z : min_int64 <= z <= max_int64 -> wrap_int64 z = z.
Proof. unfold wrap_int64, min_int64, max_int64. intros Hz. rewrite Z.mod_small; lia. Qed.

Lemma seconds_exact n : 1 <= n -> seconds n = n * second <-> n <= max_seconds.
Proof.
  intros Hn. unfold seconds, max_seconds, second. split.
  - intros He. pose proof (wrap_int64_range (n * 1000000000)) as Hr. rewrite He in Hr.
    unfold min_int64, max_int64 in Hr. lia.
  - intros Hle. apply wrap_int64_small. unfold min_int64, max_int64. lia.
Qed.

Lemma seconds_or_range env name text fallback :
  1 <= fallback <= max_int64 -> 1 <= seconds_or env name text fallback <= max_int64.
Proof.
  intros Hf. unfold seconds_or, Atoi. destruct (parse_int _) as [n|e] eqn:Hp; [|done].
  apply parse_int_range in Hp. destruct (Z.leb_spec n 0); [done|]. lia.
Qed.

Lemma NewTicker_Some d p : NewTicker d = Some p -> p = d /\ 0 < d.
Proof. unfold NewTicker. destruct (Z.ltb_spec 0 d); [|done]. by intros [= <-]. Qed.

(** C38.  The periods config-watcher runs with.  Whatever is in its environment, both numbers
    of seconds are positive, and so are the periods of the tickers it makes; these are the
    configured ones exactly up to 9223372036 seconds.  Above, the multiplication overflows:
    the watcher panics on a negative product, after the jobs of its start, or else ticks with
    a period that was not asked for; it never panics below. *)
Theorem watcher_periods (env : environ) :
  let poll := pollSeconds env in let sweep := sweepSeconds env in
  1 <= poll <= max_int64 /\ 1 <= sweep <= max_int64 /\
  (poll <= max_seconds -> sweep <= max_seconds ->
     tickers env = Some (poll * second, poll * second, sweep * second)) /\
  (forall r h s, tickers env = Some (r, h, s) ->
     r = h /\ 0 < r <= max_int64 /\ 0 < s <= max_int64 /\
     (r = poll * second <-> poll <= max_seconds) /\ (s = sweep * second <-> sweep <= max_seconds)) /\
  (tickers env = None <-> seconds poll <= 0 \/ seconds sweep <= 0).
Proof.
  cbn zeta.
  assert (Hp : 1 <= pollSeconds env <= max_int64) by (apply seconds_or_range; unfold max_int64; lia).
  assert (Hs : 1 <= sweepSeconds env <= max_int64) by (apply seconds_or_range; unfold max_int64; lia).
  pose proof (seconds_exact (pollSeconds env) ltac:(lia)) as Ep.
  pose proof (seconds_exact (sweepSeconds env) ltac:(lia)) as Es.
  pose proof (wrap_int64_range (pollSeconds env * second)) as Rp.
  pose proof (wrap_int64_range (sweepSeconds env * second)) as Rs.
  change (wrap_int64 (pollSeconds env * second)) with (seconds (pollSeconds env)) in Rp.
  change (wrap_int64 (sweepSeconds env * second)) with (seconds (sweepSeconds env)) in Rs.
  split; [done|split; [done|]]. unfold tickers, NewTicker.
  destruct (Z.ltb_spec 0 (seconds (pollSeconds env))) as [Pp|Pp]; cbn;
    destruct (Z.ltb_spec 0 (seconds (sweepSeconds env))) as [Ps|Ps]; cbn.
  - split_and!; [|intros r h s [= <- <- <-]; split_and!; auto; lia|split; [done|lia]].
    intros H1%Ep H2%Es. by rewrite H1, H2.
  - split_and!; [|done|split; [by right|done]]. intros _ H2%Es. unfold second in *. lia.
  - split_and!; [|done|split; [by left|done]]. intros H1%Ep _. unfold second in *. lia.
  - split_and!; [|done|split; [by left|done]]. intros H1%Ep _. unfold second in *. lia.
Qed.

(** The two ways it goes wrong. *)
Definition polling_every (n : string) : environ :=
  fun key => if String.eqb key "CONFIG_WATCHER_POLL_SECONDS" then n else "".

Example overflowing_periods :
  tickers (polling_every "9223372037") = None /\
  tickers (polling_every "18446744074") = Some (290448384, 290448384, 300 * second) /\
  tickers (polling_every "ten") = Some (10 * second, 10 * second, 300 * second).
Proof. split_and!; vm_compute; reflexivity. Qed.
End tickers.
