(* ===== verification/Interleaving.v ===== *)
(** Programs that run at the same time.  A pool is the world and the programs started over it;
    between two steps of one of them any other may make steps, new ones may start, and one may
    be lost half way, as happens when its process is killed.  What every step of every program
    respects, every run of the pool respects, and what a program does may depend on what it read
    in the worlds it met; a pool that lets its programs finish one by one does what running them
    one after the other does. *)

From S2P Require Import Prelude Float64 Json World.

(** * Programs in worlds that satisfy something

    Like [io_steps] and [returns], for steps taken in worlds that satisfy [I] only. *)

Fixpoint io_steps_in (I : world -> Prop) (R : relation world) {A} (m : IO A) : Prop :=
  match m with
  | Ret _ => True
  | Act s k => forall w, I w -> R w (s w).2 /\ io_steps_in I R (k (s w).1)
  end.

Fixpoint returns_in (I : world -> Prop) {A} (Q : A -> Prop) (m : IO A) : Prop :=
  match m with
  | Ret a => Q a
  | Act s k => forall w, I w -> returns_in I Q (k (s w).1)
  end.

Section assuming.
Context (I : world -> Prop) (R : relation world).

Lemma steps_in_any {A} (m : IO A) : io_steps R m -> io_steps_in I R m.
Proof.
  induction m as [a|B s k IH]; cbn; [done|]. intros Hm w _. destruct (Hm w). split; [done|by apply IH].
Qed.

Lemma steps_in_post {A B} (Q : A -> Prop) (m : IO A) (k : A -> IO B) :
  returns_in I Q m -> io_steps_in I R m -> (forall a, Q a -> io_steps_in I R (k a)) ->
  io_steps_in I R (bind m k).
Proof.
  intros Hq Hm Hk. induction m as [a|C s k' IH]; cbn; [by apply Hk|]. intros w Hw.
  destruct (Hm w Hw) as [Hs Hk']. split; [exact Hs|]. by apply IH; [apply Hq|].
Qed.

Lemma returns_in_any {A} (m : IO A) : returns_in I (fun _ => True) m.
Proof. induction m as [a|B s k IH]; cbn; auto. Qed.

Lemma steps_in_bind {A B} (m : IO A) (k : A -> IO B) :
  io_steps_in I R m -> (forall a, io_steps_in I R (k a)) -> io_steps_in I R (bind m k).
Proof. intros Hm Hk. apply (steps_in_post (fun _ => True)); [apply returns_in_any|done|auto]. Qed.

Lemma steps_in_for_each {A} (l : list A) body :
  (forall x, io_steps_in I R (body x)) -> io_steps_in I R (for_each l body).
Proof.
  intros Hb. induction l as [|x l IH]; cbn [for_each]; [exact Logic.I|]. by apply steps_in_bind.
Qed.

Lemma returns_in_bind {A B} (P : A -> Prop) (Q : B -> Prop) (m : IO A) (k : A -> IO B) :
  returns_in I P m -> (forall a, P a -> returns_in I Q (k a)) -> returns_in I Q (bind m k).
Proof.
  intros Hm Hk. induction m as [a|C s k' IH]; cbn; [by apply Hk|]. intros w Hw. by apply IH, Hm.
Qed.
End assuming.

(** In any world at all. *)
Lemma steps_in_true R {A} (m : IO A) : io_steps_in (fun _ => True) R m -> io_steps R m.
Proof.
  induction m as [a|B s k IH]; cbn; [done|]. intros Hm w. destruct (Hm w Logic.I). split; [done|by apply IH].
Qed.

(** * Pools *)

Record pool := Pool { p_world : world; p_threads : list (IO unit) }.

Section pools.
Context (starts : IO unit -> Prop).

Inductive pool_step : pool -> pool -> Prop :=
| step_start m w ts : starts m -> pool_step (Pool w ts) (Pool w (ts ++ [m]))
| step_act {B : Type} (s : world -> B * world) (k : B -> IO unit) w ts i :
    ts !! i = Some (Act s k) -> pool_step (Pool w ts) (Pool (s w).2 (<[i := k (s w).1]> ts))
| step_kill w ts i : pool_step (Pool w ts) (Pool w (delete i ts)).

(** Any number of steps. *)
Definition pool_runs : relation pool := rtc pool_step.

(** ** What every program respects *)

Section respects.
Context (R : relation world) `{!PreOrder R}.
Context (started : forall m, starts m -> io_steps R m).

Lemma pool_step_steps p p' :
  pool_step p p' -> Forall (io_steps R) (p_threads p) ->
  R (p_world p) (p_world p') /\ Forall (io_steps R) (p_threads p').
Proof.
  intros [m w ts Hm|B s k w ts i Hi|w ts i] Hts; cbn in *.
  - split; [reflexivity|]. apply Forall_app. split; [done|]. rewrite Forall_singleton. auto.
  - pose proof (Forall_lookup_1 _ _ _ _ Hts Hi) as Ha. destruct (Ha w) as [Hs Hk].
    split; [exact Hs|]. by apply Forall_insert.
  - split; [reflexivity|]. by apply Forall_delete.
Qed.

Lemma pool_runs_steps p p' :
  pool_runs p p' -> Forall (io_steps R) (p_threads p) ->
  R (p_world p) (p_world p') /\ Forall (io_steps R) (p_threads p').
Proof.
  induction 1 as [p|p1 p2 p3 H12 _ IH]; intros Hts; [by split; [reflexivity|]|].
  destruct (pool_step_steps _ _ H12 Hts) as [H1 Hts2]. destruct (IH Hts2) as [H2 Hts3].
  split; [by transitivity (p_world p2)|done].
Qed.
End respects.

(** ** The worlds on the way *)

Inductive pool_trace : pool -> list world -> pool -> Prop :=
| trace_done p : pool_trace p [p_world p] p
| trace_step p1 p2 p3 ws : pool_step p1 p2 -> pool_trace p2 ws p3 -> pool_trace p1 (p_world p1 :: ws) p3.

Lemma pool_trace_runs p ws p' : pool_trace p ws p' -> pool_runs p p'.
Proof. induction 1 as [p|p1 p2 p3 ws Hs _ IH]; [apply rtc_refl|by eapply rtc_l]. Qed.

Lemma pool_runs_trace p p' : pool_runs p p' -> exists ws, pool_trace p ws p'.
Proof.
  induction 1 as [p|p1 p2 p3 Hs _ [ws IH]]; [eexists; by apply trace_done|].
  eexists. by eapply trace_step.
Qed.

(** Every world on the way has been reached. *)
Lemma pool_trace_reached p ws p' w : pool_trace p ws p' -> w ∈ ws ->
  exists q, pool_runs p q /\ p_world q = w.
Proof.
  induction 1 as [p|p1 p2 p3 ws Hs _ IH]; intros Hw.
  - apply list_elem_of_singleton in Hw as ->. exists p. split; [apply rtc_refl|done].
  - apply elem_of_cons in Hw as [->|Hw]; [exists p1; split; [apply rtc_refl|done]|].
    destruct (IH Hw) as (q & Hq & Hw'). exists q. split; [by eapply rtc_l|done].
Qed.

Section on_the_way.
Context (I : world -> Prop) (R : relation world) `{!PreOrder R}.
Context (started : forall m, starts m -> io_steps_in I R m).

Lemma pool_trace_steps p ws p' :
  pool_trace p ws p' -> (forall w, w ∈ ws -> I w) -> Forall (io_steps_in I R) (p_threads p) ->
  R (p_world p) (p_world p').
Proof.
  induction 1 as [p|p1 p2 p3 ws Hs _ IH]; intros HI Hts; [reflexivity|].
  assert (H2 : R (p_world p1) (p_world p2) /\ Forall (io_steps_in I R) (p_threads p2)).
  { pose proof (HI (p_world p1) ltac:(by left)) as Hw. revert Hts Hw.
    destruct Hs as [m w ts Hm|B s k w ts i Hi|w ts i]; cbn; intros Hts Hw.
    - split; [reflexivity|]. apply Forall_app_2; [done|]. rewrite Forall_singleton. auto.
    - destruct (Forall_lookup_1 _ _ _ _ Hts Hi w Hw) as [Hr Hk]. split; [exact Hr|]. by apply Forall_insert.
    - split; [reflexivity|]. by apply Forall_delete. }
  destruct H2 as [Hr Hts2]. transitivity (p_world p2); [exact Hr|]. apply IH; [|done].
  intros w Hw. apply HI. by right.
Qed.
End on_the_way.

(** ** Running one program to its end *)

Lemma run_alone m w ts :
  pool_runs (Pool w (ts ++ [m])) (Pool (m w).2 (ts ++ [Ret (m w).1])).
Proof.
  revert w. induction m as [a|B s k IH]; intros w; [apply rtc_refl|].
  eapply rtc_l.
  - apply (step_act s k _ _ (length ts)). by rewrite list_lookup_middle.
  - assert (Hins : <[length ts := k (s w).1]> (ts ++ [Act s k]) = ts ++ [k (s w).1])
      by (rewrite insert_app_r_alt by done; by rewrite Nat.sub_diag).
    rewrite Hins. cbn. destruct (s w) as [b w'] eqn:Hs. cbn [fst snd]. apply IH.
Qed.

Lemma start_and_run m w ts : starts m ->
  pool_runs (Pool w ts) (Pool (m w).2 (ts ++ [Ret (m w).1])).
Proof. intros Hm. eapply rtc_l; [by apply step_start|]. apply run_alone. Qed.

Lemma start_all ms w ts : Forall starts ms -> pool_runs (Pool w ts) (Pool w (ts ++ ms)).
Proof.
  intros Hms. revert ts. induction Hms as [|m ms Hm _ IH]; intros ts; [rewrite app_nil_r; apply rtc_refl|].
  eapply rtc_l; [by apply step_start|]. replace (ts ++ m :: ms) with ((ts ++ [m]) ++ ms) by by rewrite <- app_assoc.
  apply IH.
Qed.
End pools.

(** * Schedules

    A schedule names the program that makes each step; a program that is done makes none. *)

Definition advance (i : nat) (p : pool) : pool :=
  match p_threads p !! i with
  | Some (Act s k) => let '(b, w') := s (p_world p) in Pool w' (<[i := k b]> (p_threads p))
  | _ => p
  end.

Definition follow (schedule : list nat) (p : pool) : pool := foldl (fun p i => advance i p) p schedule.

Definition done_thread (m : IO unit) : bool := match m with Ret _ => true | Act _ _ => false end.

Lemma advance_runs starts i p : pool_runs starts p (advance i p).
Proof.
  unfold advance. destruct p as [w ts]. cbn. destruct (ts !! i) as [[a|B s k]|] eqn:Hi; [apply rtc_refl| |apply rtc_refl].
  pose proof (step_act starts s k w ts i Hi) as Hstep. destruct (s w) as [b w'] eqn:Hs. cbn in *.
  by apply rtc_once.
Qed.

Lemma follow_runs starts schedule p : pool_runs starts p (follow schedule p).
Proof.
  unfold follow. revert p. induction schedule as [|i l IH]; intros p; cbn [foldl]; [apply rtc_refl|].
  etransitivity; [apply advance_runs|apply IH].
Qed.
