(* ===== verification/System.v ===== *)
(** The four services over the databases they share: what each can do to the other's state, the
    states the deployment can reach from blank volumes when its requests and jobs run one after
    the other, and when they run at the same time, interleaved at their single statements. *)

From Stdlib Require Import Sorting.Sorted Permutation.
From S2P Require Import Prelude Float64 Encoding Json World Store StoreFacts StoreSpec Gcm Crypto.
From S2P Require Import Netutil Snmp TrapReceiver ConfigApi ConfigApiFacts ConfigSettings ConfigTraps.
From S2P Require Import Watcher WatcherFacts Telegraf TelegrafFacts Mux Clock Text RateLimit ChatSql.
From S2P Require Import ChatClients ChatTools ChatToolDefs Gemini ChatHandler ChatHandlerFacts.
From S2P Require Import Services ServicesFacts Interleaving.
Open Scope Z_scope.

(** * What the services do to each other's state *)

(** Volumes nothing has been written to. *)
Definition blank (w : world) : Prop :=
  w_devices w = {| rows := []; seq := 0 |} /\ w_settings w = ∅ /\
  w_traps w = {| trap_rows := []; trap_seq := 0; trap_cols := [] |}.

(** One thing a service does, from start to end; a watcher or a receiver is also one long
    thing, from its start until it stops. *)
Inductive action :=
| OpenConfig
| OpenTraps
| ApiRequest (plain secret : list string) (r : request)
| GatewayDiscovery
| WatcherTick (t : WatcherMain.tick)
| WatcherRun (env : environ) (ticks : list WatcherMain.tick)
| Trap_ (packet : SnmpPacket) (source : string)
| ReceiverRun (packets : list (SnmpPacket * string)) (listen : option error)
| ChatRequest (s : ChatMain.server) (order : string -> list (string * metricColumn))
    (rl : rateLimiter) (now : Z) (r : request).

Section system.
Context `{DbEnv, SnmpEnv, RandEnv, HostEnv, TypeNames, HttpEnv, ClockEnv, CaseTables}.
Context (key : Key) (cfg : watcherConfig) (tmpl_file : result string).

(** config-api as [main] builds it. *)
Definition api_server : ConfigApiMain.server :=
  {| ConfigApiMain.deviceHandler := {| h_Key := key; h_ProbeTimeout := 0 |};
     ConfigApiMain.trapsHandler := Build_TrapsHandler true (Some key) |}.

Definition perform (a : action) : IO unit :=
  match a with
  | OpenConfig => OpenConfigDB ;;; ret tt
  | OpenTraps => OpenTrapsDB false ;;; ret tt
  | ApiRequest plain secret r => ConfigApiMain.handle api_server plain secret r ;;; ret tt
  | GatewayDiscovery => discoverGatewayDevice key
  | WatcherTick t => WatcherMain.on_tick key cfg tmpl_file t
  | WatcherRun env ticks => WatcherMain.main env tmpl_file ticks ;;; ret tt
  | Trap_ packet source => handle_trap packet source
  | ReceiverRun packets listen => TrapReceiverMain.main false packets listen ;;; ret tt
  | ChatRequest s order rl now r => ChatMain.handle s order rl now r ;;; ret tt
  end.

(** Go ranges over the tables of columns in some order; the services share one key. *)
Definition possible (a : action) : Prop :=
  match a with
  | ApiRequest plain secret _ => Permutation plain plain_keys /\ Permutation secret secret_keys
  | WatcherRun env _ => NewKey (env "ENCRYPTION_KEY") = Ok key /\ WatcherMain.config_of env = cfg
  | _ => True
  end.

(** The states the deployment can be in, between two actions, once both databases have been
    opened. *)
Inductive reachable : world -> Prop :=
| reach_start w0 w1 w2 :
    blank w0 -> OpenConfigDB w0 = (Ok tt, w1) -> OpenTrapsDB true w1 = (Ok tt, w2) -> reachable w2
| reach_step w a : reachable w -> possible a -> reachable (perform a w).2.

(** The same with any number of requests, packets and jobs under way at any time, each of which
    may be lost half way. *)
Definition begins (m : IO unit) : Prop := exists a, possible a /\ m = perform a.

(** Only actions with [C]. *)
Definition begins_where (C : action -> Prop) (m : IO unit) : Prop :=
  exists a, possible a /\ C a /\ m = perform a.

Inductive interleaved : pool -> Prop :=
| inter_start w0 w1 w2 :
    blank w0 -> OpenConfigDB w0 = (Ok tt, w1) -> OpenTrapsDB true w1 = (Ok tt, w2) ->
    interleaved (Pool w2 [])
| inter_step p p' : interleaved p -> pool_step begins p p' -> interleaved p'.

Lemma interleaved_runs p p' : interleaved p -> pool_runs begins p p' -> interleaved p'.
Proof. intros Hp Hr. induction Hr as [p|p1 p2 p3 Hs _ IH]; [done|]. apply IH. by eapply inter_step. Qed.

Lemma runs_where C p p' : pool_runs (begins_where C) p p' -> pool_runs begins p p'.
Proof.
  intros Hr. induction Hr as [|p1 p2 p3 Hs _ IH]; [apply rtc_refl|]. eapply rtc_l; [|exact IH].
  destruct Hs as [m w ts (a & Ha & _ & ->)| |]; [apply step_start; by exists a|by apply step_act|apply step_kill].
Qed.

(** Running the actions one after the other is one of the ways to interleave them. *)
Lemma reachable_interleaved w : reachable w -> exists ts, interleaved (Pool w ts).
Proof.
  induction 1 as [w0 w1 w2 Hb Ho Ht|w a _ [ts IH] Ha].
  - exists []. by eapply inter_start.
  - eexists. eapply interleaved_runs; [exact IH|]. apply start_and_run. by exists a.
Qed.
End system.

(** * What the services may do

    The statements the actions are made of, as what a relation between worlds has to allow:
    rows only with credentials that [Encrypt] made, columns of credentials only set to such,
    plain columns only to values with [V], settings only to the values the handlers let
    through. *)

Record permits `{DbEnv, RandEnv} (V : any -> Prop) (k : Key) (R : relation world) : Prop := {
  pm_create : forall d w, Forall (encryption k) [Community d; V3AuthKey d; V3PrivKey d] ->
    R w (DeviceStore.insert_device (stored d) w).2;
  pm_update : forall id u sets vals w, Forall (harmless V k) u ->
    DeviceStore.set_clause u = Ok sets -> DeviceStore.bind_all sets = Ok vals ->
    R w (DeviceStore.update_device id vals w).2;
  pm_delete : forall id w, R w (DeviceStore.delete_device id w).2;
  pm_polling : forall n w, allowedPollingIntervals n = true ->
    R w (set_settings (<[pollingIntervalKey := Itoa n]> (w_settings w)) w);
  pm_duplication : forall (b : bool) w,
    R w (set_settings (<[credentialDuplicationKey := if b then "1" else "0"]> (w_settings w)) w);
  pm_schema : forall s w, s ∈ configSchema -> R w (s w);
  pm_trap : forall t w, R w (TrapStore.insert_trap t w).2;
  pm_alter : forall col w, R w (alter_add col w).2
}.

(** telegraf.conf, which only a reconcile writes, is not part of what a relation talks about. *)
Class IgnoresConf (R : relation world) : Prop := ignores_conf : forall c w, R w (set_conf c w).

(** What a client sends for the plain columns of a device has [V]. *)
Definition carries (V : any -> Prop) (a : action) : Prop :=
  match a with
  | ApiRequest _ _ r => rq_method r = "PATCH" -> patch_values V plain_keys (rq_body r)
  | _ => True
  end.

Section guarantee.
Context `{DbEnv, SnmpEnv, RandEnv, HostEnv, TypeNames, HttpEnv, ClockEnv, CaseTables}.
Context (key : Key) (cfg : watcherConfig) (tmpl_file : result string).
Context (R : relation world) `{!PreOrder R, !Ticks R, !AllowsEvents (fun _ => True) R}.
Context (V : any -> Prop) (text : forall s, V (AStr s)) (HR : permits V key R).

Lemma may_create d : Forall (encryption key) [Community d; V3AuthKey d; V3PrivKey d] ->
  io_steps R (DeviceStore.Create d).
Proof.
  intros Hd. unfold DeviceStore.Create. fold (stored d).
  apply steps_bind; [|intros; io_walk]. apply steps_stmt; [done..|]. intros w. by apply HR.
Qed.

Lemma may_update id u : Forall (harmless V key) u -> io_steps R (DeviceStore.Update id u).
Proof. intros Hu. apply steps_Update; [done..|]. intros. by eapply (pm_update _ _ _ HR). Qed.

Lemma may_set_status id (b : bool) :
  io_steps R (DeviceStore.Update id [("status", AStr (if b then "active" else "failed"))]).
Proof.
  apply may_update. rewrite Forall_cons. split; [by apply harmless_plain|constructor].
Qed.

Lemma may_open_config : io_steps R OpenConfigDB.
Proof.
  unfold OpenConfigDB. apply steps_bind; [|intros; io_walk]. apply steps_exec_script; [done..|apply HR].
Qed.

Lemma may_migrate cols : io_steps R (migrate cols).
Proof.
  induction cols as [|col cols IH]; cbn [migrate]; [done|].
  apply steps_bind; [apply steps_stmt; [done..|apply HR]|].
  intros [u|e]; [exact IH|]. destruct (says _ _); [exact IH|done].
Qed.

Lemma may_open_traps : io_steps R (OpenTrapsDB false).
Proof.
  unfold OpenTrapsDB. apply steps_bind; [|intros []; [apply may_migrate|done]].
  apply steps_stmt; [done..|]. intros w. cbn. reflexivity.
Qed.

Lemma may_receive packet source : io_steps R (handle_trap packet source).
Proof.
  unfold handle_trap. destruct (encodeVarbinds _) as [payload|]; [|by apply steps_ret].
  unfold TrapStore.Insert. apply steps_bind; [|intros; by apply steps_ret].
  apply steps_bind; [|intros; io_walk]. apply steps_stmt; [done..|]. intros w. apply HR.
Qed.

(** A PATCH sets no credential but to what it encrypted. *)
Lemma patch_harmless plain secret u : Permutation plain plain_keys -> Permutation secret secret_keys ->
  Forall (patch_update_ok plain secret V key) u -> Forall (harmless V key) u.
Proof.
  intros Hp Hs Hu. eapply Forall_impl; [exact Hu|]. intros kv [[Hin Hv]|[Hin He]]; [left|right];
    (split; [|done]); [|by rewrite <- Hs].
  apply elem_of_cons in Hin as [->|Hin]; [by apply (bool_decide_unpack _)|by rewrite <- Hp].
Qed.

Lemma patch_route m p vals :
  find_route ConfigApiMain.routes m p = Found ConfigApiMain.UpdateDevice vals -> m = "PATCH".
Proof.
  intros (pat & Hin & Hm & _)%find_route_method. unfold ConfigApiMain.routes in Hin.
  repeat (apply elem_of_cons in Hin as [Heq|Hin]; [first [discriminate Heq|injection Heq as ->;
    revert Hm; unfold method_ok; cbn -[String.eqb]; rewrite orb_false_r; by intros <-%String.eqb_eq]|]).
  by apply not_elem_of_nil in Hin.
Qed.

Lemma may_serve_api plain secret r : possible key cfg (ApiRequest plain secret r) ->
  carries V (ApiRequest plain secret r) ->
  io_steps R (ConfigApiMain.handle (api_server key) plain secret r).
Proof.
  intros [Hp Hsec] Hb. apply handle_steps. intros rt vals Hf.
  destruct (writes_devices rt || writes_settings rt) eqn:Hw.
  2:{ apply orb_false_iff in Hw as [Hd Hs]. by apply steps_dispatch_read. }
  destruct rt; try done; unfold ConfigApiMain.dispatch; cbv zeta;
    (apply steps_bind; [|intros; by apply steps_ret]).
  - apply steps_DeviceApi_Create; [done..|apply HR].
  - apply (steps_DeviceApi_Update R V); [done..| |].
    + intros req k v Hreq Hk. apply (Hb (patch_route _ _ _ Hf) req k v Hreq). by rewrite <- Hp.
    + intros id u Hu. by eapply may_update, patch_harmless.
  - apply steps_DeviceApi_Delete. intros id. apply steps_Delete; [done..|apply HR].
  - apply steps_SetPollingInterval; [done..|apply HR].
  - apply steps_SetCredentialDuplication; [done..|apply HR].
Qed.

Lemma may_discover : io_steps R (discoverGatewayDevice key).
Proof. apply (steps_discoverGatewayDevice _ _) with (V := V); [done..|apply may_create|exact text|apply may_update]. Qed.

Lemma may_receive_all packets listen : io_steps R (TrapReceiverMain.main false packets listen).
Proof.
  unfold TrapReceiverMain.main.
  apply steps_bind; [apply may_open_traps|intros [u|e]; [|by apply steps_ret]].
  apply steps_bind; [|intros _; destruct listen; by apply steps_ret].
  apply steps_for_each. intros [p source] _. apply may_receive.
Qed.

Lemma may_chat s order rl now r : io_steps R (ChatMain.handle s order rl now r).
Proof.
  unfold ChatMain.handle. apply steps_withCORS. intros _. apply steps_serve_mux. intros rt vals _.
  destruct rt; [by apply steps_ret|].
  apply steps_bind; [by apply steps_handle_any; apply _|intros [resp rl']; by apply steps_ret].
Qed.

(** What a reconcile writes may depend on the worlds it has read in. *)
Context (I : world -> Prop) (Hrec : io_steps_in I R (reconcileTelegrafConfig key cfg tmpl_file)).

Lemma may_tick t : io_steps_in I R (WatcherMain.on_tick key cfg tmpl_file t).
Proof.
  destruct t; cbn [WatcherMain.on_tick]; [exact Hrec|apply steps_in_any..].
  - apply steps_checkDeviceHealth; [done..|]. apply may_set_status.
  - apply steps_runDiscoverySweep; [done..|]. apply may_create.
Qed.

Lemma may_watch env ticks :
  NewKey (env "ENCRYPTION_KEY") = Ok key -> WatcherMain.config_of env = cfg ->
  io_steps_in I R (WatcherMain.main env tmpl_file ticks).
Proof.
  intros Hk Hc. unfold WatcherMain.main.
  apply steps_in_bind; [apply steps_in_any, may_open_config|intros [u|e]; [|done]]. rewrite Hk, Hc. cbv zeta.
  apply steps_in_bind; [apply steps_in_any, may_discover|intros _].
  apply steps_in_bind; [apply (may_tick WatcherMain.HealthCheckTick)|intros _].
  apply steps_in_bind; [apply (may_tick WatcherMain.ReconcileTick)|intros _].
  destruct (WatcherMain.tickers env); [|done].
  apply steps_in_bind; [|done]. apply steps_in_for_each, may_tick.
Qed.

(** Every step of every action is permitted. *)
Lemma steps_perform a : possible key cfg a -> carries V a -> io_steps_in I R (perform key cfg tmpl_file a).
Proof.
  assert (Hdone : forall A (m : IO A), io_steps R m -> io_steps_in I R (m ;;; ret tt)).
  { intros A m Hm. by apply steps_in_bind; [apply steps_in_any|]. }
  destruct a; cbn [perform]; intros Ha Hc.
  - apply Hdone, may_open_config.
  - apply Hdone, may_open_traps.
  - by apply Hdone, may_serve_api.
  - apply steps_in_any, may_discover.
  - apply may_tick.
  - destruct Ha. by apply steps_in_bind; [apply may_watch|].
  - apply steps_in_any, may_receive.
  - apply Hdone, may_receive_all.
  - apply Hdone, may_chat.
Qed.
End guarantee.

(** For a relation that does not look at telegraf.conf, in any world. *)
Section everywhere.
Context `{DbEnv, SnmpEnv, RandEnv, HostEnv, TypeNames, HttpEnv, ClockEnv, CaseTables}.
Context (key : Key) (cfg : watcherConfig) (tmpl_file : result string).
Context (R : relation world) `{!PreOrder R, !Ticks R, !AllowsEvents (fun _ => True) R, !IgnoresConf R}.
Context (V : any -> Prop) (text : forall s, V (AStr s)) (HR : permits V key R).

Lemma steps_permitted a : possible key cfg a -> carries V a -> io_steps R (perform key cfg tmpl_file a).
Proof.
  intros Ha Hc. apply steps_in_true, (steps_perform _ _ _ _ V); try done.
  by apply steps_in_any, steps_reconcile.
Qed.

(** So is everything that such actions do from when nothing is under way, in whatever order. *)
Lemma runs_carrying C w p : (forall a, C a -> carries V a) ->
  pool_runs (begins_where key cfg tmpl_file C) (Pool w []) p -> R w (p_world p).
Proof.
  intros HC Hr. eapply (pool_runs_steps _ R) in Hr as [Hr _]; [exact Hr| |constructor].
  intros m (a & Ha & Hc & ->). apply steps_permitted; auto.
Qed.
End everywhere.

(** What permits any values permits everything the deployment does. *)
Section anything.
Context `{DbEnv, SnmpEnv, RandEnv, HostEnv, TypeNames, HttpEnv, ClockEnv, CaseTables}.
Context (key : Key) (cfg : watcherConfig) (tmpl_file : result string).
Context (R : relation world) `{!PreOrder R, !Ticks R, !AllowsEvents (fun _ => True) R, !IgnoresConf R}.
Context (HR : permits (fun _ => True) key R).

Lemma steps_begins m : begins key cfg tmpl_file m -> io_steps R m.
Proof.
  intros (a & Ha & ->). eapply (steps_permitted _ _ _ R (fun _ => True)); try done. by destruct a.
Qed.

Lemma steps_interleaved p : interleaved key cfg tmpl_file p -> Forall (io_steps R) (p_threads p).
Proof.
  induction 1 as [w0 w1 w2 _ _ _|p p' _ IH Hs]; [constructor|].
  eapply (pool_step_steps _ R); [exact steps_begins|exact Hs|exact IH].
Qed.

Lemma runs_permitted p p' : interleaved key cfg tmpl_file p ->
  pool_runs (begins key cfg tmpl_file) p p' -> R (p_world p) (p_world p').
Proof.
  intros Hp Hr. eapply (pool_runs_steps _ R); [exact steps_begins|exact Hr|by apply steps_interleaved].
Qed.
End anything.
