(* ===== verification/SystemInvariant.v ===== *)
(** The invariant of the deployment: the tables are well formed and every stored credential is
    sealed under the deployment's key; what an id of a device means, for ever; and which types the
    columns keep as long as no PATCH sends a null.  All three are relations that permit what the
    services do. *)

From Stdlib Require Import Sorting.Sorted Permutation.
From S2P Require Import Prelude Float64 Encoding Json World Store StoreFacts StoreSpec Gcm Crypto.
From S2P Require Import ConfigApi ConfigApiFacts ConfigSettings Watcher WatcherFacts Mux ServicesFacts System.
Open Scope Z_scope.

(** * The invariant *)

(** Nothing, or an AES-GCM box under the key behind its nonce, in base64. *)
Definition sealed_text (k : Key) (e : string) : Prop :=
  e = "" \/ exists nonce s, String.length nonce = NonceSize /\ s <> "" /\
    e = b64_encode (nonce +:+ Seal (gcm k) nonce s).

Definition row_sealed (k : Key) (r : device_row) : Prop :=
  forall c, secret_column c = true -> exists e, get_col c r = VText e /\ sealed_text k e.

Record traps_ok (t : traps_table) : Prop := {
  tk_sorted : StronglySorted Z.lt (map t_id (trap_rows t));
  tk_ids : Forall (fun i => 1 <= i <= trap_seq t) (map t_id (trap_rows t));
  tk_seq : 0 <= trap_seq t <= max_int64;
  tk_cols : "community" ∈ trap_cols t /\ "agent_address" ∈ trap_cols t
}.

Record system_ok (k : Key) (w : world) : Prop := {
  sy_devices : db_ok w;
  sy_sealed : Forall (row_sealed k) (rows (w_devices w));
  sy_settings : settings_ok w;
  sy_traps : traps_ok (w_traps w)
}.

#[export] Instance system_ok_ticks k : Ticks (keeps (system_ok k)).
Proof. intros w [Hd Hr [Hp Hc] Ht]. by split. Qed.

#[export] Instance system_ok_conf k : IgnoresConf (keeps (system_ok k)).
Proof. intros c w [Hd Hr [Hp Hc] Ht]. by split. Qed.

#[export] Instance system_ok_allow k P : AllowsEvents P (keeps (system_ok k)).
Proof. intros e w _ [Hd Hr [Hp Hc] Ht]. by split. Qed.

Lemma sealed_decrypts k e : key_ok k -> sealed_text k e -> exists s, Decrypt k e = Ok s.
Proof.
  intros Hk [->|(nonce & s & Hn & _ & ->)]; [by exists ""|].
  exists s. by rewrite Decrypt_sealed, Open_Seal.
Qed.

Section invariant.
Context `{DbEnv, RandEnv, !FullReads} (k : Key).

Abbreviation kept := (keeps (system_ok k)).

Lemma encryption_sealed e : encryption k e -> sealed_text k e.
Proof.
  intros (p & w & He). destruct (Encrypt_cases k p w) as [[_ Hc]|[[e' Hc]|(nonce & Hs & Hr & Hc)]];
    rewrite Hc in He; try done; injection He as <-; [by left|right].
  apply rand_full in Hr. by exists nonce, p.
Qed.

Lemma row_of_sealed d id now :
  Forall (encryption k) [Community d; V3AuthKey d; V3PrivKey d] ->
  row_sealed k (DeviceStore.row_of (stored d) id now).
Proof.
  rewrite !Forall_cons. intros (Hc & Ha & Hp & _) c Hs.
  assert (He : Community (stored d) = Community d /\ V3AuthKey (stored d) = V3AuthKey d /\
    V3PrivKey (stored d) = V3PrivKey d) by (unfold stored; by destruct (String.eqb _ _)).
  destruct He as (Ec & Ea & Ep).
  destruct c; try discriminate Hs; (eexists; split; [reflexivity|]); rewrite ?Ec, ?Ea, ?Ep;
    by apply encryption_sealed.
Qed.

Lemma insert_kept d w :
  Forall (encryption k) [Community d; V3AuthKey d; V3PrivKey d] ->
  kept w (DeviceStore.insert_device (stored d) w).2.
Proof.
  intros Hd Hok. pose proof (insert_keeps (stored d) w (sy_devices _ _ Hok)) as Hdb.
  destruct Hok as [_ Hr Hs Ht]. revert Hdb. unfold DeviceStore.insert_device.
  repeat case_match; try by (intros; split). intros Hdb. split; try done; [|by destruct Hs; split].
  cbn. apply Forall_app. split; [done|]. rewrite Forall_singleton. by apply row_of_sealed.
Qed.

(** ** Updates *)

Lemma bound_from u sets vals c v :
  DeviceStore.set_clause u = Ok sets -> DeviceStore.bind_all sets = Ok vals -> (c, v) ∈ vals ->
  exists x, (column_name c, x) ∈ u /\ bind_arg x = Ok v.
Proof.
  intros Hs Hb Hin. unfold DeviceStore.bind_all in Hb. apply result_map_Ok in Hb.
  apply list_elem_of_lookup in Hin as [i Hi].
  destruct (Forall2_lookup_r _ _ _ _ _ Hb Hi) as ([c' x] & Hx & Hc).
  destruct (bind_arg x) as [b|] eqn:Hbx; [|done]. injection Hc as -> ->.
  exists x. split; [|done]. apply list_elem_of_lookup_2 in Hx. clear -Hs Hx.
  pose proof (set_clause_spec u) as Hspec. destruct (forallb _ u); [|destruct Hspec; congruence].
  rewrite Hspec in Hs. injection Hs as <-. unfold clause in Hx.
  apply list_elem_of_omap in Hx as ([n y] & Hin & Hn). destruct (column_of n) as [c'|] eqn:Hc; [|done].
  apply column_of_Some in Hc. cbn in Hn. injection Hn as -> ->. by subst n.
Qed.

Lemma secret_name c : column_name c ∈ secret_keys <-> secret_column c = true.
Proof.
  split; [|destruct c; try done; intros _; by apply (bool_decide_unpack _)].
  destruct c; try done; intros Hin; by pose proof (bool_decide_eq_true_2 _ Hin).
Qed.

Lemma plain_not_secret c : c ∈ secret_keys -> c ∉ plain_keys.
Proof. revert c. apply Forall_forall. by apply (bool_decide_unpack _). Qed.

Lemma assign_sealed vals r :
  (forall c v, (c, v) ∈ vals -> secret_column c = true -> exists e, v = VText e /\ sealed_text k e) ->
  row_sealed k r -> row_sealed k (DeviceStore.assign vals r).
Proof.
  unfold DeviceStore.assign. revert r. induction vals as [|[c v] vals IH]; intros r Hv Hr; [done|].
  cbn [foldl]. apply IH; [intros c' v' Hin; apply Hv; by right|].
  intros c' Hc'. rewrite get_set_col. case_decide as Heq; [|by apply Hr]. subst c'.
  destruct (Hv c v ltac:(by left) Hc') as (e & -> & He). exists e. split; [|done].
  apply secret_affinity. by apply secret_name.
Qed.

Lemma update_kept V id u sets vals w : Forall (harmless V k) u ->
  DeviceStore.set_clause u = Ok sets -> DeviceStore.bind_all sets = Ok vals ->
  kept w (DeviceStore.update_device id vals w).2.
Proof.
  intros Hu Hs Hb Hok. pose proof (update_keeps id vals w (sy_devices _ _ Hok)) as Hdb.
  destruct Hok as [_ Hr Hset Ht]. revert Hdb. unfold DeviceStore.update_device. cbv zeta.
  case_match; [|by intros; split]. intros Hdb. split; try done; [|by destruct Hset; split].
  cbn. apply Forall_map. eapply Forall_impl; [exact Hr|]. intros r Hsealed. cbn.
  destruct (r_id r =? id); [|done]. intros c Hc. change (get_col c (set_updated _ ?x)) with (get_col c x).
  refine (assign_sealed vals r _ Hsealed c Hc). intros c' v Hin Hsec.
  destruct (bound_from _ _ _ _ _ Hs Hb Hin) as (x & Hx & Hbx).
  rewrite Forall_forall in Hu. destruct (Hu _ Hx) as [[Hpl _]|(_ & e & Heq & He)].
  - by apply secret_name in Hsec as Hk%plain_not_secret.
  - cbn in Heq. subst x. injection Hbx as <-. exists e. split; [done|]. by apply encryption_sealed.
Qed.

Lemma delete_kept id w : kept w (DeviceStore.delete_device id w).2.
Proof.
  intros Hok. pose proof (delete_keeps id w (sy_devices _ _ Hok)) as Hdb.
  destruct Hok as [_ Hr Hset Ht]. split; [done| |by destruct Hset; split|done].
  cbn. by apply Forall_filter.
Qed.

(** ** Settings and traps *)

Lemma settings_kept kk v w :
  settings_ok (set_settings (<[kk := v]> (w_settings w)) w) -> system_ok k w ->
  system_ok k (set_settings (<[kk := v]> (w_settings w)) w).
Proof. intros Hs []. by split. Qed.

Lemma schema_kept s w : s ∈ configSchema -> kept w (s w).
Proof.
  intros Hs Hok. assert (s w = w) as ->; [|done].
  destruct Hok as [_ _ [(n & _ & Hp) (v & Hv & _)] _].
  unfold pollingIntervalKey in Hp. unfold credentialDuplicationKey in Hv. unfold configSchema in Hs.
  repeat (apply elem_of_cons in Hs as [->|Hs];
    [first [done|unfold insert_default, insert_or_ignore; rewrite ?Hp, ?Hv; by destruct w]|]).
  by apply not_elem_of_nil in Hs.
Qed.

(** Adding a column keeps the rows and the columns there are. *)
Lemma alter_kept col w : kept w (alter_add col w).2.
Proof.
  unfold alter_add. cbv zeta. destruct (existsb _ _); [done|].
  intros [Hd Hr [Hp Hc] [T1 T2 T3 [T4 T5]]]. split; try done. split; try done. cbn.
  rewrite !elem_of_app. tauto.
Qed.

Lemma trap_kept t w : kept w (TrapStore.insert_trap t w).2.
Proof.
  intros Hok. unfold TrapStore.insert_trap. cbv zeta.
  destruct (Z.ltb_spec max_int64 (trap_seq (w_traps w) + 1)); [done|].
  destruct Hok as [Hd Hr [Hp Hc] [T1 T2 T3 [T4 T5]]]. split; try done. split; cbn; rewrite ?map_app.
  - apply sorted_snoc; [done|]. eapply Forall_impl; [exact T2|]. cbn. lia.
  - apply Forall_app_2; [eapply Forall_impl; [exact T2|]; cbn; lia|]. repeat constructor; cbn; lia.
  - lia.
  - done.
Qed.

Lemma system_ok_permits V : permits V k kept.
Proof.
  split.
  - intros d w. apply insert_kept.
  - apply update_kept.
  - apply delete_kept.
  - intros n w Hn Hok. apply settings_kept; [|done].
    destruct (sy_settings _ _ Hok) as [_ (v & Hv & Hc)].
    split; cbn; [exists n; split; [done|apply lookup_insert_eq]|exists v]. by rewrite lookup_insert_ne.
  - intros b w Hok. apply settings_kept; [|done].
    destruct (sy_settings _ _ Hok) as [(n & Hn & Hp') _].
    split; cbn; [exists n; by rewrite lookup_insert_ne|].
    exists (if b then "1" else "0")%string. split; [apply lookup_insert_eq|]. destruct b; auto.
  - apply schema_kept.
  - apply trap_kept.
  - apply alter_kept.
Qed.
End invariant.

(** * What an id means

    An id is given to one device, with one address and one time of creation; after that no
    program can give it to another, nor, once its row is deleted, bring it back. *)

Definition same_device (r r' : device_row) : Prop :=
  r_id r' = r_id r /\ r_ip_address r' = r_ip_address r /\ r_created_at r' = r_created_at r.

Definition lasting (w w' : world) : Prop :=
  db_ok w -> db_ok w' /\ seq (w_devices w) <= seq (w_devices w') /\
    forall r', r' ∈ rows (w_devices w') -> r_id r' <= seq (w_devices w) ->
      exists r, r ∈ rows (w_devices w) /\ same_device r r'.

#[export] Instance lasting_preorder : PreOrder lasting.
Proof.
  split.
  - intros w Hok. split_and!; [done|lia|]. intros r Hr _. by exists r.
  - intros w1 w2 w3 H12 H23 Hok. destruct (H12 Hok) as (Hok2 & Hs12 & Hr12).
    destruct (H23 Hok2) as (Hok3 & Hs23 & Hr23). split_and!; [done|lia|].
    intros r3 Hr3 Hle. destruct (Hr23 r3 Hr3) as (r2 & Hr2 & (Hi & Hp & Hc)); [lia|].
    destruct (Hr12 r2 Hr2) as (r1 & Hr1 & (Hi' & Hp' & Hc')); [congruence|].
    exists r1. split; [done|]. split_and!; congruence.
Qed.

(** What leaves the devices alone, or only takes some away. *)
Lemma lasting_sub w w' :
  seq (w_devices w') = seq (w_devices w) -> (db_ok w -> db_ok w') ->
  (forall r, r ∈ rows (w_devices w') -> r ∈ rows (w_devices w)) -> lasting w w'.
Proof.
  intros Hs Hk Hr Hok. split_and!; [auto|lia|]. intros r Hin _. exists r. split; [auto|done].
Qed.

#[export] Instance lasting_ticks : Ticks lasting.
Proof. intros w. by apply lasting_sub. Qed.
#[export] Instance lasting_conf : IgnoresConf lasting.
Proof. intros c w. by apply lasting_sub. Qed.
#[export] Instance lasting_allow P : AllowsEvents P lasting.
Proof. intros e w _. by apply lasting_sub. Qed.

Section lasting.
Context `{DbEnv, RandEnv} (k : Key).

Lemma insert_lasting d w : lasting w (DeviceStore.insert_device d w).2.
Proof.
  intros Hok. pose proof (insert_keeps d w Hok) as Hok'. split; [done|]. revert Hok'.
  unfold DeviceStore.insert_device.
  repeat case_match; cbn [snd]; intros Hok'; try (split; [lia|]; intros r Hr _; by exists r).
  cbn. split; [lia|]. intros r [Hr| ->%list_elem_of_singleton]%elem_of_app Hle; [by exists r|].
  cbn in Hle. lia.
Qed.

Lemma update_lasting id vals w : lasting w (DeviceStore.update_device id vals w).2.
Proof.
  intros Hok. pose proof (update_keeps id vals w Hok) as Hok'. split; [done|]. revert Hok'.
  unfold DeviceStore.update_device. cbv zeta. case_match; cbn [snd]; intros _.
  2:{ split; [lia|]. intros r Hr _. by exists r. }
  cbn. split; [lia|]. intros r' Hr' _. unfold DeviceStore.update_rows in Hr'.
  apply list_elem_of_In, in_map_iff in Hr' as (r & <- & Hr). apply list_elem_of_In in Hr.
  exists r. split; [done|]. destruct (r_id r =? id); [|done].
  split_and!; [apply assign_id|apply assign_ip|apply assign_created].
Qed.

Lemma delete_lasting id w : lasting w (DeviceStore.delete_device id w).2.
Proof.
  apply lasting_sub; [done|by apply delete_keeps|]. intros r Hr. cbn in Hr.
  apply list_elem_of_In, filter_In in Hr as [Hr _]. by apply list_elem_of_In.
Qed.

Lemma lasting_permits V : permits V k lasting.
Proof.
  split; intros; try by apply lasting_sub.
  - apply insert_lasting.
  - apply update_lasting.
  - apply delete_lasting.
  - match goal with Hs : _ ∈ configSchema |- _ => destruct (configSchema_settings _ w Hs) as [m ->] end.
    by apply lasting_sub.
  - unfold TrapStore.insert_trap. cbv zeta. destruct (_ <? _); [reflexivity|by apply lasting_sub].
  - unfold alter_add. cbv zeta. destruct (existsb _ _); [reflexivity|by apply lasting_sub].
Qed.
End lasting.

(** * What the columns hold

    The schema gives the columns types that SQLite does not enforce: a column of text may hold
    NULL, which the store cannot read back.  A row is typed when it holds what the schema means:
    text, and for [is_public_ip] a truth value.  All that can break it is a PATCH that sends a
    JSON null. *)

Definition column_typed (c : column) (v : sqlval) : Prop :=
  match c with
  | c_is_public_ip => exists b, v = b2v b
  | _ => exists s, v = VText s
  end.

Definition row_typed (r : device_row) : Prop := forall c, column_typed c (get_col c r).

Definition rows_typed (w : world) : Prop := Forall row_typed (rows (w_devices w)).

(** What becomes text in a column of text, if it can be bound at all. *)
Definition storable (v : any) : Prop :=
  match v with ANil | ABytes _ => False | _ => True end.

(** A body with no null for a plain column. *)
Definition null_free (body : string) : bool :=
  match (j <-? parse_first body;; decode_map j) with
  | Ok req => forallb (fun k => match map_get req k with Some ANil => false | _ => true end) plain_keys
  | Err _ => true
  end.

(** No PATCH sends one. *)
Definition no_nulls (a : action) : Prop :=
  match a with
  | ApiRequest _ _ r => rq_method r = "PATCH" -> null_free (rq_body r) = true
  | _ => True
  end.

Lemma any_of_json_no_bytes j b : any_of_json j <> Ok (ABytes b).
Proof.
  destruct j as [| |lit| |l|l]; cbn; try done.
  - by destruct (lit_float lit).
  - by destruct (result_map _ l).
  - by destruct (result_map _ l).
Qed.

Lemma decode_map_no_bytes j req k b : decode_map j = Ok req -> map_get req k <> Some (ABytes b).
Proof.
  destruct j as [| | | | |l]; cbn; try done; [by intros [= <-]|].
  destruct (result_map _ l) as [m|] eqn:Hm; [|done]. cbn. intros [= <-]. apply result_map_Ok in Hm.
  induction Hm as [|[k' v] y l m Hv _ IH]; cbn; [done|].
  destruct (any_of_json v) as [a|] eqn:Ha; [|done]. cbn in Hv. injection Hv as <-.
  destruct (map_get m k); [done|]. destruct (String.eqb k' k); [|done]. intros [= ->].
  by eapply any_of_json_no_bytes.
Qed.

Lemma null_free_storable body : null_free body = true -> patch_values storable plain_keys body.
Proof.
  unfold null_free. intros Hn req k v Hreq Hk Hv. rewrite Hreq in Hn.
  rewrite forallb_forall in Hn. apply list_elem_of_In in Hk. specialize (Hn k Hk). rewrite Hv in Hn.
  destruct v; try done. destruct (parse_first body) as [j|]; [|done].
  by eapply decode_map_no_bytes.
Qed.

Lemma no_nulls_carries a : no_nulls a -> carries storable a.
Proof. destruct a; try done. cbn. intros Hn Hm. by apply null_free_storable, Hn. Qed.

Section typed.
Context `{DbEnv, RandEnv} (k : Key).

Abbreviation kept := (keeps rows_typed).

Lemma row_of_typed d id now : row_typed (DeviceStore.row_of d id now).
Proof. intros []; cbn; by eexists. Qed.

(** A value that a service binds is text once it is in the column. *)
Lemma stored_typed c x v : column_name c ∈ plain_keys \/ column_name c ∈ secret_keys ->
  storable x -> bind_arg x = Ok v -> column_typed c (affinity c v).
Proof.
  intros Hc Hx Hv. destruct (decide (c = c_is_public_ip)) as [->|Hne].
  { assert (Hno : ("is_public_ip" ∉ plain_keys) /\ ("is_public_ip" ∉ secret_keys))
      by (split; by apply (bool_decide_unpack _)). by destruct Hno, Hc. }
  destruct x; try done; injection Hv as <-; destruct c; try done; cbn; by eexists.
Qed.

Lemma assign_typed vals r : (forall c v, (c, v) ∈ vals -> column_typed c (affinity c v)) ->
  row_typed r -> row_typed (DeviceStore.assign vals r).
Proof.
  unfold DeviceStore.assign. revert r. induction vals as [|[c v] vals IH]; intros r Hv Hr; [done|].
  cbn [foldl]. apply IH; [intros c' v' Hin; apply Hv; by right|].
  intros c'. rewrite get_set_col. case_decide as Heq; [subst; apply Hv; by left|apply Hr].
Qed.

Lemma update_typed id u sets vals w : Forall (harmless storable k) u ->
  DeviceStore.set_clause u = Ok sets -> DeviceStore.bind_all sets = Ok vals ->
  kept w (DeviceStore.update_device id vals w).2.
Proof.
  intros Hu Hs Hb Hr. unfold DeviceStore.update_device. cbv zeta. case_match; [|done].
  unfold rows_typed. cbn. unfold DeviceStore.update_rows. apply Forall_map.
  eapply Forall_impl; [exact Hr|]. intros r Ht. cbn. destruct (r_id r =? id); [|done].
  intros c. change (get_col c (set_updated _ ?x)) with (get_col c x). revert c.
  apply assign_typed; [|exact Ht]. intros c v Hin.
  destruct (bound_from _ _ _ _ _ Hs Hb Hin) as (x & Hx & Hbx).
  rewrite Forall_forall in Hu. destruct (Hu _ Hx) as [[Hp Hv]|(Hsec & e & Heq & _)].
  - eapply stored_typed; eauto.
  - cbn in Hsec, Heq. subst x. eapply stored_typed; [by right| |exact Hbx]. exact I.
Qed.

Lemma typed_permits : permits storable k kept.
Proof.
  split; try (intros; intros Hr; exact Hr).
  - intros d w _ Hr. unfold DeviceStore.insert_device. repeat case_match; try done.
    unfold rows_typed. cbn. apply Forall_app_2; [exact Hr|]. rewrite Forall_singleton. apply row_of_typed.
  - apply update_typed.
  - intros id w Hr. unfold rows_typed. cbn. by apply Forall_filter.
  - intros s w [m ->]%(configSchema_settings s w) Hr. exact Hr.
  - intros t w. unfold TrapStore.insert_trap. cbv zeta. destruct (_ <? _); intros Hr; exact Hr.
  - intros col w. unfold alter_add. cbv zeta. destruct (existsb _ _); intros Hr; exact Hr.
Qed.
End typed.

#[export] Instance rows_typed_ticks : Ticks (keeps rows_typed).
Proof. intros w Hr. exact Hr. Qed.
#[export] Instance rows_typed_conf : IgnoresConf (keeps rows_typed).
Proof. intros c w Hr. exact Hr. Qed.
#[export] Instance rows_typed_allow P : AllowsEvents P (keeps rows_typed).
Proof. intros e w _ Hr. exact Hr. Qed.

(** A typed row can be read, and what its constraints say of it holds of what is read. *)
Lemma typed_row_scans r : row_typed r -> check_row r = true ->
  exists d, scanDevice r = Ok d /\ Status d ∈ ["pending"; "active"; "failed"]%string /\
    SNMPVersion d ∈ ["v1"; "v2c"; "v3"; ""]%string.
Proof.
  intros Ht [Hv Hs]%andb_true_iff. unfold scanDevice, scan_text, scan_bool.
  pose proof (Ht c_is_public_ip) as [b Hb]. cbn in Hb. cbn [get_col] in *.
  pose proof (fun c => Ht c) as Hc.
  destruct (Hc c_hostname) as [? E1], (Hc c_snmp_version) as [? E2], (Hc c_community) as [? E3],
    (Hc c_v3_user) as [? E4], (Hc c_v3_auth_key) as [? E5], (Hc c_v3_priv_key) as [? E6],
    (Hc c_v3_auth_protocol) as [? E7], (Hc c_v3_priv_protocol) as [? E8], (Hc c_group_name) as [? E9],
    (Hc c_status) as [? E10], (Hc c_discovered_via) as [? E11].
  cbn [get_col] in *. rewrite E1, E2, E3, E4, E5, E6, E7, E8, E9, E10, E11, Hb. cbn.
  eexists. split; [reflexivity|]. cbn. rewrite E2 in Hv. rewrite E10 in Hs.
  unfold check_version, check_status, in_texts in Hv, Hs.
  apply existsb_exists in Hv as (ver & Hx & ->%String.eqb_eq), Hs as (sta & Hy & ->%String.eqb_eq).
  split; by apply list_elem_of_In.
Qed.
