(* ===== verification/SystemFacts.v ===== *)
(** Every state the deployment can get into satisfies the invariant, however its requests and
    jobs interleave, and what that gives: the credentials at rest can always be read by the
    services that need them, an id names one device for ever, and a device posted to config-api
    ends up in the configuration Telegraf polls from. *)

From Stdlib Require Import Sorting.Sorted Permutation.
From S2P Require Import Prelude Float64 Encoding Json World Store StoreFacts StoreSpec Gcm Crypto.
From S2P Require Import Netutil Snmp TrapReceiver ConfigApi ConfigApiFacts ConfigSettings ConfigTraps.
From S2P Require Import Watcher WatcherFacts Telegraf TelegrafFacts Mux Clock Text RateLimit ChatSql.
From S2P Require Import ChatClients ChatTools ChatToolsFacts ChatToolDefs Gemini.
From S2P Require Import ChatHandler ChatHandlerFacts.
From S2P Require Import Services ServicesFacts Interleaving System SystemInvariant.
Open Scope Z_scope.

(** * The invariant holds in every state *)

Section always.
Context `{DbEnv, SnmpEnv, RandEnv, HostEnv, TypeNames, HttpEnv, ClockEnv, CaseTables, !FullReads}.
Context (k : Key) (cfg : watcherConfig) (tmpl_file : result string).

(** Opening blank volumes, up to the columns the traps table gets last. *)
Lemma open_blank w0 w1 w2 :
  blank w0 -> OpenConfigDB w0 = (Ok tt, w1) -> OpenTrapsDB true w1 = (Ok tt, w2) ->
  exists w3, w_devices w3 = {| rows := []; seq := 0 |} /\ settings_ok w3 /\ traps_ok (w_traps w3) /\
    w2 = (migrate ["community"; "agent_address"] w3).2.
Proof.
  intros (Hd & Hs & Ht) Ho1 Ho2.
  assert (Hset : settings_ok w1) by (eapply open_settings_ok; [by left|exact Ho1]).
  assert (Hdev : w_devices w1 = {| rows := []; seq := 0 |}).
  { apply OpenConfigDB_Ok in Ho1 as (_ & -> & _). exact Hd. }
  unfold OpenTrapsDB in Ho2. apply bind_inv in Ho2 as ([u|e] & w3 & Ho3 & Ho2); [|done].
  exists w3. rewrite Ho2. rewrite stmt_run in Ho3. destruct (db_fault _); [done|]. injection Ho3 as _ <-.
  split; [exact Hdev|]. split; [by destruct Hset as [Hp Hc]; split|]. split; [|done].
  split; cbn; [constructor|constructor|unfold max_int64; lia|set_solver].
Qed.

Lemma start_ok w0 w1 w2 :
  blank w0 -> OpenConfigDB w0 = (Ok tt, w1) -> OpenTrapsDB true w1 = (Ok tt, w2) -> system_ok k w2.
Proof.
  intros Hb Ho1 Ho2. destruct (open_blank _ _ _ Hb Ho1 Ho2) as (w3 & Hd & Hs & Ht & ->).
  apply (steps_run (keeps (system_ok k)) _ w3 (may_migrate k _ (fun _ => True) (system_ok_permits k _) _)).
  split; try done; [unfold db_ok; rewrite Hd; apply empty_table_ok|by rewrite Hd].
Qed.

Lemma start_typed w0 w1 w2 :
  blank w0 -> OpenConfigDB w0 = (Ok tt, w1) -> OpenTrapsDB true w1 = (Ok tt, w2) -> rows_typed w2.
Proof.
  intros Hb Ho1 Ho2. destruct (open_blank _ _ _ Hb Ho1 Ho2) as (w3 & Hd & _ & _ & ->).
  apply (steps_run (keeps rows_typed) _ w3 (may_migrate k _ storable (typed_permits k) _)).
  unfold rows_typed. by rewrite Hd.
Qed.

Lemma interleaved_ok p : interleaved k cfg tmpl_file p -> system_ok k (p_world p).
Proof.
  induction 1 as [w0 w1 w2 Hb Ho Ht|p p' Hp IH Hs]; [by eapply start_ok|].
  eapply (runs_permitted k cfg tmpl_file (keeps (system_ok k)) (system_ok_permits k _));
    [exact Hp|by apply rtc_once|exact IH].
Qed.
End always.

(** * What the invariant gives *)

Section consequences.
Context `{DbEnv, SnmpEnv, RandEnv, HostEnv, TypeNames, HttpEnv, ClockEnv, CaseTables, !FullReads}.
Context (key : Key) (cfg : watcherConfig).

Lemma scanned_sealed r c i s :
  row_sealed key r -> secret_column c = true -> scan_text i c r = Ok s -> sealed_text key s.
Proof.
  intros Hr Hc Hs. destruct (Hr c Hc) as (e & He & Hsealed). unfold scan_text in Hs. rewrite He in Hs.
  by injection Hs as <-.
Qed.

(** A row that can be read has credentials that can be decrypted. *)
Lemma sealed_row_decrypts r d : key_ok key -> row_sealed key r -> scanDevice r = Ok d ->
  exists c, decryptCredentials d key = Ok c.
Proof.
  intros Hk Hr Hd. unfold scanDevice in Hd.
  destruct (scan_text 2 c_hostname r) as [?|]; [|done]. cbn in Hd.
  destruct (scan_text 3 c_snmp_version r) as [?|]; [|done]. cbn in Hd.
  destruct (scan_text 4 c_community r) as [co|] eqn:Hco; [|done]. cbn in Hd.
  destruct (scan_text 5 c_v3_user r) as [?|]; [|done]. cbn in Hd.
  destruct (scan_text 6 c_v3_auth_key r) as [au|] eqn:Hau; [|done]. cbn in Hd.
  destruct (scan_text 7 c_v3_priv_key r) as [pr|] eqn:Hpr; [|done]. cbn in Hd.
  assert (Hs : Community d = co /\ V3AuthKey d = au /\ V3PrivKey d = pr).
  { repeat (match type of Hd with context [result_bind ?x _] => destruct x; [|done] end; cbn in Hd).
    by injection Hd as <-. }
  destruct Hs as (<- & <- & <-). unfold decryptCredentials.
  destruct (sealed_decrypts key _ Hk (scanned_sealed r c_community _ _ Hr eq_refl Hco)) as [x ->]. cbn.
  destruct (sealed_decrypts key _ Hk (scanned_sealed r c_v3_auth_key _ _ Hr eq_refl Hau)) as [y ->]. cbn.
  destruct (sealed_decrypts key _ Hk (scanned_sealed r c_v3_priv_key _ _ Hr eq_refl Hpr)) as [z ->]. cbn. by eexists.
Qed.

Lemma sealed_rows_decrypt rs ds : key_ok key -> Forall (row_sealed key) rs ->
  DeviceStore.scan_all rs = Ok ds ->
  exists cs, Forall2 (fun d c => decryptCredentials d key = Ok c) ds cs.
Proof.
  intros Hk Hr Hs. unfold DeviceStore.scan_all in Hs. destruct (result_map scanDevice rs) as [l|] eqn:Hm; [|done].
  injection Hs as <-. apply result_map_Ok in Hm. induction Hm as [|r d rs ds Hd _ IH]; [by exists []|].
  apply Forall_cons in Hr as [Hr Hrs]. destruct (IH Hrs) as [cs Hcs].
  destruct (sealed_row_decrypts r d Hk Hr Hd) as [c Hc]. exists (c :: cs). by constructor.
Qed.

(** The configuration asked for exists as soon as the active rows can be read. *)
Lemma desired_exists w ds : key_ok key -> system_ok key w ->
  DeviceStore.scan_all (List.filter (fun r => DeviceStore.text_is "active" (r_status r))
    (rows (w_devices w))) = Ok ds ->
  exists out, desired key cfg (Ok telegraf_conf_tmpl) w = Some out.
Proof.
  intros Hk Hok Hs. destruct (sy_settings _ _ Hok) as [(n & Hn & Hp) _].
  assert (Hr : Forall (row_sealed key) (List.filter (fun r => DeviceStore.text_is "active" (r_status r))
    (rows (w_devices w)))) by apply Forall_filter, sy_sealed, Hok.
  destruct (sealed_rows_decrypt _ _ Hk Hr Hs) as [cs Hcs].
  unfold desired. change "polling_interval_seconds"%string with pollingIntervalKey.
  rewrite Hp, Atoi_Itoa, Hs by (by apply allowed_range).
  destruct (renderTelegrafConfig _ _ _ _ _ _ _ _) as [out|e] eqn:Hrd; [by exists out|]. exfalso.
  assert (Hout : forall out, renderTelegrafConfig (templatePath cfg) (Ok telegraf_conf_tmpl) n (influxURL cfg)
    (influxToken cfg) (influxDatabase cfg) ds key <> Ok out) by (intros out Ho; congruence).
  eapply Hout, render_shipped. exists cs. split; [exact Hcs|reflexivity].
Qed.

(** C39.  Credentials are encrypted at rest, always, and always readable.  In every state the
    four services can get into from blank volumes, whatever requests, traps, ticks and chats
    came in, however their statements interleaved, whatever failed and wherever a process was
    killed, the devices table satisfies its invariant (so no two devices share an address or
    an id), the settings and trap ids theirs, and every community, authentication key and
    privacy key stored is empty or an AES-GCM box under the deployment's key.  So the jobs that
    need the credentials of a device that can be read get them, and the Telegraf configuration
    can be rendered whenever the active devices can be read. *)
Theorem credentials_sealed_always (hexKey : string) (tmpl_file : result string) (p : pool) :
  NewKey hexKey = Ok key -> interleaved key cfg tmpl_file p ->
  let w := p_world p in
  system_ok key w /\
  (forall r d, r ∈ rows (w_devices w) -> scanDevice r = Ok d ->
     exists creds, decryptCredentials d key = Ok creds) /\
  (forall ds, DeviceStore.scan_all (List.filter (fun r => DeviceStore.text_is "active" (r_status r))
       (rows (w_devices w))) = Ok ds ->
     exists out, desired key cfg (Ok telegraf_conf_tmpl) w = Some out).
Proof.
  intros Hk%NewKey_ok Hw%interleaved_ok. cbv zeta. split; [done|]. split.
  - intros r d Hr. apply sealed_row_decrypts; [done|]. pose proof (sy_sealed _ _ Hw) as Hs.
    rewrite Forall_forall in Hs. by apply Hs.
  - intros ds. by apply desired_exists.
Qed.

(** The rows of a table that are all typed, as the devices they are read as. *)
Lemma typed_rows_scan rs : Forall row_typed rs -> Forall (fun r => check_row r = true) rs ->
  exists ds, Forall2 (fun r d => scanDevice r = Ok d /\ Status d ∈ ["pending"; "active"; "failed"] /\
    SNMPVersion d ∈ ["v1"; "v2c"; "v3"; ""]) rs ds.
Proof.
  induction 1 as [|r rs Hr _ IH]; intros Hc; [by exists []|]. apply Forall_cons in Hc as [Hc Hcs].
  destruct (IH Hcs) as [ds Hds]. destruct (typed_row_scans r Hr Hc) as (d & Hd). exists (d :: ds). by constructor.
Qed.

Lemma list_answers w ds : db_fault (w_tick w) = None ->
  Forall2 (fun r d => scanDevice r = Ok d) (rows (w_devices w)) ds ->
  (DeviceApi.List w).1 = writeJSON 200 (JArr (map toDeviceResponse ds)).
Proof.
  intros Hf Hds%result_map_Ok. unfold DeviceApi.List, DeviceStore.List, DeviceStore.select_rows, DeviceStore.scan_all.
  rewrite !bind_eq, stmt_run, Hf. cbn. by rewrite filter_all, Hds.
Qed.

(** C4.  The table of devices keeps its types.  In every state the services get into from blank
    volumes, however their statements interleave and whatever fails, as long as no PATCH carries
    a JSON null for a column it stores as it is, every column holds what the schema says: text,
    one of the three statuses, one of the four versions, a truth value.  So every row can be
    read, and [GET /devices] answers 200 with all of them unless its own statement fails. *)
Theorem devices_stay_readable (tmpl_file : result string) (w0 w1 w2 : world) (p : pool) :
  blank w0 -> OpenConfigDB w0 = (Ok tt, w1) -> OpenTrapsDB true w1 = (Ok tt, w2) ->
  pool_runs (begins_where key cfg tmpl_file no_nulls) (Pool w2 []) p ->
  let w := p_world p in
  Forall row_typed (rows (w_devices w)) /\
  exists ds,
    Forall2 (fun r d => scanDevice r = Ok d /\ Status d ∈ ["pending"; "active"; "failed"] /\
      SNMPVersion d ∈ ["v1"; "v2c"; "v3"; ""]) (rows (w_devices w)) ds /\
    (db_fault (w_tick w) = None ->
      (DeviceApi.List w).1 = writeJSON 200 (JArr (map toDeviceResponse ds))).
Proof.
  intros Hb Ho Ht Hr. cbv zeta.
  assert (Hp : interleaved key cfg tmpl_file p).
  { eapply interleaved_runs; [by eapply inter_start|]. by eapply runs_where. }
  pose proof (runs_carrying key cfg tmpl_file (keeps rows_typed) storable (fun s => I) (typed_permits key)
    no_nulls w2 p no_nulls_carries Hr) as Hkept.
  specialize (Hkept (start_typed key _ _ _ Hb Ho Ht)). split; [exact Hkept|].
  pose proof (ok_checks _ (sy_devices _ _ (interleaved_ok _ _ _ _ Hp))) as Hchk.
  destruct (typed_rows_scan _ Hkept Hchk) as [ds Hds]. exists ds. split; [exact Hds|].
  intros Hf. apply list_answers; [done|]. eapply Forall2_impl; [exact Hds|]. by intros r d [].
Qed.

(** C10.  An id names one device for ever.  From any state of the deployment, through any
    interleaving of its requests and jobs, those under way included: a row whose id had been
    given out is the row that had it, with the same address and time of creation; so what was
    deleted stays deleted, even if a job that listed the device before its deletion writes to
    it afterwards, and reading it answers [ErrNotFound]. *)
Theorem id_names_one_device (tmpl_file : result string) (p p' : pool) :
  interleaved key cfg tmpl_file p -> pool_runs (begins key cfg tmpl_file) p p' ->
  let w := p_world p in let w' := p_world p' in
  (forall r', r' ∈ rows (w_devices w') -> r_id r' <= seq (w_devices w) ->
     exists r, (r ∈ rows (w_devices w)) /\ same_device r r') /\
  (forall id, id <= seq (w_devices w) -> id ∉ map r_id (rows (w_devices w)) ->
     (id ∉ map r_id (rows (w_devices w'))) /\
     (db_fault (w_tick w') = None -> (DeviceStore.Get id w').1 = Err ErrNotFound)).
Proof.
  intros Hp Hr. cbv zeta. pose proof (sy_devices _ _ (interleaved_ok _ _ _ _ Hp)) as Hok.
  destruct (runs_permitted key cfg tmpl_file lasting (lasting_permits key _) _ _ Hp Hr Hok) as (_ & _ & Hl).
  split; [exact Hl|]. intros id Hle Hno.
  assert (Hno' : id ∉ map r_id (rows (w_devices (p_world p')))).
  { intros (r' & <- & Hin%list_elem_of_In)%list_elem_of_In%in_map_iff.
    destruct (Hl r' Hin Hle) as (r & Hr0 & (Hid & _)). apply Hno. rewrite Hid.
    apply list_elem_of_In, in_map, list_elem_of_In. done. }
  split; [done|]. intros Hf. unfold DeviceStore.Get, DeviceStore.query_row.
  rewrite bind_eq, stmt_run, Hf. cbn. by rewrite find_none_ids.
Qed.

(** ** From a POST to telegraf.conf *)

Lemma handle_post plain secret r w :
  rq_method r = "POST" -> rq_path r = "/devices" ->
  ConfigApiMain.handle (api_server key) plain secret r w =
    let '(resp, w') := DeviceApi.Create {| h_Key := key; h_ProbeTimeout := 0 |} (rq_body r) w in
    ((cors_headers ConfigApiMain.cors_methods, Answer resp), w').
Proof.
  intros Hm Hp. unfold ConfigApiMain.handle, withCORS, serve_mux. rewrite Hm, Hp.
  change (String.eqb "POST" "OPTIONS") with false. cbv iota.
  change (find_route ConfigApiMain.routes "POST" "/devices") with (Found ConfigApiMain.CreateDevice []).
  change (String.eqb (cleanPath "/devices") "/devices") with true. rewrite andb_false_r.
  unfold ConfigApiMain.dispatch. cbv beta iota zeta. rewrite !bind_eq.
  by destruct (DeviceApi.Create _ _ w) as [resp w'].
Qed.

Lemma created_credentials h q st id d : h_Key h = key ->
  created_from h q st id d -> decryptCredentials d key = Ok (request_creds q).
Proof.
  intros <- (_ & _ & _ & Hv & Hu & Hap & Hpp & _ & Hc & Ha & Hp & _). unfold decryptCredentials.
  by rewrite Hc, Ha, Hp, Hv, Hu, Hap, Hpp.
Qed.
(** The active devices after one row has been added. *)
Lemma active_after r d rs ds :
  DeviceStore.scan_all rs = Ok ds -> scanDevice r = Ok d -> r_status r = VText (Status d) ->
  exists before, forall rs', rs' = rs ++ [r] ->
    DeviceStore.scan_all (List.filter (fun r => DeviceStore.text_is "active" (r_status r)) rs') =
      Ok (before ++ if String.eqb (Status d) "active" then [d] else []) /\
    DeviceStore.scan_all (List.filter (fun r => DeviceStore.text_is "active" (r_status r)) rs) = Ok before.
Proof.
  intros Hs Hd Hst. unfold DeviceStore.scan_all in *.
  destruct (result_map scanDevice rs) as [l|] eqn:Hm; [|done]. apply result_map_Ok in Hm. clear Hs.
  assert (Hf : exists l', Forall2 (fun r d => scanDevice r = Ok d)
    (List.filter (fun r => DeviceStore.text_is "active" (r_status r)) rs) l').
  { clear -Hm. induction Hm as [|x y rs l Hx _ (l' & IH)]; [by exists []|]. cbn.
    destruct (DeviceStore.text_is _ _); [exists (y :: l'); by constructor|by exists l']. }
  destruct Hf as [before Hb]. exists before. intros rs' ->.
  assert (Hlast : Forall2 (fun r d => scanDevice r = Ok d)
    (List.filter (fun r => DeviceStore.text_is "active" (r_status r)) [r])
    (if String.eqb (Status d) "active" then [d] else [])).
  { cbn. rewrite Hst. cbn. rewrite String.eqb_sym. destruct (String.eqb _ _); by repeat constructor. }
  rewrite List.filter_app. split.
  - assert (Hall := List.Forall2_app Hb Hlast). apply result_map_Ok in Hall. by rewrite Hall.
  - by rewrite (proj2 (result_map_Ok _ _ _) Hb).
Qed.

Lemma settings_of_post plain secret r w :
  rq_path r = "/devices" ->
  w_settings (ConfigApiMain.handle (api_server key) plain secret r w).2 = w_settings w.
Proof.
  intros Hp.
  apply (run_steps (api_server key) plain secret r w (frames w_settings)). rewrite Hp.
  intros rt vals Hf Hw. apply steps_dispatch_devices; try apply _. clear -Hf Hw.
  apply find_route_method in Hf as (pat & Hin & _ & Hm).
  unfold ConfigApiMain.routes in Hin.
  repeat (apply elem_of_cons in Hin as [[= -> ->]|Hin];
    [first [reflexivity|discriminate Hw|vm_compute in Hm; discriminate Hm]|]).
  by apply not_elem_of_nil in Hin.
Qed.

Lemma regroup a b c d : a +:+ (b +:+ c) +:+ d = (a +:+ b) +:+ c +:+ d.
Proof. by rewrite !str_app_assoc. Qed.

(** What the configuration asks for after a device has been added. *)
Lemma desired_after w w1 r d ds c :
  key_ok key -> system_ok key w -> w_settings w1 = w_settings w ->
  rows (w_devices w1) = rows (w_devices w) ++ [r] ->
  DeviceStore.scan_all (rows (w_devices w)) = Ok ds -> scanDevice r = Ok d ->
  r_status r = VText (Status d) -> decryptCredentials d key = Ok c ->
  if String.eqb (Status d) "active"
  then exists before after,
    desired key cfg (Ok telegraf_conf_tmpl) w1 = Some (before +:+ device_section (shown d c) +:+ after)
  else desired key cfg (Ok telegraf_conf_tmpl) w1 = desired key cfg (Ok telegraf_conf_tmpl) w.
Proof.
  intros Hk Hok Hs Hrows Hds Hd Hst Hc.
  destruct (active_after r d _ ds Hds Hd Hst) as [before Hact].
  destruct (Hact _ Hrows) as [Hnew Hold]. destruct (String.eqb (Status d) "active").
  - destruct (sy_settings _ _ Hok) as [(n & Hn & Hp) _].
    assert (Hr : Forall (row_sealed key) (List.filter (fun r => DeviceStore.text_is "active" (r_status r))
      (rows (w_devices w)))) by apply Forall_filter, sy_sealed, Hok.
    destruct (sealed_rows_decrypt _ _ Hk Hr Hold) as [cs Hcs].
    assert (Hall : Forall2 (fun d c => decryptCredentials d key = Ok c) (before ++ [d]) (cs ++ [c])).
    { apply List.Forall2_app; [exact Hcs|]. by repeat constructor. }
    eexists _, nl. unfold desired. change "polling_interval_seconds"%string with pollingIntervalKey.
    rewrite Hs, Hp, Atoi_Itoa, Hnew by (by apply allowed_range).
    rewrite (proj2 (render_shipped _ _ _ _ _ _ _ _) (ex_intro _ _ (conj Hall eq_refl))).
    rewrite zip_with_app by (by eapply Forall2_length). cbn [zip_with].
    rewrite map_app, concat_str_app. cbn [map concat_str]. rewrite str_app_nil.
    exact (f_equal Some (regroup _ _ _ _)).
  - rewrite app_nil_r in Hnew. unfold desired. by rewrite Hs, Hnew, Hold.
Qed.

(** The probe of a device being posted in [w], once its credentials are encrypted: it has a
    version, and the agent at its address answers with the credentials of the request. *)
Definition answers_probe (q : deviceRequest) (w : world) : Prop :=
  q_version q <> "" /\
  is_ok (Verify (q_ip q) (request_creds q) defaultProbeTimeout
    (sealing {| h_Key := key; h_ProbeTimeout := 0 |} q w).2).1 = true.

Lemma first_status_active q w :
  first_status {| h_Key := key; h_ProbeTimeout := 0 |} q w = "active" <-> answers_probe q w.
Proof.
  unfold first_status, probe_outcome, answers_probe. cbn [cVersion request_creds].
  change (probeTimeout {| h_Key := key; h_ProbeTimeout := 0 |}) with defaultProbeTimeout.
  case_bool_decide as Hv; [by split; [|intros []]|].
  destruct (Verify _ _ _ _).1; cbn; [by split|]. split; [done|]. by intros [_ Hx].
Qed.

(** C40.  From a POST to Telegraf.  Take any state the deployment can get into in which all
    devices can be read, a [POST /devices] that config-api answers with 201, and then a
    reconcile of config-watcher, neither interrupted by the other processes and with nothing
    failing in the database or on disk.  If the device answered its probe, the configuration
    on disk now has a section for it, with the credentials in the clear that the request
    carried; if it did not, or has no version and was not probed, the configuration is the one
    the state before the request asked for. *)
Theorem posted_device_is_polled (hexKey : string) (plain secret : list string) (r : request)
    (p : pool) (w1 : world) (headers : list (string * string)) (resp : response) :
  let w := p_world p in
  NewKey hexKey = Ok key -> (forall t, db_fault t = None /\ read_fault t = None /\ write_fault t = None) ->
  interleaved key cfg (Ok telegraf_conf_tmpl) p ->
  is_ok (DeviceStore.scan_all (rows (w_devices w))) = true ->
  rq_method r = "POST" -> rq_path r = "/devices" ->
  ConfigApiMain.handle (api_server key) plain secret r w = ((headers, Answer resp), w1) ->
  status resp = 201 ->
  exists q d,
    (j <-? parse_first (rq_body r);; decode_deviceRequest j) = Ok q /\
    resp = writeJSON 201 (toDeviceResponse d) /\
    IPAddress d = q_ip q /\
    let w2 := (reconcileTelegrafConfig key cfg (Ok telegraf_conf_tmpl) w1).2 in
    (answers_probe q w -> exists before after,
      w_conf w2 = Some (before +:+ device_section (shown d (request_creds q)) +:+ after)) /\
    (~ answers_probe q w -> w_conf w2 = desired key cfg (Ok telegraf_conf_tmpl) w).
Proof.
  cbv zeta. set (w := p_world p). intros Hk%NewKey_ok Hf Hw%interleaved_ok Hread Hm Hp Hrun H201.
  change (system_ok key w) in Hw.
  pose proof (settings_of_post plain secret r w Hp) as Hset. rewrite Hrun in Hset. cbn [snd] in Hset.
  rewrite handle_post in Hrun by done.
  destruct (DeviceApi.Create _ _ w) as [resp' w'] eqn:Hc. injection Hrun as <- -> ->.
  destruct (create_run _ _ _ _ _ (Hk : key_ok (h_Key {| h_Key := key; h_ProbeTimeout := 0 |}))
    (sy_devices _ _ Hw) Hc) as [_ [[_ [Hno|Hno]]|Hcr]]; [congruence..|].
  destruct Hcr as (q & r0 & d & Hq & _ & Hdev & Hst & Hd & Hfrom & [->|[H500 _]]); [|congruence].
  exists q, d. do 2 (split; [done|]). split; [by destruct Hfrom as (_ & Hip & _)|]. cbn zeta.
  destruct (DeviceStore.scan_all (rows (w_devices w))) as [ds|] eqn:Hds; [|done].
  pose proof (desired_after w w1 r0 d ds (request_creds q) Hk Hw Hset) as Hafter.
  rewrite Hdev in Hafter. specialize (Hafter eq_refl Hds Hd Hst).
  specialize (Hafter (created_credentials {| h_Key := key; h_ProbeTimeout := 0 |} q _ _ d
    eq_refl Hfrom)).
  rewrite <- first_status_active.
  destruct Hfrom as (_ & _ & _ & _ & _ & _ & _ & _ & _ & _ & _ & _ & _ & <-).
  destruct (desired key cfg (Ok telegraf_conf_tmpl) w1) as [out|] eqn:Hout.
  - destruct (reconcile_works key cfg (Ok telegraf_conf_tmpl) w1 out Hf Hout) as [Hconf _].
    rewrite Hconf. destruct (String.eqb_spec (Status d) "active"); by split.
  - exfalso. destruct (String.eqb _ _); [by destruct Hafter as (? & ? & ?)|].
    destruct (active_after r0 d _ ds Hds Hd Hst) as [before Hact].
    destruct (Hact _ eq_refl) as [_ Hold].
    destruct (desired_exists w before Hk Hw Hold) as [out Ho]. congruence.
Qed.
End consequences.

(** * The main functions are sequences of actions *)

Section mains.
Context `{DbEnv, SnmpEnv, RandEnv, HostEnv, TypeNames, HttpEnv, ClockEnv, CaseTables}.
Context (key : Key) (cfg : watcherConfig) (tmpl_file : result string).

Abbreviation state := (reachable key cfg tmpl_file).

(** What config-api serves with is [api_server], under the key of its environment. *)
Lemma start_builds env fresh w s w' :
  ConfigApiMain.start env fresh w = (Some s, w') ->
  exists k, NewKey (env "ENCRYPTION_KEY") = Ok k /\ s = api_server k.
Proof.
  unfold ConfigApiMain.start. intros Hrun.
  apply bind_inv in Hrun as ([u|e] & w1 & _ & Hrun); [|done].
  apply bind_inv in Hrun as ([u'|e] & w2 & _ & Hrun); [|done].
  destruct (NewKey _) as [k|]; [|done]. injection Hrun as <- _. by exists k.
Qed.

Lemma reach_for_each {A} (f : A -> action) (body : A -> IO unit) l w :
  (forall x, body x = perform key cfg tmpl_file (f x)) -> (forall x, possible key cfg (f x)) ->
  state w -> state (for_each l body w).2.
Proof.
  intros Hb Hp. revert w. induction l as [|x l IH]; intros w Hw; [done|]. cbn [for_each].
  rewrite bind_eq. apply IH. rewrite Hb. by apply reach_step.
Qed.

Lemma watcher_main_reachable env ticks w :
  NewKey (env "ENCRYPTION_KEY") = Ok key -> cfg = WatcherMain.config_of env ->
  state w -> state (WatcherMain.main env tmpl_file ticks w).2.
Proof.
  intros Hk Hc Hw. unfold WatcherMain.main. rewrite bind_eq.
  assert (Hopen : state (OpenConfigDB w).2).
  { replace (OpenConfigDB w).2 with (perform key cfg tmpl_file OpenConfig w).2; [by apply reach_step|].
    cbn [perform]. by rewrite bind_eq. }
  destruct (OpenConfigDB w).1; [|done]. rewrite Hk. cbv zeta. rewrite <- Hc, bind_eq.
  pose proof (reach_step key cfg tmpl_file _ GatewayDiscovery Hopen I) as Hg. rewrite bind_eq.
  pose proof (reach_step key cfg tmpl_file _ (WatcherTick WatcherMain.HealthCheckTick) Hg I) as Hh. rewrite bind_eq.
  pose proof (reach_step key cfg tmpl_file _ (WatcherTick WatcherMain.ReconcileTick) Hh I) as Hr.
  destruct (WatcherMain.tickers env); [|exact Hr]. rewrite bind_eq.
  by apply (reach_for_each WatcherTick).
Qed.

Lemma receiver_main_reachable packets listen w :
  state w -> state (TrapReceiverMain.main false packets listen w).2.
Proof.
  intros Hw. unfold TrapReceiverMain.main. rewrite bind_eq.
  assert (Hopen : state (OpenTrapsDB false w).2).
  { replace (OpenTrapsDB false w).2 with (perform key cfg tmpl_file OpenTraps w).2; [by apply reach_step|].
    cbn [perform]. by rewrite bind_eq. }
  destruct (OpenTrapsDB false w).1; [|done]. rewrite bind_eq.
  assert (Hend : forall w1, (match listen with Some _ => ret Exit1 | None => ret Served end w1).2 = w1)
    by (intros w1; by destruct listen). rewrite Hend.
  by apply (reach_for_each (fun '(p, source) => Trap_ p source)); [intros []..|].
Qed.
End mains.

(** * Witnesses *)

(** A database that works, devices that answer SNMP, and the sample environments of the other
    files. *)
#[local] Existing Instances quiet_db answering_snmp counting_rand broken_docker sample_types
  asking_http sample_clock ascii_tables.

Definition opened : world := (OpenTrapsDB true (OpenConfigDB empty_world).2).2.

Definition post : request :=
  {| rq_method := "POST"; rq_path := "/devices"; rq_limit := ""; rq_remote := "192.0.2.9:4000";
     rq_body := object_body [("ip_address", "10.0.0.7"); ("snmp_version", "v2c"); ("community", "c0")] |}.

Definition posted : list (string * string) * reply * world :=
  ConfigApiMain.handle (api_server sample_key) plain_keys secret_keys post opened.

Lemma opened_interleaved : interleaved sample_key sample_config (Ok telegraf_conf_tmpl) (Pool opened []).
Proof. by apply (inter_start _ _ _ empty_world (OpenConfigDB empty_world).2). Qed.

(** Requests that start at the same time and take their steps as a schedule says. *)
Definition at_once (schedule : list nat) (l : list action) : pool :=
  follow schedule (Pool opened (map (perform sample_key sample_config (Ok telegraf_conf_tmpl)) l)).

Lemma at_once_interleaved schedule l : Forall (possible sample_key sample_config) l ->
  interleaved sample_key sample_config (Ok telegraf_conf_tmpl) (at_once schedule l).
Proof.
  intros Hl. eapply interleaved_runs; [|apply follow_runs].
  eapply interleaved_runs; [exact opened_interleaved|]. apply (start_all _ _ _ []).
  apply Forall_map. eapply Forall_impl; [exact Hl|]. intros a Ha. by exists a.
Qed.

(** Two posts of the same address, statement by statement: the second finds the address taken. *)
Definition two_posts : list action :=
  [ApiRequest plain_keys secret_keys post; ApiRequest plain_keys secret_keys post].

Definition taking_turns : list nat := concat (replicate 12 [0; 1]%nat).

Lemma two_posts_possible : Forall (possible sample_key sample_config) two_posts.
Proof. by repeat constructor. Qed.

Lemma credentials_sealed_always_witness :
  let p := at_once taking_turns two_posts in
  forallb done_thread (p_threads p) = true /\ length (rows (w_devices (p_world p))) = 1%nat /\
  system_ok sample_key (p_world p).
Proof.
  cbv zeta. split; [vm_compute; reflexivity|]. split; [vm_compute; reflexivity|].
  refine (proj1 (credentials_sealed_always sample_key sample_config zero_key_hex (Ok telegraf_conf_tmpl) _ _ _)).
  - vm_compute. reflexivity.
  - apply at_once_interleaved, two_posts_possible.
Defined.

(** A device is posted and given a number for its name while a health check runs. *)
Definition patch_name : request :=
  {| rq_method := "PATCH"; rq_path := "/devices/1"; rq_limit := ""; rq_remote := "192.0.2.9:4000";
     rq_body := unquote "{`hostname`: 7, `community`: null}" |}.

Definition naming : list action :=
  [ApiRequest plain_keys secret_keys post; ApiRequest plain_keys secret_keys patch_name;
   WatcherTick WatcherMain.HealthCheckTick].

Lemma devices_stay_readable_witness :
  let p := at_once (repeat 0%nat 20 ++ concat (replicate 20 [1; 2]%nat)) naming in
  forallb done_thread (p_threads p) = true /\ length (rows (w_devices (p_world p))) = 1%nat /\
  Forall row_typed (rows (w_devices (p_world p))) /\
  status (DeviceApi.List (p_world p)).1 = 200.
Proof.
  cbv zeta. split; [vm_compute; reflexivity|]. split; [vm_compute; reflexivity|].
  destruct (devices_stay_readable sample_key sample_config (Ok telegraf_conf_tmpl) empty_world
    (OpenConfigDB empty_world).2 opened
    (at_once (repeat 0%nat 20 ++ concat (replicate 20 [1; 2]%nat)) naming)) as [Ht (ds & _ & Hl)].
  - by split_and!.
  - reflexivity.
  - reflexivity.
  - etransitivity; [|apply follow_runs]. apply (start_all _ _ _ []), Forall_map.
    repeat apply Forall_cons_2; try apply Forall_nil_2; (eexists; split; [|split; [|reflexivity]]);
      first [exact I|by split|intros _; vm_compute; reflexivity|discriminate].
  - split; [exact Ht|]. rewrite Hl; reflexivity.
Defined.

(** A device is posted, listed by a health check and deleted, before the check goes on and the
    address is posted again. *)
Definition delete_first : request :=
  {| rq_method := "DELETE"; rq_path := "/devices/1"; rq_limit := ""; rq_remote := "192.0.2.9:4000";
     rq_body := "" |}.

Definition reuse : list action :=
  [ApiRequest plain_keys secret_keys post; WatcherTick WatcherMain.HealthCheckTick;
   ApiRequest plain_keys secret_keys delete_first; ApiRequest plain_keys secret_keys post].

Definition deleted : pool := at_once (repeat 0%nat 20 ++ repeat 1%nat 2 ++ repeat 2%nat 20) reuse.
Definition reused : pool := follow (repeat 1%nat 20 ++ repeat 3%nat 20) deleted.

Lemma id_names_one_device_witness :
  map r_id (rows (w_devices (p_world reused))) = [2] /\
  (DeviceStore.Get 1 (p_world reused)).1 = Err ErrNotFound.
Proof.
  split; [vm_compute; reflexivity|].
  destruct (id_names_one_device sample_key sample_config (Ok telegraf_conf_tmpl) deleted reused) as [_ Hgone].
  - apply at_once_interleaved. by repeat constructor.
  - apply follow_runs.
  - refine (proj2 (Hgone 1 _ _) eq_refl).
    + vm_compute. discriminate.
    + assert (Hno : rows (w_devices (p_world deleted)) = []) by (vm_compute; reflexivity).
      rewrite Hno. apply not_elem_of_nil.
Defined.

Lemma posted_device_is_polled_witness :
  exists before after q, q_community q = "c0" /\
    w_conf (reconcileTelegrafConfig sample_key sample_config (Ok telegraf_conf_tmpl) posted.2).2 =
      Some (before +:+ device_section (shown (new_device "10.0.0.7") (request_creds q)) +:+ after).
Proof.
  destruct (posted_device_is_polled sample_key sample_config zero_key_hex plain_keys secret_keys post
    (Pool opened []) posted.2 posted.1.1
    (match posted.1.2 with Answer r => r | _ => writeJSON 0 JNull end))
    as (q & d & Hq & Hresp & Hip & Hconf).
  - vm_compute. reflexivity.
  - intros t. split_and!; reflexivity.
  - apply opened_interleaved.
  - reflexivity.
  - reflexivity.
  - reflexivity.
  - vm_compute. reflexivity.
  - vm_compute. reflexivity.
  - cbv zeta in Hconf. destruct Hconf as [Hconf _]. destruct Hconf as (before & after & Hconf).
    { vm_compute in Hq. injection Hq as <-. split; [discriminate|vm_compute; reflexivity]. }
    assert (Hq2 : q_community q = "c0" /\ q_ip q = "10.0.0.7").
    { vm_compute in Hq. injection Hq as <-. split; vm_compute; reflexivity. }
    destruct Hq2 as [Hcom Hqip]. exists before, after, q. split; [exact Hcom|].
    assert (Hs : shown d (request_creds q) = shown (new_device "10.0.0.7") (request_creds q)).
    { unfold shown. rewrite Hip, Hqip. reflexivity. }
    rewrite <- Hs. exact Hconf.
Defined.
