(* ===== verification/Provenance.v ===== *)
(** Where telegraf.conf comes from: whatever runs at the same time, the file holds what a
    reconcile made of the tables as they were, not a mixture of devices of different moments. *)

From S2P Require Import Prelude Float64 Encoding Json World Store StoreFacts StoreSpec Gcm Crypto.
From S2P Require Import Snmp TrapReceiver ConfigApi ConfigApiFacts ConfigSettings Watcher WatcherFacts.
From S2P Require Import Telegraf TelegrafFacts Mux Clock Text RateLimit ChatToolsFacts ChatHandlerFacts.
From S2P Require Import Services ServicesFacts Interleaving System SystemInvariant SystemFacts.
Open Scope Z_scope.

Section provenance.
Context `{DbEnv, SnmpEnv, RandEnv, HostEnv, TypeNames, HttpEnv, ClockEnv, CaseTables, !FullReads}.
Context (key : Key) (cfg : watcherConfig).

(** The polling interval of one moment and the active devices of one moment, all of them, with
    the credentials stored for them then. *)
Definition asked_for (seen : world -> Prop) (c : string) : Prop :=
  exists w1 w2 n ds creds, seen w1 /\ seen w2 /\ allowedPollingIntervals n = true /\
    w_settings w1 !! pollingIntervalKey = Some (Itoa n) /\
    Forall2 (fun r d => scanDevice r = Ok d)
      (List.filter (fun r => DeviceStore.text_is "active" (r_status r)) (rows (w_devices w2))) ds /\
    Forall2 (fun d creds => decryptCredentials d key = Ok creds) ds creds /\
    let shown_all := zip_with shown ds creds in
    c = agent_section (Build_telegrafTemplateData n (influxURL cfg) (influxToken cfg) (influxDatabase cfg)
          shown_all) +:+ concat_str (map device_section shown_all) +:+ nl.

Definition conf_from (seen : world -> Prop) : relation world := fun w w' =>
  w_conf w' = w_conf w \/ exists c, w_conf w' = Some c /\ asked_for seen c.

#[local] Instance conf_from_preorder seen : PreOrder (conf_from seen).
Proof.
  split; [by left|]. intros w1 w2 w3 H12 [H23|H23]; [|by right]. destruct H12 as [H12|(c & H12 & Hc)].
  - left. congruence.
  - right. exists c. split; [congruence|done].
Qed.

#[local] Instance conf_from_ticks seen : Ticks (conf_from seen).
Proof. by left. Qed.
#[local] Instance conf_from_allow seen P : AllowsEvents P (conf_from seen).
Proof. by left. Qed.

Lemma conf_from_permits seen : permits (fun _ => True) key (conf_from seen).
Proof.
  split; intros; left; try done.
  - unfold DeviceStore.insert_device. by repeat case_match.
  - unfold DeviceStore.update_device. cbv zeta. by case_match.
  - match goal with Hs : _ ∈ configSchema |- _ => by destruct (configSchema_settings _ w Hs) as [m ->] end.
  - unfold TrapStore.insert_trap. cbv zeta. by case_match.
  - unfold alter_add. cbv zeta. by case_match.
Qed.

(** ** What a reconcile reads and writes *)

Section reads.
Context (I : world -> Prop) (safe : forall w, I w -> system_ok key w).

Lemma Get_reads k : returns_in I (fun r => match r with
  | Ok v => exists w, I w /\ w_settings w !! k = Some v
  | Err _ => True end) (SettingsStore.Get k).
Proof.
  unfold SettingsStore.Get, stmt, atomically. cbn. intros w Hw. destruct (db_fault _); [done|]. cbn.
  destruct (w_settings w !! k) as [v|] eqn:Hv; [|done]. by exists w.
Qed.

Lemma ListByStatus_reads s : returns_in I (fun r => match r with
  | Ok ds => exists w, I w /\ Forall2 (fun r d => scanDevice r = Ok d)
      (List.filter (fun r => DeviceStore.text_is s (r_status r)) (rows (w_devices w))) ds
  | Err _ => True end) (DeviceStore.ListByStatus s).
Proof.
  unfold DeviceStore.ListByStatus. eapply returns_in_bind.
  - instantiate (1 := fun r => match r with
      | Ok rs => exists w, I w /\ rs = List.filter (fun r => DeviceStore.text_is s (r_status r)) (rows (w_devices w))
      | Err _ => True end).
    intros w Hw. cbn. destruct (db_fault _); [done|]. by exists w.
  - intros [rs|]; [|done]. intros (w & Hw & ->). cbn. unfold DeviceStore.scan_all.
    destruct (result_map scanDevice _) as [ds|] eqn:Hs; [|done]. cbn. apply result_map_Ok in Hs. by exists w.
Qed.

(** A write that cannot fail leaves what was asked for. *)
Lemma steps_write R `{!PreOrder R, !Ticks R, !AllowsEvents (fun _ => True) R} path container out :
  (forall t, write_fault t = None) -> (forall w, R w (set_conf (Some out) w)) ->
  io_steps R (try* changed := writeIfChanged path out catch e => ret tt in
    if negb changed then ret tt else let* _ := reloadTelegraf container in ret tt).
Proof.
  intros Hf HR. apply steps_bind.
  - unfold writeIfChanged, write_file. apply steps_bind; [by apply steps_next_tick|intros t].
    apply steps_bind; [by apply steps_atomically|intros existing].
    destruct (read_fault t); [by apply steps_ret|]. case_bool_decide; [by apply steps_ret|].
    apply steps_bind; [|intros []; by apply steps_ret].
    apply steps_bind; [by apply steps_next_tick|intros t'].
    apply steps_bind; [by apply (steps_emit (fun _ => True))|intros _].
    apply steps_atomically. intros w. rewrite Hf. apply HR.
  - intros [changed|]; [|by apply steps_ret]. destruct (negb changed); [by apply steps_ret|].
    apply steps_bind; [|intros; by apply steps_ret]. unfold reloadTelegraf.
    apply steps_bind; [by apply steps_next_tick|intros t].
    apply steps_bind; [by apply (steps_emit (fun _ => True))|intros _].
    destruct (docker_exec _ _) as [[]|]; by apply steps_ret.
Qed.

Lemma reconcile_from : (forall t, write_fault t = None) ->
  io_steps_in I (conf_from I) (reconcileTelegrafConfig key cfg (Ok telegraf_conf_tmpl)).
Proof.
  intros Hf. unfold reconcileTelegrafConfig.
  eapply steps_in_post; [apply Get_reads|apply steps_in_any, steps_settings_Get; apply _|].
  intros [v|]; [|done]. intros (w1 & Hw1 & Hv). change "polling_interval_seconds" with pollingIntervalKey in Hv.
  destruct (sy_settings _ _ (safe w1 Hw1)) as [(n & Hn & Hp) _]. rewrite Hp in Hv. injection Hv as <-.
  rewrite Atoi_Itoa by (by apply allowed_range).
  eapply steps_in_post; [apply ListByStatus_reads|apply steps_in_any, steps_ListByStatus; apply _|].
  intros [ds|]; [|done]. intros (w2 & Hw2 & Hds).
  destruct (renderTelegrafConfig _ _ _ _ _ _ _ _) as [out|] eqn:Hout; [|done].
  apply render_shipped in Hout as (creds & Hc & Hout).
  apply steps_in_any, (steps_write (conf_from I)); [done|]. intros w. right. exists out. split; [done|].
  by exists w1, w2, n, ds, creds.
Qed.
End reads.

(** C19.  telegraf.conf comes from the tables.  Start the services on blank volumes and let any
    requests and jobs interleave, statement by statement, through the worlds [ws].  Unless a
    write of the file fails, at any time the file is as it was found, or it is the rendering of
    an allowed polling interval that was stored at one of those moments and of the devices that
    were active at one of those moments, all of them, each with its own address and the
    credentials stored for it at that moment; never of devices of different moments, and never
    of anything that was not stored. *)
Theorem telegraf_conf_from_tables (w0 w1 w2 : world) (ws : list world) (p : pool) :
  (forall t, write_fault t = None) ->
  blank w0 -> OpenConfigDB w0 = (Ok tt, w1) -> OpenTrapsDB true w1 = (Ok tt, w2) ->
  pool_trace (begins key cfg (Ok telegraf_conf_tmpl)) (Pool w2 []) ws p ->
  w_conf (p_world p) = w_conf w2 \/
  exists c, w_conf (p_world p) = Some c /\ asked_for (fun w => w ∈ ws) c.
Proof.
  intros Hf Hb Ho Ht Hr.
  assert (Hsafe : forall w, w ∈ ws -> system_ok key w).
  { intros w Hw. destruct (pool_trace_reached _ _ _ _ _ Hr Hw) as (q & Hq & <-).
    eapply (interleaved_ok key cfg (Ok telegraf_conf_tmpl)), interleaved_runs; [|exact Hq].
    by eapply inter_start. }
  refine (pool_trace_steps _ (fun w => w ∈ ws) (conf_from (fun w => w ∈ ws)) _ _ ws p Hr _ _); [|done|constructor].
  intros m (a & Ha & ->). eapply (steps_perform key cfg _ _ (fun _ => True)); try apply _; try done.
  - apply conf_from_permits.
  - by apply reconcile_from.
  - by destruct a.
Qed.
End provenance.

(** * Witness *)

#[local] Existing Instances quiet_db answering_snmp counting_rand broken_docker sample_types
  asking_http sample_clock ascii_tables.

(** A device is posted and deleted while a reconcile runs: it has read the device, and writes the
    file after the device is gone. *)
Definition late_write : list action :=
  [ApiRequest plain_keys secret_keys post; WatcherTick WatcherMain.ReconcileTick;
   ApiRequest plain_keys secret_keys delete_first].

Definition late : pool :=
  at_once (repeat 0%nat 20 ++ repeat 1%nat 2 ++ repeat 2%nat 20 ++ repeat 1%nat 20) late_write.

Lemma telegraf_conf_from_tables_witness :
  forallb done_thread (p_threads late) = true /\ rows (w_devices (p_world late)) = [] /\
  exists (ws : list world) c, w_conf (p_world late) = Some c /\ asked_for sample_key sample_config (fun w => w ∈ ws) c.
Proof.
  split; [vm_compute; reflexivity|]. split; [vm_compute; reflexivity|].
  assert (Hr : pool_runs (begins sample_key sample_config (Ok telegraf_conf_tmpl)) (Pool opened []) late).
  { etransitivity; [|apply follow_runs]. apply (start_all _ _ _ []), Forall_map.
    repeat apply Forall_cons_2; try apply Forall_nil_2; (eexists; split; [|reflexivity]); by try split. }
  apply pool_runs_trace in Hr as [ws Hr]. exists ws.
  destruct (telegraf_conf_from_tables sample_key sample_config empty_world (OpenConfigDB empty_world).2 opened
    ws late (fun _ => eq_refl : @write_fault broken_docker _ = None) ltac:(by split_and!) eq_refl eq_refl Hr) as [Hno|(c & Hc & Hasked)].
  - vm_compute in Hno. discriminate Hno.
  - exists c. split; [exact Hc|exact Hasked].
Defined.
