(* ===== verification/Contract.v ===== *)
(** The conversation between chat-api and config-api: what chat-api reads from the JSON that
    config-api writes, and that no query chat-api sends to InfluxDB is about anything but a
    device config-api has stored. *)

From S2P Require Import Prelude Float64 Encoding Json JsonFacts World Store StoreFacts StoreSpec.
From S2P Require Import Gcm Crypto Netutil Snmp TrapReceiver ConfigApi ConfigApiFacts ConfigTraps.
From S2P Require Import Watcher WatcherFacts Telegraf TelegrafFacts Mux Clock Text ChatSql ChatSqlFacts ChatClients ChatTools ChatToolsFacts.
From S2P Require Import ChatToolDefs Gemini RateLimit ChatHandler ChatHandlerFacts.
From S2P Require Import Services ServicesFacts Interleaving System SystemInvariant SystemFacts.
Open Scope Z_scope.

(** * What config-api writes, as chat-api reads it *)

(** What chat-api keeps of a device; JSON replaces what is not UTF-8. *)
Definition seen (d : Device) : device :=
  {| dv_Hostname := norm_str (Hostname d); dv_IPAddress := norm_str (IPAddress d);
     dv_Status := norm_str (Status d); dv_GroupName := norm_str (GroupName d) |}.

Lemma toDeviceResponse_doc d : doc 1 (toDeviceResponse d) = true.
Proof.
  cbn. rewrite !List.forallb_app. unfold opt_member. cbn.
  rewrite (bool_decide_eq_true_2 _ (num_lit_Itoa (ID d))).
  by repeat (destruct (String.eqb _ _); cbn).
Qed.

Lemma norm_jint z : norm (jint z) = jint z.
Proof. done. Qed.

Lemma decode_toDeviceResponse d : decode_device (norm (toDeviceResponse d)) = Ok (seen d).
Proof.
  unfold toDeviceResponse, seen, jint, is_set, opt_member.
  destruct (String.eqb_spec (GroupName d) "") as [->|_];
    destruct (String.eqb (V3User d) ""), (String.eqb (V3AuthProtocol d) ""),
      (String.eqb (V3PrivProtocol d) ""), (String.eqb (DiscoveredVia d) "");
    cbn [app map norm]; repeat match goal with |- context [JStr (norm_str ?x)] => generalize (norm_str x); intros ? end;
    vm_compute; reflexivity.
Qed.

(** What chat-api keeps of a trap. *)
Definition seen_trap (t : Trap) : readableTrap :=
  {| rt_ID := TID t; rt_SourceIP := norm_str (SourceIP t); rt_OID := norm_str (OID t);
     rt_Name := norm_str (TrapName (OID t)); rt_ReceivedAt := norm_str (ReceivedAt t) |}.

Lemma readable_json_doc t dev : doc 1 (readable_json t dev) = true.
Proof. cbn. by rewrite (bool_decide_eq_true_2 _ (num_lit_Itoa (TID t))). Qed.

Lemma decode_readable_json t dev : min_int64 <= TID t <= max_int64 ->
  decode_trap (norm (readable_json t dev)) = Ok (seen_trap t).
Proof.
  intros Hid. unfold readable_json, seen_trap, decode_trap, jint. cbn [norm map decode_members result_bind].
  assert (Hint : decode_int 0 [JNum (Itoa (TID t))] = Ok (TID t)).
  { cbn. by rewrite parse_int_Itoa. }
  revert Hint. generalize (JNum (Itoa (TID t))). intros id Hint.
  repeat match goal with |- context [JStr (norm_str ?x)] => generalize (norm_str x); intros ? end.
  match goal with |- context [field_values trap_fields ?l "ID"] =>
    assert (field_values trap_fields l "ID" = [id]) as -> by (vm_compute; reflexivity) end.
  rewrite Hint. cbn [result_bind].
  repeat match goal with |- context [field_values trap_fields ?l ?f] =>
    let v := eval vm_compute in (field_values trap_fields l f) in
    assert (field_values trap_fields l f = v) as -> by (vm_compute; reflexivity) end.
  reflexivity.
Qed.

(** A slice that was printed by [json.Encoder] and is read by [json.Unmarshal]. *)
Lemma slice_read_back {A B} (write : A -> json) (elem : json -> result B) (see : A -> B) l :
  (forall x, x ∈ l -> doc 1 (write x) = true) ->
  (forall x, x ∈ l -> elem (norm (write x)) = Ok (see x)) ->
  (j <-? parse_all (print (JArr (map write l)) +:+ nl);; decode_nil_slice elem j) = Ok (Some (map see l)).
Proof.
  intros Hdoc Helem. rewrite parse_all_print_nl.
  2:{ cbn. apply forallb_forall. intros j (x & <- & Hx%list_elem_of_In)%in_map_iff. by apply Hdoc. }
  cbn [result_bind norm decode_nil_slice].
  assert (result_map elem (map norm (map write l)) = Ok (map see l)) as ->; [|done].
  clear Hdoc. induction l as [|x l IH]; [done|]. cbn [map result_map].
  rewrite Helem by (by left). cbn [result_bind]. rewrite IH; [done|]. intros y Hy. apply Helem. by right.
Qed.

(** * The line between the two services *)

(** What net/http writes for a reply of config-api; [error_text] is what the errors of the
    libraries print as, and a redirect is left to the client, which follows it. *)
Definition wire (error_text : error -> string) (rep : reply) : option (Z * string) :=
  match rep with
  | Answer r =>
      Some (status r,
        match resp_body r with
        | BJson j => print j +:+ nl
        | BError e => print (JObj [("error", JStr (error_text e))]) +:+ nl
        | BEmpty => ""
        end)
  | Mux.Plain code _ text => Some (code, text)
  | Redirect _ => None
  end.

Definition get_request (path limit remote : string) : request :=
  {| rq_method := "GET"; rq_path := path; rq_limit := limit; rq_remote := remote; rq_body := "" |}.

Section line.
Context `{DbEnv, SnmpEnv, RandEnv, HttpEnv, ClockEnv, CaseTables}.
Context (error_text : error -> string) (c : configAPIClient) (s : ConfigApiMain.server).

(** A GET from chat-api that is the [t]-th interaction reaches config-api, which answers it in
    the state [at_ t], or it fails on the way. *)
Definition connected (at_ : nat -> world) : Prop := forall t plain secret remote path limit query,
  (path = "/devices" /\ limit = "" /\ query = "") \/
  (path = "/traps/readable" /\ limit = "500" /\ query = "?limit=500") ->
  let url := baseURL c +:+ path +:+ query in
  let rep := (ConfigApiMain.handle s plain secret (get_request path limit remote) (at_ t)).1.2 in
  http_new "GET" url = None /\
  match http_do t {| http_method := "GET"; http_url := url; http_headers := []; http_body := "" |} with
  | Err _ => True
  | Ok (code, Err _) => True
  | Ok (code, Ok b) => wire error_text rep = Some (code, b)
  end.

Context (at_ : nat -> world) (Hc : connected at_).

Lemma handle_get_devices plain secret remote w :
  (ConfigApiMain.handle s plain secret (get_request "/devices" "" remote) w).1.2 =
    Answer (DeviceApi.List w).1.
Proof.
  unfold ConfigApiMain.handle, withCORS, serve_mux. cbn [get_request rq_method rq_path].
  change (String.eqb "GET" "OPTIONS") with false. cbv iota.
  change (find_route ConfigApiMain.routes "GET" "/devices") with (Found ConfigApiMain.ListDevices []).
  change (String.eqb (cleanPath "/devices") "/devices") with true. rewrite andb_false_r.
  unfold ConfigApiMain.dispatch. cbv beta iota zeta. by rewrite !bind_eq.
Qed.

Lemma handle_get_traps plain secret remote w :
  (ConfigApiMain.handle s plain secret (get_request "/traps/readable" "500" remote) w).1.2 =
    Answer (TrapsApi.ListReadable (ConfigApiMain.trapsHandler s) "500" w).1.
Proof.
  unfold ConfigApiMain.handle, withCORS, serve_mux. cbn [get_request rq_method rq_path].
  change (String.eqb "GET" "OPTIONS") with false. cbv iota.
  change (find_route ConfigApiMain.routes "GET" "/traps/readable") with
    (Found ConfigApiMain.ListReadableTraps []).
  change (String.eqb (cleanPath "/traps/readable") "/traps/readable") with true. rewrite andb_false_r.
  unfold ConfigApiMain.dispatch. cbv beta iota zeta. by rewrite !bind_eq.
Qed.

(** What a GET brings back, when it brings back anything. *)
Lemma http_get_returns path limit query :
  (path = "/devices" /\ limit = "" /\ query = "") \/
  (path = "/traps/readable" /\ limit = "500" /\ query = "?limit=500") ->
  returns (fun r => match r with
    | Ok (code, Ok b) => exists t, forall plain secret remote,
        wire error_text (ConfigApiMain.handle s plain secret (get_request path limit remote) (at_ t)).1.2 =
          Some (code, b)
    | _ => True end) (http_get (baseURL c +:+ path +:+ query)).
Proof.
  intros Hp. unfold http_get. destruct (Hc 0%nat [] [] "" path limit query Hp) as [-> _].
  unfold exchange. eapply (returns_bind (fun _ => True)); [apply returns_any|intros t _].
  eapply (returns_bind (fun _ => True)); [apply returns_any|intros _ _]. cbn [returns ret].
  destruct (http_do t _) as [[code [b|e]]|e] eqn:Hd; try done. exists t. intros plain secret remote.
  destruct (Hc t plain secret remote path limit query Hp) as [_ Hw]. by rewrite Hd in Hw.
Qed.

(** ** The devices *)

Lemma devices_reply w code b : wire error_text (Answer (DeviceApi.List w).1) = Some (code, b) -> code = 200 ->
  exists ds, DeviceStore.scan_all (rows (w_devices w)) = Ok ds /\
    b = print (JArr (map toDeviceResponse ds)) +:+ nl.
Proof.
  unfold DeviceApi.List. rewrite bind_eq. destruct (DeviceStore.List w) as [[ds|e] w1] eqn:Hl; cbn.
  - apply List_run in Hl as [_ Hs]. intros [= <- <-] _. by exists ds.
  - intros [= <- _]. done.
Qed.

Lemma list_devices_returns : returns (fun r => match r with
    | Ok l => exists t ds, DeviceStore.scan_all (rows (w_devices (at_ t))) = Ok ds /\ l = Some (map seen ds)
    | Err _ => True end) (listDevices c).
Proof.
  unfold listDevices, get_slice. rewrite <- (str_app_nil "/devices").
  eapply returns_bind; [apply (http_get_returns "/devices" "" ""); by left|].
  intros [[code [b|e]]|e] Hr; try done. destruct Hr as [t Hw]. specialize (Hw [] [] "").
  rewrite handle_get_devices in Hw. destruct (Z.eqb_spec code 200) as [->|_]; [|done].
  apply devices_reply in Hw as (ds & Hs & ->); [|done]. cbn [negb returns ret].
  rewrite (slice_read_back _ _ seen); [by exists t, ds|intros; apply toDeviceResponse_doc|
    intros; apply decode_toDeviceResponse].
Qed.

(** When nothing fails on the way, the whole list. *)
Lemma list_devices_run w code b ds :
  http_do (w_tick w) {| http_method := "GET"; http_url := baseURL c +:+ "/devices";
    http_headers := []; http_body := "" |} = Ok (code, Ok b) ->
  db_fault (w_tick (at_ (w_tick w))) = None ->
  DeviceStore.scan_all (rows (w_devices (at_ (w_tick w)))) = Ok ds ->
  (listDevices c w).1 = Ok (Some (map seen ds)).
Proof.
  intros Hd Hf Hs. unfold listDevices, get_slice, http_get, exchange.
  destruct (Hc (w_tick w) [] [] "" "/devices" "" "") as [Hn Hw]; [by left|]. rewrite str_app_nil in Hn, Hw.
  rewrite Hn, handle_get_devices, Hd in *. io_run. rewrite Hd.
  unfold DeviceApi.List, DeviceStore.List, DeviceStore.select_rows in Hw.
  rewrite !bind_eq, stmt_run, Hf in Hw. cbn in Hw. rewrite filter_all, Hs in Hw. injection Hw as <- <-.
  change ("[" +:+ _ +:+ "]") with (print (JArr (map toDeviceResponse ds))).
  change (negb (200 =? 200)) with false. cbn [run ret fst].
  rewrite (slice_read_back _ _ seen); [done|intros; apply toDeviceResponse_doc|
    intros; apply decode_toDeviceResponse].
Qed.

(** ** The traps *)

Lemma readable_all (h : TrapsHandler) traps w :
  exists named, (map_io (fun t =>
    let* dev := TrapsApi.resolveDevice h (AgentAddress t) (TCommunity t) in ret (readable_json t dev)) traps w).1 =
    map (fun '(t, dev) => readable_json t dev) named /\ map fst named = traps.
Proof.
  revert w. induction traps as [|t traps IH]; intros w; [by exists []|]. cbn [map_io].
  rewrite bind_eq, bind_eq. cbn [fst snd ret run]. rewrite bind_eq. cbn [fst snd ret run].
  match goal with |- context [(run (map_io _ traps) ?w1).1] => destruct (IH w1) as (named & -> & Hn) end.
  eexists ((t, _) :: named). cbn. by rewrite Hn.
Qed.

Lemma traps_reply (h : TrapsHandler) w code b :
  wire error_text (Answer (TrapsApi.ListReadable h "500" w).1) = Some (code, b) -> code = 200 ->
  exists named, map fst named = take 500 (StoreFacts.history w) /\
    b = print (JArr (map (fun '(t, dev) => readable_json t dev) named)) +:+ nl.
Proof.
  unfold TrapsApi.ListReadable. change (limitFromQuery "500") with 500. rewrite bind_eq.
  destruct (db_fault (w_tick w)) as [e|] eqn:Hf.
  - unfold TrapStore.List. rewrite bind_eq, stmt_run, Hf. cbn. by intros [= <- _].
  - rewrite traps_List_run by done. cbn [fst snd]. rewrite bind_eq. cbn [fst snd ret run].
    match goal with |- context [(run (map_io _ ?l) ?w1).1] =>
      destruct (readable_all h l w1) as (named & -> & Hn) end.
    cbn -[print Z.to_nat]. intros [= <- <-] _. by exists named.
Qed.

Lemma traps_returns : (forall t, Forall (fun x => min_int64 <= TID x <= max_int64) (StoreFacts.history (at_ t))) ->
  returns (fun r => match r with
    | Ok l => exists t, l = Some (map seen_trap (take 500 (StoreFacts.history (at_ t))))
    | Err _ => True end) (get_slice c decode_trap "/traps/readable?limit=500").
Proof.
  intros Hids. unfold get_slice. change "/traps/readable?limit=500" with ("/traps/readable" +:+ "?limit=500").
  eapply returns_bind; [apply (http_get_returns "/traps/readable" "500" "?limit=500"); by right|].
  intros [[code [b|e]]|e] Hr; try done. destruct Hr as [t Hw]. specialize (Hw [] [] "").
  rewrite handle_get_traps in Hw. destruct (Z.eqb_spec code 200) as [->|_]; [|done].
  apply traps_reply in Hw as (named & Hn & ->); [|done]. cbn [negb returns ret].
  rewrite (slice_read_back _ _ (fun '(t, _) => seen_trap t)).
  - exists t. cbn. rewrite <- Hn, map_map. f_equal. apply map_ext. by intros [].
  - intros [x dev] _. apply readable_json_doc.
  - intros [x dev] Hx. apply decode_readable_json. specialize (Hids t). rewrite Forall_forall in Hids.
    apply Hids. rewrite <- (take_drop 500 (StoreFacts.history (at_ t))), <- Hn. apply elem_of_app. left.
    apply list_elem_of_In, in_map_iff. exists (x, dev). split; [done|]. by apply list_elem_of_In.
Qed.

Lemma recent_traps_returns hours :
  (forall t, Forall (fun x => min_int64 <= TID x <= max_int64) (StoreFacts.history (at_ t))) ->
  returns (fun r => match r with
    | Ok l => exists t now, l = List.filter (recent_trap (now - F_trunc (Fmul hours (F_of_Z hour_ns))))
        (map seen_trap (take 500 (StoreFacts.history (at_ t))))
    | Err _ => True end) (getRecentTraps c hours).
Proof.
  intros Hids. unfold getRecentTraps. eapply returns_bind; [by apply traps_returns|].
  intros [l|e] Hl; [|done]. destruct Hl as [t ->].
  eapply (returns_bind (fun _ => True)); [apply returns_any|intros now _]. by exists t, (time_now now).
Qed.
End line.

(** * Which devices the queries are about *)

Section hosts.
Context `{HttpEnv, ClockEnv, CaseTables} (tc : toolContext) (hosts : string -> Prop).

(** A query whose text is fixed but for its string literals, the first of which, the address it
    is about, is one of [hosts]. *)
Definition about_host (sql : string) : Prop :=
  exists skel h lits, sql_lex Plain sql = Some (skel, h :: lits) /\ hosts h.

Definition host_event (e : event) : Prop :=
  is_get (baseURL (configAPI tc) +:+ "/devices") e \/
  is_get (baseURL (configAPI tc) +:+ "/traps/readable?limit=500") e \/
  exists sql, e = EvHttp (query_request (influx tc) sql) /\ about_host sql.

(** All the tools rely on: the addresses listed are hosts. *)
Definition lists_hosts : Prop := returns (fun r => match r with
  | Ok l => Forall (fun d => hosts (dv_IPAddress d)) (default [] l)
  | Err _ => True end) (listDevices (configAPI tc)).

Context (Hl : lists_hosts).
Context (R : relation world) `{!PreOrder R, !Ticks R, !AllowsEvents host_event R}.

Lemma confined_about q h s hours : confined q -> hosts h -> about_host (q h s hours).
Proof. intros (skel & filtered & Hq) Hh. specialize (Hq h s hours). by eexists _, h, _. Qed.

Lemma built_about table column mc aggregation input h s hours sql :
  lookupColumn table column = Ok mc -> hosts h ->
  buildMetricQuery table column mc h s aggregation hours input = Ok sql -> about_host sql.
Proof.
  intros Hmc Hh Hb. destruct (build_confined table column mc aggregation input Hmc) as [[e He]|(q & Hq & Heq)].
  - by rewrite He in Hb.
  - rewrite Heq in Hb. injection Hb as <-. by apply confined_about.
Qed.

Lemma steps_about sql : about_host sql -> io_steps R (influx_query (influx tc) sql).
Proof. intros Hq. apply (steps_influx_query host_event); [done..|]. right. right. by exists sql. Qed.

Lemma steps_about_filter table column mc h requested :
  lookupColumn table column = Ok mc -> hosts h -> io_steps R (resolveSubFilter tc table mc h requested).
Proof.
  intros Hmc Hh. unfold resolveSubFilter. destruct (String.eqb _ _); [by apply steps_ret|].
  destruct (String.eqb _ _); [destruct (negb _); by apply steps_ret|].
  apply steps_bind; [|intros []; by apply steps_ret]. apply steps_about.
  destruct (distinct_confined table column mc Hmc) as [skel Hs]. by eexists _, h, _.
Qed.

Lemma steps_about_list : io_steps R (listDevices (configAPI tc)).
Proof. apply (steps_listDevices host_event); [done..|]. intros e He. by left. Qed.

Lemma steps_about_rank table column mc hours d :
  lookupColumn table column = Ok mc -> hosts (dv_IPAddress d) ->
  io_steps R (rank_device tc table column mc hours d).
Proof.
  intros Hmc Hh. destruct (ranking_confined table column mc Hmc) as [Ha Hr]. unfold rank_device.
  apply steps_bind; [destruct (String.eqb _ _); [by apply steps_ret|by eapply steps_about_filter]|].
  intros [s|e]; [|by apply steps_ret]. cbv zeta. apply steps_bind.
  - apply steps_about. case_bool_decide.
    + by apply (confined_about (fun h s hours => rateQuery table column (metric_where mc h s hours))).
    + by apply (confined_about (fun h s hours => averageQuery table column (metric_where mc h s hours))).
  - intros [rows|e]; [|by apply steps_ret]. destruct (default [] rows); by apply steps_ret.
Qed.

Lemma steps_about_metric input : io_steps R (toolQueryMetric tc input).
Proof.
  unfold toolQueryMetric. cbv zeta. destruct (hours_arg input) as [hours|]; [|by apply steps_ret].
  destruct (lookupColumn _ _) as [mc|] eqn:Hmc; [|by apply steps_ret].
  eapply steps_bind_post; [exact Hl|apply steps_about_list|intros [devices|] Hdev; [|by apply steps_ret]].
  destruct (resolveDevice _ _) as [dev|] eqn:Hres; [|by apply steps_ret].
  assert (Hh : hosts (dv_IPAddress dev)).
  { rewrite Forall_forall in Hdev. by eapply Hdev, resolveDevice_elem. }
  apply steps_bind; [by eapply steps_about_filter|intros [s|]; [|by apply steps_ret]].
  destruct (buildMetricQuery _ _ _ _ _ _ _ _) as [sql|] eqn:Hb; [|by apply steps_ret].
  apply steps_bind; [|intros []; by apply steps_ret]. by eapply steps_about, built_about.
Qed.

Lemma steps_about_ranking input : io_steps R (toolRankDevices tc input).
Proof.
  unfold toolRankDevices. cbv zeta. destruct (hours_arg input) as [hours|]; [|by apply steps_ret].
  destruct (lookupColumn _ _) as [mc|] eqn:Hmc; [|by apply steps_ret].
  eapply steps_bind_post; [exact Hl|apply steps_about_list|intros [devices|] Hdev; [|by apply steps_ret]].
  apply steps_bind; [|intros; by apply steps_ret]. apply steps_map_io. intros d Hd.
  rewrite Forall_forall in Hdev. by eapply steps_about_rank, Hdev.
Qed.

Lemma steps_about_tool name input : io_steps R (executeTool tc name input).
Proof.
  unfold executeTool. repeat (destruct (String.eqb _ _)); try by apply steps_ret.
  - unfold toolListDevices. apply steps_bind; [apply steps_about_list|intros []; by apply steps_ret].
  - apply steps_about_metric.
  - apply steps_about_ranking.
  - unfold toolGetRecentTraps. destruct (hours_arg input); [|by apply steps_ret].
    apply steps_bind; [|intros []; by apply steps_ret].
    apply (steps_getRecentTraps host_event); [done..|]. intros e He. right. by left.
Qed.
End hosts.

(** * What they agree on *)

Section agreement.
Context `{DbEnv, SnmpEnv, RandEnv, HostEnv, TypeNames, HttpEnv, ClockEnv, CaseTables, !FullReads}.
Context (key : Key) (cfg : watcherConfig) (tmpl_file : result string) (error_text : error -> string).
Context (sv : ChatMain.server).

(** The states config-api answers in are states of the deployment. *)
Definition deployment_states (at_ : nat -> world) : Prop :=
  forall t, exists p, interleaved key cfg tmpl_file p /\ at_ t = p_world p.

Definition stored_address (at_ : nat -> world) (h : string) : Prop :=
  exists t r, r ∈ rows (w_devices (at_ t)) /\ h = norm_str (r_ip_address r).

(** What chat-api sends: questions to the model, two GETs, and queries about stored devices. *)
Definition chat_event (at_ : nat -> world) (e : event) : Prop :=
  (exists b, e = EvHttp (gemini_request (ChatMain.sv_gemini sv) b)) \/
  host_event (ChatMain.sv_tools sv) (stored_address at_) e.

Lemma trap_ids_fit w : system_ok key w -> Forall (fun x => min_int64 <= TID x <= max_int64) (StoreFacts.history w).
Proof.
  intros [_ _ _ [_ Hids Hseq _]]. unfold StoreFacts.history. apply Forall_map, Forall_rev.
  apply Forall_map in Hids. eapply Forall_impl; [exact Hids|]. intros r Hr. cbn in Hr |- *.
  unfold min_int64, max_int64 in *. lia.
Qed.

Lemma listed_are_stored at_ :
  connected error_text (configAPI (ChatMain.sv_tools sv)) (api_server key) at_ ->
  lists_hosts (ChatMain.sv_tools sv) (stored_address at_).
Proof.
  intros Hc. eapply returns_mono; [|by eapply list_devices_returns].
  intros [l|e]; [|done]. intros (t & ds & Hs & ->). cbn. apply Forall_map.
  apply scan_all_rows in Hs. apply Forall_forall. intros d [i Hi]%list_elem_of_lookup.
  destruct (Forall2_lookup_r _ _ _ _ _ Hs Hi) as (r & Hr & Hd). exists t, r.
  split; [by eapply list_elem_of_lookup_2|]. cbn. by rewrite (scanDevice_ip _ _ Hd).
Qed.

(** C17.  chat-api and config-api understand each other.  Whatever state of the deployment
    config-api answers in, the list of devices chat-api gets is the devices stored in that
    state, all of them and in order, with their names, addresses, statuses and groups; the
    recent traps it gets are the last 500 stored, newest first, with their names, less those
    that are too old; and while it answers a request, whatever the model asks for, whichever
    statements of the other services come between, all it sends are questions to the model,
    these two GETs, and queries to InfluxDB whose text is fixed but for its string literals,
    the first of which is the address of a device that config-api had stored. *)
Theorem chat_sees_the_deployment (at_ : nat -> world) :
  deployment_states at_ ->
  connected error_text (configAPI (ChatMain.sv_tools sv)) (api_server key) at_ ->
  let c := configAPI (ChatMain.sv_tools sv) in
  returns (fun r => match r with
    | Ok l => exists t ds, DeviceStore.scan_all (rows (w_devices (at_ t))) = Ok ds /\ l = Some (map seen ds)
    | Err _ => True end) (listDevices c) /\
  (forall hours, returns (fun r => match r with
    | Ok l => exists t now, l = List.filter (recent_trap (now - F_trunc (Fmul hours (F_of_Z hour_ns))))
        (map seen_trap (take 500 (StoreFacts.history (at_ t))))
    | Err _ => True end) (getRecentTraps c hours)) /\
  (forall order rl now r, io_steps (traces (chat_event at_)) (ChatMain.handle sv order rl now r)).
Proof.
  intros Hst Hc. cbv zeta. split_and!.
  - by eapply list_devices_returns.
  - intros hours. eapply recent_traps_returns; [exact Hc|]. intros t. destruct (Hst t) as (p & Hp & ->).
    by eapply trap_ids_fit, interleaved_ok.
  - intros order rl now r. unfold ChatMain.handle. apply steps_withCORS. intros _.
    apply steps_serve_mux. intros rt vals _. destruct rt; [by apply steps_ret|].
    apply steps_bind; [|intros [resp rl']; by apply steps_ret].
    apply (steps_handle _ (chat_event at_)); try apply _; [intros b; left; by exists b|].
    intros name input. eapply steps_about_tool; try apply _; [by apply listed_are_stored|].
    intros e w He. apply (traces_allow (chat_event at_)). by right.
Qed.
End agreement.

(** * Witness *)

(** The line to a config-api in a given state; InfluxDB and the model answer nothing. *)
Definition line_http (error_text : error -> string) (s : ConfigApiMain.server) (base : string) (w : world)
    : HttpEnv :=
  let answer rep := match wire error_text rep with
    | Some (code, b) => Ok (code, Ok b)
    | None => Err (ENew [FStr "redirect"]) end in
  {| http_new _ _ := None;
     http_do _ r :=
       if String.eqb (http_url r) (base +:+ "/devices") then answer (Answer (DeviceApi.List (H := quiet_db) w).1)
       else if String.eqb (http_url r) (base +:+ "/traps/readable?limit=500")
       then answer (Answer (TrapsApi.ListReadable (H := quiet_db) (ConfigApiMain.trapsHandler s) "500" w).1)
       else Err (ENew [FStr "connection refused"]) |}.

Section witness.
#[local] Existing Instances quiet_db answering_snmp counting_rand broken_docker sample_types
  sample_clock ascii_tables.
#[local] Instance sample_line : HttpEnv :=
  line_http (fun _ => "error") (api_server sample_key) (baseURL (configAPI sample_tools)) posted.2.

Definition sample_server : ChatMain.server :=
  {| ChatMain.sv_gemini := {| apiKey := "k"; model := "m" |}; ChatMain.sv_tools := sample_tools |}.

Lemma sample_states : deployment_states sample_key sample_config (Ok telegraf_conf_tmpl) (fun _ => posted.2).
Proof.
  intros t. destruct (reachable_interleaved sample_key sample_config (Ok telegraf_conf_tmpl)
    (perform sample_key sample_config (Ok telegraf_conf_tmpl) (ApiRequest plain_keys secret_keys post) opened).2)
    as [ts Hts].
  - apply reach_step; [by apply (reach_start _ _ _ empty_world (OpenConfigDB empty_world).2)|by split].
  - eexists. split; [exact Hts|]. cbn [perform p_world]. by rewrite bind_eq.
Qed.

Lemma sample_connected : connected (fun _ => "error") (configAPI sample_tools) (api_server sample_key)
  (fun _ => posted.2).
Proof.
  intros t plain secret remote path limit query [(-> & -> & ->)|(-> & -> & ->)]; cbv zeta; (split; [reflexivity|]).
  - rewrite handle_get_devices. cbn [http_do sample_line line_http http_url http_method]. rewrite str_app_nil, String.eqb_refl.
    by destruct (wire _ _) as [[code b]|].
  - rewrite handle_get_traps. cbn [http_do sample_line line_http http_url].
    change (String.eqb _ (baseURL (configAPI sample_tools) +:+ "/devices")) with false. cbv iota.
    change (String.eqb _ (baseURL (configAPI sample_tools) +:+ "/traps/readable?limit=500")) with true. cbv iota.
    by destruct (wire _ _) as [[code b]|].
Qed.

Lemma chat_sees_the_deployment_witness :
  exists ds, (listDevices (configAPI sample_tools) empty_world).1 = Ok (Some (map seen ds)) /\
    map dv_IPAddress (map seen ds) = ["10.0.0.7"].
Proof.
  pose proof (proj1 (chat_sees_the_deployment sample_key sample_config (Ok telegraf_conf_tmpl) (fun _ => "error")
    sample_server (fun _ => posted.2) sample_states sample_connected)) as Hl.
  apply (returns_run _ _ empty_world) in Hl. cbn [sample_server ChatMain.sv_tools] in Hl.
  assert (Hok : is_ok (listDevices (configAPI sample_tools) empty_world).1 = true) by (vm_compute; reflexivity).
  destruct (listDevices (configAPI sample_tools) empty_world).1 as [l|e]; [|discriminate Hok].
  destruct Hl as (t & ds & Hs & ->). exists ds. split; [reflexivity|].
  vm_compute in Hs. injection Hs as <-. vm_compute. reflexivity.
Defined.
End witness.
