(* ===== verification/Races.v ===== *)
(** What interleaving can do that running one after the other cannot: a health check decides by
    the devices it listed, whatever has become of them since. *)

From S2P Require Import Prelude Float64 Encoding Json World Store StoreFacts StoreSpec Gcm Crypto.
From S2P Require Import Snmp TrapReceiver ConfigApi ConfigApiFacts Watcher WatcherFacts Telegraf TelegrafFacts.
From S2P Require Import Mux Clock Text RateLimit ChatToolsFacts ChatHandlerFacts Services.
From S2P Require Import Interleaving System SystemInvariant SystemFacts.
Open Scope Z_scope.

(** * A check that comes late *)

Section late.
Context `{DbEnv, SnmpEnv, HostEnv} (key : Key).

(** What a check finds out in [w] about an address, with some credentials: it pings, then asks. *)
Definition heard (ip : string) (creds : Credentials) (w : world) : string :=
  match (Verify ip creds healthCheckTimeout (pingHost ip healthCheckTimeout w).2).1 with
  | Ok _ => "active"
  | Err _ => "failed"
  end.

(** [check_one] on a device as it was listed, in a world where its row may be another: the
    row gets the status the listed credentials deserve, unless that was the listed status. *)
Lemma check_one_run (d : Device) (creds : Credentials) (r : device_row) (w : world) :
  db_ok w -> (forall t, db_fault t = None) -> abs (w_devices w) !! ID d = Some r ->
  SNMPVersion d <> "" -> decryptCredentials d key = Ok creds ->
  let w' := (check_one key d w).2 in
  let st := heard (IPAddress d) creds w in
  if bool_decide (st = Status d) then w_devices w' = w_devices w
  else exists now, abs (w_devices w') =
    <[ID d := set_updated now (set_col c_status (VText st) r)]> (abs (w_devices w)).
Proof.
  intros Hok Hf Hr Hv Hc. cbn zeta. unfold check_one, heard.
  rewrite (proj2 (String.eqb_neq _ _) Hv), bind_eq, Hc, bind_eq.
  set (w1 := (pingHost _ _ w).2). set (w2 := (Verify _ _ _ w1).2).
  assert (Hd2 : w_devices w2 = w_devices w).
  { transitivity (w_devices w1).
    - by apply (steps_run (frames w_devices)), (steps_Verify (fun _ => True)); try apply _.
    - by apply (steps_run (frames w_devices)), (steps_pingHost (fun _ => True)); try apply _. }
  set (v := (Verify _ _ _ w1).1).
  assert (Hst : (if is_ok v then "active" else "failed") = match v with Ok _ => "active" | Err _ => "failed" end)
    by (by destruct v).
  cbv zeta. rewrite Hst. set (st := match v with Ok _ => _ | Err _ => _ end).
  case_bool_decide as He; [by rewrite (proj2 (String.eqb_eq _ _) He)|].
  rewrite (proj2 (String.eqb_neq _ _) He), bind_eq.
  assert (Hok2 : db_ok w2) by (unfold db_ok; by rewrite Hd2).
  destruct (update_status (ID d) st r w2) as (w3 & Hu & Habs);
    [done|apply Hf|by rewrite Hd2|by subst st; destruct v; cbn; auto|].
  rewrite Hu. eexists. rewrite <- Hd2. exact Habs.
Qed.

Lemma row_by_id t r : table_ok t -> r ∈ rows t -> abs t !! r_id r = Some r.
Proof.
  intros Hok Hr. apply elem_of_list_to_map.
  - rewrite <- list_fmap_compose. by apply sorted_NoDup, ok_sorted.
  - apply list_elem_of_fmap. by exists r.
Qed.

(** A device whose status is not active is not among the active ones. *)
Lemma not_active i r w ds w1 :
  db_ok w -> abs (w_devices w) !! i = Some r -> DeviceStore.text_is "active" (r_status r) = false ->
  DeviceStore.ListByStatus "active" w = (Ok ds, w1) -> i ∉ map ID ds.
Proof.
  intros Hok Hr Hst Hl. apply ListByStatus_run in Hl as [_ Hds%scan_all_rows].
  intros (d & <- & Hd%list_elem_of_In)%list_elem_of_In%in_map_iff.
  apply list_elem_of_lookup in Hd as [n Hd].
  destruct (Forall2_lookup_r _ _ _ _ _ Hds Hd) as (r' & Hr' & Hs).
  apply list_elem_of_lookup_2, list_elem_of_In, filter_In in Hr' as [Hin%list_elem_of_In Hact].
  pose proof (row_by_id _ _ Hok Hin) as Hfind.
  assert (Hc : check_row r' = true) by by eapply row_checked.
  destruct (scanDevice_keys _ _ Hs Hc) as [Hid _]. rewrite Hid, Hfind in Hr. congruence.
Qed.

Lemma check_one_ok d w : db_ok w -> db_ok (check_one key d w).2.
Proof.
  apply (steps_run (keeps db_ok)). apply (steps_check_one _ _ [d]); try typeclasses eauto.
  - intros e w0 _ Hw. exact Hw.
  - intros id b. apply db_ok_Update.
  - by left.
Qed.

(** C34.  A health check decides by what it listed.  Take a check that has listed a device
    [d] and comes to it in a state [w] in which its row is [r], whatever was done to it since,
    and reads as [d']; no statement fails and nothing else runs until the check is done with
    this device.  The check then asks the agent with the credentials it listed.  If what it
    hears is the status it listed, it writes nothing, whatever status is stored now; if not,
    it writes that status into [r] and nothing else.  So a device that a PATCH has given the
    right credentials in between, and that answers with them, is marked failed if it does not
    answer with the old ones, and is left out of the active devices; a check that had listed
    the row as it now is would have marked it active. *)
Theorem stale_health_check (d d' : Device) (creds creds' : Credentials) (r : device_row) (w : world) :
  db_ok w -> (forall t, db_fault t = None) ->
  abs (w_devices w) !! ID d = Some r -> scanDevice r = Ok d' ->
  SNMPVersion d <> "" -> decryptCredentials d key = Ok creds ->
  SNMPVersion d' <> "" -> decryptCredentials d' key = Ok creds' ->
  let stale := (check_one key d w).2 in
  let fresh := (check_one key d' w).2 in
  (if bool_decide (heard (IPAddress d) creds w = Status d) then w_devices stale = w_devices w
   else exists now, abs (w_devices stale) =
     <[ID d := set_updated now (set_col c_status (VText (heard (IPAddress d) creds w)) r)]>
       (abs (w_devices w))) /\
  (heard (IPAddress d) creds w = "failed" -> Status d = "active" ->
   heard (IPAddress d') creds' w = "active" ->
   (exists r1, abs (w_devices stale) !! ID d = Some r1 /\ r_status r1 = VText "failed") /\
   (forall ds w1, DeviceStore.ListByStatus "active" stale = (Ok ds, w1) -> ID d ∉ map ID ds) /\
   exists r2, abs (w_devices fresh) !! ID d = Some r2 /\ r_status r2 = VText "active").
Proof.
  intros Hok Hf Hr Hd' Hv Hc Hv' Hc'. cbn zeta.
  pose proof (check_one_run d creds r w Hok Hf Hr Hv Hc) as Hstale. cbn zeta in Hstale.
  split; [exact Hstale|]. intros Hh Hst Hh'.
  rewrite Hh, Hst, bool_decide_false in Hstale by discriminate. destruct Hstale as [now Habs].
  destruct (scanDevice_keys r d' Hd') as [Hid Hst']; [by eapply row_checked|].
  assert (Hid' : ID d' = ID d).
  { rewrite Hid. rewrite lookup_abs in Hr. apply find_some in Hr as [_ Hr]. by apply Z.eqb_eq. }
  split_and!.
  - eexists. rewrite Habs, lookup_insert_eq. by split.
  - intros ds w1. eapply not_active; [by apply check_one_ok|rewrite Habs; apply lookup_insert_eq|done].
  - pose proof (check_one_run d' creds' r w Hok Hf) as Hfresh. cbn zeta in Hfresh. rewrite Hid' in Hfresh.
    specialize (Hfresh Hr Hv' Hc'). rewrite Hh' in Hfresh. case_bool_decide as He.
    + exists r. rewrite Hfresh, Hst', <- He. by split.
    + destruct Hfresh as [now' Habs']. eexists. rewrite Habs', lookup_insert_eq. by split.
Qed.
End late.

(** * A race *)

#[local] Existing Instances quiet_db counting_rand broken_docker sample_types asking_http sample_clock
  ascii_tables.

(** A device that is reconfigured at tick 14: until then it answers the community c0, from then
    on only c1. *)
#[local] Instance reconfigured_snmp : SnmpEnv :=
  {| snmp_connect _ _ := None;
     snmp_get t c _ :=
       if String.eqb (g_Community c) (if (t <? 14)%nat then "c0" else "c1") then None
       else Some (ENew [FStr "request timeout"]);
     snmp_walk _ _ _ := ([], None) |}.

Definition patch : request :=
  {| rq_method := "PATCH"; rq_path := "/devices/1"; rq_limit := ""; rq_remote := "192.0.2.9:4001";
     rq_body := object_body [("community", "c1")] |}.

(** The device is registered; then a health check runs while it is given its new community. *)
Definition race : list action :=
  [ApiRequest plain_keys secret_keys post; WatcherTick WatcherMain.HealthCheckTick;
   ApiRequest plain_keys secret_keys patch].

Definition registered : pool := follow (repeat 0%nat 20)
  (Pool opened (map (perform sample_key sample_config (Ok telegraf_conf_tmpl)) race)).

(** The check lists the devices; the PATCH runs; the check goes on. *)
Definition patched_meanwhile : pool := follow (repeat 1%nat 1 ++ repeat 2%nat 20) registered.
Definition raced : pool := follow (repeat 1%nat 20) patched_meanwhile.

(** One of the two first, as a whole. *)
Definition check_first : pool := follow (repeat 1%nat 20 ++ repeat 2%nat 20) registered.
Definition patch_first : pool := follow (repeat 2%nat 20 ++ repeat 1%nat 20) registered.

Definition statuses (w : world) : list sqlval := map r_status (rows (w_devices w)).

(** The device as the check listed it, and as the PATCH has left it. *)
Definition the_device (p : pool) : Device :=
  match DeviceStore.scan_all (rows (w_devices (p_world p))) with
  | Ok (d :: _) => d
  | _ => new_device ""
  end.

Definition the_creds (p : pool) : Credentials :=
  match decryptCredentials (the_device p) sample_key with
  | Ok c => c
  | Err _ => Build_Credentials "" "" "" "" "" "" ""
  end.

Definition the_row (p : pool) : device_row :=
  match rows (w_devices (p_world p)) with
  | r :: _ => r
  | [] => DeviceStore.row_of (new_device "") 0 ""
  end.

Lemma meanwhile_interleaved :
  interleaved sample_key sample_config (Ok telegraf_conf_tmpl) patched_meanwhile.
Proof.
  unfold patched_meanwhile, registered. do 2 (eapply interleaved_runs; [|apply follow_runs]).
  eapply interleaved_runs; [by apply (inter_start _ _ _ empty_world (OpenConfigDB empty_world).2)|].
  apply (start_all _ _ _ []), Forall_map. repeat apply Forall_cons_2; try apply Forall_nil_2;
    (eexists; split; [|reflexivity]; first [exact I|split; reflexivity]).
Qed.

(** It happens: in a state of the deployment with nothing under way any more, the device has
    been left failed by a check that came late, though it answers with the credentials stored
    for it.  Run whole, one before the other in either order, the check and the PATCH leave it
    active; so does the next check. *)
Lemma stale_health_check_witness :
  interleaved sample_key sample_config (Ok telegraf_conf_tmpl) raced /\
  forallb done_thread (p_threads raced) = true /\
  statuses (p_world patched_meanwhile) = [VText "active"] /\ statuses (p_world raced) = [VText "failed"] /\
  (forall ds w1, DeviceStore.ListByStatus "active" (p_world raced) = (Ok ds, w1) ->
     ID (the_device registered) ∉ map ID ds) /\
  statuses (p_world check_first) = [VText "active"] /\ statuses (p_world patch_first) = [VText "active"] /\
  statuses (checkDeviceHealth sample_key (p_world raced)).2 = [VText "active"].
Proof.
  split; [exact (interleaved_runs _ _ _ _ _ meanwhile_interleaved (follow_runs _ _ _))|].
  split; [vm_compute; reflexivity|]. split; [vm_compute; reflexivity|]. split; [vm_compute; reflexivity|].
  split; [|split_and!; vm_compute; reflexivity].
  assert (Hraced : p_world raced = (check_one sample_key (the_device registered) (p_world patched_meanwhile)).2)
    by (vm_compute; reflexivity).
  rewrite Hraced.
  destruct (stale_health_check sample_key (the_device registered) (the_device patched_meanwhile)
    (the_creds registered) (the_creds patched_meanwhile) (the_row patched_meanwhile)
    (p_world patched_meanwhile)) as [_ Hlate].
  - exact (sy_devices _ _ (interleaved_ok _ _ _ _ meanwhile_interleaved)).
  - exact (fun _ => eq_refl).
  - rewrite lookup_abs. vm_compute. reflexivity.
  - vm_compute. reflexivity.
  - vm_compute. discriminate.
  - vm_compute. reflexivity.
  - vm_compute. discriminate.
  - vm_compute. reflexivity.
  - destruct Hlate as (_ & Hout & _); [vm_compute; reflexivity..|]. exact Hout.
Defined.
